(* ===== verification/_CoqProject ===== *)
-Q . S2P
Prelude.v
RustStd.v
Time.v
Cli.v
AttachProcess.v
Tools.v
Apps.v
AttachApp.v
VarInt.v
Framing.v
Connector.v
LogFile.v
LogSql.v
Base64.v
Packet.v
Console.v
ConsoleApp.v
RpcTools.v
Bus.v
Json.v
Endpoint.v
Gateway.v
GatewayCalls.v
Server.v
ServerClients.v
Client.v
TcpLink.v
TcpProgress.v
Streamer.v
Servers.v
Service.v
Device.v
Ping.v
Collision.v
VirtualBus.v
Ihex.v
IhexApp.v
Upload.v
UploadApp.v
Ftp.v
FtpBus.v
