(* ===== verification/Prelude.v ===== *)
(** * UARTBus, PC side: verification of the Rust [ub] tool

    The Rust program under [src/source/rust/uartbus/src] connects a PC to a
    UARTBus, a serial bus of small devices.  A gateway on a serial line passes
    packets on and off the bus ([connector.rs], framing in [framing.rs]); an RPC
    server gives each client a session with a packet queue ([rpc/endpoint.rs]);
    a client sees the bus as requests that wait for their answers and listeners
    for everything else ([rpc/bus.rs]), calls functions of devices
    ([rpc/device.rs]) or serves functions itself ([rpc/service.rs]); the
    commands ([apps/]) are built on these, the largest one uploads code into the
    flash of a device ([apps/upload.rs]).

    ** How the files follow the code

    - [Prelude]: results, state passing, machine integers, tactics, lemmas on
      lists and bytes.  [RustStd]: the parts of the standard library that are
      used (strings as lists of chars, UTF-8, [trim], [split], [parse],
      [to_string], [format!]).  [Time] ([time.rs], [log.rs]): calendar and log
      lines.
    - [Cli] ([cli.rs]): option parser.  [Apps] ([main.rs], [apps/mod.rs]): the
      table of commands and what they share.
    - [Tools] and [VarInt] ([tools.rs]): crc8, colon notation, packed integers.
      [Framing] ([framing.rs]).  [Base64] ([base64.rs]).
    - [Packet] ([packet.rs]): assembler, reader, parsed packets.
    - [Connector] ([connector.rs]): the stream to the gateway, the threads that
      send and receive on it, and its reopening.
    - [RpcTools] ([rpc/types.rs], [rpc/tools.rs]): typed values on the wire.
    - [Bus] ([rpc/bus.rs]), [Service] ([rpc/service.rs]), [Device]
      ([rpc/device.rs]).
    - [Endpoint] ([rpc/endpoint.rs]): its operations as single steps, with the
      connector a parameter.  [Gateway] and [GatewayCalls]: the same operations
      as they run, step by step between their accesses to shared state, on the
      threads of [Connector].
    - [Json] and [Server] ([rpc/server.rs]): the requests of one client.
      [ServerClients]: the accept loop and all clients on one endpoint.
      [Client] ([rpc/client.rs], [rpc/connection.rs]): the calls and their
      responses, and the two ends of a connection together; the trait
      [UartbusConnection] is a class with the session in this process and the
      client over TCP as instances.  [TcpLink]: threads that call at the same
      time, both ends step by step; [TcpProgress]: how many turns of the server
      and of the reader it takes until a call returns.
    - [Streamer] ([rpc/streamer.rs]): the kept connection and the thread that
      polls it.
    - [VirtualBus] ([rpc/virtual_bus.rs] and the constructors of [rpc/bus.rs]):
      participants of a bus in this process, composed of [Bus], [Streamer],
      [Endpoint] and [Service].
    - [Ihex] ([ihex.rs]) and [IhexApp] ([apps/ihex.rs]): Intel HEX files, code
      segments, interrupt vectors.  [Upload] and [UploadApp]
      ([apps/upload.rs]): pushing code into a device, the commands around it.
    - [Ftp] ([rpc/ftp.rs]): the file access service.  [FtpBus]: the service
      behind the bridge of [Service], called over the bus with [Device].
    - Commands: [AttachProcess] and [AttachApp] ([apps/attach_process.rs]),
      [Console] ([console.rs]) and [ConsoleApp] ([apps/console.rs]), [LogFile]
      and [LogSql] (packet logs), [Ping] ([apps/ping.rs], [apps/blink.rs],
      [apps/packetloss.rs]), [Collision] ([apps/collision_packetloss.rs]),
      [Servers] ([apps/rpc_server.rs], [apps/service.rs]).

    Definitions keep the names of the functions; a method that is named [new] in
    several types has the type in front ([line_new], [device_new]).  A loop body
    or a closure that is a definition of its own is named after its function.

    ** Conventions

    - A function that returns [Result] and may panic has the type [res E A]
      ([Ok], [Err], [Panic]); an index out of range, an [unwrap] of [None] and,
      where a sum can leave its type, an overflow are [Panic].  "Never panics"
      is therefore a theorem.
    - A method with [&mut self] is a function [SM S E A] that returns the new
      state also when it fails.
    - Integers are [Z]; [as_u], [as_i] truncate, [try_u], [try_i] check.
      [BigInt] is [Z]; [to_bytes_be] of num-bigint is the operation of the class
      [NumBigint] with its documented behaviour as laws.
    - An [Arc] that is shared and mutated is an index into a store ([Bus],
      [Endpoint], [Streamer]); each operation under a lock is one step, and a run
      is a sequence of steps of any clients and threads.  Code that is not atomic
      in the source is several steps ([new_session] of [Endpoint], the methods of
      the endpoint and its hook in [Gateway], [send_packet] and the receiving
      thread of [Connector], the polling thread of [Streamer], a call of [Client]
      and the loops of both ends in [TcpLink]).
    - Callbacks, log lines and printed lines are outputs of the operation that
      causes them.
    - What the program does not control is a parameter: the sender of the bus,
      what other clients and devices do while a request waits ([Device]), the
      connector ([Endpoint]), the results of the operating system for streams,
      processes and sockets ([Connector], [Servers]), the results of sends and
      the clock of the command loops.  Where something is relied on, it is a
      class with laws and an instance: the device that is flashed ([FlashOps],
      [FlashDevice] for what the bootloader promises when anything can be lost,
      [ReliableFlash] and [ReliableRestart] for a device that answers, [RestartDevice];
      [Upload.sim] is an instance), the operating system's files ([FileSystem],
      [HostFiles] for what is promised of names and sizes; [Ftp.mem] is one),
      JSON text ([SerdeJson]), the calendar of the C library ([Libc],
      [FixedZone] for a zone without clock changes; [Time.utc] is one).

    ** What the theorems show

    - Encodings: every integer, packet, RPC value, framed stream, base64 text,
      colon text, HEX file, log record, option list and command line is read
      back as it was written; packed integers are minimal; the unrolled crc8 is
      the bitwise one and detects every change of one byte.
    - Input from outside: parsing any bytes or text never panics; readers keep
      their cursor inside the data and do not move it when they fail; reading a
      value terminates with a value of the type that was asked for.
    - Gateway: whatever streams break and are reopened, a packet is written
      exactly once if and only if its send succeeded, and the packets framed on
      a stream are received in order; the server opens it with the first process
      that runs.  With the endpoint on it, each open session is given exactly the
      packets framed on the stream, a send that succeeded reaches every session
      that asked for it once, closing ends the sends, and methods that are not
      interrupted do what the single steps of [Endpoint] do.
    - Bus and sessions: a received packet answers exactly the oldest request
      that accepts it or goes to the listeners; the queue of a session loses,
      repeats and reorders nothing.
    - Server and client: every request has one response under its trace id;
      each response goes to the call that waits for it; however many clients
      connect, each gets its own stream of packets; for every program of calls
      the connection over TCP refines the session in this process, and the calls
      of several threads are linearizable: each takes effect at most once, between
      its begin and its return, with the result of the session.  A call that was
      written returns after as many turns of the server and of the reader as lines
      wait in front of it.
    - Calls: a call sends at most the allowed number of requests, leaves nothing
      pending, and returns the value of the service at the other end; on a bus in
      this process all participants see the packets in one order, and a call is
      answered under every schedule of the threads.
    - Upload: whatever is lost or repeated, a successful upload has put exactly
      the code of the file into the flash; with a device that answers it ends.
    - File service: whatever packets arrive, none leads out of the served
      directory or panics, and file numbers survive calls and restarts; a function
      called over the bus does what it does at the server, with the same outcome;
      what is written over the bus is read back over it.
    - Commands: console sessions, attached processes, logs and their rotation,
      SQL statements, statistics, options, redirected interrupt vectors.
    - Where the code does not do what it means to, a theorem shows the case: an
      upload that repeats for ever, padding of three segments, a session opened
      while the endpoint closes, an escape that survives [clear], items without
      size, negative [VUnsigned], a gateway that nobody reads any more, a
      streaming thread that misses its closing, a rotation that overflows.

    ** Bounds

    The [while] and [loop] statements run under a fuel; the result [None] means
    that it was used up, except where the bound is part of the definition.
    [read_type] needs one more than the unread bytes, the bridge one more than
    the bytes of the payload, pushing and verifying code two more than the bytes
    of the code; [data_lines] and [vectors_loop] take the length of the data,
    because each round takes at least one byte; [discover] needs one more than
    the depth of the served directories; [wait_reconnect] one more than the
    failing tries, [ping_run] one more than the count, [sleep_interruptible] one
    more than the slices of 50 milliseconds.  Theorems that promise a result
    name the fuel that is enough.

    ** Not modelled

    The operating system itself: threads, sockets, processes, files, signals,
    the clock and printing appear only as parameters and outputs, the scheduler
    as the order of the steps.  A write that fails is taken to leave nothing
    that the other end reads.  Getters, conversions between error types, type
    aliases and module declarations have no definition of their own.  The unit
    tests of the sources are not part of the model. *)

From stdpp Require Import base list numbers option.
From Stdlib Require Import ZArith Lia ZifyNat.

#[global] Open Scope Z_scope.

(** ** Results of Rust computations

    [res E A] is the outcome of a Rust function of type [Result<A, E>] that may
    also panic (an index out of range, an [unwrap] of [None]).  Functions whose
    Rust type has no error use [res never A]. *)

Inductive res (E A : Type) : Type :=
| Ok (a : A)
| Err (e : E)
| Panic.
Arguments Ok {E A} a.
Arguments Err {E A} e.
Arguments Panic {E A}.

Definition never : Type := Empty_set.

#[global] Instance res_ret {E} : MRet (res E) := fun A a => Ok a.

#[global] Instance res_bind {E} : MBind (res E) := fun A B f m =>
  match m with
  | Ok a => f a
  | Err e => Err e
  | Panic => Panic
  end.

(** [Result::map_err] *)
Definition map_err {E F A} (f : E -> F) (m : res E A) : res F A :=
  match m with
  | Ok a => Ok a
  | Err e => Err (f e)
  | Panic => Panic
  end.

(** [Option::ok_or] *)
Definition ok_or {E A} (o : option A) (e : E) : res E A :=
  match o with Some a => Ok a | None => Err e end.

(** [Option::unwrap], and the bounds check of an index expression *)
Definition unwrap {E A} (o : option A) : res E A :=
  match o with Some a => Ok a | None => Panic end.

(** [l[i]] and [l[i] = v]: panic when [i] is out of range *)
Definition idx {E A} (l : list A) (i : nat) : res E A := unwrap (l !! i).
Definition set_idx {E A} (l : list A) (i : nat) (v : A) : res E (list A) :=
  if (i <? length l)%nat then Ok (<[i := v]> l) else Panic.

(** [l[from..to]]: panics unless [from <= to <= len] *)
Definition slice {E A} (l : list A) (from to : nat) : res E (list A) :=
  if (from <=? to)%nat && (to <=? length l)%nat then Ok (take (to - from) (drop from l)) else Panic.

Definition is_ok {E A} (m : res E A) : bool :=
  match m with Ok _ => true | _ => false end.

Definition no_panic {E A} (m : res E A) : Prop := m <> Panic.

(** [for x in l { body }] over an accumulated state, with [?] and panics *)
Fixpoint foldM {E S X : Type} (f : S -> X -> res E S) (s : S) (l : list X) : res E S :=
  match l with
  | [] => Ok s
  | x :: t => match f s x with
              | Ok s' => foldM f s' t
              | Err e => Err e
              | Panic => Panic
              end
  end.

(** ** Computations with a mutable receiver ([&mut self])

    The state survives errors, as in Rust. *)

Definition SM (S E A : Type) : Type := S -> res E A * S.

#[global] Instance SM_ret {S E} : MRet (SM S E) := fun A a s => (Ok a, s).

#[global] Instance SM_bind {S E} : MBind (SM S E) := fun A B f m s =>
  match m s with
  | (Ok a, s') => f a s'
  | (Err e, s') => (Err e, s')
  | (Panic, s') => (Panic, s')
  end.

Definition sm_lift {S E A} (m : res E A) : SM S E A := fun s => (m, s).

(** ** Machine integers *)

Definition u8_max : Z := 255.
Definition is_u8 (b : Z) : Prop := 0 <= b < 256.
Definition bytes (l : list Z) : Prop := Forall is_u8 l.

#[global] Instance is_u8_dec b : Decision (is_u8 b).
Proof. unfold is_u8. apply _. Defined.
#[global] Instance bytes_dec l : Decision (bytes l).
Proof. unfold bytes. apply _. Defined.

(** [v as u<w>] and [v as i<w>]: truncation to [w] bits *)
Definition as_u (w : Z) (v : Z) : Z := v mod 2 ^ w.
Definition as_i (w : Z) (v : Z) : Z := (v + 2 ^ (w - 1)) mod 2 ^ w - 2 ^ (w - 1).

Definition in_u (w : Z) (v : Z) : Prop := 0 <= v < 2 ^ w.
Definition in_i (w : Z) (v : Z) : Prop := - 2 ^ (w - 1) <= v < 2 ^ (w - 1).

(** conversion that fails when the value does not fit ([try_into], [to_u64]) *)
Definition try_u (w : Z) (v : Z) : option Z :=
  if (0 <=? v) && (v <? 2 ^ w) then Some v else None.
Definition try_i (w : Z) (v : Z) : option Z :=
  if (- 2 ^ (w - 1) <=? v) && (v <? 2 ^ (w - 1)) then Some v else None.

(** [<uN>::to_be_bytes] and [from_be_bytes] for [n] bytes *)
Fixpoint to_be_bytes (n : nat) (v : Z) : list Z :=
  match n with
  | O => []
  | S m => (v / 256 ^ Z.of_nat m) mod 256 :: to_be_bytes m v
  end.

Definition be_value (l : list Z) : Z := fold_left (fun acc b => acc * 256 + b) l 0.

(** ** Tactics *)

(** Case analysis on every [if]/[match] of a boolean comparison in the goal. *)
Ltac bool_cases :=
  repeat match goal with
  | |- context [if ?b then _ else _] =>
      match type of b with bool => destruct b eqn:? end
  end.

(** Turns boolean comparisons of the context into arithmetic. *)
Ltac breflect :=
  repeat match goal with
  | H : (_ && _)%bool = true |- _ => apply andb_prop in H; destruct H
  | H : (_ && _)%bool = false |- _ => apply andb_false_iff in H
  | H : (_ || _)%bool = true |- _ => apply orb_true_iff in H
  | H : (_ || _)%bool = false |- _ => apply orb_false_iff in H; destruct H
  | H : negb _ = true |- _ => apply negb_true_iff in H
  | H : negb _ = false |- _ => apply negb_false_iff in H
  | H : (_ <? _) = true |- _ => apply Z.ltb_lt in H
  | H : (_ <? _) = false |- _ => apply Z.ltb_ge in H
  | H : (_ <=? _) = true |- _ => apply Z.leb_le in H
  | H : (_ <=? _) = false |- _ => apply Z.leb_gt in H
  | H : (_ =? _) = true |- _ => apply Z.eqb_eq in H
  | H : (_ =? _) = false |- _ => apply Z.eqb_neq in H
  | H : (_ <? _)%nat = true |- _ => apply Nat.ltb_lt in H
  | H : (_ <? _)%nat = false |- _ => apply Nat.ltb_ge in H
  | H : (_ <=? _)%nat = true |- _ => apply Nat.leb_le in H
  | H : (_ <=? _)%nat = false |- _ => apply Nat.leb_gt in H
  | H : (_ =? _)%nat = true |- _ => apply Nat.eqb_eq in H
  | H : (_ =? _)%nat = false |- _ => apply Nat.eqb_neq in H
  end.

(** [lia] that knows division and remainder by constants. *)
Ltac zdiv_lia := zify; Z.to_euclidean_division_equations; lia.

Create HintDb ub.
Create HintDb ub_len.

(** ** Generic lemmas: results *)

Lemma foldM_app {E S X} (f : S -> X -> res E S) s l1 l2 :
  foldM f s (l1 ++ l2) = foldM f s l1 ≫= (fun s' => foldM f s' l2).
Proof.
  revert s; induction l1 as [|x t IH]; intros s; simpl; [done|].
  by destruct (f s x); simpl.
Qed.

(** Loop rule: an invariant indexed by the elements already visited. *)
Lemma foldM_inv {E S X} (f : S -> X -> res E S) (P : list X -> S -> Prop) l s :
  P [] s ->
  (forall pre x rest st, l = pre ++ x :: rest -> P pre st ->
     exists st', f st x = Ok st' /\ P (pre ++ [x]) st') ->
  exists st', foldM f s l = Ok st' /\ P l st'.
Proof.
  intros H0 Hstep.
  enough (forall post pre st, l = pre ++ post -> P pre st ->
    exists st', foldM f st post = Ok st' /\ P l st') as H by (by eapply (H l [])).
  induction post as [|x t IH]; intros pre st Hl HP; simpl.
  - exists st. by rewrite Hl, app_nil_r.
  - destruct (Hstep pre x t st Hl HP) as (s1 & -> & H1).
    apply (IH (pre ++ [x])); [|done]. by rewrite <- app_assoc.
Qed.

(** ** Generic lemmas: bytes *)

Lemma bytes_nil : bytes [].
Proof. constructor. Qed.

Lemma bytes_cons b l : bytes (b :: l) <-> is_u8 b /\ bytes l.
Proof. apply Forall_cons_iff. Qed.

Lemma bytes_one b : is_u8 b -> bytes [b].
Proof. intros. by apply Forall_singleton. Qed.

Lemma bytes_app l1 l2 : bytes (l1 ++ l2) <-> bytes l1 /\ bytes l2.
Proof. apply Forall_app. Qed.

Lemma bytes_take n l : bytes l -> bytes (take n l).
Proof. apply Forall_take. Qed.

Lemma bytes_drop n l : bytes l -> bytes (drop n l).
Proof. apply Forall_drop. Qed.

Lemma bytes_lookup l i b : bytes l -> l !! i = Some b -> is_u8 b.
Proof. intros. by eapply (Forall_lookup_1 is_u8). Qed.

Lemma bytes_rev l : bytes l -> bytes (rev l).
Proof. apply Forall_rev. Qed.

#[export] Hint Resolve bytes_nil bytes_take bytes_drop bytes_rev : ub.

Lemma to_be_bytes_length n v : length (to_be_bytes n v) = n.
Proof. induction n; simpl; congruence. Qed.

Lemma to_be_bytes_bytes n v : bytes (to_be_bytes n v).
Proof.
  induction n; simpl; [apply bytes_nil|apply bytes_cons; split; [|done]].
  apply Z.mod_pos_bound. lia.
Qed.
#[export] Hint Resolve to_be_bytes_bytes : ub.

Lemma be_value_acc l acc :
  fold_left (fun a b => a * 256 + b) l acc = acc * 256 ^ Z.of_nat (length l) + be_value l.
Proof.
  unfold be_value. revert acc. induction l as [|b t IH]; intros acc; simpl; [lia|].
  rewrite IH, (IH (0 * 256 + b)), Nat2Z.inj_succ, Z.pow_succ_r by lia. ring.
Qed.

Lemma be_value_cons b l : be_value (b :: l) = b * 256 ^ Z.of_nat (length l) + be_value l.
Proof. unfold be_value at 1. simpl. rewrite be_value_acc. lia. Qed.

Lemma be_value_app l1 l2 :
  be_value (l1 ++ l2) = be_value l1 * 256 ^ Z.of_nat (length l2) + be_value l2.
Proof. unfold be_value at 1. rewrite fold_left_app. apply be_value_acc. Qed.

Lemma be_value_bound l : bytes l -> 0 <= be_value l < 256 ^ Z.of_nat (length l).
Proof.
  induction l as [|b t IH]; intros Hl.
  - unfold be_value. simpl. lia.
  - apply bytes_cons in Hl as [Hb Ht]. specialize (IH Ht). unfold is_u8 in Hb.
    rewrite be_value_cons. simpl length. rewrite Nat2Z.inj_succ, Z.pow_succ_r by lia. nia.
Qed.

Lemma be_value_to_be_bytes n v : be_value (to_be_bytes n v) = v mod 256 ^ Z.of_nat n.
Proof.
  induction n as [|n IH].
  - unfold be_value. simpl. by rewrite Z.mod_1_r.
  - cbn [to_be_bytes]. rewrite be_value_cons, to_be_bytes_length, IH.
    rewrite Nat2Z.inj_succ, Z.pow_succ_r by lia.
    rewrite (Z.mul_comm 256), Z.rem_mul_r by lia. ring.
Qed.

(** bits above the encoded ones do not matter *)
Lemma to_be_bytes_high n m b v : (n <= m)%nat ->
  to_be_bytes n (b * 256 ^ Z.of_nat m + v) = to_be_bytes n v.
Proof.
  revert m v. induction n as [|n IHn]; intros m v Hm; [done|].
  cbn [to_be_bytes]. f_equal; [|apply IHn; lia].
  replace (Z.of_nat m) with (Z.of_nat n + 1 + (Z.of_nat m - Z.of_nat n - 1)) by lia.
  rewrite !Z.pow_add_r by lia. rewrite Z.pow_1_r.
  replace (b * (256 ^ Z.of_nat n * 256 * 256 ^ (Z.of_nat m - Z.of_nat n - 1)) + v)
    with (b * 256 ^ (Z.of_nat m - Z.of_nat n - 1) * 256 * 256 ^ Z.of_nat n + v) by ring.
  rewrite Z.div_add_l, Z.add_comm, Z.mod_add by lia. done.
Qed.

Lemma to_be_bytes_be_value l : bytes l -> to_be_bytes (length l) (be_value l) = l.
Proof.
  induction l as [|b t IH]; intros Hl; [done|].
  apply bytes_cons in Hl as [Hb Ht]. pose proof (be_value_bound t Ht) as Hbound.
  unfold is_u8 in Hb. cbn [length to_be_bytes]. f_equal.
  - rewrite be_value_cons, Z.div_add_l, (Z.div_small (be_value t)) by lia.
    rewrite Z.add_0_r. by apply Z.mod_small.
  - rewrite be_value_cons, to_be_bytes_high by lia. by apply IH.
Qed.

Lemma as_u_small w v : in_u w v -> as_u w v = v.
Proof. apply Z.mod_small. Qed.

Lemma as_i_as_u w v : 0 < w -> in_i w v -> as_i w (as_u w v) = v.
Proof.
  intros Hw Hv. unfold as_i, as_u, in_i in *.
  assert (2 ^ w = 2 * 2 ^ (w - 1)) as Hp.
  { rewrite <- Z.pow_succ_r by lia. f_equal. lia. }
  rewrite Zplus_mod_idemp_l, Z.mod_small by lia. lia.
Qed.

Lemma as_i_range w v : 0 < w -> in_i w (as_i w v).
Proof.
  intros Hw. unfold as_i, in_i.
  assert (2 ^ w = 2 * 2 ^ (w - 1)) as Hp.
  { rewrite <- Z.pow_succ_r by lia. f_equal. lia. }
  pose proof (Z.mod_pos_bound (v + 2 ^ (w - 1)) (2 ^ w)). lia.
Qed.

Lemma as_u_range w v : 0 <= w -> in_u w (as_u w v).
Proof. intros. apply Z.mod_pos_bound. lia. Qed.

Lemma try_u_Some w v : in_u w v -> try_u w v = Some v.
Proof.
  unfold in_u, try_u. intros [H1 H2].
  by rewrite (proj2 (Z.leb_le _ _) H1), (proj2 (Z.ltb_lt _ _) H2).
Qed.

Lemma try_i_Some w v : in_i w v -> try_i w v = Some v.
Proof.
  unfold in_i, try_i. intros [H1 H2].
  by rewrite (proj2 (Z.leb_le _ _) H1), (proj2 (Z.ltb_lt _ _) H2).
Qed.

(** Decides a property of every byte by evaluation. *)
Lemma u8_forall (P : Z -> bool) :
  forallb P (seqZ 0 256) = true -> forall b, is_u8 b -> P b = true.
Proof.
  intros H b Hb. rewrite forallb_forall in H. apply H, list_elem_of_In, elem_of_seqZ.
  unfold is_u8 in Hb. lia.
Qed.

Lemma u8_forall2 (P : Z -> Z -> bool) :
  forallb (fun a => forallb (P a) (seqZ 0 256)) (seqZ 0 256) = true ->
  forall a b, is_u8 a -> is_u8 b -> P a b = true.
Proof.
  intros H a b Ha Hb. apply (u8_forall (P a)); [|done].
  by apply (u8_forall (fun a => forallb (P a) (seqZ 0 256))).
Qed.

(** Evaluates a decidable statement on all bytes. *)
Ltac by_all_bytes := apply u8_forall; [vm_compute; reflexivity|assumption].

Lemma testbit_high n k i : 0 <= n < 2 ^ k -> 0 <= k <= i -> Z.testbit n i = false.
Proof.
  intros Hn Hi. destruct (Z.eq_dec n 0) as [->|Hn0]; [apply Z.bits_0|].
  apply Z.bits_above_log2; [lia|]. apply Z.log2_lt_pow2; [lia|].
  eapply Z.lt_le_trans; [apply Hn|]. apply Z.pow_le_mono_r; lia.
Qed.

(** disjoint bits add up *)
Lemma shiftl_lor_add a k v : 0 <= a -> 0 <= k -> 0 <= v < 2 ^ k ->
  Z.lor (Z.shiftl a k) v = a * 2 ^ k + v.
Proof.
  intros Ha Hk Hv. rewrite Z.shiftl_mul_pow2 by done. symmetry. rewrite <- Z.lxor_lor.
  - apply Z.add_nocarry_lxor. apply Z.bits_inj'. intros j Hj. rewrite Z.land_spec, Z.bits_0.
    rewrite <- Z.shiftl_mul_pow2 by done. destruct (decide (j < k)).
    + by rewrite Z.shiftl_spec_low.
    + rewrite (testbit_high v k j) by lia. apply andb_false_r.
  - apply Z.bits_inj'. intros j Hj. rewrite Z.land_spec, Z.bits_0.
    rewrite <- Z.shiftl_mul_pow2 by done. destruct (decide (j < k)).
    + by rewrite Z.shiftl_spec_low.
    + rewrite (testbit_high v k j) by lia. apply andb_false_r.
Qed.

Lemma idx_Some {E A} (l : list A) i x : l !! i = Some x -> idx (E := E) l i = Ok x.
Proof. unfold idx. by intros ->. Qed.

Lemma slice_ok {E A} (l : list A) from to :
  (from <= to)%nat -> (to <= length l)%nat ->
  slice (E := E) l from to = Ok (take (to - from) (drop from l)).
Proof.
  intros H1 H2. unfold slice.
  by rewrite (proj2 (Nat.leb_le _ _) H1), (proj2 (Nat.leb_le _ _) H2).
Qed.

Lemma slice_full {E A} (l : list A) from :
  (from <= length l)%nat -> slice (E := E) l from (length l) = Ok (drop from l).
Proof. intros H. rewrite slice_ok by lia. f_equal. apply take_ge. rewrite length_drop. lia. Qed.

Lemma filter_none {A} (P : A -> Prop) `{!forall x, Decision (P x)} (l : list A) :
  (forall x, x ∈ l -> ~ P x) -> filter P l = [].
Proof.
  intros Hl. apply elem_of_nil_inv. intros x [Hp Hx]%list_elem_of_filter. by apply (Hl x).
Qed.
