(* ===== verification/RustStd.v ===== *)
(** * Rust's standard library, as far as the program uses it

    A [String] or [&str] is the list of its chars (Unicode scalar values); the
    bytes of a string are its UTF-8 encoding.  The functions are the ones of
    [core]/[alloc]: [str::trim], [str::split], [str::parse], [to_string],
    [String::from_utf8], [char::to_digit], [format!] with a width. *)

From stdpp Require Import base list numbers option strings.
From Stdlib Require Import ZArith Lia Ascii.

From S2P Require Import Prelude.

(** ** Strings *)

Definition str : Type := list Z.

Definition char_of (a : ascii) : Z := Z.of_N (N_of_ascii a).

(** string literals of the source (all of them are ASCII) *)
Fixpoint lit (s : String.string) : str :=
  match s with
  | String.EmptyString => []
  | String.String a t => char_of a :: lit t
  end.
Arguments lit s%_string_scope.

Declare Scope ub_scope.
Delimit Scope ub_scope with ub.
Notation "'$' s" := (lit s%string) (at level 1, s at level 0, format "'$' s") : ub_scope.
#[global] Open Scope ub_scope.

(** ** UTF-8 *)

(** [char]: a Unicode scalar value *)
Definition is_char (c : Z) : Prop := 0 <= c < 55296 \/ 57344 <= c < 1114112.
Definition valid_str (s : str) : Prop := Forall is_char s.

#[global] Instance is_char_dec c : Decision (is_char c).
Proof. unfold is_char. apply _. Defined.

Definition utf8_char (c : Z) : list Z :=
  if c <? 128 then [c]
  else if c <? 2048 then [192 + c / 64; 128 + c mod 64]
  else if c <? 65536 then [224 + c / 4096; 128 + c / 64 mod 64; 128 + c mod 64]
  else [240 + c / 262144; 128 + c / 4096 mod 64; 128 + c / 64 mod 64; 128 + c mod 64].

(** [str::as_bytes] *)
Definition as_bytes (s : str) : list Z := s ≫= utf8_char.

Definition utf8_cont (b : Z) : bool := (128 <=? b) && (b <? 192).

(** [String::from_utf8]: shortest form only, no surrogates *)
Fixpoint from_utf8 (l : list Z) : option str :=
  match l with
  | [] => Some []
  | b0 :: t0 =>
    if b0 <? 128 then cons b0 <$> from_utf8 t0 else
    match t0 with
    | [] => None
    | b1 :: t1 =>
      if negb (utf8_cont b1) then None else
      if (194 <=? b0) && (b0 <? 224) then
        cons ((b0 - 192) * 64 + (b1 - 128)) <$> from_utf8 t1 else
      match t1 with
      | [] => None
      | b2 :: t2 =>
        if negb (utf8_cont b2) then None else
        if (224 <=? b0) && (b0 <? 240) then
          let c := (b0 - 224) * 4096 + (b1 - 128) * 64 + (b2 - 128) in
          if (2048 <=? c) && negb ((55296 <=? c) && (c <? 57344))
          then cons c <$> from_utf8 t2 else None
        else
        match t2 with
        | [] => None
        | b3 :: t3 =>
          let c := (b0 - 240) * 262144 + (b1 - 128) * 4096 + (b2 - 128) * 64 + (b3 - 128) in
          if (240 <=? b0) && utf8_cont b3 && (65536 <=? c) && (c <? 1114112)
          then cons c <$> from_utf8 t3 else None
        end
      end
    end
  end.

(** [String::from_utf8_lossy]: each maximal part that is not UTF-8 becomes
    U+FFFD.  [utf8_second] is the range of the second byte after a first byte of
    three or four. *)
Definition in_range (lo hi b : Z) : bool := (lo <=? b) && (b <=? hi).
Definition utf8_second (b0 b1 : Z) : bool :=
  if b0 =? 224 then in_range 160 191 b1
  else if b0 =? 237 then in_range 128 159 b1
  else if b0 =? 240 then in_range 144 191 b1
  else if b0 =? 244 then in_range 128 143 b1
  else in_range 128 191 b1.

Fixpoint from_utf8_lossy (l : list Z) : str :=
  match l with
  | [] => []
  | b0 :: t0 =>
    if b0 <? 128 then b0 :: from_utf8_lossy t0
    else if in_range 194 223 b0 then
      match t0 with
      | b1 :: t1 => if utf8_cont b1 then (b0 - 192) * 64 + (b1 - 128) :: from_utf8_lossy t1
                    else 65533 :: from_utf8_lossy t0
      | [] => [65533]
      end
    else if in_range 224 239 b0 then
      match t0 with
      | b1 :: t1 =>
        if negb (utf8_second b0 b1) then 65533 :: from_utf8_lossy t0 else
        match t1 with
        | b2 :: t2 =>
          if utf8_cont b2
          then (b0 - 224) * 4096 + (b1 - 128) * 64 + (b2 - 128) :: from_utf8_lossy t2
          else 65533 :: from_utf8_lossy t1
        | [] => [65533]
        end
      | [] => [65533]
      end
    else if in_range 240 244 b0 then
      match t0 with
      | b1 :: t1 =>
        if negb (utf8_second b0 b1) then 65533 :: from_utf8_lossy t0 else
        match t1 with
        | b2 :: t2 =>
          if negb (utf8_cont b2) then 65533 :: from_utf8_lossy t1 else
          match t2 with
          | b3 :: t3 =>
            if utf8_cont b3
            then (b0 - 240) * 262144 + (b1 - 128) * 4096 + (b2 - 128) * 64 + (b3 - 128)
                 :: from_utf8_lossy t3
            else 65533 :: from_utf8_lossy t2
          | [] => [65533]
          end
        | [] => [65533]
        end
      | [] => [65533]
      end
    else 65533 :: from_utf8_lossy t0
  end.

(** ** Characters *)

(** [char::is_whitespace]: the [White_Space] property of Unicode *)
Definition is_whitespace (c : Z) : bool :=
  ((9 <=? c) && (c <=? 13)) || (c =? 32) || (c =? 133) || (c =? 160) || (c =? 5760)
  || ((8192 <=? c) && (c <=? 8202)) || (c =? 8232) || (c =? 8233) || (c =? 8239)
  || (c =? 8287) || (c =? 12288).

(** [char::to_digit(10)] and [char::to_digit(16)] *)
Definition to_digit10 (c : Z) : option Z :=
  if (48 <=? c) && (c <=? 57) then Some (c - 48) else None.
Definition to_digit16 (c : Z) : option Z :=
  if (48 <=? c) && (c <=? 57) then Some (c - 48)
  else if (97 <=? c) && (c <=? 102) then Some (c - 87)
  else if (65 <=? c) && (c <=? 70) then Some (c - 55)
  else None.

(** [u8::is_ascii_alphanumeric] *)
Definition is_ascii_digit (c : Z) : bool := (48 <=? c) && (c <=? 57).
Definition is_ascii_alpha (c : Z) : bool :=
  ((65 <=? c) && (c <=? 90)) || ((97 <=? c) && (c <=? 122)).

(** [str::to_ascii_lowercase] and [to_uppercase] on ASCII text *)
Definition lower_char (c : Z) : Z := if (65 <=? c) && (c <=? 90) then c + 32 else c.
Definition to_ascii_lowercase (s : str) : str := map lower_char s.
Definition upper_char (c : Z) : Z := if (97 <=? c) && (c <=? 122) then c - 32 else c.
Definition to_ascii_uppercase (s : str) : str := map upper_char s.

(** ** [str] methods *)

Fixpoint trim_start (s : str) : str :=
  match s with
  | c :: t => if is_whitespace c then trim_start t else s
  | [] => []
  end.
Definition trim_end (s : str) : str := rev (trim_start (rev s)).
Definition trim (s : str) : str := trim_end (trim_start s).

(** [str::split(c)]: always at least one piece *)
Fixpoint split (sep : Z) (s : str) : list str :=
  match s with
  | [] => [[]]
  | c :: t => if c =? sep then [] :: split sep t
              else match split sep t with
                   | p :: ps => (c :: p) :: ps
                   | [] => [[c]]
                   end
  end.

(** [[String]::join(sep)] *)
Fixpoint join (sep : str) (l : list str) : str :=
  match l with
  | [] => []
  | [x] => x
  | x :: t => x ++ sep ++ join sep t
  end.

(** the order of strings: by code points, which is the order of their bytes *)
Fixpoint str_leb (a b : str) : bool :=
  match a, b with
  | [], _ => true
  | _ :: _, [] => false
  | x :: a, y :: b => (x <? y) || ((x =? y) && str_leb a b)
  end.
Definition str_le (a b : str) : Prop := str_leb a b = true.
#[global] Instance str_le_dec : RelDecision str_le := fun a b => bool_eq_dec (str_leb a b) true.

(** [trim_start_matches(c)] and [trim_end_matches(c)] *)
Fixpoint trim_start_matches (c : Z) (s : str) : str :=
  match s with
  | x :: t => if x =? c then trim_start_matches c t else s
  | [] => []
  end.
Definition trim_end_matches (c : Z) (s : str) : str := rev (trim_start_matches c (rev s)).

(** [str::len]: in bytes *)
Definition str_len (s : str) : nat := length (as_bytes s).

(** ** Numbers and text *)

(** decimal digits of a natural number; [fuel] bounds the number of digits *)
Fixpoint digits_aux (fuel : nat) (n : Z) (acc : str) : str :=
  match fuel with
  | O => acc
  | S f => if n <? 10 then 48 + n :: acc
           else digits_aux f (n / 10) (48 + n mod 10 :: acc)
  end.

(** [to_string] of an unsigned and of a signed integer: [log2 n + 1] digits are enough *)
Definition show_nat (n : Z) : str := digits_aux (S (Z.to_nat (Z.log2 n))) n [].
Definition show_int (n : Z) : str := if n <? 0 then 45 :: show_nat (- n) else show_nat n.

Definition parse_digits (s : str) : option Z :=
  foldl (fun acc c => a ← acc; d ← to_digit10 c; Some (a * 10 + d)) (Some 0) s.

(** [str::parse::<T>()] of an integer type with values [lo..=hi]: an optional
    sign ([-] only for signed types), then at least one digit, no overflow *)
Definition parse_int (lo hi : Z) (s : str) : option Z :=
  let ranged v := if (lo <=? v) && (v <=? hi) then Some v else None in
  match s with
  | [] => None
  | c :: t =>
    if (c =? 43) || ((c =? 45) && (lo <? 0)) then
      match t with
      | [] => None
      | _ => v ← parse_digits t; ranged (if c =? 45 then - v else v)
      end
    else v ← parse_digits s; ranged v
  end.

Definition parse_i32 : str -> option Z := parse_int (- 2 ^ 31) (2 ^ 31 - 1).
Definition parse_i64 : str -> option Z := parse_int (- 2 ^ 63) (2 ^ 63 - 1).
Definition parse_u16 : str -> option Z := parse_int 0 (2 ^ 16 - 1).
Definition parse_u32 : str -> option Z := parse_int 0 (2 ^ 32 - 1).
Definition parse_u64 : str -> option Z := parse_int 0 (2 ^ 64 - 1).

(** [{:02X}] and [{:02x}] of a byte *)
Definition hex_digit_upper (d : Z) : Z := if d <? 10 then 48 + d else 55 + d.
Definition hex_digit_lower (d : Z) : Z := if d <? 10 then 48 + d else 87 + d.
Definition hex02_upper (b : Z) : str := [hex_digit_upper (b / 16); hex_digit_upper (b mod 16)].
Definition hex02_lower (b : Z) : str := [hex_digit_lower (b / 16); hex_digit_lower (b mod 16)].

(** ** Lemmas: UTF-8 *)

Lemma ascii_valid s : Forall (fun c => 0 <= c < 128) s -> valid_str s.
Proof. intros Hs. eapply Forall_impl; [exact Hs|]. intros c Hc. left. cbn in Hc. lia. Qed.

Lemma lit_valid s : valid_str (lit s).
Proof.
  induction s as [|a t IH]; [constructor|]. constructor; [|exact IH]. left. unfold char_of.
  pose proof (N_ascii_bounded a). lia.
Qed.

Lemma valid_app s t : valid_str s -> valid_str t -> valid_str (s ++ t).
Proof. apply Forall_app_2. Qed.

#[export] Hint Resolve lit_valid valid_app : ub.

Lemma utf8_char_bytes c : is_char c -> bytes (utf8_char c).
Proof.
  intros Hc. unfold utf8_char, is_char in *. bool_cases; breflect;
    repeat (apply bytes_cons; split); try apply bytes_nil; unfold is_u8; zdiv_lia.
Qed.

Lemma as_bytes_bytes s : valid_str s -> bytes (as_bytes s).
Proof.
  intros Hs. induction Hs as [|c t Hc _ IH]; [apply bytes_nil|].
  apply bytes_app. split; [by apply utf8_char_bytes|done].
Qed.

(** Resolves a chain of comparisons that arithmetic decides. *)
Ltac decide_cmp :=
  repeat match goal with
  | |- context [?a <? ?b] =>
      first [ rewrite (proj2 (Z.ltb_lt a b)) by zdiv_lia
            | rewrite (proj2 (Z.ltb_ge a b)) by zdiv_lia ]
  | |- context [?a <=? ?b] =>
      first [ rewrite (proj2 (Z.leb_le a b)) by zdiv_lia
            | rewrite (proj2 (Z.leb_gt a b)) by zdiv_lia ]
  | |- context [?a =? ?b] =>
      first [ rewrite (proj2 (Z.eqb_eq a b)) by zdiv_lia
            | rewrite (proj2 (Z.eqb_neq a b)) by zdiv_lia ]
  end.

Lemma from_utf8_char c l : is_char c -> from_utf8 (utf8_char c ++ l) = cons c <$> from_utf8 l.
Proof.
  intros Hc. unfold is_char in Hc. unfold utf8_char.
  destruct (c <? 128) eqn:H1; breflect; [simpl; by decide_cmp|].
  destruct (c <? 2048) eqn:H2; breflect.
  { cbn [app from_utf8]. unfold utf8_cont. decide_cmp. cbn [andb negb].
    do 2 f_equal. zdiv_lia. }
  destruct (c <? 65536) eqn:H3; breflect.
  { cbn [app from_utf8]. unfold utf8_cont. decide_cmp. cbn [andb negb].
    replace ((224 + c / 4096 - 224) * 4096 + (128 + c / 64 mod 64 - 128) * 64
             + (128 + c mod 64 - 128)) with c by zdiv_lia.
    cbv zeta. destruct (55296 <=? c) eqn:?, (c <? 57344) eqn:?; breflect; decide_cmp;
      simpl; done || lia. }
  cbn [app from_utf8]. unfold utf8_cont. decide_cmp. cbn [andb negb].
  replace ((240 + c / 262144 - 240) * 262144 + (128 + c / 4096 mod 64 - 128) * 4096
           + (128 + c / 64 mod 64 - 128) * 64 + (128 + c mod 64 - 128)) with c by zdiv_lia.
  cbv zeta. by decide_cmp.
Qed.

Lemma from_utf8_as_bytes s l : valid_str s -> from_utf8 (as_bytes s ++ l) = app s <$> from_utf8 l.
Proof.
  intros Hs. induction Hs as [|c t Hc _ IH].
  - simpl. by destruct (from_utf8 l).
  - change (as_bytes (c :: t)) with (utf8_char c ++ as_bytes t). rewrite <- app_assoc.
    rewrite from_utf8_char, IH by done. by destruct (from_utf8 l).
Qed.

(** ASCII text is its own encoding *)
Lemma as_bytes_ascii s : Forall (fun c => 0 <= c < 128) s -> as_bytes s = s.
Proof.
  induction 1 as [|c t Hc _ IH]; [done|].
  change (as_bytes (c :: t)) with (utf8_char c ++ as_bytes t). rewrite IH.
  unfold utf8_char. by rewrite (proj2 (Z.ltb_lt c 128)) by lia.
Qed.

(** on UTF-8 the lossy decoding is the decoding *)
Lemma lossy_char c l : is_char c -> from_utf8_lossy (utf8_char c ++ l) = c :: from_utf8_lossy l.
Proof.
  intros Hc. unfold is_char in Hc. unfold utf8_char.
  destruct (c <? 128) eqn:H1; breflect; [simpl; by decide_cmp|].
  destruct (c <? 2048) eqn:H2; breflect.
  { cbn [app from_utf8_lossy]. unfold utf8_cont, in_range. decide_cmp. cbn [andb]. f_equal. zdiv_lia. }
  destruct (c <? 65536) eqn:H3; breflect.
  { cbn [app from_utf8_lossy].
    assert (utf8_second (224 + c / 4096) (128 + c / 64 mod 64) = true) as ->
      by (unfold utf8_second, in_range; bool_cases; breflect; decide_cmp; done).
    unfold utf8_cont, in_range. decide_cmp. cbn [andb negb]. f_equal. zdiv_lia. }
  cbn [app from_utf8_lossy].
  assert (utf8_second (240 + c / 262144) (128 + c / 4096 mod 64) = true) as ->
    by (unfold utf8_second, in_range; bool_cases; breflect; decide_cmp; done).
  unfold utf8_cont, in_range. decide_cmp. cbn [andb negb]. f_equal. zdiv_lia.
Qed.

Lemma lossy_as_bytes s : valid_str s -> from_utf8_lossy (as_bytes s) = s.
Proof.
  intros Hs. induction Hs as [|c t Hc _ IH]; [done|].
  change (as_bytes (c :: t)) with (utf8_char c ++ as_bytes t). by rewrite lossy_char, IH.
Qed.

(** Decoding gives back the string that was encoded. *)
Lemma from_utf8_as_bytes_id s : valid_str s -> from_utf8 (as_bytes s) = Some s.
Proof.
  intros Hs. rewrite <- (app_nil_r (as_bytes s)), from_utf8_as_bytes by done.
  simpl. by rewrite app_nil_r.
Qed.

(** ** Lemmas: numbers *)

Lemma to_digit10_digit d : 0 <= d < 10 -> to_digit10 (48 + d) = Some d.
Proof. intros. unfold to_digit10. decide_cmp. simpl. f_equal. lia. Qed.

Definition digit_step (acc : option Z) (c : Z) : option Z :=
  a ← acc; d ← to_digit10 c; Some (a * 10 + d).

Lemma parse_digits_unfold s : parse_digits s = foldl digit_step (Some 0) s.
Proof. done. Qed.

(** Reading the printed digits continues any partial value [a]. *)
Lemma digits_aux_parse fuel n acc a : 0 <= n < 10 ^ Z.of_nat fuel -> 0 <= a ->
  exists k, 0 <= k /\
  foldl digit_step (Some a) (digits_aux fuel n acc)
  = foldl digit_step (Some (a * 10 ^ k + n)) acc.
Proof.
  revert n acc. induction fuel as [|f IH]; intros n acc Hn Ha.
  - exists 0. split; [lia|]. simpl. do 2 f_equal. simpl in Hn. lia.
  - cbn [digits_aux]. destruct (n <? 10) eqn:Hlt; breflect.
    + exists 1. split; [lia|]. simpl. rewrite to_digit10_digit by lia. simpl.
      do 2 f_equal; lia.
    + destruct (IH (n / 10) (48 + n mod 10 :: acc)) as (k & Hk & Hfold); [|done|].
      { rewrite Nat2Z.inj_succ, Z.pow_succ_r in Hn by lia. zdiv_lia. }
      exists (k + 1). split; [lia|]. rewrite Hfold. cbn [foldl digit_step mbind option_bind].
      rewrite to_digit10_digit by zdiv_lia. simpl. do 2 f_equal.
      rewrite Z.pow_add_r by lia. zdiv_lia.
Qed.

Lemma log2_fuel n : 0 <= n -> n < 10 ^ Z.of_nat (S (Z.to_nat (Z.log2 n))).
Proof.
  intros Hn. rewrite Nat2Z.inj_succ, Z2Nat.id by apply Z.log2_nonneg.
  destruct (Z.eq_dec n 0) as [->|Hn0]; [done|].
  pose proof (Z.log2_spec n). pose proof (Z.log2_nonneg n).
  enough (2 ^ Z.succ (Z.log2 n) <= 10 ^ Z.succ (Z.log2 n)) by lia.
  apply Z.pow_le_mono_l. lia.
Qed.

Lemma parse_show_nat n : 0 <= n -> parse_digits (show_nat n) = Some n.
Proof.
  intros Hn. rewrite parse_digits_unfold. unfold show_nat.
  destruct (digits_aux_parse (S (Z.to_nat (Z.log2 n))) n [] 0) as (k & Hk & ->).
  - split; [done|by apply log2_fuel].
  - lia.
  - simpl. f_equal; lia.
Qed.

(** every char that is printed is a digit *)
Lemma digits_aux_digits fuel n acc : 0 <= n ->
  Forall (fun c => 48 <= c <= 57) acc -> Forall (fun c => 48 <= c <= 57) (digits_aux fuel n acc).
Proof.
  revert n acc. induction fuel as [|f IH]; intros n acc Hn Hacc; simpl; [done|].
  destruct (n <? 10) eqn:?; breflect; [constructor; [lia|done]|].
  apply IH; [zdiv_lia|]. constructor; [zdiv_lia|done].
Qed.

Lemma show_nat_digits n : 0 <= n -> Forall (fun c => 48 <= c <= 57) (show_nat n).
Proof. intros. apply digits_aux_digits; [done|constructor]. Qed.

Lemma digits_aux_nonempty fuel n acc : (acc <> [] \/ fuel <> O) -> digits_aux fuel n acc <> [].
Proof.
  revert n acc. induction fuel as [|f IH]; intros n acc H; simpl.
  - by destruct H.
  - destruct (n <? 10); [done|]. apply IH. by left.
Qed.

Lemma show_nat_nonempty n : show_nat n <> [].
Proof. apply digits_aux_nonempty. by right. Qed.

(** [to_string] then [parse] is the identity on the values of the type. *)
Lemma parse_show_int lo hi n : lo <= n <= hi -> lo <= 0 ->
  parse_int lo hi (show_int n) = Some n.
Proof.
  intros Hn Hlo. unfold show_int. destruct (n <? 0) eqn:Hneg; breflect.
  - unfold parse_int. decide_cmp. cbn [orb andb].
    destruct (show_nat (- n)) eqn:Hs; [by apply show_nat_nonempty in Hs|].
    rewrite <- Hs, parse_show_nat by lia. simpl. rewrite Z.opp_involutive. by decide_cmp.
  - pose proof (show_nat_digits n ltac:(lia)) as Hd.
    pose proof (parse_show_nat n ltac:(lia)) as Hp.
    destruct (show_nat n) as [|c t] eqn:Hs; [by apply show_nat_nonempty in Hs|].
    apply Forall_cons_iff in Hd as [Hc _]. unfold parse_int.
    rewrite (proj2 (Z.eqb_neq c 43)), (proj2 (Z.eqb_neq c 45)) by lia.
    cbn [orb andb]. rewrite Hp. simpl. by decide_cmp.
Qed.

(** ** Lemmas: white space *)

Lemma trim_start_id c s : is_whitespace c = false -> trim_start (c :: s) = c :: s.
Proof. intros Hc. cbn. by rewrite Hc. Qed.

Lemma trim_end_id s c : is_whitespace c = false -> trim_end (s ++ [c]) = s ++ [c].
Proof.
  intros Hc. unfold trim_end. rewrite rev_app_distr. cbn [rev app].
  rewrite trim_start_id by done. cbn [rev]. by rewrite rev_involutive.
Qed.

(** a text without white space is not changed by [trim] *)
Lemma trim_id s : Forall (fun c => is_whitespace c = false) s -> trim s = s.
Proof.
  intros Hs. destruct s as [|c t]; [done|]. unfold trim.
  rewrite trim_start_id by (by apply Forall_cons_iff in Hs as [? _]).
  destruct (exists_last (l := c :: t) ltac:(done)) as (u & d & Hu). rewrite Hu in *.
  apply trim_end_id. apply Forall_app in Hs as [_ Hd].
  by apply Forall_cons_iff in Hd as [? _].
Qed.

(** [str::strip_prefix] *)
Fixpoint strip_prefix (p s : str) : option str :=
  match p, s with
  | [], _ => Some s
  | a :: p, b :: s => if a =? b then strip_prefix p s else None
  | _, [] => None
  end.

(** [str::split_once] of a char *)
Fixpoint split_once (sep : Z) (s : str) : option (str * str) :=
  match s with
  | [] => None
  | c :: t => if c =? sep then Some ([], t) else '(a, b) ← split_once sep t; Some (c :: a, b)
  end.

Lemma strip_prefix_app p s : strip_prefix p (p ++ s) = Some s.
Proof. induction p as [|c t IH]; [by destruct s|]. cbn. by rewrite Z.eqb_refl. Qed.

Lemma split_once_app sep a b : Forall (fun c => c <> sep) a -> split_once sep (a ++ sep :: b) = Some (a, b).
Proof.
  induction 1 as [|c t Hc _ IH]; cbn; [by rewrite Z.eqb_refl|]. rewrite (proj2 (Z.eqb_neq _ _) Hc), IH. done.
Qed.

(** what was decoded are chars, and there is a 0 among them only where there is a 0 byte *)
Lemma from_utf8_valid l s : bytes l -> from_utf8 l = Some s ->
  valid_str s /\ (Forall (fun b => b <> 0) l -> Forall (fun c => c <> 0) s).
Proof.
  remember (length l) as n eqn:Hn. revert l s Hn. induction n as [n IH] using lt_wf_ind. intros l s -> Hl H.
  assert (forall c t s', bytes t -> cons c <$> from_utf8 t = Some s' -> (length t < length l)%nat -> is_char c -> c <> 0 ->
    valid_str s' /\ (Forall (fun b => b <> 0) t -> Forall (fun c => c <> 0) s')) as step.
  { intros c t s' Ht Hs Hlen Hc H0. apply fmap_Some in Hs as (u & Hu & ->).
    destruct (IH (length t) Hlen t u eq_refl Ht Hu) as [Hv Hz]. split; [by constructor|].
    intros Hne. constructor; [done|by apply Hz]. }
  unfold is_char in step.
  destruct l as [|b0 t0]; [injection H as <-; by repeat constructor|]. cbn [from_utf8] in H.
  apply bytes_cons in Hl as [H0 Hl]. unfold is_u8 in *.
  destruct (b0 <? 128) eqn:?.
  { breflect. apply fmap_Some in H as (u & Hu & ->).
    destruct (IH (length t0) ltac:(cbn; lia) t0 u eq_refl Hl Hu) as [Hv Hz]. split.
    - constructor; [unfold is_char; lia|done].
    - intros [Hb Ht]%Forall_cons_1. constructor; [done|by apply Hz]. }
  destruct t0 as [|b1 t1]; [done|]. apply bytes_cons in Hl as [H1 Hl]. unfold utf8_cont in H.
  destruct (negb _) eqn:?; [done|]. 
  destruct (_ && _) eqn:? in H.
  { breflect. destruct (step _ _ _ Hl H) as [Hv Hz]; [cbn; lia|lia..|].
    split; [done|]. intros Hne. apply Hz. by do 2 apply Forall_inv_tail in Hne. }
  destruct t1 as [|b2 t2]; [done|]. apply bytes_cons in Hl as [H2 Hl].
  destruct (negb ((128 <=? b2) && _)) eqn:?; [done|].
  destruct ((224 <=? b0) && _) eqn:?.
  { destruct (_ && _) eqn:? in H; [|done]. breflect.
    destruct (step _ _ _ Hl H) as [Hv Hz]; [cbn; lia|lia..|].
    split; [done|]. intros Hne. apply Hz. by do 3 apply Forall_inv_tail in Hne. }
  destruct t2 as [|b3 t3]; [done|]. apply bytes_cons in Hl as [H3 Hl].
  destruct (_ && _) eqn:? in H; [|done]. breflect.
  destruct (step _ _ _ Hl H) as [Hv Hz]; [cbn; lia|lia..|].
  split; [done|]. intros Hne. apply Hz. by do 4 apply Forall_inv_tail in Hne.
Qed.
