(* ===== verification/Time.v ===== *)
(** * Time and log lines

    Models [src/time.rs] and [src/log.rs].  The calendar is the C library: the
    class [Libc] has the three functions that are called, and [FixedZone] what
    POSIX says about them in a time zone without clock changes (the fields count
    seconds, and [mktime] is the inverse of [localtime_r]).  The instance [utc]
    at the end shows that such functions exist.  The clock is an argument of the
    operations.  An addition that leaves [i32] or [i64] is [Panic]. *)

From stdpp Require Import base list numbers option strings.
From Stdlib Require Import ZArith Lia.
From S2P Require Import Prelude RustStd.

(** ** The C library *)

Record tm : Type := mkTm {
  tm_sec : Z;
  tm_min : Z;
  tm_hour : Z;
  tm_mday : Z;
  tm_mon : Z;
  tm_year : Z;
  tm_isdst : Z;
}.

Class Libc : Type := {
  gmtime_r : Z -> tm;
  localtime_r : Z -> tm;
  mktime : tm -> Z;
}.

(** a time zone without clock changes *)
Class FixedZone (C : Libc) : Prop := {
  localtime_fields : forall secs, let t := localtime_r secs in
    0 <= tm_sec t < 60 /\ 0 <= tm_min t < 60 /\ 0 <= tm_hour t < 24 /\ 1 <= tm_mday t <= 31;
  mktime_localtime : forall secs, let t := localtime_r secs in
    mktime (mkTm (tm_sec t) (tm_min t) (tm_hour t) (tm_mday t) (tm_mon t) (tm_year t) (-1)) = secs;
  mktime_linear : forall s m h d mon y s' m' h' d', let f := mktime in
    f (mkTm s m h d mon y (-1)) - f (mkTm s' m' h' d' mon y (-1))
    = (s - s') + 60 * (m - m') + 3600 * (h - h') + 86400 * (d - d');
}.

Section Time.
Context {C : Libc}.

(** [now_ms]: the clock in milliseconds since 1970, 0 before *)
Definition now_ms (since_epoch : option Z) : Z :=
  match since_epoch with Some millis => as_i 64 millis | None => 0 end.

Definition broken_down (ms : Z) (local : bool) : tm :=
  let secs := ms / 1000 in
  if local then localtime_r secs else gmtime_r secs.

(** [{:0width}] of an integer *)
Definition pad (width : nat) (n : Z) : str :=
  let digits := show_nat (Z.abs n) in
  let sign := if n <? 0 then [45] else [] in
  sign ++ replicate (width - length sign - length digits) 48 ++ digits.

Definition utc_sql_timestamp_ms (ms : Z) : str :=
  let t := broken_down ms false in
  pad 4 (tm_year t + 1900) ++ $"-" ++ pad 2 (tm_mon t + 1) ++ $"-" ++ pad 2 (tm_mday t) ++ $" "
  ++ pad 2 (tm_hour t) ++ $":" ++ pad 2 (tm_min t) ++ $":" ++ pad 2 (tm_sec t) ++ $"."
  ++ pad 3 (ms mod 1000) ++ $"U".

Definition local_file_timestamp (ms : Z) : str :=
  let t := broken_down ms true in
  pad 4 (tm_year t + 1900) ++ $"-" ++ pad 2 (tm_mon t + 1) ++ $"-" ++ pad 2 (tm_mday t) ++ $"_"
  ++ pad 2 (tm_hour t) ++ $"-" ++ pad 2 (tm_min t) ++ $"-" ++ pad 2 (tm_sec t) ++ $"_"
  ++ pad 3 (ms mod 1000).

(** ** Calendar units *)

Inductive CalendarUnit : Type :=
| Year
| Month
| Day
| Hour
| Minute
| Second.

(** [*self as u8] *)
Definition unit_index (u : CalendarUnit) : Z :=
  match u with Year => 0 | Month => 1 | Day => 2 | Hour => 3 | Minute => 4 | Second => 5 end.

Definition unit_le (a b : CalendarUnit) : bool := unit_index a <=? unit_index b.

(** [+] of an integer type of [w] bits *)
Definition add_i (w : Z) (a b : Z) : res never Z :=
  match try_i w (a + b) with Some v => Ok v | None => Panic end.
Definition mul_i (w : Z) (a b : Z) : res never Z :=
  match try_i w (a * b) with Some v => Ok v | None => Panic end.

(** the smaller fields are set to their first value *)
Definition unit_floor (unit : CalendarUnit) (t : tm) : tm :=
  mkTm (if unit_le unit Minute then 0 else tm_sec t)
       (if unit_le unit Hour then 0 else tm_min t)
       (if unit_le unit Day then 0 else tm_hour t)
       (if unit_le unit Month then 1 else tm_mday t)
       (if unit_le unit Year then 0 else tm_mon t)
       (tm_year t) (tm_isdst t).

(** the field of the unit is moved, and [mktime] finds out about daylight saving *)
Definition unit_move (unit : CalendarUnit) (offset : Z) (t : tm) : res never tm :=
  let at_unit u v := if unit_index u =? unit_index unit then add_i 32 v offset else Ok v in
  s ← at_unit Second (tm_sec t);
  m ← at_unit Minute (tm_min t);
  h ← at_unit Hour (tm_hour t);
  d ← at_unit Day (tm_mday t);
  mon ← at_unit Month (tm_mon t);
  y ← at_unit Year (tm_year t);
  Ok (mkTm s m h d mon y (-1)).

Definition local_unit_start (ms : Z) (unit : CalendarUnit) (offset : Z) : res never Z :=
  t ← unit_move unit offset (unit_floor unit (broken_down ms true));
  mul_i 64 (mktime t) 1000.

(** ** Log lines *)

Inductive LogLevel : Type :=
| Trace
| Debug
| Info
| Notice
| Warning
| Error
| Fatal.

Definition level_index (l : LogLevel) : Z :=
  match l with
  | Trace => 0 | Debug => 1 | Info => 2 | Notice => 3 | Warning => 4 | Error => 5 | Fatal => 6
  end.

Definition parse_level (name : str) : option LogLevel :=
  let name := to_ascii_lowercase name in
  if bool_decide (name = $"trace") then Some Trace
  else if bool_decide (name = $"debug") then Some Debug
  else if bool_decide (name = $"info") then Some Info
  else if bool_decide (name = $"notice") then Some Notice
  else if bool_decide (name = $"warning") then Some Warning
  else if bool_decide (name = $"error") then Some Error
  else if bool_decide (name = $"fatal") then Some Fatal
  else None.

Definition label (l : LogLevel) : str :=
  match l with
  | Trace => $"TRACE" | Debug => $"DEBUG" | Info => $"INFO" | Notice => $"NOTICE"
  | Warning => $"WARNING" | Error => $"ERROR" | Fatal => $"FATAL"
  end.

(** [env]: the value of [UB_LOG_LEVEL] *)
Definition level (env : option str) : LogLevel := default Info (name ← env; parse_level name).

Definition may_log (env : option str) (lvl : LogLevel) : bool := level_index (level env) <=? level_index lvl.

(** [pid]: the process id *)
Definition format_line (pid time_ms : Z) (facility : str) (lvl : LogLevel) (message : str) : str :=
  $"[" ++ utc_sql_timestamp_ms time_ms ++ $"]" ++ [9] ++ $"<" ++ show_nat pid ++ $">" ++ [9]
  ++ $"{" ++ facility ++ $"}" ++ [9] ++ $"(" ++ label lvl ++ $")" ++ [9] ++ message.

(** the line that is printed, if any *)
Definition log (env : option str) (pid now : Z) (facility : str) (lvl : LogLevel) (message : str) : option str :=
  if may_log env lvl then Some (format_line pid now facility lvl message) else None.

(** ** Lemmas: time stamps *)

(** the characters of a time stamp *)
Definition stamp_char (c : Z) : Prop := 48 <= c <= 57 \/ c = 45 \/ c = 46 \/ c = 58 \/ c = 32 \/ c = 85 \/ c = 95.

Lemma pad_chars width n : Forall (fun c => 48 <= c <= 57 \/ c = 45) (pad width n).
Proof.
  unfold pad. apply Forall_app_2; [destruct (n <? 0); repeat constructor; lia|]. apply Forall_app_2.
  - apply Forall_replicate. lia.
  - eapply Forall_impl; [apply show_nat_digits; lia|]. cbn. lia.
Qed.

Lemma pad_stamp width n : Forall stamp_char (pad width n).
Proof. eapply Forall_impl; [apply pad_chars|]. unfold stamp_char. cbn. lia. Qed.

Lemma timestamp_chars ms :
  Forall stamp_char (utc_sql_timestamp_ms ms) /\ Forall stamp_char (local_file_timestamp ms).
Proof.
  unfold utc_sql_timestamp_ms, local_file_timestamp.
  split; repeat (apply Forall_app_2; [first [apply pad_stamp|repeat constructor; unfold stamp_char, char_of; cbn; lia]|]);
    first [apply pad_stamp|repeat constructor; unfold stamp_char, char_of; cbn; lia].
Qed.

(** ** Lemmas: calendar units *)

(** the length of a unit in seconds; months and years have none *)
Definition unit_secs (u : CalendarUnit) : option Z :=
  match u with
  | Second => Some 1 | Minute => Some 60 | Hour => Some 3600 | Day => Some 86400 | _ => None
  end.

Lemma add_i_ok w a b : in_i w (a + b) -> add_i w a b = Ok (a + b).
Proof. intros H. unfold add_i. by rewrite try_i_Some. Qed.

Lemma mul_i_ok w a b : in_i w (a * b) -> mul_i w a b = Ok (a * b).
Proof. intros H. unfold mul_i. by rewrite try_i_Some. Qed.

(** the seconds since the start of the unit *)
Definition unit_rest (u : CalendarUnit) (t : tm) : Z :=
  match u with
  | Minute => tm_sec t
  | Hour => tm_sec t + 60 * tm_min t
  | Day => tm_sec t + 60 * tm_min t + 3600 * tm_hour t
  | _ => 0
  end.

Context {FZ : FixedZone C}.

Lemma unit_start_secs ms unit len offset : unit_secs unit = Some len -> 0 <= offset <= 1 ->
  exists t, unit_move unit offset (unit_floor unit (broken_down ms true)) = Ok t
    /\ mktime t = ms / 1000 - unit_rest unit (localtime_r (ms / 1000)) + offset * len.
Proof.
  intros Hu Ho. unfold broken_down. set (secs := ms / 1000).
  pose proof (localtime_fields secs) as Hf. pose proof (mktime_localtime secs) as Hm. cbv zeta in Hf, Hm.
  destruct (localtime_r secs) as [s m h d mon y dst]. cbn [tm_sec tm_min tm_hour tm_mday tm_mon tm_year] in *.
  destruct unit; try discriminate Hu; injection Hu as <-; unfold unit_move, unit_floor; cbn -[add_i];
    rewrite add_i_ok by (unfold in_i; lia); eexists; (split; [reflexivity|]);
    match goal with |- mktime (mkTm ?s' ?m' ?h' ?d' _ _ _) = _ =>
      pose proof (mktime_linear s' m' h' d' mon y s m h d) as Hl end; cbv zeta in Hl; lia.
Qed.

(** the rest is within the unit *)
Lemma unit_rest_bound ms unit len : unit_secs unit = Some len ->
  0 <= unit_rest unit (localtime_r (ms / 1000)) < len.
Proof.
  intros Hu. pose proof (localtime_fields (ms / 1000)) as Hf. cbv zeta in Hf.
  destruct unit; try discriminate Hu; injection Hu as <-; cbn; lia.
Qed.

(** C40: Boundaries.  In a time zone without clock changes, for seconds, minutes,
    hours and days, the start of the unit that contains a time is not after it,
    the start of the next unit is after it, and they are one unit apart; nothing
    overflows within 2^62 milliseconds around 1970. *)
Theorem unit_start_bounds ms unit len : unit_secs unit = Some len -> - 2 ^ 62 <= ms < 2 ^ 62 ->
  exists start, local_unit_start ms unit 0 = Ok start /\ local_unit_start ms unit 1 = Ok (start + len * 1000)
    /\ start <= ms < start + len * 1000.
Proof.
  intros Hu Hms. pose proof (unit_rest_bound ms unit len Hu) as Hr.
  assert (len <= 86400) as Hlen by (destruct unit; try discriminate Hu; injection Hu as <-; lia).
  destruct (unit_start_secs ms unit len 0 Hu ltac:(lia)) as (t & Ht & Htm).
  destruct (unit_start_secs ms unit len 1 Hu ltac:(lia)) as (t' & Ht' & Htm').
  set (rest := unit_rest _ _) in *. pose proof (Z.div_mod ms 1000 ltac:(lia)) as Hdm.
  pose proof (Z.mod_pos_bound ms 1000 ltac:(lia)) as Hmod.
  exists (mktime t * 1000). unfold local_unit_start. rewrite Ht, Ht'. cbn [mbind res_bind].
  rewrite !mul_i_ok by (unfold in_i; lia). split; [done|]. split; [f_equal; lia|]. lia.
Qed.

End Time.

(** ** Coordinated universal time *)

(** the days since 1970 of a date of the Gregorian calendar, and back *)
Definition days_from_civil (y m d : Z) : Z :=
  let y := if m <=? 2 then y - 1 else y in
  let yoe := y mod 400 in
  let doy := (153 * (m + (if 2 <? m then -3 else 9)) + 2) / 5 + d - 1 in
  (y / 400) * 146097 + (yoe * 365 + yoe / 4 - yoe / 100 + doy) - 719468.

Definition civil_from_days (days : Z) : Z * Z * Z :=
  let z := days + 719468 in
  let doe := z mod 146097 in
  let yoe := (doe - doe / 1460 + doe / 36524 - doe / 146096) / 365 in
  let doy := doe - (365 * yoe + yoe / 4 - yoe / 100) in
  let mp := (5 * doy + 2) / 153 in
  let m := if mp <? 10 then mp + 3 else mp - 9 in
  let y := yoe + (z / 146097) * 400 in
  (if m <=? 2 then y + 1 else y, m, doy - (153 * mp + 2) / 5 + 1).

Definition utc_time (secs : Z) : tm :=
  let rem := secs mod 86400 in
  let '(y, m, d) := civil_from_days (secs / 86400) in
  mkTm (rem mod 60) (rem / 60 mod 60) (rem / 3600) d (m - 1) (y - 1900) 0.

Definition utc_secs (t : tm) : Z :=
  (days_from_civil (tm_year t + 1900 + tm_mon t / 12) (tm_mon t mod 12 + 1) 1 + tm_mday t - 1) * 86400
  + tm_hour t * 3600 + tm_min t * 60 + tm_sec t.

#[local] Instance utc : Libc := { gmtime_r := utc_time; localtime_r := utc_time; mktime := utc_secs }.

Lemma civil_roundtrip days : let '(y, m, d) := civil_from_days days in
  days_from_civil y m d = days /\ 1 <= m <= 12 /\ 1 <= d <= 31.
Proof.
  unfold civil_from_days. set (z := days + 719468). set (doe := z mod 146097).
  set (yoe := (doe - doe / 1460 + doe / 36524 - doe / 146096) / 365).
  set (doy := doe - (365 * yoe + yoe / 4 - yoe / 100)). set (mp := (5 * doy + 2) / 153).
  assert (0 <= doe < 146097) as Hdoe by (apply Z.mod_pos_bound; lia).
  assert (0 <= yoe < 400 /\ 0 <= doy <= 365) as [Hyoe Hdoy]
    by (unfold doy, yoe; Z.to_euclidean_division_equations; lia).
  assert (0 <= mp <= 11 /\ 1 <= doy - (153 * mp + 2) / 5 + 1 <= 31) as [Hmp Hd]
    by (unfold mp; Z.to_euclidean_division_equations; lia).
  pose proof (Z.div_mod z 146097 ltac:(lia)) as Hz. fold doe in Hz.
  assert (forall y d, y = yoe + z / 146097 * 400 -> (153 * mp + 2) / 5 + d - 1 = doy ->
    y / 400 * 146097 + (y mod 400 * 365 + y mod 400 / 4 - y mod 400 / 100 + ((153 * mp + 2) / 5 + d - 1)) - 719468
    = days) as Hback.
  { intros y d -> Hd'. rewrite Z.div_add, Z.mod_add, Z.div_small, Z.mod_small by lia. rewrite Hd'.
    unfold doy. unfold z in *. lia. }
  destruct (mp <? 10) eqn:Hm; breflect; unfold days_from_civil.
  - rewrite (proj2 (Z.leb_gt (mp + 3) 2)), (proj2 (Z.ltb_lt 2 (mp + 3))) by lia.
    replace (mp + 3 + -3) with mp by lia. split; [|lia]. apply Hback; [done|lia].
  - rewrite (proj2 (Z.leb_le (mp - 9) 2)), (proj2 (Z.ltb_ge 2 (mp - 9))) by lia.
    replace (mp - 9 + 9) with mp by lia. split; [|lia].
    replace (yoe + z / 146097 * 400 + 1 - 1) with (yoe + z / 146097 * 400) by lia. apply Hback; [done|lia].
Qed.

#[local] Instance utc_zone : FixedZone utc.
Proof.
  split; cbn [localtime_r mktime utc].
  - intros secs. unfold utc_time. pose proof (civil_roundtrip (secs / 86400)) as Hc.
    destruct (civil_from_days (secs / 86400)) as [[y m] d]. cbn. destruct Hc as (_ & _ & Hd).
    Z.to_euclidean_division_equations. lia.
  - intros secs. unfold utc_time, utc_secs. pose proof (civil_roundtrip (secs / 86400)) as Hc.
    destruct (civil_from_days (secs / 86400)) as [[y m] d]. cbn. destruct Hc as (Hday & Hm & Hd).
    rewrite Z.div_small, Z.mod_small by lia. replace (y - 1900 + 1900 + 0) with y by lia.
    replace (m - 1 + 1) with m by lia.
    replace (days_from_civil y m 1 + d - 1) with (days_from_civil y m d) by (unfold days_from_civil; lia).
    rewrite Hday. clear. Z.to_euclidean_division_equations. lia.
  - intros s m h d mon y s' m' h' d'. unfold utc_secs. cbn. lia.
Qed.

Example utc_timestamp : utc_sql_timestamp_ms 1791335768592 = $"2026-10-07 01:16:08.592U".
Proof. vm_compute. reflexivity. Qed.

Lemma unit_start_bounds_witness : exists start,
  local_unit_start 1791335768592 Day 0 = Ok start /\ start = 1791331200000
  /\ start <= 1791335768592 < start + 86400 * 1000.
Proof.
  destruct (unit_start_bounds 1791335768592 Day 86400) as (start & H1 & _ & H2).
  - reflexivity.
  - lia.
  - exists start. split; [exact H1|]. split; [|exact H2]. vm_compute in H1. by injection H1 as <-.
Defined.

(** ** Log lines *)

Lemma parse_label l : parse_level (label l) = Some l.
Proof. by destruct l. Qed.
