(* ===== verification/Cli.v ===== *)
(** * Command line options

    Models [src/cli.rs]: the parser of the options of the subcommands and the
    lookup of an option by one of its names.  [CliArgs], a [BTreeMap], is a
    finite map; its keys are visited in the order of the map (by code points).
    Printing the usage and exiting the process is the result [Exit]. *)

From stdpp Require Import base list numbers option strings gmap sorting.
From Stdlib Require Import ZArith Lia.
From S2P Require Import Prelude RustStd.

Abbreviation CliArgs := (gmap str (list str)).

Record CliEntry : Type := mkEntry { names : list str; description : str }.

(** [strip_prefix('-')] *)
Definition strip_dash (arg : str) : option str :=
  match arg with c :: rest => if c =? 45 then Some rest else None | [] => None end.

Definition is_option (arg : str) : bool :=
  match strip_dash arg with
  | Some rest => bool_decide (rest = []) || negb (forallb is_ascii_digit (as_bytes rest))
  | None => false
  end.

(** the state of the loop: the options so far and the open one *)
Definition parse_arg (st : CliArgs * option str) (arg : str) : res str (CliArgs * option str) :=
  let '(params, current) := st in
  if is_option arg then
    if (str_len arg <? 2)%nat then Err ($"Error at argument " ++ arg)
    else let name := drop 1 arg in Ok (<[name := []]> params, Some name)
  else match current with
       | Some name =>
         values ← unwrap (params !! name);
         Ok (<[name := values ++ [arg]]> params, current)
       | None => Err ($"Illegal parameter usage: " ++ arg)
       end.

Definition parse_cli_opts (args : list str) : res str CliArgs :=
  '(params, _) ← foldM parse_arg (∅, None) args;
  Ok params.

Definition has_option (e : CliEntry) (args : CliArgs) : bool :=
  existsb (fun name => bool_decide (is_Some (args !! name))) (names e).

(** [filter_map(get)] then [find_map(first)] *)
Fixpoint first_value (ns : list str) (args : CliArgs) : option str :=
  match ns with
  | [] => None
  | name :: t =>
    match args !! name with
    | Some (v :: _) => Some v
    | _ => first_value t args
    end
  end.
Definition get_simple (e : CliEntry) (args : CliArgs) : option str := first_value (names e) args.

Definition render (e : CliEntry) : str :=
  [9] ++ join $", " (map (fun name => $"-" ++ name) (names e)) ++ [9; 9] ++ description e.

(** [value.parse::<T>()] is the parameter [from_str] *)
Definition parse {T : Type} (from_str : str -> option T) (e : CliEntry) (args : CliArgs)
    : res str (option T) :=
  match get_simple e args with
  | Some value =>
    match from_str value with
    | Some v => Ok (Some v)
    | None => Err ($"Error on parsing CliEntry: " ++ trim (render e) ++ $" (value: `" ++ value ++ $"`)")
    end
  | None => Ok None
  end.

Definition parse_or {T : Type} (from_str : str -> option T) (e : CliEntry) (args : CliArgs)
    (default' : T) : res str T :=
  v ← parse from_str e args; Ok (default default' v).

Definition render_list_all_option (entries : list CliEntry) : str :=
  entries ≫= fun e => render e ++ [10].

(** the keys in the order of the map *)
Definition sorted_keys (args : CliArgs) : list str := merge_sort str_le (map_to_list args).*1.

Definition first_unknown_param (args : CliArgs) (entries : list CliEntry) : option str :=
  List.find (fun name => negb (existsb (fun e => bool_decide (name ∈ names e)) entries))
    (sorted_keys args).

Inductive cli_result : Type :=
| Parsed (args : CliArgs)
| ExitWithHelp (code : Z).

Definition parse_or_help (args : list str) (entries : list CliEntry) : option cli_result :=
  match parse_cli_opts args with
  | Ok parsed =>
    match first_unknown_param parsed entries with
    | Some _ => Some (ExitWithHelp 1)
    | None => Some (Parsed parsed)
    end
  | Err _ => Some (ExitWithHelp 1)
  | Panic => None
  end.

Definition SERIAL_BAUD : CliEntry := mkEntry [$"b"; $"-baud"] $"Serial baud rate".
Definition RPC_HOST : CliEntry := mkEntry [$"h"; $"-host"] $"Rpc server IP".
Definition RPC_PORT : CliEntry := mkEntry [$"p"; $"-port"] $"Rpc port".
Definition FROM : CliEntry := mkEntry [$"f"; $"-from"] $"Uartbus from address".
Definition TO : CliEntry := mkEntry [$"t"; $"-to"] $"Uartbus to address".
Definition LOOPBACK : CliEntry := mkEntry [$"x"; $"-loopback-sent"] $"Show sent packet".
Definition WORK_DIR : CliEntry := mkEntry [$"d"; $"-working-directory"] $"Working directory".
Definition LOG_TIME : CliEntry := mkEntry [$"l"; $"-log-times"] $"Log times".
Definition RECONNECT : CliEntry := mkEntry [$"r"; $"-reconnect"] $"Reconnect".
Definition DECODE_PACKET : CliEntry := mkEntry [$"D"; $"-decode-packet"] $"Decode packet".

Definition DEFAULT_FROM_ADDRESS : Z := 63.
Definition DEFAULT_RPC_HOST : str := $"127.0.0.1".
Definition DEFAULT_RPC_PORT : Z := 2112.

Definition parse_from (args : CliArgs) : res str Z := parse_or parse_i32 FROM args DEFAULT_FROM_ADDRESS.
Definition parse_host (args : CliArgs) : str := default DEFAULT_RPC_HOST (get_simple RPC_HOST args).
Definition parse_port (args : CliArgs) : res str Z := parse_or parse_u16 RPC_PORT args DEFAULT_RPC_PORT.

(** ** Lemmas *)

(** the arguments of one option *)
Definition option_args (o : str * list str) : list str := (45 :: o.1) :: o.2.

Definition option_ok (o : str * list str) : Prop :=
  o.1 <> [] /\ is_option (45 :: o.1) = true /\ Forall (fun v => is_option v = false) o.2.

Lemma utf8_char_nonempty c : utf8_char c <> [].
Proof. unfold utf8_char. by bool_cases. Qed.

Lemma as_bytes_length s : (length s <= str_len s)%nat.
Proof.
  unfold str_len, as_bytes. induction s as [|c t IH]; [done|]. cbn [mbind list_bind length].
  rewrite length_app. destruct (utf8_char c) eqn:Hc; [by apply utf8_char_nonempty in Hc|]. cbn. lia.
Qed.

Lemma parse_values name params values more :
  Forall (fun v => is_option v = false) more -> params !! name = Some values ->
  foldM parse_arg (params, Some name) more = Ok (<[name := values ++ more]> params, Some name).
Proof.
  intros Hm. revert params values. induction Hm as [|v t Hv _ IH]; intros params values Hp; cbn [foldM].
  - rewrite app_nil_r. by rewrite insert_id.
  - cbn [parse_arg]. rewrite Hv, Hp. cbn [unwrap mbind res_bind].
    rewrite (IH _ (values ++ [v])) by apply lookup_insert_eq.
    by rewrite insert_insert_eq, <- app_assoc.
Qed.

Lemma parse_option params current o : option_ok o ->
  foldM parse_arg (params, current) (option_args o) = Ok (<[o.1 := o.2]> params, Some o.1).
Proof.
  intros (Hn & Ho & Hv). unfold option_args. cbn [foldM parse_arg]. rewrite Ho.
  rewrite (proj2 (Nat.ltb_ge _ _)).
  2: { pose proof (as_bytes_length (45 :: o.1)). destruct (o.1); [done|]. cbn in *. lia. }
  cbn [drop]. rewrite (parse_values _ _ []) by (done || apply lookup_insert_eq).
  by rewrite insert_insert_eq.
Qed.

Lemma parse_options params current os : Forall option_ok os -> NoDup os.*1 ->
  (forall o, o ∈ os.*1 -> params !! o = None) ->
  exists cur, foldM parse_arg (params, current) (os ≫= option_args)
              = Ok (list_to_map os ∪ params, cur).
Proof.
  intros Hok. revert params current. induction Hok as [|o t Ho _ IH]; intros params current Hnd Hp.
  - exists current. cbn. by rewrite map_empty_union.
  - cbn [fmap list_fmap] in Hnd. apply NoDup_cons in Hnd as [Hni Hnd].
    change ((o :: t) ≫= option_args) with (option_args o ++ (t ≫= option_args)).
    rewrite foldM_app, parse_option by done. cbn [mbind res_bind].
    destruct (IH (<[o.1 := o.2]> params) (Some o.1) Hnd) as [cur Hcur].
    { intros x Hx. rewrite lookup_insert_ne by (intros Heq; subst x; done). apply Hp. by right. }
    exists cur. unfold mbind in Hcur |- *. rewrite Hcur. do 2 f_equal. destruct o as [k v]. cbn in *.
    rewrite <- insert_union_l, insert_union_r; [done|].
    by apply not_elem_of_list_to_map_1.
Qed.

Lemma is_option_number n : is_option (show_int n) = false.
Proof.
  assert (forall d, Forall (fun c => 48 <= c <= 57) d -> forallb is_ascii_digit (as_bytes d) = true) as Hdig.
  { induction 1 as [|c t Hc _ IH]; [done|].
    change (as_bytes (c :: t)) with (utf8_char c ++ as_bytes t). rewrite forallb_app, IH, andb_true_r.
    unfold utf8_char, is_ascii_digit. rewrite (proj2 (Z.ltb_lt c 128)) by lia. cbn [forallb].
    by decide_cmp. }
  unfold show_int. destruct (n <? 0) eqn:Hn; breflect.
  - unfold is_option. cbn [strip_dash Z.eqb Pos.eqb].
    rewrite Hdig by (apply show_nat_digits; lia). by rewrite bool_decide_false by apply show_nat_nonempty.
  - pose proof (show_nat_digits n ltac:(lia)) as Hd.
    destruct (show_nat n) as [|c t] eqn:Hs; [by apply show_nat_nonempty in Hs|].
    apply Forall_cons_iff in Hd as [Hc _]. unfold is_option. cbn [strip_dash].
    by rewrite (proj2 (Z.eqb_neq c 45)) by lia.
Qed.

(** the open option is always in the map, so [get_mut(name).unwrap()] succeeds *)
Definition open_inv (st : CliArgs * option str) : Prop :=
  forall name, st.2 = Some name -> is_Some (st.1 !! name).

Lemma parse_arg_inv st arg : open_inv st ->
  match parse_arg st arg with Ok st' => open_inv st' | Err _ => True | Panic => False end.
Proof.
  destruct st as [params current]. intros Hinv. unfold parse_arg.
  destruct (is_option arg); [destruct (_ <? _)%nat; [done|]|].
  - intros name [= <-]. cbn. by rewrite lookup_insert_eq.
  - destruct current as [name|]; [|done]. destruct (Hinv name eq_refl) as [values Hv]. cbn in Hv.
    rewrite Hv. cbn. intros n [= <-]. cbn. by rewrite lookup_insert_eq.
Qed.

Lemma parse_args_inv args st : open_inv st ->
  match foldM parse_arg st args with Ok st' => open_inv st' | Err _ => True | Panic => False end.
Proof.
  revert st. induction args as [|a t IH]; intros st Hinv; [done|]. cbn [foldM].
  pose proof (parse_arg_inv st a Hinv) as Ha. destruct (parse_arg st a); [by apply IH|done..].
Qed.

Lemma parse_cli_opts_no_panic args : parse_cli_opts args <> Panic.
Proof.
  unfold parse_cli_opts. pose proof (parse_args_inv args (∅, None)) as H.
  destruct (foldM parse_arg (∅, None) args) as [[? ?]|?|]; [done..|]. by destruct H.
Qed.

Lemma elem_of_sorted_keys (name : str) (args : CliArgs) : name ∈ sorted_keys args <-> is_Some (args !! name).
Proof.
  unfold sorted_keys. rewrite (merge_sort_Permutation str_le). rewrite list_elem_of_fmap. split.
  - intros ([k v] & -> & H). apply elem_of_map_to_list in H. by exists v.
  - intros [v H]. exists (name, v). by rewrite elem_of_map_to_list.
Qed.

Lemma first_unknown_none (args : CliArgs) entries :
  first_unknown_param args entries = None
  <-> forall name, is_Some (args !! name) -> exists e, e ∈ entries /\ name ∈ names e.
Proof.
  unfold first_unknown_param. split.
  - intros Hf name Hn. apply elem_of_sorted_keys, list_elem_of_In in Hn.
    pose proof (List.find_none _ _ Hf _ Hn) as Hx. apply negb_false_iff, existsb_exists in Hx as (e & He & Hne).
    exists e. apply bool_decide_eq_true in Hne. by rewrite list_elem_of_In.
  - intros Hall. destruct (List.find _ _) as [name|] eqn:Hf; [|done]. exfalso.
    apply List.find_some in Hf as [Hin Hf]. apply list_elem_of_In, elem_of_sorted_keys in Hin.
    destruct (Hall _ Hin) as (e & He & Hne). apply negb_true_iff in Hf.
    rewrite <- not_true_iff_false, existsb_exists in Hf. apply Hf. exists e.
    split; [by apply list_elem_of_In|by apply bool_decide_eq_true].
Qed.

(** ** Properties *)

(** Option round trip.  Arguments written as options with their values
    (different names; values that do not look like options, and every integer,
    negative ones included, is such a value) are parsed to exactly the map from
    the names to the values; the parser never panics. *)
Theorem cli_roundtrip os : Forall option_ok os -> NoDup os.*1 ->
  parse_cli_opts (os ≫= option_args) = Ok (list_to_map os).
Proof.
  intros Hok Hnd. unfold parse_cli_opts.
  destruct (parse_options ∅ None os Hok Hnd) as [cur Hcur]; [intros; apply lookup_empty|].
  rewrite Hcur. cbn. by rewrite map_union_empty.
Qed.

Lemma cli_roundtrip_witness :
  parse_cli_opts ([($"t", [show_int (- 1)]); ($"-code", [$"main.hex"]); ($"n", [])] ≫= option_args)
  = Ok (list_to_map [($"t", [show_int (- 1)]); ($"-code", [$"main.hex"]); ($"n", [])]).
Proof.
  apply cli_roundtrip.
  - repeat (apply Forall_cons; split); [| | |constructor]; (split; [done|]; split; [reflexivity|]).
    + constructor; [apply is_option_number|constructor].
    + constructor; [reflexivity|constructor].
    + constructor.
  - apply (bool_decide_eq_true_1 _). vm_compute. reflexivity.
Defined.

(** A subcommand runs with the parsed options exactly when the arguments parse
    and every option given is a name of one of the entries of the subcommand;
    in every other case the usage is printed and the process exits with 1,
    and the parser never panics. *)
Theorem parse_or_help_spec args entries :
  (forall p, parse_or_help args entries = Some (Parsed p)
     <-> parse_cli_opts args = Ok p
         /\ forall name, is_Some (p !! name) -> exists e, e ∈ entries /\ name ∈ names e)
  /\ ((exists p, parse_or_help args entries = Some (Parsed p))
      \/ parse_or_help args entries = Some (ExitWithHelp 1)).
Proof.
  unfold parse_or_help. pose proof (parse_cli_opts_no_panic args) as Hnp.
  destruct (parse_cli_opts args) as [p0|e|]; [|split; [naive_solver|by right]|done].
  pose proof (first_unknown_none p0 entries) as Hn.
  destruct (first_unknown_param p0 entries); (split; [|eauto]); intros p; split.
  - done.
  - intros [[= <-] H]. by apply Hn in H.
  - intros [= <-]. split; [done|by apply Hn].
  - by intros [[= <-] _].
Qed.
