(* ===== verification/AttachProcess.v ===== *)
(** * Command lines of attached processes

    Models [translate_commandline] of [src/apps/attach_process.rs]: a command
    line is split at spaces, parts may be quoted with either quote. *)

From stdpp Require Import base list numbers option strings.
From Stdlib Require Import ZArith Lia.
From S2P Require Import Prelude RustStd.

Inductive State : Type := Normal | InQuote | InDoubleQuote.

(** the variables of the loop *)
Record Splitter : Type := mkSplitter {
  split_state : State;
  result : list str;
  current : str;
  last_token_has_been_quoted : bool;
}.

Definition split_char (s : Splitter) (c : Z) : Splitter :=
  let '(mkSplitter state result current quoted) := s in
  match state with
  | InQuote => if c =? 39 then mkSplitter Normal result current true
               else mkSplitter InQuote result (current ++ [c]) quoted
  | InDoubleQuote => if c =? 34 then mkSplitter Normal result current true
                     else mkSplitter InDoubleQuote result (current ++ [c]) quoted
  | Normal =>
    if c =? 39 then mkSplitter InQuote result current quoted
    else if c =? 34 then mkSplitter InDoubleQuote result current quoted
    else if c =? 32 then
      if quoted || negb (bool_decide (current = []))
      then mkSplitter Normal (result ++ [current]) [] false
      else mkSplitter Normal result current false
    else mkSplitter Normal result (current ++ [c]) false
  end.

Definition translate_commandline (to_process : str) : res str (list str) :=
  let '(mkSplitter state result current quoted) :=
    foldl split_char (mkSplitter Normal [] [] false) to_process in
  let result := if quoted || negb (bool_decide (current = [])) then result ++ [current] else result in
  match state with
  | Normal => Ok result
  | _ => Err ($"unbalanced quotes in " ++ to_process)
  end.

(** ** Lemmas *)

(** the ways to write a part of a command line *)
Inductive part : Type :=
| Plain (s : str)
| Single (s : str)
| Double (s : str).

Definition part_text (p : part) : str :=
  match p with
  | Plain s => s
  | Single s => [39] ++ s ++ [39]
  | Double s => [34] ++ s ++ [34]
  end.
Definition part_value (p : part) : str :=
  match p with Plain s | Single s | Double s => s end.

(** parts that stand for themselves: no quote of the own kind inside, and an
    unquoted part is not empty and has neither quotes nor spaces *)
Definition part_ok (p : part) : Prop :=
  match p with
  | Plain s => s <> [] /\ Forall (fun c => c <> 39 /\ c <> 34 /\ c <> 32) s
  | Single s => Forall (fun c => c <> 39) s
  | Double s => Forall (fun c => c <> 34) s
  end.

Definition part_quoted (p : part) : bool := match p with Plain _ => false | _ => true end.

Lemma split_plain s r cur q : Forall (fun c => c <> 39 /\ c <> 34 /\ c <> 32) s ->
  foldl split_char (mkSplitter Normal r cur q) s
  = mkSplitter Normal r (cur ++ s) (match s with [] => q | _ => false end).
Proof.
  intros Hs. revert cur q. induction Hs as [|c t (H1 & H2 & H3) _ IH]; intros cur q; cbn [foldl].
  - by rewrite app_nil_r.
  - cbn [split_char]. rewrite !(proj2 (Z.eqb_neq _ _)) by done. rewrite IH, <- app_assoc.
    by destruct t.
Qed.

Lemma split_single s r cur q : Forall (fun c => c <> 39) s ->
  foldl split_char (mkSplitter InQuote r cur q) s = mkSplitter InQuote r (cur ++ s) q.
Proof.
  intros Hs. revert cur. induction Hs as [|c t H1 _ IH]; intros cur; cbn [foldl].
  - by rewrite app_nil_r.
  - cbn [split_char]. rewrite (proj2 (Z.eqb_neq _ _)) by done. by rewrite IH, <- app_assoc.
Qed.

Lemma split_double s r cur q : Forall (fun c => c <> 34) s ->
  foldl split_char (mkSplitter InDoubleQuote r cur q) s = mkSplitter InDoubleQuote r (cur ++ s) q.
Proof.
  intros Hs. revert cur. induction Hs as [|c t H1 _ IH]; intros cur; cbn [foldl].
  - by rewrite app_nil_r.
  - cbn [split_char]. rewrite (proj2 (Z.eqb_neq _ _)) by done. by rewrite IH, <- app_assoc.
Qed.

Lemma split_part p r : part_ok p ->
  foldl split_char (mkSplitter Normal r [] false) (part_text p)
  = mkSplitter Normal r (part_value p) (part_quoted p).
Proof.
  destruct p as [s|s|s]; cbn [part_ok part_text part_value part_quoted].
  - intros [Hne Hs]. rewrite split_plain by done. by destruct s.
  - intros Hs. rewrite !foldl_app. cbn [foldl split_char Z.eqb Pos.eqb]. by rewrite split_single.
  - intros Hs. rewrite !foldl_app. cbn [foldl split_char Z.eqb Pos.eqb]. by rewrite split_double.
Qed.

Lemma part_taken p : part_ok p -> part_quoted p || negb (bool_decide (part_value p = [])) = true.
Proof. destruct p; [|done..]. intros [Hne _]. cbn. by rewrite bool_decide_false. Qed.

Lemma split_parts ps p r : Forall part_ok (ps ++ [p]) ->
  foldl split_char (mkSplitter Normal r [] false) (join [32] (map part_text (ps ++ [p])))
  = mkSplitter Normal (r ++ map part_value ps) (part_value p) (part_quoted p).
Proof.
  revert r. induction ps as [|x t IH]; intros r Hok.
  - cbn. rewrite app_nil_r. apply split_part. by apply Forall_cons_iff in Hok as [? _].
  - cbn [app] in Hok. apply Forall_cons_iff in Hok as [Hx Ht].
    assert (join [32] (map part_text ((x :: t) ++ [p]))
            = part_text x ++ [32] ++ join [32] (map part_text (t ++ [p]))) as ->
      by (by destruct t).
    rewrite !foldl_app, split_part by done. cbn [foldl split_char Z.eqb Pos.eqb].
    rewrite part_taken, IH by done. by rewrite <- app_assoc.
Qed.

(** ** Properties *)

(** Command line round trip.  Parts written one after the other with a
    space between them, each one plain or in either kind of quotes (so empty
    parts and parts with spaces too), are split back into exactly these parts. *)
Theorem commandline_roundtrip ps : Forall part_ok ps ->
  translate_commandline (join [32] (map part_text ps)) = Ok (map part_value ps).
Proof.
  intros Hok. destruct ps as [|p t _] using rev_ind; [done|].
  unfold translate_commandline. rewrite split_parts by done.
  apply Forall_app in Hok as [_ Hp]. apply Forall_cons_iff in Hp as [Hp _].
  by rewrite part_taken, map_app by done.
Qed.

Lemma commandline_roundtrip_witness :
  translate_commandline $"/bin/tool 'a b' '' -x"
  = Ok [$"/bin/tool"; $"a b"; []; $"-x"].
Proof.
  apply (commandline_roundtrip [Plain $"/bin/tool"; Single $"a b"; Single []; Plain $"-x"]).
  repeat constructor; done.
Defined.

(** the quote that is open after the text *)
Definition open_quote (state : State) (c : Z) : State :=
  match state with
  | Normal => if c =? 39 then InQuote else if c =? 34 then InDoubleQuote else Normal
  | InQuote => if c =? 39 then Normal else InQuote
  | InDoubleQuote => if c =? 34 then Normal else InDoubleQuote
  end.

(** A command line is refused exactly when a quote is still open at its end,
    and then with the whole line in the message. *)
Theorem commandline_refused line :
  translate_commandline line = Err ($"unbalanced quotes in " ++ line)
  <-> foldl open_quote Normal line <> Normal.
Proof.
  assert (forall l s, split_state (foldl split_char s l) = foldl open_quote (split_state s) l) as Hst.
  { induction l as [|c t IH]; intros s; [done|]. cbn [foldl]. rewrite IH. f_equal.
    destruct s as [[] r cur q]; cbn; by bool_cases. }
  specialize (Hst line (mkSplitter Normal [] [] false)). cbn [split_state] in Hst. rewrite <- Hst.
  unfold translate_commandline. destruct (foldl split_char _ line) as [[] r cur q]; cbn [split_state];
    split; try done.
Qed.
