(* ===== verification/Tools.v ===== *)
(** * Encodings of the bus: crc8, colon data, variable length integers

    Models [src/tools.rs].  [BigInt] values (num-bigint) are mathematical
    integers; the one function of the crate whose result is not determined by
    arithmetic, [to_bytes_be], is the operation of the class [NumBigint] with
    its documented behaviour as laws. *)

From stdpp Require Import base list numbers option strings.
From Stdlib Require Import ZArith Lia.
From S2P Require Import Prelude RustStd.

(** ** num-bigint *)

(** [BigInt::to_bytes_be().1]: the big endian bytes of the magnitude, without
    leading zero; the magnitude of zero is one zero byte. *)
Class NumBigint : Type := {
  to_bytes_be : Z -> list Z;
  to_bytes_be_bytes : forall n, bytes (to_bytes_be n);
  to_bytes_be_value : forall n, be_value (to_bytes_be n) = Z.abs n;
  to_bytes_be_zero : to_bytes_be 0 = [0];
  to_bytes_be_lead : forall n b t, to_bytes_be n = b :: t -> t <> [] -> b <> 0;
}.

(** A concrete [to_bytes_be] with the documented behaviour. *)
Definition to_bytes_be_ref (n : Z) : list Z :=
  to_be_bytes (S (Z.to_nat (Z.log2 (Z.abs n) / 8))) (Z.abs n).

Lemma log2_div8_bound m : 0 <= m -> m < 256 ^ Z.of_nat (S (Z.to_nat (Z.log2 m / 8))).
Proof.
  intros Hm. pose proof (Z.log2_nonneg m). destruct (Z.eq_dec m 0) as [->|Hm0]; [done|].
  rewrite Nat2Z.inj_succ, Z2Nat.id by zdiv_lia. change 256 with (2 ^ 8).
  rewrite <- Z.pow_mul_r by zdiv_lia.
  pose proof (Z.log2_spec m ltac:(lia)). eapply Z.lt_le_trans; [apply H0|].
  apply Z.pow_le_mono_r; zdiv_lia.
Qed.

Lemma log2_div8_lead m : 0 < m -> 256 ^ (Z.log2 m / 8) <= m.
Proof.
  intros Hm. pose proof (Z.log2_nonneg m). change 256 with (2 ^ 8).
  rewrite <- Z.pow_mul_r by zdiv_lia. pose proof (Z.log2_spec m Hm) as [Hlo _].
  etransitivity; [|apply Hlo]. apply Z.pow_le_mono_r; zdiv_lia.
Qed.

Lemma to_bytes_be_ref_lead n b t : to_bytes_be_ref n = b :: t -> t <> [] -> b <> 0.
Proof.
  unfold to_bytes_be_ref. cbn [to_be_bytes]. intros [= <- <-] Ht.
  destruct (Z.eq_dec n 0) as [->|Hn]; [by simpl in Ht|].
  pose proof (Z.log2_nonneg (Z.abs n)) as Hlog.
  pose proof (log2_div8_lead (Z.abs n) ltac:(lia)) as Hlo.
  pose proof (log2_div8_bound (Z.abs n) ltac:(lia)) as Hhi.
  rewrite Nat2Z.inj_succ, Z2Nat.id in Hhi by zdiv_lia. rewrite Z2Nat.id by zdiv_lia.
  rewrite Z.pow_succ_r in Hhi by zdiv_lia.
  set (p := 256 ^ (Z.log2 (Z.abs n) / 8)) in *.
  assert (0 < p) by (apply Z.pow_pos_nonneg; zdiv_lia).
  assert (1 <= Z.abs n / p) by (apply Z.div_le_lower_bound; lia).
  assert (Z.abs n / p < 256) by (apply Z.div_lt_upper_bound; lia).
  rewrite Z.mod_small by lia. lia.
Qed.

Definition num_bigint_ref : NumBigint.
Proof.
  refine {| to_bytes_be := to_bytes_be_ref; to_bytes_be_lead := to_bytes_be_ref_lead |}.
  - intros n. apply to_be_bytes_bytes.
  - intros n. unfold to_bytes_be_ref. rewrite be_value_to_be_bytes.
    apply Z.mod_small. split; [lia|]. apply log2_div8_bound. lia.
  - reflexivity.
Defined.

(** ** Errors *)

Inductive PackError : Type :=
| NegativeUnsignedValue
| StartIndexOutOfBounds
| DestinationTooSmall (required : nat).

Inductive UnpackError : Type :=
| IncompleteValue.

(** [Display] of the errors *)
Definition PackError_fmt (e : PackError) : str :=
  match e with
  | NegativeUnsignedValue => $"value must be unsigned"
  | StartIndexOutOfBounds => $"start index is out of bounds"
  | DestinationTooSmall required =>
      $"destination buffer is too small; required " ++ show_nat (Z.of_nat required) ++ $" bytes"
  end.

Definition UnpackError_fmt (e : UnpackError) : str :=
  match e with
  | IncompleteValue => $"incomplete variable-length value"
  end.

Inductive PacketFormattingMode : Type :=
| RawColon
| RawColonWithVerify
| ParsedPacket.

(** ** crc8 *)

(** body of the loop of [crc8_prefix] *)
Definition crc8_byte (crc byte : Z) : Z :=
  let v := Z.lxor byte crc in
  let crc := 0 in
  let crc := if negb (Z.land v 0x01 =? 0) then Z.lxor crc 0x5e else crc in
  let crc := if negb (Z.land v 0x02 =? 0) then Z.lxor crc 0xbc else crc in
  let crc := if negb (Z.land v 0x04 =? 0) then Z.lxor crc 0x61 else crc in
  let crc := if negb (Z.land v 0x08 =? 0) then Z.lxor crc 0xc2 else crc in
  let crc := if negb (Z.land v 0x10 =? 0) then Z.lxor crc 0x9d else crc in
  let crc := if negb (Z.land v 0x20 =? 0) then Z.lxor crc 0x23 else crc in
  let crc := if negb (Z.land v 0x40 =? 0) then Z.lxor crc 0x46 else crc in
  let crc := if negb (Z.land v 0x80 =? 0) then Z.lxor crc 0x8c else crc in
  crc.

Definition crc8_prefix (data : list Z) (length : nat) : Z :=
  foldl crc8_byte 0 (take length data).

Definition crc8 (data : list Z) : Z := crc8_prefix data (length data).

(** ** Colon separated bytes *)

Definition parse_colon_data (data : str) : option (list Z) :=
  mapM (fun number => v ← parse_i32 number; Some (as_u 8 (Z.land v 0xff))) (split 58 data).

Definition format_colon_data (data : list Z) : str := join $":" (map show_nat data).

(** [!data.is_empty() && crc8_prefix(data, data.len() - 1) == *data.last().unwrap()] *)
Definition last_is_crc8 (data : list Z) : bool :=
  match last data with
  | None => false
  | Some b => crc8_prefix data (length data - 1) =? b
  end.

Definition format_colon_data_with_validation (data : list Z) : str :=
  if last_is_crc8 data then format_colon_data data else $"!" ++ format_colon_data data.

Definition get_valid_packet (data : list Z) : option (list Z) :=
  if last_is_crc8 data then Some (take (length data - 1) data) else None.

Definition is_packet_crc8_valid (data : list Z) : bool := last_is_crc8 data.

(** ** Variable length integers *)

Definition strip_leading_zero (l : list Z) : list Z :=
  match l with
  | b :: (_ :: _) => if b =? 0 then drop 1 l else l
  | _ => l
  end.

(** [while last != 0 { required += 1; last >>= 1 }]: a [usize] is zero after at
    most 64 shifts *)
Fixpoint count_bits (fuel : nat) (last : Z) (required : nat) : nat :=
  match fuel with
  | O => required
  | S f => if last =? 0 then required else count_bits f (Z.shiftr last 1) (S required)
  end.

Definition calc_pack_req_bytes_bytes (signed : bool) (value : list Z) : nat :=
  match value with
  | [] => 1%nat
  | b :: _ =>
    let required := (9 * (length value - 1) + (length value - 1) / 7)%nat in
    let msb := negb (Z.land b 0x80 =? 0) in
    let required := count_bits 64 b required in
    let required := if msb then S required else required in
    let required := if signed then S required else required in
    ((required + 8) / 8)%nat
  end.

(** the bits of [magnitude] that go into the output byte, before masking *)
Definition pack_piece (magnitude : list Z) (offset index : Z) : res PackError Z :=
  if offset =? 0 then
    if 0 <=? index then idx magnitude (Z.to_nat index) else Ok 0
  else if (0 <=? index + 1) && (Z.to_nat (index + 1) <? length magnitude)%nat then
    hi ← idx magnitude (Z.to_nat (index + 1));
    let value := Z.shiftr hi (8 - offset) in
    if 0 <=? index
    then lo ← idx magnitude (Z.to_nat index); Ok (Z.lor value (Z.shiftl lo offset))
    else Ok value
  else Ok 0.

(** the continuation and sign bits of an output byte *)
Definition pack_marks (negative : option bool) (required output_index : nat) (value : Z) : Z :=
  let value := if (output_index =? required - 1)%nat then value else Z.lor value 0x80 in
  if bool_decide (negative = Some true) && (output_index =? 0)%nat
  then Z.lor value 0x40 else value.

Definition pack_step (negative : option bool) (magnitude : list Z) (required start_index : nat)
    (st : Z * Z * list Z) (output_index : nat) : res PackError (Z * Z * list Z) :=
  let '(offset, index, dst) := st in
  value ← pack_piece magnitude offset index;
  let value := Z.land value 0x7f in
  let offset := offset + 1 in
  let '(offset, index) := if offset =? 8 then (0, index + 1) else (offset, index) in
  let value := pack_marks negative required output_index value in
  dst ← set_idx dst (start_index + output_index) (as_u 8 value);
  Ok (offset, index - 1, dst).

(** The [checked_add] of the source fails only above every possible buffer
    length, with the error that the comparison with [dst.len()] gives too. *)
Definition pack_value_magnitude (negative : option bool) (magnitude dst : list Z)
    (start_index : nat) : res PackError (nat * list Z) :=
  match magnitude with
  | [] =>
    if (length dst <=? start_index)%nat then Err StartIndexOutOfBounds
    else dst ← set_idx dst start_index (if bool_decide (negative = Some true) then 0x40 else 0);
         Ok (1%nat, dst)
  | _ =>
    let required := calc_pack_req_bytes_bytes (bool_decide (is_Some negative)) magnitude in
    if (length dst <? start_index + required)%nat then Err (DestinationTooSmall required)
    else
      st ← foldM (pack_step negative magnitude required start_index)
             (0, Z.of_nat (length magnitude) - 1, dst) (rev (seq 0 required));
      Ok (required, st.2)
  end.

Section Pack.
Context {NB : NumBigint}.

Definition magnitude_bytes_for_pack (signed : bool) (value : Z)
    : res PackError (option bool * list Z) :=
  if negb signed && (value <? 0) then Err NegativeUnsignedValue
  else
    let magnitude := if signed && (value <? 0) then - value - 1 else value in
    Ok (if signed then Some (value <? 0) else None,
        strip_leading_zero (to_bytes_be magnitude)).

Definition pack_value (signed : bool) (value : Z) : res PackError (list Z) :=
  '(negative, magnitude) ← magnitude_bytes_for_pack signed value;
  let required := calc_pack_req_bytes_bytes (bool_decide (is_Some negative)) magnitude in
  let dst := replicate required 0 in
  '(_, dst) ← pack_value_magnitude negative magnitude dst 0;
  Ok dst.

Definition pack_i128 (signed : bool) (value : Z) : res PackError (list Z) :=
  pack_value signed value.

Definition pack_u128 (value : Z) : res PackError (list Z) := pack_value false value.

(** the new content of [dst] comes with the returned length *)
Definition pack_value_into (signed : bool) (value : Z) (dst : list Z) (start_index : nat)
    : res PackError (nat * list Z) :=
  '(negative, magnitude) ← magnitude_bytes_for_pack signed value;
  let required := calc_pack_req_bytes_bytes (bool_decide (is_Some negative)) magnitude in
  if (length dst <? start_index)%nat then Err StartIndexOutOfBounds
  else if (length dst <? start_index + required)%nat then Err (DestinationTooSmall required)
  else
    '(_, dst) ← pack_value_magnitude negative magnitude dst start_index;
    Ok (required, dst).
End Pack.

(** the first loop of [unpack_value]: [rest] is [data[start_index + used - 1..]] *)
Fixpoint unpack_used (rest : list Z) (used : nat) : option nat :=
  match rest with
  | [] => None
  | byte :: t => if Z.land byte 0x80 =? 0 then Some used else unpack_used t (S used)
  end.

Definition unpack_value (signed : bool) (data : list Z) (start_index : nat)
    : res UnpackError (Z * nat) :=
  used ← ok_or (unpack_used (drop start_index data) 1) IncompleteValue;
  let first_cut := if signed then 0x3f else 0x7f in
  magnitude ← foldM (fun magnitude offset =>
      byte ← idx data (start_index + offset);
      let mask := if (offset =? 0)%nat then first_cut else 0x7f in
      Ok (magnitude * 128 + Z.land byte mask)) 0 (seq 0 used);
  first ← idx data start_index;
  let result := if signed && negb (Z.land first 0x40 =? 0) then - magnitude - 1 else magnitude in
  Ok (result, used).

(** ** crc8: lemmas *)

(** The reference: the bitwise Dallas/Maxim crc8 (reflected polynomial 0x8c). *)
Definition crc8_bit (c : Z) : Z :=
  if Z.odd c then Z.lxor (Z.shiftr c 1) 0x8c else Z.shiftr c 1.
Definition crc8_bitwise_byte (crc byte : Z) : Z := Nat.iter 8 crc8_bit (Z.lxor byte crc).

Lemma lxor_u8 a b : is_u8 a -> is_u8 b -> is_u8 (Z.lxor a b).
Proof.
  intros Ha Hb. pose proof (u8_forall2 (fun a b =>
    (0 <=? Z.lxor a b) && (Z.lxor a b <? 256)) ltac:(vm_compute; reflexivity) a b Ha Hb).
  cbv beta in *. breflect. by split.
Qed.

Lemma crc8_byte_xor crc byte : crc8_byte crc byte = crc8_byte 0 (Z.lxor byte crc).
Proof. unfold crc8_byte at 2. by rewrite Z.lxor_0_r. Qed.

Lemma crc8_byte_table v :
  is_u8 v -> is_u8 (crc8_byte 0 v) /\ crc8_byte 0 v = Nat.iter 8 crc8_bit v
             /\ (crc8_byte 0 v = 0 -> v = 0).
Proof.
  intros Hv.
  pose proof (u8_forall (fun v => (0 <=? crc8_byte 0 v) && (crc8_byte 0 v <? 256)
    && (crc8_byte 0 v =? Nat.iter 8 crc8_bit v)
    && implb (crc8_byte 0 v =? 0) (v =? 0)) ltac:(vm_compute; reflexivity) v Hv) as H.
  cbv beta in H. breflect. repeat split; lia.
Qed.

Lemma crc8_byte_inj a b : is_u8 a -> is_u8 b -> crc8_byte 0 a = crc8_byte 0 b -> a = b.
Proof.
  intros Ha Hb Heq. pose proof (u8_forall2 (fun a b =>
    implb (crc8_byte 0 a =? crc8_byte 0 b) (a =? b)) ltac:(vm_compute; reflexivity) a b Ha Hb) as H.
  cbv beta in H. rewrite (proj2 (Z.eqb_eq _ _) Heq) in H. by apply Z.eqb_eq.
Qed.

Lemma crc8_byte_u8 crc b : is_u8 crc -> is_u8 b -> is_u8 (crc8_byte crc b).
Proof.
  intros. rewrite crc8_byte_xor. by apply (crc8_byte_table _), lxor_u8.
Qed.

Lemma foldl_crc8_u8 l crc : is_u8 crc -> bytes l -> is_u8 (foldl crc8_byte crc l).
Proof.
  intros Hc Hl. revert crc Hc. induction Hl as [|b t Hb _ IH]; intros crc Hc; simpl; [done|].
  by apply IH, crc8_byte_u8.
Qed.

Lemma crc8_unfold l : crc8 l = foldl crc8_byte 0 l.
Proof. unfold crc8, crc8_prefix. by rewrite take_ge. Qed.

Lemma crc8_u8 l : bytes l -> is_u8 (crc8 l).
Proof. intros. rewrite crc8_unfold. apply foldl_crc8_u8; [unfold is_u8; lia|done]. Qed.
#[export] Hint Resolve crc8_u8 : ub.

Lemma lxor_cancel a b : Z.lxor a b = 0 -> a = b.
Proof. apply Z.lxor_eq. Qed.

(** A packet is valid exactly when the crc8 of the whole packet is zero. *)
Lemma last_is_crc8_residue data : bytes data ->
  last_is_crc8 data = true <-> data <> [] /\ foldl crc8_byte 0 data = 0.
Proof.
  intros Hd. unfold last_is_crc8.
  destruct (decide (data = [])) as [->|Hne].
  { simpl. split; [done|]. by intros [? _]. }
  destruct (exists_last Hne) as (l & c & ->). apply bytes_app in Hd as [Hl Hc].
  apply bytes_cons in Hc as [Hc _].
  rewrite last_snoc. unfold crc8_prefix. rewrite length_app. simpl.
  rewrite Nat.add_sub, take_app_length, foldl_app. simpl. rewrite Z.eqb_eq.
  assert (is_u8 (foldl crc8_byte 0 l)) by (apply foldl_crc8_u8; [unfold is_u8; lia|done]).
  rewrite crc8_byte_xor. split.
  - intros <-. rewrite Z.lxor_nilpotent. split; [by destruct l|done].
  - intros [_ Hz]. apply crc8_byte_table in Hz; [|by apply lxor_u8].
    symmetry. by apply lxor_cancel.
Qed.

(** Different states stay different under the same bytes. *)
Lemma foldl_crc8_inj l c1 c2 : bytes l -> is_u8 c1 -> is_u8 c2 ->
  foldl crc8_byte c1 l = foldl crc8_byte c2 l -> c1 = c2.
Proof.
  intros Hl. revert c1 c2. induction Hl as [|b t Hb _ IH]; intros c1 c2 H1 H2; simpl; [done|].
  intros Heq. apply IH in Heq; [|by apply crc8_byte_u8..].
  rewrite crc8_byte_xor, (crc8_byte_xor c2) in Heq.
  apply crc8_byte_inj in Heq; [|by apply lxor_u8..].
  apply (f_equal (Z.lxor b)) in Heq.
  by rewrite <- !Z.lxor_assoc, Z.lxor_nilpotent, !Z.lxor_0_l in Heq.
Qed.

(** A packet built by appending its crc8 is valid, and it is given back without it. *)
Lemma last_is_crc8_append l : last_is_crc8 (l ++ [crc8 l]) = true.
Proof.
  unfold last_is_crc8. rewrite last_snoc, length_app. simpl.
  unfold crc8_prefix. rewrite Nat.add_sub, take_app_length, <- crc8_unfold.
  apply Z.eqb_refl.
Qed.

Lemma get_valid_packet_append l : get_valid_packet (l ++ [crc8 l]) = Some l.
Proof.
  unfold get_valid_packet. rewrite last_is_crc8_append, length_app. simpl.
  by rewrite Nat.add_sub, take_app_length.
Qed.

Lemma get_valid_packet_Some data l : get_valid_packet data = Some l -> data = l ++ [crc8 l].
Proof.
  unfold get_valid_packet, last_is_crc8. destruct (decide (data = [])) as [->|Hne]; [done|].
  destruct (exists_last Hne) as (p & c & ->). rewrite last_snoc, length_app. simpl.
  rewrite Nat.add_sub. unfold crc8_prefix. rewrite take_app_length, <- crc8_unfold.
  destruct (crc8 p =? c) eqn:Hc; [|done]. breflect. subst c. by intros [= <-].
Qed.

(** ** Colon data: lemmas *)

Lemma split_no_sep sep s : Forall (fun c => c <> sep) s -> split sep s = [s].
Proof.
  induction 1 as [|c t Hc _ IH]; simpl; [done|].
  rewrite (proj2 (Z.eqb_neq _ _) Hc). by rewrite IH.
Qed.

Lemma split_app sep s t : Forall (fun c => c <> sep) s ->
  split sep (s ++ sep :: t) = s :: split sep t.
Proof.
  induction 1 as [|c u Hc _ IH]; simpl; [by rewrite Z.eqb_refl|].
  rewrite (proj2 (Z.eqb_neq _ _) Hc). by rewrite IH.
Qed.

Lemma split_join sep ps : ps <> [] -> Forall (Forall (fun c => c <> sep)) ps ->
  split sep (join [sep] ps) = ps.
Proof.
  intros Hne Hps. induction Hps as [|p t Hp Ht IH]; [done|].
  destruct t as [|q t]; [by apply split_no_sep|].
  change (join [sep] (p :: q :: t)) with (p ++ sep :: join [sep] (q :: t)).
  rewrite split_app by done. f_equal. by apply IH.
Qed.

Lemma show_nat_no_colon n : 0 <= n -> Forall (fun c => c <> 58) (show_nat n).
Proof. intros Hn. eapply Forall_impl; [by apply show_nat_digits|]. simpl. intros. lia. Qed.

Lemma show_int_nonneg n : 0 <= n -> show_int n = show_nat n.
Proof. intros. unfold show_int. by rewrite (proj2 (Z.ltb_ge _ _)). Qed.

Lemma parse_i32_show_u8 b : is_u8 b -> parse_i32 (show_nat b) = Some b.
Proof.
  unfold is_u8. intros Hb. rewrite <- show_int_nonneg by lia. apply parse_show_int; lia.
Qed.

Lemma land_255_u8 b : is_u8 b -> as_u 8 (Z.land b 0xff) = b.
Proof.
  intros Hb. apply Z.eqb_eq.
  apply (u8_forall (fun b => as_u 8 (Z.land b 0xff) =? b)); [vm_compute; reflexivity|done].
Qed.

Lemma parse_format_colon data : bytes data -> data <> [] ->
  parse_colon_data (format_colon_data data) = Some data.
Proof.
  intros Hd Hne. unfold parse_colon_data, format_colon_data.
  change $":" with [58]. rewrite split_join.
  - clear Hne. induction Hd as [|b t Hb _ IH]; [done|].
    cbn [map mapM]. rewrite parse_i32_show_u8 by done. cbn [mbind option_bind].
    by rewrite land_255_u8, IH.
  - by destruct data.
  - rewrite Forall_map. eapply Forall_impl; [exact Hd|].
    intros b Hb. apply show_nat_no_colon. unfold is_u8 in Hb. lia.
Qed.

(** ** Properties *)

(** C29: Crc8 equivalence.  The unrolled, branch-per-bit [crc8] of the tool is
    the bitwise Dallas/Maxim crc8 (reflected polynomial 0x8c, initial value 0)
    that the devices on the bus compute, on every byte sequence. *)
Theorem crc8_is_bitwise data : bytes data -> crc8 data = foldl crc8_bitwise_byte 0 data.
Proof.
  intros Hd. rewrite crc8_unfold.
  assert (is_u8 0) as H0 by (unfold is_u8; lia). revert H0. generalize 0 as c.
  induction Hd as [|b t Hb _ IH]; intros c Hc; [done|]. cbn [foldl].
  rewrite IH by by apply crc8_byte_u8. f_equal. rewrite crc8_byte_xor.
  apply crc8_byte_table. by apply lxor_u8.
Qed.

Lemma crc8_is_bitwise_witness : crc8 [1; 5; 63; 1; 0] = foldl crc8_bitwise_byte 0 [1; 5; 63; 1; 0].
Proof. apply crc8_is_bitwise. repeat constructor; lia. Defined.

(** C23: Error detection.  Changing any one byte of a valid packet (whatever
    its position, the crc byte included) makes the packet invalid, so
    [get_valid_packet] refuses it. *)
Theorem crc8_detects_byte_error pre b b' post :
  bytes (pre ++ b :: post) -> is_u8 b' -> b <> b' ->
  is_packet_crc8_valid (pre ++ b :: post) = true ->
  is_packet_crc8_valid (pre ++ b' :: post) = false /\ get_valid_packet (pre ++ b' :: post) = None.
Proof.
  intros Hd Hb' Hne Hv. unfold is_packet_crc8_valid, get_valid_packet in *.
  enough (last_is_crc8 (pre ++ b' :: post) = false) as -> by done.
  apply not_true_iff_false. intros Hv'.
  apply bytes_app in Hd as [Hpre Hd]. apply bytes_cons in Hd as [Hb Hpost].
  apply last_is_crc8_residue in Hv as [_ Hv]; [|by rewrite bytes_app, bytes_cons].
  apply last_is_crc8_residue in Hv' as [_ Hv']; [|by rewrite bytes_app, bytes_cons].
  rewrite foldl_app in Hv, Hv'. simpl in Hv, Hv'.
  set (s := foldl crc8_byte 0 pre) in *.
  assert (is_u8 s) as Hs by (apply foldl_crc8_u8; [unfold is_u8; lia|done]).
  rewrite <- Hv in Hv'. apply foldl_crc8_inj in Hv'; [|done|by apply crc8_byte_u8..].
  rewrite crc8_byte_xor, (crc8_byte_xor s b) in Hv'.
  apply crc8_byte_inj in Hv'; [|by apply lxor_u8..]. apply Hne.
  apply (f_equal (fun x => Z.lxor x s)) in Hv'.
  by rewrite !Z.lxor_assoc, Z.lxor_nilpotent, !Z.lxor_0_r in Hv'.
Qed.

Lemma crc8_detects_byte_error_witness :
  is_packet_crc8_valid [1; 5; 63; 1; 0; crc8 [1; 5; 63; 1; 0]] = true
  /\ is_packet_crc8_valid [1; 5; 62; 1; 0; crc8 [1; 5; 63; 1; 0]] = false.
Proof.
  split; [vm_compute; reflexivity|].
  apply (crc8_detects_byte_error [1; 5] 63 62 [1; 0; crc8 [1; 5; 63; 1; 0]]);
    [apply (bool_decide_eq_true_1 _); vm_compute; reflexivity|unfold is_u8; lia|lia|vm_compute; reflexivity].
Defined.

(** Colon notation round trip.  A non-empty byte sequence printed as
    colon separated decimal numbers is parsed back to the same bytes; with the
    validation mark the printed text is the same when the last byte is the
    crc8 of the others, and otherwise it is refused by the parser. *)
Theorem colon_roundtrip data : bytes data -> data <> [] ->
  parse_colon_data (format_colon_data data) = Some data
  /\ parse_colon_data (format_colon_data_with_validation data)
     = if is_packet_crc8_valid data then Some data else None.
Proof.
  intros Hd Hne. pose proof (parse_format_colon data Hd Hne) as Hp. split; [done|].
  unfold format_colon_data_with_validation, is_packet_crc8_valid.
  destruct (last_is_crc8 data); [done|].
  destruct data as [|b t]; [done|]. apply bytes_cons in Hd as [Hb Ht].
  unfold is_u8 in Hb.
  assert (exists u ps, split 58 ($"!" ++ format_colon_data (b :: t)) = (33 :: u) :: ps) as
    (u & ps & Hs).
  { change ($"!" ++ format_colon_data (b :: t)) with (33 :: format_colon_data (b :: t)).
    cbn [split Z.eqb Pos.eqb]. destruct (split 58 _); eauto. }
  unfold parse_colon_data. rewrite Hs. cbn [mapM].
  assert (parse_i32 (33 :: u) = None) as ->; [|done].
  assert (parse_digits (33 :: u) = None) as Hn.
  { rewrite parse_digits_unfold. cbn [foldl digit_step mbind option_bind].
    change (to_digit10 33) with (@None Z). cbn [option_bind].
    induction u as [|c u IH] in |- *; [done|]. apply IH. }
  unfold parse_i32, parse_int. cbn [Z.eqb Pos.eqb orb andb]. by rewrite Hn.
Qed.

Lemma colon_roundtrip_witness :
  parse_colon_data (format_colon_data [1; 0; 255]) = Some [1; 0; 255]
  /\ parse_colon_data (format_colon_data_with_validation [1; 0; 255]) = None.
Proof.
  pose proof (colon_roundtrip [1; 0; 255] ltac:(repeat constructor; lia) ltac:(done)) as [H1 H2].
  split; [exact H1|]. rewrite H2. vm_compute. reflexivity.
Defined.
