(* ===== verification/Apps.v ===== *)
(** * What the commands share

    Models [src/apps/mod.rs] and [src/main.rs]: the table of the commands and
    their dispatch, the options for the RPC server, percentages, hex text and the
    interruptible sleep.  An [f64] is a [spec_float] of the Standard Library with
    53 bits of precision; [{:.2}] prints its exact value, rounded to the nearest
    hundredth, ties to even.  The entry point of a command is its name. *)

From stdpp Require Import base list numbers option strings gmap.
From Stdlib Require Import ZArith Lia SpecFloat.
From S2P Require Import Prelude RustStd Cli Tools.

(** ** The commands *)

(** the entry points, by the module of the source *)
Inductive entry_point : Type :=
| RpcServerMain | ConsoleMain | PingMain | PacketlossMain | CollisionMain | UploadMain | IhexMain | BlinkMain
| LogSqlMain | LogFileMain | AttachProcessMain | GrabMain | RebootMain | VersionMain | ServiceMain.

Definition COMMANDS : list (str * entry_point * str) :=
  [($"rpcServer", RpcServerMain, $"Connects the bus gateway and serves the bus to the other commands on TCP");
   ($"console", ConsoleMain, $"Shows the packets of the bus and sends the ones typed in");
   ($"ping", PingMain, $"Sends ping packets to a device");
   ($"packetloss", PacketlossMain, $"Measures the packet loss between the gateway and a device");
   ($"collisionPacketloss", CollisionMain,
    $"Measures loss and duplication when every device answers a broadcast");
   ($"upload", UploadMain, $"Uploads application code (Intel HEX) into a device");
   ($"ihex", IhexMain, $"Intel HEX utilities: validate, size, replace_interrupts");
   ($"blink", BlinkMain, $"Toggles the user led of a device periodically");
   ($"logSql", LogSqlMain, $"Saves the packets of the bus into an SQL table");
   ($"logFile", LogFileMain, $"Saves the packets of the bus into rotated log files");
   ($"attachProcess", AttachProcessMain, $"Connects the stdin/stdout of a program to the bus");
   ($"grab", GrabMain, $"Restarts a device and keeps it in the host program (application not started)");
   ($"reboot", RebootMain, $"Restarts a device");
   ($"version", VersionMain, $"Prints the version");
   ($"service", ServiceMain, $"Services provided on the bus by this machine: ftp")].

(** what a command prints to the two outputs *)
Inductive output : Type :=
| Stdout (line : str)
| Stderr (text : str).

(** [version]: the version of the package *)
Definition version_main (version : str) : list output := [Stdout $"Uartbus Cli version: "; Stdout version].

Definition render_command_list : str :=
  $"Usage: ub <command> [options]" ++ [10; 10] ++ $"Commands:" ++ [10]
  ++ (COMMANDS ≫= fun '(name, _, description) => [9] ++ name ++ [9; 9] ++ description ++ [10]).

Inductive dispatched_to : Type :=
| RunCommand (a : entry_point) (args : list str)
| ExitWith (code : Z) (err : str).

(** [main] up to the start of the command *)
Definition dispatch_command (args : list str) : dispatched_to :=
  match args with
  | [] => ExitWith 1 render_command_list
  | name :: rest =>
    match List.find (fun '(command, _, _) => bool_decide (command = name)) COMMANDS with
    | Some (_, command, _) => RunCommand command rest
    | None => ExitWith 1 ($"Method not found: " ++ name ++ [10; 10] ++ render_command_list)
    end
  end.

(** the rest of [main]: the exit code and what is printed for the result of the command *)
Definition command_exit (result : res str unit) : option (Z * list output) :=
  match result with
  | Ok _ => Some (0, [])
  | Err err => Some (1, [Stderr err])
  | Panic => None
  end.

(** ** Options *)

Definition print_packet_stdout (data : list Z) : list output :=
  match data with
  | [] => []
  | _ => [Stdout ((if is_packet_crc8_valid data then [] else $"!") ++ format_colon_data data)]
  end.

(** the address of the RPC server, and with [from] the one of the bus *)
Definition open_cli_endpoint (args : CliArgs) : res str (str * Z) :=
  port ← parse_port args; Ok (parse_host args, port).

Definition cli_bus_connect (args : CliArgs) : res str (str * Z * Z) :=
  port ← parse_port args; from ← parse_from args; Ok (parse_host args, port, from).

(** the attribute that the initializer sets on a new connection, if any *)
Definition loopback_initializer (args : CliArgs) : option (str * str) :=
  if has_option LOOPBACK args then Some ($"loopback_send_packets", $"true") else None.

(** ** Percentages *)

Definition f64_of (n : Z) : spec_float := binary_normalize 53 1024 n 0 false.
Definition f64_mul : spec_float -> spec_float -> spec_float := SFmul 53 1024.
Definition f64_div : spec_float -> spec_float -> spec_float := SFdiv 53 1024.

(** [100.0 * part as f64 / whole as f64] *)
Definition percent (part whole : Z) : spec_float := f64_div (f64_mul (f64_of 100) (f64_of part)) (f64_of whole).

(** [n / d] rounded to the nearest integer, ties to even *)
Definition round_half_even (n d : Z) : Z :=
  let q := n / d in
  let r := n mod d in
  if (2 * r <? d) || ((2 * r =? d) && Z.even q) then q else q + 1.

(** the hundredths of [m * 2^e] *)
Definition hundredths (m e : Z) : Z :=
  if 0 <=? e then 100 * m * 2 ^ e else round_half_even (100 * m) (2 ^ (- e)).

Definition show_hundredths (q : Z) : str :=
  show_nat (q / 100) ++ $"." ++ [48 + q / 10 mod 10; 48 + q mod 10].

(** [{:.2}] *)
Definition show_fixed2 (n : spec_float) : str :=
  match n with
  | S754_zero s => (if s then $"-" else []) ++ $"0.00"
  | S754_infinity s => if s then $"-inf" else $"inf"
  | S754_nan => $"NaN"
  | S754_finite s m e => (if s then $"-" else []) ++ show_hundredths (hundredths (Zpos m) e)
  end.

Definition format_double (n : spec_float) : str :=
  let text := trim_end_matches 46 (trim_end_matches 48 (show_fixed2 n)) in
  if bool_decide (text = []) || bool_decide (text = $"-") || bool_decide (text = $"-0") then $"0" else text.

Example format_double_tests :
  map format_double [f64_of 100; f64_of 0; percent 1 3; percent 1 8; f64_div (f64_of 1) (f64_of 1000)]
  = [$"100"; $"0"; $"33.33"; $"12.5"; $"0"].
Proof. vm_compute. reflexivity. Qed.

(** ** Hex text *)

Definition to_hex (data : list Z) : str := data ≫= hex02_lower.

(** ** Signals *)

Inductive signal : Type := SIGINT | SIGTERM.

(** the signals that have the handler, and the flag *)
Record Signals : Type := mkSignals { handled : list signal; INTERRUPTED : bool }.

Definition signals_new : Signals := mkSignals [] false.

#[export] Instance signal_eq_dec : EqDecision signal.
Proof. solve_decision. Defined.

Definition on_interrupt (s : Signals) : Signals := mkSignals (handled s) true.
Definition catch_interrupt (s : Signals) : Signals := mkSignals (SIGTERM :: SIGINT :: handled s) (INTERRUPTED s).
Definition is_interrupted (s : Signals) : bool := INTERRUPTED s.

(** a signal arrives: without the handler it ends the process ([None]) *)
Definition deliver (x : signal) (s : Signals) : option Signals :=
  if bool_decide (x ∈ handled s) then Some (on_interrupt s) else None.

Fixpoint deliver_all (l : list signal) (s : Signals) : option Signals :=
  match l with [] => Some s | x :: t => s ← deliver x s; deliver_all t s end.

(** ** Sleeping *)

(** [interrupted k]: the flag at its k-th reading; the result and the steps that were slept,
    [None] when the fuel is used up *)
Fixpoint sleep_loop (fuel : nat) (interrupted : nat -> bool) (k : nat) (left : Z) : option (list Z * nat) :=
  match fuel with
  | O => None
  | S fuel =>
    if 0 <? left then
      if interrupted k then Some ([], S k)
      else
        let step := Z.min left 50 in
        '(steps, k) ← sleep_loop fuel interrupted (S k) (left - step); Some (step :: steps, k)
    else Some ([], k)
  end.

Definition sleep_interruptible (fuel : nat) (interrupted : nat -> bool) (ms : Z) : option (bool * list Z) :=
  '(steps, k) ← sleep_loop fuel interrupted 0 ms; Some (negb (interrupted k), steps).

(** ** Lemmas *)

Lemma round_half_even_nearest n d (q := round_half_even n d) : 0 < d ->
  - d <= 2 * n - 2 * q * d <= d /\ (Z.abs (2 * n - 2 * q * d) = d -> Z.even q = true).
Proof.
  intros Hd. unfold q, round_half_even. pose proof (Z.div_mod n d ltac:(lia)) as Hn.
  pose proof (Z.mod_pos_bound n d Hd) as Hr. set (k := n / d) in *. set (r := n mod d) in *.
  destruct (Z.ltb_spec (2 * r) d); cbn [orb]; [split; lia|].
  destruct (Z.eqb_spec (2 * r) d) as [Ht|Ht]; cbn [andb].
  - destruct (Z.even k) eqn:He; [split; [lia|done]|]. split; [lia|]. intros _.
    rewrite Z.even_add, He. reflexivity.
  - split; lia.
Qed.

(** the fuel and the steps of a sleep without interruption *)
Lemma sleep_loop_full n interrupted k left : 0 <= left <= 50 * Z.of_nat n ->
  (forall i, interrupted i = false) -> exists steps k', sleep_loop (S n) interrupted k left = Some (steps, k')
    /\ foldr Z.add 0 steps = left /\ Forall (fun s => 0 < s <= 50) steps.
Proof.
  revert k left. induction n as [|n IH]; intros k left Hl Hi; cbn [sleep_loop].
  - destruct (Z.ltb_spec 0 left); [lia|]. exists [], k. split; [done|]. split; [cbn; lia|constructor].
  - destruct (Z.ltb_spec 0 left) as [Hlt|Hge].
    + rewrite Hi. destruct (IH (S k) (left - Z.min left 50)) as (steps & k' & Hs & Hsum & Hall); [lia|done|].
      cbn [sleep_loop] in Hs. rewrite Hs. cbn. eexists (_ :: steps), k'. split; [reflexivity|].
      split; [cbn; lia|]. constructor; [lia|done].
    + exists [], k. split; [done|]. split; [cbn; lia|constructor].
Qed.

(** every sleep ends, within one turn per 50 milliseconds and one more *)
Lemma sleep_loop_total n interrupted k left : left <= 50 * Z.of_nat n ->
  exists steps k', sleep_loop (S n) interrupted k left = Some (steps, k') /\ foldr Z.add 0 steps <= Z.max 0 left.
Proof.
  revert k left. induction n as [|n IH]; intros k left Hl; cbn [sleep_loop].
  - destruct (Z.ltb_spec 0 left); [lia|]. exists [], k. split; [done|]. cbn. lia.
  - destruct (Z.ltb_spec 0 left) as [Hlt|Hge]; [|exists [], k; split; [done|cbn; lia]].
    destruct (interrupted k); [exists [], (S k); split; [done|cbn; lia]|].
    destruct (IH (S k) (left - Z.min left 50)) as (steps & k' & Hs & Hsum); [lia|].
    cbn [sleep_loop] in Hs. rewrite Hs. cbn. eexists _, _. split; [reflexivity|]. cbn. lia.
Qed.

(** ** Properties *)

(** The table of commands.  The names are distinct, and a command line is
    given to the command of its first word with the words after it; any other
    first word, and an empty command line, exit with status 1. *)
Theorem command_dispatch : NoDup (map (fun c => c.1.1) COMMANDS)
  /\ (forall name a description rest, (name, a, description) ∈ COMMANDS ->
        dispatch_command (name :: rest) = RunCommand a rest)
  /\ (forall name rest, name ∉ map (fun c => c.1.1) COMMANDS ->
        exists err, dispatch_command (name :: rest) = ExitWith 1 err)
  /\ dispatch_command [] = ExitWith 1 render_command_list.
Proof.
  split; [apply (bool_decide_eq_true_1 _); vm_compute; reflexivity|]. split; [|split; [|done]].
  - intros name a description rest Hin.
    repeat (apply elem_of_cons in Hin as [[= -> -> ->]|Hin]; [reflexivity|]). by apply elem_of_nil in Hin.
  - intros name rest Hno. unfold dispatch_command.
    destruct (List.find _ COMMANDS) as [[[c a] d]|] eqn:Hf; [|by eexists].
    apply List.find_some in Hf as [Hin Hc]. apply bool_decide_eq_true in Hc as ->. destruct Hno.
    apply (list_elem_of_fmap_2 (fun c => c.1.1) COMMANDS (name, a, d)). by apply list_elem_of_In.
Qed.

(** Percentages.  A finite number is printed as the nearest number of
    hundredths: the text is the whole part and two digits of [q] hundredths, and
    [q] differs from the exact value by at most half a hundredth. *)
Theorem show_fixed2_nearest s m e : exists q, 0 <= q
  /\ show_fixed2 (S754_finite s m e) = (if s then $"-" else []) ++ show_nat (q / 100) ++ $"."
       ++ [48 + q / 10 mod 10; 48 + q mod 10]
  /\ (0 <= e -> q = 100 * (Zpos m * 2 ^ e))
  /\ (e < 0 -> - 2 ^ (- e) <= 2 * (100 * Zpos m) - 2 * q * 2 ^ (- e) <= 2 ^ (- e)).
Proof.
  exists (hundredths (Zpos m) e). unfold hundredths. split.
  - destruct (Z.leb_spec 0 e); [lia|]. pose proof (Z.pow_pos_nonneg 2 (- e)).
    destruct (round_half_even_nearest (100 * Zpos m) (2 ^ (- e))) as [Hq _]; [lia|]. nia.
  - split; [done|]. destruct (Z.leb_spec 0 e); split; intros He; try lia.
    apply round_half_even_nearest. pose proof (Z.pow_pos_nonneg 2 (- e)). lia.
Qed.

(** After [catch_interrupt] no number of signals ends the process, and the flag
    tells whether there was one; before it the first signal ends the process. *)
Theorem signals_caught l s : handled s = [] ->
  deliver_all l (catch_interrupt s)
  = Some (mkSignals [SIGTERM; SIGINT] (INTERRUPTED s || negb (bool_decide (l = []))))
  /\ (l <> [] -> deliver_all l s = None).
Proof.
  intros Hs. split.
  - unfold catch_interrupt. rewrite Hs. generalize (INTERRUPTED s). induction l as [|x t IH]; intros b.
    + cbn. by rewrite orb_false_r.
    + cbn [deliver_all deliver handled]. unfold deliver. cbn [handled].
      rewrite bool_decide_true by (destruct x; rewrite !elem_of_cons; auto). cbn. unfold on_interrupt. cbn. rewrite IH.
      by rewrite !orb_true_r.
  - destruct l as [|x t]; [done|]. intros _. cbn. unfold deliver. rewrite Hs.
    by rewrite bool_decide_false by apply not_elem_of_nil.
Qed.

Lemma signals_caught_witness :
  deliver_all [SIGINT; SIGINT] (catch_interrupt signals_new) = Some (mkSignals [SIGTERM; SIGINT] true)
  /\ deliver_all [SIGTERM] signals_new = None.
Proof.
  split.
  - exact (proj1 (signals_caught [SIGINT; SIGINT] signals_new eq_refl)).
  - apply (proj2 (signals_caught [SIGTERM] signals_new eq_refl)). discriminate.
Defined.

(** The interruptible sleep ends after at most one turn per 50 milliseconds
    and one more, never sleeps longer than asked, and sleeps exactly the time
    that was asked and returns [true] when nobody interrupts it. *)
Theorem sleep_interruptible_ends ms interrupted (fuel := S (Z.to_nat ((ms + 49) / 50))) : 0 <= ms ->
  (exists r steps, sleep_interruptible fuel interrupted ms = Some (r, steps) /\ foldr Z.add 0 steps <= ms)
  /\ ((forall k, interrupted k = false) -> exists steps,
       sleep_interruptible fuel interrupted ms = Some (true, steps) /\ foldr Z.add 0 steps = ms).
Proof.
  intros Hms. assert (ms <= 50 * Z.of_nat (Z.to_nat ((ms + 49) / 50))) as Hb.
  { rewrite Z2Nat.id by (apply Z.div_pos; lia). Z.to_euclidean_division_equations. lia. }
  unfold sleep_interruptible, fuel. split.
  - destruct (sleep_loop_total _ interrupted 0 ms Hb) as (steps & k & -> & Hs). cbn.
    eexists _, steps. split; [reflexivity|]. lia.
  - intros Hi. destruct (sleep_loop_full _ interrupted 0 ms (conj Hms Hb) Hi) as (steps & k & -> & Hs & _).
    exists steps. cbn. by rewrite Hi.
Qed.

Lemma sleep_interruptible_ends_witness :
  exists steps, sleep_interruptible 4 (fun _ => false) 120 = Some (true, steps) /\ foldr Z.add 0 steps = 120.
Proof. exact (proj2 (sleep_interruptible_ends 120 (fun _ => false) ltac:(lia)) (fun _ => eq_refl)). Defined.
