(* ===== verification/AttachApp.v ===== *)
(** * Attaching a process to the bus

    Models [main] of [src/apps/attach_process.rs]: the options, the process that
    is started, and the two directions between its standard streams and the bus.
    Starting a process, the lines it prints and what a send returns are
    parameters. *)

From stdpp Require Import base list numbers option strings.
From Stdlib Require Import ZArith Lia.
From S2P Require Import Prelude RustStd Cli AttachProcess Tools Apps.

Definition PROGRAM : CliEntry := mkEntry [$"a"; $"-program"] $"Application with arguments".
Definition ATTACH_ENTRIES : list CliEntry := [RPC_HOST; RPC_PORT; LOOPBACK; PROGRAM].

(** how [main] starts: the usage, an error, or the two directions *)
Inductive attach_start : Type :=
| AttachHelp (code : Z)
| AttachFailed (err : str)
| AttachStarts (program : str) (arguments : list str) (server : str * Z) (initializer : option (str * str)).

(** [spawn]: the error of starting the process, if any; [None] for a panic *)
Definition attach_main (spawn : str -> list str -> option str) (args : list str) : option attach_start :=
  match parse_or_help args ATTACH_ENTRIES with
  | None => None
  | Some (ExitWithHelp code) => Some (AttachHelp code)
  | Some (Parsed pa) =>
    match get_simple PROGRAM pa with
    | None => Some (AttachHelp 1)
    | Some prog =>
      match translate_commandline prog with
      | Panic => None
      | Err err => Some (AttachFailed err)
      | Ok [] => Some (AttachHelp 1)
      | Ok (program :: arguments) =>
        match spawn program arguments with
        | Some err => Some (AttachFailed ($"Can't start `" ++ program ++ $"`: " ++ err))
        | None =>
          match open_cli_endpoint pa with
          | Ok server => Some (AttachStarts program arguments server (loopback_initializer pa))
          | Err err => Some (AttachFailed err)
          | Panic => None
          end
        end
      end
    end
  end.

(** bus to process: what the listener writes for a packet *)
Definition process_text (packet : list Z) : str := format_colon_data packet ++ [10].

(** the listener: a write that fails is only shown; what the process read and what is shown *)
Fixpoint to_process (l : list (list Z * option str)) : str * list str :=
  match l with
  | [] => ([], [])
  | (packet, failed) :: t =>
    let '(text, shown) := to_process t in
    match failed with
    | None => (process_text packet ++ text, shown)
    | Some err => (text, err :: shown)
    end
  end.

(** the end of [main]: the process closed its output; [wait]: the error of waiting for it *)
Definition attach_end (wait : option str) : list output * res str unit :=
  ([Stdout $"Process STDOUT closed"], match wait with None => Ok tt | Some err => Err err end).

(** without failed writes the process reads the text of every packet *)
Lemma to_process_all packets : to_process (map (fun p => (p, None)) packets) = (packets ≫= process_text, []).
Proof. induction packets as [|p t IH]; [done|]. cbn [map to_process]. by rewrite IH. Qed.

(** process to bus *)
Inductive attach_output : Type :=
| ToBus (packet : list Z)
| ErrLine (text : str).

Section Relay.
(** the result of the send number [k], and the text of a [ParseIntError] *)
Variables (send : nat -> option str) (colon_error : str -> str).

Definition relay_line (k : nat) (line : str) : attach_output * nat :=
  match parse_colon_data line with
  | None => (ErrLine ($"Not a packet from the process `" ++ line ++ $"`: " ++ colon_error line), k)
  | Some packet =>
    match send k with
    | Some err => (ErrLine err, S k)
    | None => (ToBus packet, S k)
    end
  end.

(** [for line in from_process.lines()]; a line that can not be read ends it *)
Fixpoint relay_lines (k : nat) (lines : list (res str str)) : list attach_output :=
  match lines with
  | Ok line :: t => let '(o, k) := relay_line k line in o :: relay_lines k t
  | _ => []
  end.

End Relay.

(** ** Lines of a text *)

(** [BufRead::lines] of a text whose lines all end with a line feed *)
Fixpoint text_lines (current : str) (text : str) : list str :=
  match text with
  | [] => if bool_decide (current = []) then [] else [current]
  | c :: t => if c =? 10 then current :: text_lines [] t else text_lines (current ++ [c]) t
  end.

Lemma text_lines_line current line t : Forall (fun c => c <> 10) line ->
  text_lines current (line ++ 10 :: t) = (current ++ line) :: text_lines [] t.
Proof.
  intros Hl. revert current. induction Hl as [|c l Hc _ IH]; intros current; cbn.
  - by rewrite app_nil_r.
  - rewrite (proj2 (Z.eqb_neq _ _) Hc), IH, <- app_assoc. done.
Qed.

Lemma colon_no_newline data : bytes data -> Forall (fun c => c <> 10) (format_colon_data data).
Proof.
  intros Hd. unfold format_colon_data. induction Hd as [|b t Hb Ht IH]; [constructor|].
  assert (Forall (fun c => c <> 10) (show_nat b)) as Hs.
  { unfold is_u8 in Hb. eapply Forall_impl; [apply show_nat_digits; lia|]. cbn. lia. }
  destruct t as [|b' t]; [done|].
  change (Forall (fun c => c <> 10) (show_nat b ++ 58 :: join $":" (map show_nat (b' :: t)))).
  apply Forall_app. split; [done|]. by constructor.
Qed.

(** ** Properties *)

(** The relay.  The text that the process is given for packets from the
    bus is, line by line, read back to exactly these packets in their order; and
    every line that the process prints has exactly one effect, in order: a
    packet in colon notation is sent as it is (or the error of its send is
    shown), any other line is shown as an error, and neither ends the relay. *)
Theorem attach_relay send colon_error packets (printed : list (list Z + str)) :
  Forall (fun p => bytes p /\ p <> []) packets ->
  Forall (fun x => match x with inl p => bytes p /\ p <> [] | inr line => parse_colon_data line = None end) printed ->
  map parse_colon_data (text_lines [] (to_process (map (fun p => (p, None)) packets)).1) = map Some packets
  /\ let outs := relay_lines send colon_error 0
         (map (fun x => Ok match x with inl p => format_colon_data p | inr line => line end) printed) in
       length outs = length printed
       /\ ((forall k, send k = None) -> Forall2 (fun o x => match x with
             | inl p => o = ToBus p
             | inr line => o = ErrLine ($"Not a packet from the process `" ++ line ++ $"`: " ++ colon_error line)
             end) outs printed)
       /\ forall i p, printed !! i = Some (inl p) ->
          outs !! i = Some (ToBus p) \/ exists k err, send k = Some err /\ outs !! i = Some (ErrLine err).
Proof.
  intros Hp Hr. split.
  - rewrite to_process_all. cbn [fst]. induction Hp as [|p t [Hb Hne] _ IH]; [done|].
    change ((p :: t) ≫= process_text) with (process_text p ++ (t ≫= process_text)).
    unfold process_text at 1. rewrite <- app_assoc. cbn [app]. rewrite text_lines_line by by apply colon_no_newline.
    cbn [app map]. by rewrite parse_format_colon, IH.
  - cbv zeta. generalize 0%nat.
    induction Hr as [|x t Hx _ IH]; intros k; [by repeat split; [constructor|intros [|i]]|].
    assert (exists o k', relay_line send colon_error k (match x with inl p => format_colon_data p | inr line => line end) = (o, k')
      /\ match x with
         | inl p => o = ToBus p /\ send k = None \/ exists err, send k = Some err /\ o = ErrLine err
         | inr line => o = ErrLine ($"Not a packet from the process `" ++ line ++ $"`: " ++ colon_error line)
         end) as (o & k' & Ho & Hox).
    { unfold relay_line. destruct x as [p|line].
      - destruct Hx as [Hb Hne]. rewrite parse_format_colon by done. destruct (send k) as [err|] eqn:Hs; eauto 8.
      - rewrite Hx. eauto. }
    cbn [map relay_lines]. rewrite Ho. destruct (IH k') as (H1 & H2 & H3). split; [cbn; by rewrite H1|]. split.
    + intros Hok. constructor; [|by apply H2]. destruct x as [p|line]; [|done].
      destruct Hox as [[? _]|(err & Herr & _)]; [done|by rewrite Hok in Herr].
    + intros [|i] p Hi; [|by apply H3]. cbn in Hi |- *. injection Hi as ->. destruct Hox as [[-> _]|(err & Herr & ->)]; eauto.
Qed.

Lemma attach_relay_witness :
  let error := $"invalid digit found in string" in
  let outs := relay_lines (fun k => if (k =? 1)%nat then Some $"closed" else None) (fun _ => error) 0
    [Ok (format_colon_data [7; 8]); Ok $"hello"; Ok (format_colon_data [9])] in
  map parse_colon_data (text_lines [] (to_process (map (fun p => (p, None)) [[1; 2]; [255]])).1) = map Some [[1; 2]; [255]]
  /\ length outs = 3%nat
  /\ outs = [ToBus [7; 8]; ErrLine ($"Not a packet from the process `hello`: " ++ error); ErrLine $"closed"].
Proof.
  intros error outs. destruct (attach_relay (fun k => if (k =? 1)%nat then Some $"closed" else None) (fun _ => error)
    [[1; 2]; [255]] [inl [7; 8]; inr $"hello"; inl [9]]) as [H1 (H2 & _)].
  - repeat constructor; unfold is_u8; lia || done.
  - repeat constructor; unfold is_u8; lia || done.
  - split; [exact H1|]. split; [exact H2|]. vm_compute. reflexivity.
Defined.

Example attach_start_example :
  attach_main (fun _ _ => None) [$"-a"; $"/bin/tool 'a b' -x"; $"-x"]
  = Some (AttachStarts $"/bin/tool" [$"a b"; $"-x"] ($"127.0.0.1", 2112) (Some ($"loopback_send_packets", $"true"))).
Proof. vm_compute. reflexivity. Qed.
