(* ===== verification/VarInt.v ===== *)
(** * Variable length integers: correctness of [pack_value] and [unpack_value]

    The encoder works on 8 bit pieces of the magnitude with a sliding bit
    offset; it is related to the 7 bit groups of the number ([group]), from
    which the round trip and the minimality of the encoding follow. *)

From stdpp Require Import base list numbers option strings.
From Stdlib Require Import ZArith Lia.
From S2P Require Import Prelude RustStd Tools.

(** ** 8 bit and 7 bit pieces of a number *)

Definition byte_at (M k : Z) : Z := Z.land (Z.shiftr M (8 * k)) 255.
Definition group (M t : Z) : Z := Z.land (Z.shiftr M (7 * t)) 127.

Lemma byte_at_div M k : 0 <= k -> byte_at M k = (M / 256 ^ k) mod 256.
Proof.
  intros Hk. unfold byte_at. change 255 with (Z.ones 8).
  rewrite Z.land_ones, Z.shiftr_div_pow2 by lia. by rewrite Z.pow_mul_r by lia.
Qed.

Lemma group_div M t : 0 <= t -> group M t = (M / 128 ^ t) mod 128.
Proof.
  intros Ht. unfold group. change 127 with (Z.ones 7).
  rewrite Z.land_ones, Z.shiftr_div_pow2 by lia. by rewrite Z.pow_mul_r by lia.
Qed.

Lemma group_range M t : 0 <= t -> 0 <= group M t < 128.
Proof. intros. rewrite group_div by done. apply Z.mod_pos_bound. lia. Qed.

Lemma byte_at_high M k n : 0 <= M < 256 ^ n -> 0 <= n <= k -> byte_at M k = 0.
Proof.
  intros HM Hk. rewrite byte_at_div, Z.div_small; [done| |lia].
  split; [lia|]. eapply Z.lt_le_trans; [apply HM|]. apply Z.pow_le_mono_r; lia.
Qed.

Lemma byte_at_testbit M k j : 0 <= k -> 0 <= j ->
  Z.testbit (byte_at M k) j = if j <? 8 then Z.testbit M (8 * k + j) else false.
Proof.
  intros Hk Hj. unfold byte_at. change 255 with (Z.ones 8).
  rewrite Z.land_spec, Z.shiftr_spec by lia. destruct (j <? 8) eqn:Hj8; breflect.
  - rewrite Z.ones_spec_low, andb_true_r by lia. f_equal. lia.
  - rewrite Z.ones_spec_high, andb_false_r by lia. done.
Qed.

Lemma group_testbit M t j : 0 <= t -> 0 <= j ->
  Z.testbit (group M t) j = if j <? 7 then Z.testbit M (7 * t + j) else false.
Proof.
  intros Hk Hj. unfold group. change 127 with (Z.ones 7).
  rewrite Z.land_spec, Z.shiftr_spec by lia. destruct (j <? 7) eqn:Hj8; breflect.
  - rewrite Z.ones_spec_low, andb_true_r by lia. f_equal. lia.
  - rewrite Z.ones_spec_high, andb_false_r by lia. done.
Qed.

(** Two neighbouring bytes, shifted together, hold the 7 bit group. *)
Lemma two_bytes_group M k r : 0 <= k -> 1 <= r <= 7 ->
  Z.land (Z.lor (Z.shiftr (byte_at M k) (8 - r)) (Z.shiftl (byte_at M (k + 1)) r)) 127
  = Z.land (Z.shiftr M (8 * k + 8 - r)) 127.
Proof.
  intros Hk Hr. apply Z.bits_inj'. intros j Hj.
  rewrite !Z.land_spec. change 127 with (Z.ones 7).
  destruct (decide (j < 7)) as [Hlt|Hge]; [|by rewrite Z.ones_spec_high, !andb_false_r by lia].
  rewrite Z.ones_spec_low, !andb_true_r by lia.
  rewrite Z.lor_spec, !Z.shiftr_spec by lia.
  rewrite byte_at_testbit by lia.
  destruct (decide (j < r)) as [Hjr|Hjr].
  - rewrite Z.shiftl_spec_low, orb_false_r by lia.
    rewrite (proj2 (Z.ltb_lt _ _)) by lia. f_equal. lia.
  - rewrite (proj2 (Z.ltb_ge _ _)) by lia. cbn [orb].
    rewrite Z.shiftl_spec, byte_at_testbit by lia.
    rewrite (proj2 (Z.ltb_lt _ _)) by lia. f_equal. lia.
Qed.

Lemma to_be_bytes_lookup n v i : (i < n)%nat ->
  to_be_bytes n v !! i = Some ((v / 256 ^ Z.of_nat (n - 1 - i)) mod 256).
Proof.
  revert i. induction n as [|n IH]; intros i Hi; [lia|].
  destruct i as [|i]; simpl.
  - by rewrite Nat.sub_0_r, Nat.sub_0_r.
  - rewrite IH by lia. do 4 f_equal. lia.
Qed.

Lemma magnitude_lookup l i : bytes l -> (i < length l)%nat ->
  l !! (length l - 1 - i)%nat = Some (byte_at (be_value l) (Z.of_nat i)).
Proof.
  intros Hl Hi. pose proof (to_be_bytes_lookup (length l) (be_value l) (length l - 1 - i)) as H.
  rewrite to_be_bytes_be_value in H by done. rewrite H by lia. rewrite byte_at_div by lia.
  do 4 f_equal. lia.
Qed.

Lemma magnitude_idx {E} l k : bytes l -> 0 <= k < Z.of_nat (length l) ->
  idx (E := E) l (Z.to_nat (Z.of_nat (length l) - 1 - k)) = Ok (byte_at (be_value l) k).
Proof.
  intros Hl Hk. unfold idx.
  replace (Z.to_nat _) with (length l - 1 - Z.to_nat k)%nat by lia.
  rewrite magnitude_lookup by (done || lia). by rewrite Z2Nat.id by lia.
Qed.

(** ** One step of the encoder *)

Section Encoder.
Context (negative : option bool) (l : list Z) (required start : nat).
Hypothesis Hl : bytes l.
Let M := be_value l.
Let n := Z.of_nat (length l).

Definition enc_byte (x : nat) : Z :=
  as_u 8 (pack_marks negative required x (group M (Z.of_nat required - 1 - Z.of_nat x))).

Definition enc : list Z := map enc_byte (seq 0 required).

Lemma M_bound : 0 <= M < 256 ^ n.
Proof. by apply be_value_bound. Qed.

Lemma piece_aligned q : 0 <= q ->
  exists v, pack_piece l 0 (n - 1 - 7 * q) = Ok v /\ Z.land v 127 = group M (8 * q).
Proof.
  intros Hq. pose proof M_bound as HM. exists (byte_at M (7 * q)). unfold pack_piece. split.
  - cbn [Z.eqb]. destruct (0 <=? n - 1 - 7 * q) eqn:Hc; breflect.
    + by rewrite magnitude_idx by (done || lia).
    + by rewrite (byte_at_high M (7 * q) n) by lia.
  - apply Z.bits_inj'. intros j Hj. rewrite Z.land_spec, byte_at_testbit by lia.
    rewrite group_testbit by lia. change 127 with (Z.ones 7).
    destruct (j <? 7) eqn:H7; breflect.
    + rewrite (proj2 (Z.ltb_lt j 8)), Z.ones_spec_low, andb_true_r by lia. f_equal. lia.
    + by rewrite Z.ones_spec_high, andb_false_r by lia.
Qed.

Lemma piece_shifted q r : 0 <= q -> 1 <= r <= 7 ->
  exists v, pack_piece l r (n - 1 - (7 * q + r)) = Ok v /\ Z.land v 127 = group M (8 * q + r).
Proof.
  intros Hq Hr. pose proof M_bound as HM. set (index := n - 1 - (7 * q + r)).
  exists (Z.lor (Z.shiftr (byte_at M (7 * q + r - 1)) (8 - r))
                (Z.shiftl (byte_at M (7 * q + r - 1 + 1)) r)).
  split; [|rewrite two_bytes_group by lia; unfold group; do 2 f_equal; lia].
  unfold pack_piece. rewrite (proj2 (Z.eqb_neq r 0)) by lia.
  destruct (0 <=? index + 1) eqn:Hc; breflect; cbn [andb].
  - rewrite (proj2 (Nat.ltb_lt _ _)) by lia.
    replace (index + 1) with (n - 1 - (7 * q + r - 1)) by lia.
    rewrite magnitude_idx by (done || lia). cbn [mbind res_bind].
    destruct (0 <=? index) eqn:Hc2; breflect.
    + unfold index. rewrite magnitude_idx by (done || lia). cbn [mbind res_bind].
      by replace (7 * q + r - 1 + 1) with (7 * q + r) by lia.
    + rewrite (byte_at_high M (7 * q + r - 1 + 1) n) by lia.
      by rewrite Z.shiftl_0_l, Z.lor_0_r.
  - rewrite !(byte_at_high M _ n) by lia. by rewrite Z.shiftr_0_l, Z.shiftl_0_l.
Qed.

(** the loop state after [t] iterations *)
Definition at_offset (t : Z) : Z := t mod 8.
Definition at_index (t : Z) : Z := n - 1 - t + t / 8.

Lemma pack_step_ok (t x : nat) dst :
  (x + t + 1 = required)%nat -> (start + x < length dst)%nat ->
  pack_step negative l required start (at_offset (Z.of_nat t), at_index (Z.of_nat t), dst) x
  = Ok (at_offset (Z.of_nat t + 1), at_index (Z.of_nat t + 1),
        <[(start + x)%nat := enc_byte x]> dst).
Proof.
  intros Hx Hlen. unfold at_offset, at_index.
  set (T := Z.of_nat t). set (q := T / 8). set (r := T mod 8).
  assert (T = 8 * q + r /\ 0 <= r < 8 /\ 0 <= q) as (HT & Hr & Hq) by (unfold q, r, T; zdiv_lia).
  assert (exists v, pack_piece l r (n - 1 - T + q) = Ok v /\ Z.land v 127 = group M T)
    as (v & Hp & Hv).
  { destruct (Z.eq_dec r 0) as [->|Hr0].
    - replace (n - 1 - T + q) with (n - 1 - 7 * q) by lia.
      replace T with (8 * q) by lia. by apply piece_aligned.
    - replace (n - 1 - T + q) with (n - 1 - (7 * q + r)) by lia.
      replace T with (8 * q + r) by lia. apply piece_shifted; lia. }
  cbn [pack_step]. rewrite Hp. cbn [mbind res_bind]. rewrite Hv.
  assert ((if r + 1 =? 8 then (0, n - 1 - T + q + 1) else (r + 1, n - 1 - T + q))
          = ((T + 1) mod 8, n - 1 - (T + 1) + (T + 1) / 8 + 1)) as ->.
  { destruct (r + 1 =? 8) eqn:H8; breflect; f_equal; zdiv_lia. }
  unfold set_idx. rewrite (proj2 (Nat.ltb_lt _ _)) by done. cbn [mbind res_bind].
  unfold enc_byte. replace (Z.of_nat required - 1 - Z.of_nat x) with T by (unfold T; lia).
  f_equal. f_equal. f_equal. lia.
Qed.

Lemma insert_middle (m : nat) (v : Z) (dst : list Z) : (start + m < length dst)%nat ->
  take start (<[(start + m)%nat := v]> dst) = take start dst
  /\ drop (start + m) (<[(start + m)%nat := v]> dst) = v :: drop (start + S m) dst.
Proof.
  intros Hm. split; [apply take_insert_ge; lia|].
  rewrite drop_insert_ge, Nat.sub_diag by lia.
  destruct (drop (start + m) dst) as [|y t] eqn:Hd.
  - apply (f_equal length) in Hd. rewrite length_drop in Hd. simpl in Hd. lia.
  - simpl. f_equal. replace (start + S m)%nat with (start + m + 1)%nat by lia.
    by rewrite <- drop_drop, Hd.
Qed.

(** The loop writes the encoding between the untouched parts of the buffer. *)
Lemma pack_loop m dst : (m <= required)%nat -> (start + m <= length dst)%nat ->
  foldM (pack_step negative l required start)
    (at_offset (Z.of_nat (required - m)), at_index (Z.of_nat (required - m)), dst)
    (rev (seq 0 m))
  = Ok (at_offset (Z.of_nat required), at_index (Z.of_nat required),
        take start dst ++ map enc_byte (seq 0 m) ++ drop (start + m) dst).
Proof.
  revert dst. induction m as [|m IH]; intros dst Hm Hlen.
  - simpl. by rewrite Nat.sub_0_r, Nat.add_0_r, take_drop.
  - rewrite seq_S, rev_app_distr. cbn [rev app foldM Nat.add].
    rewrite pack_step_ok by lia.
    replace (Z.of_nat (required - S m) + 1) with (Z.of_nat (required - m)) by lia.
    rewrite IH; [|lia|rewrite length_insert; lia].
    destruct (insert_middle m (enc_byte m) dst ltac:(lia)) as [-> ->].
    rewrite map_app. simpl. by rewrite <- !app_assoc.
Qed.

Lemma length_enc : length enc = required.
Proof. unfold enc. by rewrite length_map, length_seq. Qed.

Lemma pack_loop_all dst : (start + required <= length dst)%nat ->
  foldM (pack_step negative l required start) (0, Z.of_nat (length l) - 1, dst)
    (rev (seq 0 required))
  = Ok (at_offset (Z.of_nat required), at_index (Z.of_nat required),
        take start dst ++ enc ++ drop (start + required) dst).
Proof.
  intros Hlen. unfold enc. pose proof (pack_loop required dst ltac:(lia) Hlen) as H.
  rewrite Nat.sub_diag in H. rewrite <- H. do 3 f_equal.
  unfold at_index. change (Z.of_nat 0) with 0. rewrite Z.div_0_l; unfold n; lia.
Qed.
End Encoder.

(** ** The number of encoded bytes *)

Definition bit_len (b : Z) : Z := if b =? 0 then 0 else Z.log2 b + 1.

Lemma count_bits_acc fuel b r : count_bits fuel b r = (count_bits fuel b 0 + r)%nat.
Proof.
  revert b r. induction fuel as [|f IH]; intros b r; simpl; [done|].
  destruct (b =? 0); [done|]. rewrite IH, (IH _ 1%nat). lia.
Qed.

Lemma count_bits_u8 b : is_u8 b -> Z.of_nat (count_bits 64 b 0) = bit_len b.
Proof.
  intros Hb. apply Z.eqb_eq.
  apply (u8_forall (fun b => Z.of_nat (count_bits 64 b 0) =? bit_len b));
    [vm_compute; reflexivity|done].
Qed.

Lemma bit_len_u8 b : is_u8 b ->
  0 <= bit_len b <= 8 /\ b < 2 ^ bit_len b /\ (b <> 0 -> 1 <= bit_len b /\ 2 ^ (bit_len b - 1) <= b)
  /\ negb (Z.land b 0x80 =? 0) = (bit_len b =? 8).
Proof.
  intros Hb.
  pose proof (u8_forall (fun b => (0 <=? bit_len b) && (bit_len b <=? 8) && (b <? 2 ^ bit_len b)
    && ((b =? 0) || ((1 <=? bit_len b) && (2 ^ (bit_len b - 1) <=? b)))
    && Bool.eqb (negb (Z.land b 0x80 =? 0)) (bit_len b =? 8))
    ltac:(vm_compute; reflexivity) b Hb) as H.
  cbv beta in H. breflect. apply Bool.eqb_prop in H0. repeat split; try lia; try done.
  all: intros; destruct H1 as [H1|H1]; breflect; lia.
Qed.

Definition sbit (signed : bool) : Z := if signed then 1 else 0.

Lemma calc_req_formula signed b t : is_u8 b ->
  Z.of_nat (calc_pack_req_bytes_bytes signed (b :: t))
  = (9 * Z.of_nat (length t) + Z.of_nat (length t) / 7
     + bit_len b + (if bit_len b =? 8 then 1 else 0) + sbit signed) / 8 + 1.
Proof.
  intros Hb. unfold calc_pack_req_bytes_bytes, sbit.
  destruct (bit_len_u8 b Hb) as (_ & _ & _ & ->).
  rewrite count_bits_acc. cbn [length]. rewrite Nat.sub_succ, Nat.sub_0_r.
  rewrite <- (count_bits_u8 b Hb).
  destruct (Z.of_nat _ =? 8), signed; zdiv_lia.
Qed.

(** The buffer computed by [calc_pack_req_bytes_bytes] holds the magnitude (and
    the sign bit), and one byte less would not. *)
Lemma calc_req_spec signed b t (r := Z.of_nat (calc_pack_req_bytes_bytes signed (b :: t)))
    (M := be_value (b :: t)) :
  bytes (b :: t) -> (t <> [] -> b <> 0) ->
  1 <= r /\ 0 <= M < 2 ^ (7 * r - sbit signed)
  /\ (1 < r -> 2 ^ (7 * (r - 1) - sbit signed) <= M).
Proof.
  intros Hbt Hlead. apply bytes_cons in Hbt as [Hb Ht].
  pose proof (calc_req_formula signed b t Hb) as Hr. fold r in Hr.
  destruct (bit_len_u8 b Hb) as (Hbl & Hhi & Hlo & _).
  pose proof (be_value_bound t Ht) as Hv.
  set (k := Z.of_nat (length t)) in *. assert (0 <= k) by lia.
  assert (M = b * 256 ^ k + be_value t) as HM by apply be_value_cons.
  replace (256 ^ k) with (2 ^ (8 * k)) in * by (by rewrite Z.pow_mul_r by lia).
  assert (0 <= sbit signed <= 1) as Hs by (destruct signed; simpl; lia).
  assert (8 * k + bit_len b + sbit signed <= 7 * r
          /\ 1 <= r /\ (1 < r -> b <> 0 -> 7 * (r - 1) < 8 * k + bit_len b + sbit signed))
    as (Hcap & Hr1 & Hmin).
  { generalize dependent (bit_len b). intros bl. intros.
    destruct (Z.eqb_spec bl 8); repeat split; intros; zdiv_lia. }
  assert (M < 2 ^ (8 * k + bit_len b)) as HMhi.
  { rewrite Z.pow_add_r by lia. nia. }
  split; [done|]. split.
  - unfold is_u8 in Hb. split; [nia|]. eapply Z.lt_le_trans; [exact HMhi|].
    apply Z.pow_le_mono_r; lia.
  - intros Hr2. destruct (Z.eq_dec b 0) as [->|Hb0].
    { destruct t; [|by destruct Hlead]. exfalso. revert Hr. simpl.
      change (bit_len 0) with 0. unfold k. simpl. zdiv_lia. }
    destruct (Hlo Hb0) as [Hbl1 Hlow]. specialize (Hmin Hr2 Hb0).
    transitivity (2 ^ (8 * k + (bit_len b - 1))); [apply Z.pow_le_mono_r; lia|].
    rewrite Z.pow_add_r by lia. nia.
Qed.

(** ** The decoder *)

Definition more (b : Z) : bool := negb (Z.land b 0x80 =? 0).

(** the bytes of one encoded value: the continuation bit is set in all but the last *)
Definition vl_bytes (ds : list Z) : Prop :=
  exists pre lst, ds = pre ++ [lst] /\ Forall (fun b => more b = true) pre /\ more lst = false.

Definition mag_step (m b : Z) : Z := m * 128 + Z.land b 0x7f.

(** closed form of what [unpack_value] computes from the bytes of one value *)
Definition vl_decode (signed : bool) (ds : list Z) : Z :=
  match ds with
  | [] => 0
  | b :: t =>
    let m := foldl mag_step (Z.land b (if signed then 0x3f else 0x7f)) t in
    if signed && negb (Z.land b 0x40 =? 0) then - m - 1 else m
  end.

Lemma unpack_used_app ds rest k : vl_bytes ds ->
  unpack_used (ds ++ rest) k = Some (k + length ds - 1)%nat.
Proof.
  intros (pre & lst & -> & Hpre & Hlst). revert k. induction Hpre as [|b t Hb _ IH]; intros k.
  - simpl. unfold more in Hlst. apply negb_false_iff in Hlst. rewrite Hlst. f_equal. lia.
  - simpl. unfold more in Hb. apply negb_true_iff in Hb. rewrite Hb.
    rewrite IH. f_equal. lia.
Qed.

Lemma unpack_used_Some l k u : unpack_used l k = Some u ->
  exists ds rest, l = ds ++ rest /\ vl_bytes ds /\ u = (k + length ds - 1)%nat.
Proof.
  revert k. induction l as [|b t IH]; intros k; simpl; [done|].
  destruct (Z.land b 128 =? 0) eqn:Hb.
  - intros [= <-]. exists [b], t. split; [done|]. split; [|simpl; lia].
    exists [], b. repeat split; [constructor|]. unfold more. by rewrite Hb.
  - intros (ds & rest & -> & (pre & lst & -> & Hpre & Hlst) & ->)%IH.
    exists (b :: pre ++ [lst]), rest. split; [done|]. split; [|simpl; lia].
    exists (b :: pre), lst. repeat split; [|done]. constructor; [|done].
    unfold more. by rewrite Hb.
Qed.

Lemma unpack_used_None l k : Forall (fun b => more b = true) l -> unpack_used l k = None.
Proof.
  intros H. revert k. induction H as [|b t Hb _ IH]; intros k; simpl; [done|].
  unfold more in Hb. apply negb_true_iff in Hb. by rewrite Hb.
Qed.

Lemma drop_lookup_app (data ds rest : list Z) s i :
  drop s data = ds ++ rest -> (i < length ds)%nat -> data !! (s + i)%nat = ds !! i.
Proof.
  intros Hd Hi. rewrite <- lookup_drop, Hd. by apply lookup_app_l.
Qed.

Lemma mag_loop (data ds rest : list Z) start cut m k :
  drop start data = ds ++ rest -> (1 <= k <= length ds)%nat ->
  foldM (E := UnpackError) (fun magnitude offset =>
      byte ← idx data (start + offset);
      let mask := if (offset =? 0)%nat then cut else 0x7f in
      Ok (magnitude * 128 + Z.land byte mask)) m (seq k (length ds - k))
  = Ok (foldl mag_step m (drop k ds)).
Proof.
  intros Hd Hk. remember (length ds - k)%nat as c eqn:Hc. revert k m Hk Hc.
  induction c as [|c IH]; intros k m Hk Hc.
  - rewrite drop_ge by lia. done.
  - destruct (lookup_lt_is_Some_2 ds k ltac:(lia)) as [b Hb].
    cbn [seq foldM]. unfold idx. rewrite (drop_lookup_app data ds rest) by (done || lia).
    rewrite Hb. cbn [unwrap mbind res_bind]. rewrite (proj2 (Nat.eqb_neq k 0)) by lia.
    cbv zeta. rewrite IH by lia. by rewrite (drop_S ds b k Hb).
Qed.

Lemma unpack_value_vl signed data start ds rest : drop start data = ds ++ rest -> vl_bytes ds ->
  unpack_value signed data start = Ok (vl_decode signed ds, length ds).
Proof.
  intros Hd Hvl. unfold unpack_value. rewrite Hd, unpack_used_app by done.
  replace (1 + length ds - 1)%nat with (length ds) by lia. cbn [ok_or mbind res_bind].
  destruct ds as [|b t]; [by destruct Hvl as ([|]&?&?&_)|].
  assert (data !! (start + 0)%nat = Some b) as Hb.
  { by rewrite (drop_lookup_app data (b :: t) rest start 0 Hd) by (simpl; lia). }
  cbn [length seq foldM]. rewrite (idx_Some _ _ _ Hb). rewrite Nat.add_0_r in Hb.
  cbn [mbind res_bind]. 
  pose proof (mag_loop data (b :: t) rest start (if signed then 63 else 127)
    (0 * 128 + Z.land b (if signed then 63 else 127)) 1 Hd) as Hloop.
  cbn [length] in Hloop. rewrite Nat.sub_succ, Nat.sub_0_r in Hloop.
  cbn [Nat.eqb]. rewrite Hloop by lia.
  cbn [mbind res_bind drop]. rewrite (idx_Some _ _ _ Hb). cbn [mbind res_bind].
  unfold vl_decode. by rewrite Z.mul_0_l, Z.add_0_l.
Qed.

Lemma unpack_value_Ok signed data start v used : unpack_value signed data start = Ok (v, used) ->
  exists ds rest, drop start data = ds ++ rest /\ vl_bytes ds /\ v = vl_decode signed ds
                  /\ used = length ds.
Proof.
  intros H. destruct (unpack_used (drop start data) 1) as [u|] eqn:Hu.
  - apply unpack_used_Some in Hu as (ds & rest & Hd & Hvl & _).
    rewrite (unpack_value_vl _ _ _ _ _ Hd Hvl) in H. simplify_eq. eauto 10.
  - unfold unpack_value in H. rewrite Hu in H. done.
Qed.

Lemma unpack_value_cases signed data start :
  (exists v used, unpack_value signed data start = Ok (v, used)
     /\ (1 <= used)%nat /\ (start + used <= length data)%nat)
  \/ unpack_value signed data start = Err IncompleteValue.
Proof.
  destruct (unpack_used (drop start data) 1) as [u|] eqn:Hu.
  - apply unpack_used_Some in Hu as (ds & rest & Hd & Hvl & _). left.
    rewrite (unpack_value_vl _ _ _ _ _ Hd Hvl). do 2 eexists. split; [done|].
    apply (f_equal length) in Hd. rewrite length_drop, length_app in Hd.
    destruct Hvl as (pre & lst & -> & _). rewrite length_app in *. simpl in *. lia.
  - right. unfold unpack_value. by rewrite Hu.
Qed.

(** ** Values of the decoded bytes *)

Lemma land_mask_range b k : 0 <= k -> 0 <= Z.land b (Z.ones k) < 2 ^ k.
Proof. intros. rewrite Z.land_ones by done. apply Z.mod_pos_bound. lia. Qed.

Lemma mag_fold_bound m t : 0 <= m ->
  m * 128 ^ Z.of_nat (length t) <= foldl mag_step m t < (m + 1) * 128 ^ Z.of_nat (length t).
Proof.
  revert m. induction t as [|b t IH]; intros m Hm; [simpl; lia|].
  pose proof (land_mask_range b 7) as Hb. change (Z.ones 7) with 127 in Hb.
  cbn [foldl length]. rewrite Nat2Z.inj_succ, Z.pow_succ_r by lia. unfold mag_step at 2 4.
  specialize (IH (m * 128 + Z.land b 127)). nia.
Qed.

(** A value decoded from [k] bytes has a magnitude of at most [7 k] bits (one
    less when signed). *)
Lemma vl_decode_bound signed ds (v := vl_decode signed ds) : ds <> [] ->
  0 <= (if v <? 0 then - v - 1 else v) < 2 ^ (7 * Z.of_nat (length ds) - sbit signed)
  /\ (signed = false -> 0 <= v).
Proof.
  intros Hne. destruct ds as [|b t]; [done|]. subst v. unfold vl_decode.
  set (cut := if signed then 63 else 127).
  assert (0 <= Z.land b cut < 2 ^ (7 - sbit signed)) as Hc.
  { unfold cut. destruct signed; [apply (land_mask_range b 6)|apply (land_mask_range b 7)]; lia. }
  pose proof (mag_fold_bound (Z.land b cut) t ltac:(lia)) as Hm.
  set (m := foldl mag_step (Z.land b cut) t) in *.
  assert (0 <= m < 2 ^ (7 * Z.of_nat (length (b :: t)) - sbit signed)) as Hb.
  { split; [lia|]. cbn [length].
    replace (7 * Z.of_nat (S (length t)) - sbit signed)
      with (7 - sbit signed + 7 * Z.of_nat (length t)) by lia.
    rewrite Z.pow_add_r, (Z.pow_mul_r 2 7) by (destruct signed; simpl; lia).
    change (2 ^ 7) with 128. nia. }
  destruct signed; simpl andb.
  - destruct (negb (Z.land b 64 =? 0)); [rewrite (proj2 (Z.ltb_lt _ _)) by lia
      |rewrite (proj2 (Z.ltb_ge _ _)) by lia]; (split; [lia|done]).
  - rewrite (proj2 (Z.ltb_ge _ _)) by lia. split; [lia|lia].
Qed.

(** ** Encoding then decoding *)

Lemma marks_facts neg r x g (b := as_u 8 (pack_marks neg r x g)) : 0 <= g < 128 ->
  is_u8 b /\ more b = negb (x =? r - 1)%nat
  /\ (bool_decide (neg = Some true) && (x =? 0)%nat = false -> Z.land b 127 = g)
  /\ (g < 64 -> Z.land b 63 = g
                /\ negb (Z.land b 64 =? 0) = bool_decide (neg = Some true) && (x =? 0)%nat).
Proof.
  intros Hg. unfold pack_marks, more in *. subst b.
  set (n0 := bool_decide (neg = Some true) && (x =? 0)%nat).
  set (l0 := (x =? r - 1)%nat).
  pose proof (u8_forall (fun g =>
    let b := as_u 8 (if n0 then Z.lor (if l0 then g else Z.lor g 128) 64
                     else if l0 then g else Z.lor g 128) in
    (127 <? g) || ((0 <=? b) && (b <? 256) && Bool.eqb (negb (Z.land b 128 =? 0)) (negb l0)
      && (n0 || (Z.land b 127 =? g))
      && ((63 <? g) || ((Z.land b 63 =? g) && Bool.eqb (negb (Z.land b 64 =? 0)) n0))))
    ltac:(destruct n0, l0; vm_compute; reflexivity) g ltac:(unfold is_u8; lia)) as H.
  cbv beta zeta in H. apply orb_prop in H as [H|H]; [lia|].
  apply andb_prop in H as [[[[H1 H2]%andb_prop H3]%andb_prop H4]%andb_prop H5].
  apply Bool.eqb_prop in H3.
  split; [split; [by apply Z.leb_le|by apply Z.ltb_lt]|]. split; [done|]. split.
  - intros Hn. rewrite Hn in H4 |- *. by apply Z.eqb_eq.
  - intros Hg64. apply orb_prop in H5 as [H5|[H5 H6]%andb_prop]; [lia|].
    split; [by apply Z.eqb_eq|by apply Bool.eqb_prop].
Qed.

Section RoundTrip.
Context (negative : option bool) (l : list Z) (r : nat).
Let M := be_value l.
Let s := bool_decide (is_Some negative).
Hypothesis Hl : bytes l.
Hypothesis Hr : (1 <= r)%nat.
Hypothesis HM : 0 <= M < 2 ^ (7 * Z.of_nat r - sbit s).

Lemma enc_byte_facts x : (x < r)%nat ->
  is_u8 (enc_byte negative l r x) /\ more (enc_byte negative l r x) = negb (x =? r - 1)%nat
  /\ (x <> 0%nat -> Z.land (enc_byte negative l r x) 127 = group M (Z.of_nat r - 1 - Z.of_nat x)).
Proof.
  intros Hx.
  destruct (marks_facts negative r x (group M (Z.of_nat r - 1 - Z.of_nat x))) as (H1 & H2 & H3 & _).
  { apply group_range. lia. }
  split; [done|]. split; [done|]. intros Hx0. apply H3.
  rewrite (proj2 (Nat.eqb_neq _ _) Hx0). apply andb_false_r.
Qed.

Lemma enc_bytes : bytes (enc negative l r).
Proof.
  unfold enc, bytes. rewrite Forall_map. apply Forall_forall. intros x Hx.
  apply elem_of_seq in Hx. apply enc_byte_facts. lia.
Qed.

Lemma enc_split : enc negative l r
  = map (enc_byte negative l r) (seq 0 (r - 1)) ++ [enc_byte negative l r (r - 1)].
Proof.
  unfold enc. replace r with (r - 1 + 1)%nat at 2 by lia.
  by rewrite Nat.add_1_r, seq_S, map_app.
Qed.

Lemma enc_vl : vl_bytes (enc negative l r).
Proof.
  exists (map (enc_byte negative l r) (seq 0 (r - 1))), (enc_byte negative l r (r - 1)).
  split; [apply enc_split|]. split.
  - rewrite Forall_map. apply Forall_forall. intros x Hx. apply elem_of_seq in Hx. simpl.
    rewrite (proj1 (proj2 (enc_byte_facts x ltac:(lia)))).
    by rewrite (proj2 (Nat.eqb_neq _ _)) by lia.
  - rewrite (proj1 (proj2 (enc_byte_facts (r - 1) ltac:(lia)))). by rewrite Nat.eqb_refl.
Qed.

Lemma enc_tail_value c : (c <= r - 1)%nat ->
  foldl mag_step (M / 128 ^ Z.of_nat c) (map (enc_byte negative l r) (seq (r - c) c)) = M.
Proof.
  induction c as [|c IH]; intros Hc; [by rewrite Z.div_1_r|].
  cbn [seq map foldl]. replace (S (r - S c)) with (r - c)%nat by lia.
  etransitivity; [|apply IH; lia]. f_equal. unfold mag_step.
  destruct (enc_byte_facts (r - S c) ltac:(lia)) as (_ & _ & ->); [|lia].
  replace (Z.of_nat r - 1 - Z.of_nat (r - S c)) with (Z.of_nat c) by lia.
  rewrite group_div, Nat2Z.inj_succ, Z.pow_succ_r, (Z.mul_comm 128) by lia.
  rewrite <- Z.div_div by lia. 
  pose proof (Z.div_mod (M / 128 ^ Z.of_nat c) 128). lia.
Qed.

Lemma top_group : group M (Z.of_nat r - 1) = M / 128 ^ Z.of_nat (r - 1)
                  /\ 0 <= M / 128 ^ Z.of_nat (r - 1) < 2 ^ (7 - sbit s).
Proof.
  assert (0 <= sbit s <= 1) by (destruct s; simpl; lia).
  assert (0 <= M / 128 ^ Z.of_nat (r - 1) < 2 ^ (7 - sbit s)) as Hb.
  { split; [apply Z.div_pos; lia|]. apply Z.div_lt_upper_bound; [lia|].
    change 128 with (2 ^ 7). rewrite <- Z.pow_mul_r, <- Z.pow_add_r by lia.
    replace (7 * Z.of_nat (r - 1) + (7 - sbit s)) with (7 * Z.of_nat r - sbit s) by lia. lia. }
  split; [|done]. rewrite group_div by lia.
  replace (Z.of_nat r - 1) with (Z.of_nat (r - 1)) by lia. apply Z.mod_small.
  assert (2 ^ (7 - sbit s) <= 128) by (destruct s; simpl; lia). lia.
Qed.

Lemma enc_byte_0 :
  enc_byte negative l r 0 = as_u 8 (pack_marks negative r 0 (M / 128 ^ Z.of_nat (r - 1))).
Proof. unfold enc_byte. rewrite Z.sub_0_r. fold M. by rewrite (proj1 top_group). Qed.

Lemma enc_cons : enc negative l r
  = enc_byte negative l r 0 :: map (enc_byte negative l r) (seq (r - (r - 1)) (r - 1)).
Proof.
  unfold enc. destruct r as [|r']; [lia|]. rewrite Nat.sub_succ, Nat.sub_0_r.
  by replace (S r' - r')%nat with 1%nat by lia.
Qed.

(** A signed value is read back with its sign. *)
Lemma enc_decode_signed neg : negative = Some neg ->
  vl_decode true (enc negative l r) = if neg then - M - 1 else M.
Proof.
  intros Hneg. destruct top_group as [Hg Hb].
  assert (s = true) as Hs by (unfold s; by rewrite Hneg).
  rewrite Hs in Hb. simpl in Hb. rewrite enc_cons. cbn [vl_decode].
  rewrite enc_byte_0.
  destruct (marks_facts negative r 0 (M / 128 ^ Z.of_nat (r - 1)) ltac:(lia))
    as (_ & _ & _ & Hlow).
  destruct (Hlow ltac:(lia)) as [-> ->].
  rewrite enc_tail_value by lia. cbn [andb Nat.eqb]. rewrite Hneg, andb_true_r.
  destruct neg; [by rewrite bool_decide_true|by rewrite bool_decide_false].
Qed.

(** Without a sign, reading with or without sign gives the same value. *)
Lemma enc_decode_unsigned : negative <> Some true -> vl_decode false (enc negative l r) = M.
Proof.
  intros Hneg. destruct top_group as [Hg Hb].
  assert (2 ^ (7 - sbit s) <= 128) by (destruct s; simpl; lia).
  rewrite enc_cons. cbn [vl_decode andb].
  rewrite enc_byte_0.
  destruct (marks_facts negative r 0 (M / 128 ^ Z.of_nat (r - 1)) ltac:(lia))
    as (_ & _ & -> & _); [|by rewrite bool_decide_false].
  by apply enc_tail_value.
Qed.
End RoundTrip.

(** ** [pack_value] and [pack_value_into] *)

Section PackValue.
Context {NB : NumBigint}.

Definition packable (signed : bool) (v : Z) : Prop := signed = true \/ 0 <= v.
Definition mag_of (v : Z) : Z := if v <? 0 then - v - 1 else v.

Lemma mag_of_nonneg v : 0 <= mag_of v.
Proof. unfold mag_of. destruct (v <? 0) eqn:?; breflect; lia. Qed.

Lemma to_bytes_be_cons n : exists b t, to_bytes_be n = b :: t /\ (t <> [] -> b <> 0).
Proof.
  destruct (to_bytes_be n) as [|b t] eqn:Hn.
  - pose proof (to_bytes_be_value n) as Hv. rewrite Hn in Hv. unfold be_value in Hv. simpl in Hv.
    assert (n = 0) as -> by lia. by rewrite to_bytes_be_zero in Hn.
  - exists b, t. split; [done|]. by apply (to_bytes_be_lead n).
Qed.

Lemma strip_no_lead b t : (t <> [] -> b <> 0) -> strip_leading_zero (b :: t) = b :: t.
Proof.
  intros H. destruct t as [|c t]; [done|]. unfold strip_leading_zero.
  by rewrite (proj2 (Z.eqb_neq b 0)) by by apply H.
Qed.

Lemma magnitude_for_pack_ok signed v : packable signed v ->
  exists b t, magnitude_bytes_for_pack signed v
              = Ok (if signed then Some (v <? 0) else None, b :: t)
    /\ bytes (b :: t) /\ (t <> [] -> b <> 0) /\ be_value (b :: t) = mag_of v.
Proof.
  intros Hp. unfold magnitude_bytes_for_pack.
  assert (negb signed && (v <? 0) = false) as ->.
  { destruct Hp as [->|Hv]; [done|]. rewrite (proj2 (Z.ltb_ge v 0)) by lia.
    apply andb_false_r. }
  assert ((if signed && (v <? 0) then - v - 1 else v) = mag_of v) as ->.
  { unfold mag_of. destruct Hp as [->|Hv]; [done|].
    rewrite (proj2 (Z.ltb_ge v 0)) by lia. by rewrite andb_false_r. }
  destruct (to_bytes_be_cons (mag_of v)) as (b & t & Hb & Hlead).
  exists b, t. rewrite Hb, strip_no_lead by done. split; [done|].
  pose proof (mag_of_nonneg v). split; [|split; [done|]].
  - rewrite <- Hb. apply to_bytes_be_bytes.
  - rewrite <- Hb, to_bytes_be_value. lia.
Qed.

Lemma pack_value_magnitude_ok negative b t dst start
    (r := calc_pack_req_bytes_bytes (bool_decide (is_Some negative)) (b :: t)) :
  bytes (b :: t) -> (start + r <= length dst)%nat ->
  pack_value_magnitude negative (b :: t) dst start
  = Ok (r, take start dst ++ enc negative (b :: t) r ++ drop (start + r) dst).
Proof.
  intros Hb Hlen. unfold pack_value_magnitude. fold r.
  rewrite (proj2 (Nat.ltb_ge _ _)) by done. by rewrite pack_loop_all.
Qed.

(** What the encoder promises to its clients. *)
Record packed (signed : bool) (v : Z) (p : list Z) : Prop := {
  packed_bytes : bytes p;
  packed_vl : vl_bytes p;
  packed_value : vl_decode signed p = v;
  packed_value_unsigned : 0 <= v -> vl_decode false p = v;
  packed_minimal : forall ds, ds <> [] -> vl_decode signed ds = v -> (length p <= length ds)%nat;
  packed_into : forall dst start, (start + length p <= length dst)%nat ->
    pack_value_into signed v dst start
    = Ok (length p, take start dst ++ p ++ drop (start + length p) dst);
  packed_into_err : forall dst start, (length dst < start + length p)%nat ->
    pack_value_into signed v dst start
    = Err (if (length dst <? start)%nat then StartIndexOutOfBounds
           else DestinationTooSmall (length p));
}.

Lemma pack_value_ok signed v : packable signed v ->
  exists p, pack_value signed v = Ok p /\ packed signed v p.
Proof.
  intros Hp. destruct (magnitude_for_pack_ok signed v Hp) as (b & t & Hmag & Hb & Hlead & HM).
  set (neg := if signed then Some (v <? 0) else None) in *.
  assert (bool_decide (is_Some neg) = signed) as Hsg by (unfold neg; by destruct signed).
  set (r := calc_pack_req_bytes_bytes signed (b :: t)).
  destruct (calc_req_spec signed b t Hb Hlead) as (Hr1 & HMb & Hmin). fold r in Hr1, HMb, Hmin.
  assert (length (enc neg (b :: t) r) = r) as Hlen by apply length_enc.
  assert (1 <= r)%nat by lia.
  assert (0 <= be_value (b :: t) < 2 ^ (7 * Z.of_nat r - sbit (bool_decide (is_Some neg))))
    as HMn by (by rewrite Hsg).
  exists (enc neg (b :: t) r). split.
  { unfold pack_value. rewrite Hmag. cbn [mbind res_bind]. rewrite Hsg. fold r.
    rewrite pack_value_magnitude_ok; [|done|rewrite Hsg, length_replicate; fold r; lia].
    rewrite Hsg. fold r. cbn [mbind res_bind].
    rewrite drop_ge, app_nil_r by (rewrite length_replicate; lia). done. }
  split; rewrite ?Hlen.
  - by eapply enc_bytes.
  - by eapply enc_vl.
  - destruct signed.
    + rewrite (enc_decode_signed neg (b :: t) r) with (neg := v <? 0) by done.
      rewrite HM. unfold mag_of. destruct (v <? 0) eqn:?; breflect; lia.
    + destruct Hp as [?|Hv]; [done|]. rewrite enc_decode_unsigned by done.
      rewrite HM. unfold mag_of. by rewrite (proj2 (Z.ltb_ge v 0)) by lia.
  - intros Hv. rewrite enc_decode_unsigned; [|done|done|].
    + rewrite HM. unfold mag_of. by rewrite (proj2 (Z.ltb_ge v 0)) by lia.
    + unfold neg. rewrite (proj2 (Z.ltb_ge v 0)) by lia. by destruct signed.
  - intros ds Hds Hdec. destruct (vl_decode_bound signed ds Hds) as [Hbd _].
    rewrite Hdec in Hbd. fold (mag_of v) in Hbd. rewrite <- HM in Hbd.
    destruct (decide (1 < Z.of_nat r)) as [Hr2|Hr2].
    + specialize (Hmin Hr2).
      assert (7 * (Z.of_nat r - 1) - sbit signed < 7 * Z.of_nat (length ds) - sbit signed);
        [|lia].
      apply (Z.pow_lt_mono_r_iff 2); [lia| |lia].
      destruct ds; [done|]. simpl length. destruct signed; simpl; lia.
    + destruct ds; [done|]. simpl. lia.
  - intros dst start Hd. unfold pack_value_into. rewrite Hmag. cbn [mbind res_bind].
    rewrite Hsg. fold r. rewrite !(proj2 (Nat.ltb_ge _ _)) by lia.
    rewrite pack_value_magnitude_ok by (done || (rewrite Hsg; fold r; lia)).
    by rewrite Hsg.
  - intros dst start Hd. unfold pack_value_into. rewrite Hmag. cbn [mbind res_bind].
    rewrite Hsg. fold r. destruct (length dst <? start)%nat; [done|].
    by rewrite (proj2 (Nat.ltb_lt _ _)) by lia.
Qed.

Lemma pack_value_negative v : v < 0 -> pack_value false v = Err NegativeUnsignedValue.
Proof.
  intros Hv. unfold pack_value, magnitude_bytes_for_pack.
  by rewrite (proj2 (Z.ltb_lt v 0)) by lia.
Qed.

Lemma pack_value_packed signed v p : pack_value signed v = Ok p ->
  packable signed v /\ packed signed v p.
Proof.
  intros H. assert (packable signed v) as Hp.
  { destruct signed; [by left|]. destruct (decide (0 <= v)); [by right|].
    by rewrite pack_value_negative in H by lia. }
  split; [done|]. destruct (pack_value_ok signed v Hp) as (q & Hq & HQ).
  rewrite Hq in H. by injection H as ->.
Qed.

(** The encoding is never empty and can be read back from any place of a buffer. *)
Lemma packed_nonempty signed v p : packed signed v p -> p <> [].
Proof. intros [_ (pre & lst & -> & _) _ _ _ _ _] Hnil. by destruct pre. Qed.

Lemma packed_unpack signed v p pre post : packed signed v p ->
  unpack_value signed (pre ++ p ++ post) (length pre) = Ok (v, length p).
Proof.
  intros Hp. rewrite (unpack_value_vl signed _ _ p post).
  - by rewrite (packed_value _ _ _ Hp).
  - by rewrite drop_app_length.
  - apply Hp.
Qed.

Lemma packed_unpack_unsigned signed v p pre post : packed signed v p -> 0 <= v ->
  unpack_value false (pre ++ p ++ post) (length pre) = Ok (v, length p).
Proof.
  intros Hp Hv. rewrite (unpack_value_vl false _ _ p post).
  - by rewrite (packed_value_unsigned _ _ _ Hp).
  - by rewrite drop_app_length.
  - apply Hp.
Qed.
End PackValue.

#[export] Hint Resolve packed_bytes packed_vl packed_nonempty : ub.

(** ** Properties *)

Section Properties.
Context {NB : NumBigint}.

(** C6: Variable length integer round trip.  Every integer (every
    non-negative one for the unsigned form) is packed without error or panic
    to bytes that are read back as the same value, consuming exactly the
    packed bytes, wherever they stand in a buffer; a negative value is
    refused in the unsigned form. *)
Theorem pack_unpack_roundtrip signed v pre post :
  match pack_value signed v with
  | Ok p => bytes p /\ unpack_value signed (pre ++ p ++ post) (length pre) = Ok (v, length p)
  | Err e => e = NegativeUnsignedValue /\ signed = false /\ v < 0
  | Panic => False
  end.
Proof.
  destruct (decide (signed = false /\ v < 0)) as [[-> Hv]|Hp].
  - by rewrite pack_value_negative.
  - destruct (pack_value_ok signed v) as (p & -> & HP).
    { destruct signed; [by left|]. right. lia. }
    split; [apply HP|by apply packed_unpack].
Qed.

(** Minimality.  No byte sequence that the reader decodes to the same
    value is shorter than the packed form. *)
Theorem pack_minimal signed v p data start n :
  pack_value signed v = Ok p -> unpack_value signed data start = Ok (v, n) ->
  (length p <= n)%nat.
Proof.
  intros Hp Hu. apply pack_value_packed in Hp as [_ Hp].
  apply unpack_value_Ok in Hu as (ds & post & Hd & (q & lst & -> & _) & Hdec & ->).
  eapply packed_minimal; [done| |done]. by destruct q.
Qed.

(** In place packing.  [pack_value_into] writes exactly the bytes of
    [pack_value] at the given place and leaves every other byte and the
    length of the buffer as they were; when they do not fit it reports the
    number of bytes needed, or that the start index is outside. *)
Theorem pack_into_frame signed v p dst start :
  pack_value signed v = Ok p ->
  pack_value_into signed v dst start =
    if (length dst <? start)%nat then Err StartIndexOutOfBounds
    else if (length dst <? start + length p)%nat then Err (DestinationTooSmall (length p))
    else Ok (length p, take start dst ++ p ++ drop (start + length p) dst).
Proof.
  intros Hp. apply pack_value_packed in Hp as [_ Hp].
  destruct (length dst <? start + length p)%nat eqn:H2; breflect.
  - rewrite (packed_into_err _ _ _ Hp) by lia. by destruct (length dst <? start)%nat.
  - rewrite (packed_into _ _ _ Hp) by lia. by rewrite (proj2 (Nat.ltb_ge _ _)) by lia.
Qed.
End Properties.

Lemma pack_unpack_roundtrip_witness :
  unpack_value true [7; 0xc2; 0x2b; 7] 1 = Ok (- 300, 2%nat).
Proof.
  exact (proj2 (@pack_unpack_roundtrip num_bigint_ref true (- 300) [7] [7])).
Defined.

Lemma pack_minimal_witness :
  @pack_value num_bigint_ref true 300 = Ok [0x82; 0x2c] /\ (length (A := Z) [0x82%Z; 0x2c%Z] <= 3)%nat.
Proof.
  split; [vm_compute; reflexivity|].
  apply (@pack_minimal num_bigint_ref true 300 _ [0x80; 0x82; 0x2c] 0 3); vm_compute; reflexivity.
Defined.

Lemma pack_into_frame_witness :
  @pack_value_into num_bigint_ref false 300 [9; 9; 9; 9] 1 = Ok (2%nat, [9; 0x82; 0x2c; 9]).
Proof.
  rewrite (@pack_into_frame num_bigint_ref false 300 [0x82; 0x2c]); vm_compute; reflexivity.
Defined.
