(* ===== verification/Framing.v ===== *)
(** * Escaped stream framing between the PC and the bus gateway

    Models [src/framing.rs]: [frame_bytes] and the stateful
    [FramedPacketCutter].  The [on_packet] callback is the list of the packets
    it is called with, in order. *)

From stdpp Require Import base list numbers option.
From Stdlib Require Import ZArith Lia.
From S2P Require Import Prelude.

(** [!b] of a [u8] *)
Definition not_u8 (b : Z) : Z := Z.lxor b 255.

(** the loop of [frame_bytes] *)
Definition escape_bytes (data : list Z) (escape : Z) : list Z :=
  data ≫= (fun byte => if byte =? escape then [escape; byte] else [byte]).

Definition frame_bytes (data : list Z) (escape : Z) : list Z :=
  escape_bytes data escape ++ [escape; not_u8 escape].

Record FramedPacketCutter : Type := mkCutter {
  escape : Z;
  may_cut : bool;
  packet : list Z;
}.

Definition cutter_new (escape : Z) : FramedPacketCutter := mkCutter escape false [].

Definition clear (c : FramedPacketCutter) : FramedPacketCutter :=
  mkCutter (escape c) (may_cut c) [].

(** body of the loop of [feed_bytes]: the new state and the packets handed out *)
Definition feed_byte (c : FramedPacketCutter) (byte : Z) : FramedPacketCutter * list (list Z) :=
  if may_cut c then
    if byte =? escape c
    then (mkCutter (escape c) false (packet c ++ [escape c]), [])
    else (mkCutter (escape c) false [], [packet c])
  else if byte =? escape c then (mkCutter (escape c) true (packet c), [])
  else (mkCutter (escape c) false (packet c ++ [byte]), []).

Fixpoint feed_bytes (c : FramedPacketCutter) (bytes : list Z)
    : FramedPacketCutter * list (list Z) :=
  match bytes with
  | [] => (c, [])
  | byte :: rest =>
    let '(c1, out1) := feed_byte c byte in
    let '(c2, out2) := feed_bytes c1 rest in
    (c2, out1 ++ out2)
  end.

(** the reads of a stream: one [feed_bytes] per piece *)
Fixpoint feed_chunks (c : FramedPacketCutter) (chunks : list (list Z))
    : FramedPacketCutter * list (list Z) :=
  match chunks with
  | [] => (c, [])
  | chunk :: rest =>
    let '(c1, out1) := feed_bytes c chunk in
    let '(c2, out2) := feed_chunks c1 rest in
    (c2, out1 ++ out2)
  end.

Definition frames (packets : list (list Z)) (escape : Z) : list Z :=
  packets ≫= (fun p => frame_bytes p escape).

(** ** Lemmas *)

Lemma not_u8_neq e : is_u8 e -> not_u8 e <> e.
Proof.
  intros He. apply Z.eqb_neq, negb_true_iff.
  apply (u8_forall (fun e => negb (not_u8 e =? e))); [vm_compute; reflexivity|done].
Qed.

Lemma feed_bytes_app c l1 l2 :
  feed_bytes c (l1 ++ l2)
  = let '(c1, out1) := feed_bytes c l1 in
    let '(c2, out2) := feed_bytes c1 l2 in (c2, out1 ++ out2).
Proof.
  revert c. induction l1 as [|b t IH]; intros c; simpl.
  - by destruct (feed_bytes c l2).
  - destruct (feed_byte c b) as [c1 o1]. rewrite IH.
    destruct (feed_bytes c1 t) as [c2 o2]. destruct (feed_bytes c2 l2) as [c3 o3].
    by rewrite app_assoc.
Qed.

Lemma feed_chunks_concat c chunks : feed_chunks c chunks = feed_bytes c (mjoin chunks).
Proof.
  revert c. induction chunks as [|l t IH]; intros c; simpl; [done|].
  rewrite feed_bytes_app. destruct (feed_bytes c l) as [c1 o1]. by rewrite IH.
Qed.

Lemma feed_escaped e acc data :
  feed_bytes (mkCutter e false acc) (escape_bytes data e) = (mkCutter e false (acc ++ data), []).
Proof.
  revert acc. induction data as [|b t IH]; intros acc.
  - simpl. by rewrite app_nil_r.
  - change (escape_bytes (b :: t) e)
      with ((if b =? e then [e; b] else [b]) ++ escape_bytes t e).
    rewrite feed_bytes_app. destruct (b =? e) eqn:Hb.
    + apply Z.eqb_eq in Hb as ->. simpl. unfold feed_byte. simpl. rewrite Z.eqb_refl. simpl.
      rewrite Z.eqb_refl. simpl. rewrite IH. by rewrite <- app_assoc.
    + simpl. unfold feed_byte. simpl. rewrite Hb. simpl. rewrite IH. by rewrite <- app_assoc.
Qed.

(** A frame received in normal state ends the packet collected so far. *)
Lemma feed_frame e acc p : is_u8 e ->
  feed_bytes (mkCutter e false acc) (frame_bytes p e) = (cutter_new e, [acc ++ p]).
Proof.
  intros He. unfold frame_bytes. rewrite feed_bytes_app, feed_escaped. simpl.
  unfold feed_byte. simpl. rewrite Z.eqb_refl. simpl.
  by rewrite (proj2 (Z.eqb_neq _ _) (not_u8_neq e He)).
Qed.

Lemma feed_frames e acc p ps : is_u8 e ->
  feed_bytes (mkCutter e false acc) (frames (p :: ps) e) = (cutter_new e, (acc ++ p) :: ps).
Proof.
  intros He. revert acc p. induction ps as [|q ps IH]; intros acc p.
  - unfold frames. simpl. rewrite app_nil_r. by apply feed_frame.
  - change (frames (p :: q :: ps) e) with (frame_bytes p e ++ frames (q :: ps) e).
    rewrite feed_bytes_app, feed_frame by done. unfold cutter_new. by rewrite IH.
Qed.

(** a clean cutter cuts the packets out of their frames *)
Lemma feed_frames_clean e ps : is_u8 e -> feed_bytes (cutter_new e) (frames ps e) = (cutter_new e, ps).
Proof. intros He. destruct ps as [|p ps]; [done|]. by apply (feed_frames e [] p ps). Qed.

Lemma frames_join ps e : mjoin (map (fun d => frame_bytes d e) ps) = frames ps e.
Proof. induction ps as [|p t IH]; [done|]. cbn. f_equal. exact IH. Qed.

Lemma feed_escape_kept c l : escape (feed_bytes c l).1 = escape c.
Proof.
  revert c. induction l as [|b t IH]; intros c; simpl; [done|].
  destruct (feed_byte c b) as [c1 o1] eqn:Hb. destruct (feed_bytes c1 t) as [c2 o2] eqn:Ht.
  simpl. specialize (IH c1). rewrite Ht in IH. simpl in IH. rewrite IH.
  unfold feed_byte in Hb. by repeat case_match; simplify_eq.
Qed.

(** Whatever the state is, the last byte of a frame ends an escape sequence. *)
Lemma feed_not_escape_normal c b : b <> escape c -> may_cut (feed_byte c b).1 = false.
Proof.
  intros Hb. unfold feed_byte. rewrite (proj2 (Z.eqb_neq _ _) Hb). by destruct (may_cut c).
Qed.

Lemma feed_frame_normal c p : is_u8 (escape c) ->
  may_cut (feed_bytes c (frame_bytes p (escape c))).1 = false.
Proof.
  intros He. unfold frame_bytes.
  change [escape c; not_u8 (escape c)] with ([escape c] ++ [not_u8 (escape c)]).
  rewrite app_assoc, feed_bytes_app.
  pose proof (feed_escape_kept c (escape_bytes p (escape c) ++ [escape c])) as Hk.
  destruct (feed_bytes c (escape_bytes p (escape c) ++ [escape c])) as [c1 o1]. simpl in Hk.
  simpl. pose proof (feed_not_escape_normal c1 (not_u8 (escape c))) as H.
  destruct (feed_byte c1 (not_u8 (escape c))) as [c2 o2]. simpl in *.
  apply H. rewrite Hk. by apply not_u8_neq.
Qed.

(** ** Properties *)

(** Framing round trip.  Any sequence of packets, framed and sent as a
    stream that is received in pieces of any size, is cut back into exactly
    these packets in order, and nothing is left in the cutter. *)
Theorem frames_cut_back e ps chunks :
  is_u8 e -> mjoin chunks = frames ps e ->
  feed_chunks (cutter_new e) chunks = (cutter_new e, ps).
Proof.
  intros He Hc. rewrite feed_chunks_concat, Hc. destruct ps as [|p ps]; [done|].
  unfold cutter_new at 1. by rewrite feed_frames.
Qed.

Lemma frames_cut_back_witness :
  feed_chunks (cutter_new 255) [[1; 2; 255]; [255; 3]; [255]; [0; 9]; [255; 0]]
  = (cutter_new 255, [[1; 2; 255; 3]; [9]]).
Proof. apply (frames_cut_back 255); [unfold is_u8; lia|reflexivity]. Defined.

(** Resynchronisation.  From any state of the cutter (garbage received
    before, a pending escape), one complete frame brings it back to normal
    state: of the frames after it only the first can be damaged, by a prefix of
    old bytes, and all the later ones are cut exactly. *)
Theorem cutter_resynchronises c p1 p2 ps :
  is_u8 (escape c) ->
  let '(c1, _) := feed_bytes c (frame_bytes p1 (escape c)) in
  may_cut c1 = false
  /\ feed_bytes c1 (frames (p2 :: ps) (escape c))
     = (cutter_new (escape c), (packet c1 ++ p2) :: ps).
Proof.
  intros He. pose proof (feed_frame_normal c p1 He) as Hn.
  pose proof (feed_escape_kept c (frame_bytes p1 (escape c))) as Hk.
  destruct (feed_bytes c (frame_bytes p1 (escape c))) as [[e1 m1 k1] o1]. simpl in *. subst.
  split; [done|]. by apply feed_frames.
Qed.

Lemma cutter_resynchronises_witness :
  let '(c1, _) := feed_bytes (mkCutter 255 true [7]) (frame_bytes [1; 2] 255) in
  may_cut c1 = false
  /\ feed_bytes c1 (frames [[3]; [4]] 255) = (cutter_new 255, [packet c1 ++ [3]; [4]]).
Proof.
  apply (cutter_resynchronises (mkCutter 255 true [7]) [1; 2] [3] [[4]]). unfold is_u8. simpl. lia.
Defined.

(** [clear] forgets the collected bytes but not a pending escape.  When the
    old stream ended with an escape byte, the first packet of the next stream
    is delivered as an empty packet followed by the rest of it: its first byte
    is lost. *)
Theorem clear_keeps_pending_escape e acc b t :
  is_u8 e -> b <> e ->
  feed_bytes (clear (mkCutter e true acc)) (frame_bytes (b :: t) e) = (cutter_new e, [[]; t]).
Proof.
  intros He Hb. unfold frame_bytes.
  change (escape_bytes (b :: t) e) with ((if b =? e then [e; b] else [b]) ++ escape_bytes t e).
  rewrite (proj2 (Z.eqb_neq _ _) Hb), <- app_assoc. fold (frame_bytes t e).
  rewrite feed_bytes_app. simpl. unfold clear, feed_byte. simpl.
  rewrite (proj2 (Z.eqb_neq _ _) Hb). by rewrite feed_frame.
Qed.

Lemma clear_keeps_pending_escape_witness :
  feed_bytes (clear (mkCutter 255 true [9; 9])) (frame_bytes [5; 63; 1] 255)
  = (cutter_new 255, [[]; [63; 1]]).
Proof. apply (clear_keeps_pending_escape 255 [9; 9] 5 [63; 1]); [unfold is_u8; lia|lia]. Defined.
