(* ===== verification/Connector.v ===== *)
(** * The connector of the bus gateway

    Models [src/connector.rs]: the byte stream to the gateway, its replacement
    when it breaks, the threads that send and receive packets on it.  Several
    threads work on one connector, so [send_packet] and [receive_loop] are the
    steps between their accesses to the shared state; a run is any interleaving
    of such steps.  What the operating system does is a parameter of the step:
    the result of the factory that opens a stream, the bytes of a read, how much
    a failed write wrote.  The number of reopened streams stays in its [u64]. *)

From stdpp Require Import base list numbers option strings.
From Stdlib Require Import ZArith Lia.
From S2P Require Import Prelude RustStd Tools Framing.

(** ** State *)

Inductive OnStreamClosed : Type :=
| Reconnect
| CallHandler.

(** [reader]: the reader is not taken yet; [child]: a process is attached *)
Record IoState : Type := mkIo {
  generation : nat;
  reader : bool;
  child : bool;
}.

(** a write to a stream: the sender, the bytes, and whether it succeeded *)
Record Written : Type := mkWritten { w_sender : nat; w_bytes : list Z; w_ok : bool }.

(** the connector, and what it did: the writes to the stream of each generation,
    the packets given to the hook (with the receiving thread), the calls of the
    handler and the generations whose process was killed *)
Record Inner : Type := mkInner {
  stream_escape : Z;
  on_closed : OnStreamClosed;
  io : IoState;
  hook : bool;
  run : bool;
  outs : list (list Written);
  dispatched : list (nat * list Z);
  handler_calls : nat;
  killed : list nat;
}.

(** the factory: an error or a stream, [true] when it has a process *)
Definition Opened : Type := res str bool.

Definition connector_new (factory : Opened) (escape : Z) (on_closed : OnStreamClosed) : res str Inner :=
  has_child ← factory;
  Ok (mkInner escape on_closed (mkIo 0 true has_child) false false [[]] [] 0 []).

Definition set_io (s : IoState) (c : Inner) : Inner :=
  mkInner (stream_escape c) (on_closed c) s (hook c) (run c) (outs c) (dispatched c) (handler_calls c) (killed c).
Definition set_run (b : bool) (c : Inner) : Inner :=
  mkInner (stream_escape c) (on_closed c) (io c) (hook c) b (outs c) (dispatched c) (handler_calls c) (killed c).
Definition set_packet_hook (c : Inner) : Inner :=
  mkInner (stream_escape c) (on_closed c) (io c) true (run c) (outs c) (dispatched c) (handler_calls c) (killed c).

Definition dispatch_packet (j : nat) (c : Inner) (data : list Z) : Inner :=
  if hook c then
    mkInner (stream_escape c) (on_closed c) (io c) (hook c) (run c) (outs c) (dispatched c ++ [(j, data)])
      (handler_calls c) (killed c)
  else c.

(** [child.take()], kill and wait *)
Definition kill_child (c : Inner) : Inner :=
  if child (io c) then
    mkInner (stream_escape c) (on_closed c) (mkIo (generation (io c)) (reader (io c)) false) (hook c) (run c)
      (outs c) (dispatched c) (handler_calls c) (killed c ++ [generation (io c)])
  else c.

(** the new stream takes the place of the old one *)
Definition reopen (has_child : bool) (c : Inner) : Inner :=
  mkInner (stream_escape c) (on_closed c) (mkIo (S (generation (io c))) true has_child) (hook c) (run c)
    (outs c ++ [[]]) (dispatched c) (handler_calls c) (killed c).

Definition call_handler (c : Inner) : Inner :=
  mkInner (stream_escape c) (on_closed c) (io c) (hook c) (run c) (outs c) (dispatched c)
    (S (handler_calls c)) (killed c).

Definition manage_closed_connection (broken : nat) (factory : Opened) (c : Inner) : bool * Inner :=
  if negb (Nat.eqb (generation (io c)) broken) then (true, c)
  else
    match on_closed c with
    | CallHandler => (false, call_handler c)
    | Reconnect =>
      let c := kill_child c in
      match factory with
      | Ok has_child => (true, reopen has_child c)
      | _ => (false, c)
      end
    end.

(** ** Threads *)

Inductive SendState : Type :=
| SndCheck
| SndWrite
| SndBroken (broken : nat) (err : str)
| SndDone (r : res str unit).

Record Sender : Type := mkSender { s_data : list Z; s_state : SendState }.

Inductive RxState : Type :=
| RxHead
| RxTake
| RxReading (g : nat)
| RxBroken (g : nat)
| RxManage (g : nat)
| RxDone.

Record Receiver : Type := mkReceiver { cutter : FramedPacketCutter; rx_state : RxState }.

Record World : Type := mkWorld {
  inner : Inner;
  senders : list Sender;
  receivers : list Receiver;
}.

Definition set_sender (i : nat) (st : SendState) (w : World) : World :=
  mkWorld (inner w) (alter (fun s => mkSender (s_data s) st) i (senders w)) (receivers w).
Definition set_receiver (j : nat) (cut : FramedPacketCutter) (st : RxState) (w : World) : World :=
  mkWorld (inner w) (senders w) (<[j := mkReceiver cut st]> (receivers w)).
Definition set_inner (c : Inner) (w : World) : World := mkWorld c (senders w) (receivers w).

Definition not_running : str :=
  $"This UartbusPacketConnector is not running, can't send packet to the network. Call start_listen() to run this instance.".

(** ** Sending *)

Definition send_packet (data : list Z) (w : World) : World :=
  mkWorld (inner w) (senders w ++ [mkSender data SndCheck]) (receivers w).

Definition send_with_crc8 (data : list Z) (w : World) : World := send_packet (data ++ [crc8 data]) w.

Definition send_check (i : nat) (w : World) : World :=
  if run (inner w) then set_sender i SndWrite w else set_sender i (SndDone (Err not_running)) w.

(** with the lock of the stream: the frame is written and flushed; a failed
    write has written a part of it *)
Definition send_write (i : nat) (data : list Z) (failed : option (nat * str)) (w : World) : World :=
  let c := inner w in
  let g := generation (io c) in
  let framed := frame_bytes data (stream_escape c) in
  let put b ok := mkInner (stream_escape c) (on_closed c) (io c) (hook c) (run c)
                    (alter (fun l => l ++ [mkWritten i b ok]) g (outs c)) (dispatched c) (handler_calls c)
                    (killed c) in
  match failed with
  | None => set_sender i (SndDone (Ok tt)) (set_inner (put framed true) w)
  | Some (n, err) => set_sender i (SndBroken g err) (set_inner (put (take n framed) false) w)
  end.

Definition send_manage (i : nat) (broken : nat) (err : str) (factory : Opened) (w : World) : World :=
  let '(go, c) := manage_closed_connection broken factory (inner w) in
  set_sender i (if go then SndCheck else SndDone (Err err)) (set_inner c w).

(** ** Receiving *)

(** [thread]: the error of starting the thread, if any; [run] is set by then *)
Definition start_listen (thread : option str) (w : World) : res str unit * World :=
  if run (inner w) then (Err $"Listening already started", w)
  else
    let w := set_inner (set_run true (inner w)) w in
    match thread with
    | Some err => (Err err, w)
    | None => (Ok tt, mkWorld (inner w) (senders w)
                        (receivers w ++ [mkReceiver (cutter_new (stream_escape (inner w))) RxHead]))
    end.

(** [while run] *)
Definition rx_head (j : nat) (cut : FramedPacketCutter) (w : World) : World :=
  set_receiver j cut (if run (inner w) then RxTake else RxDone) w.

(** [reader.take()]; without a reader the thread sleeps *)
Definition rx_take (j : nat) (cut : FramedPacketCutter) (w : World) : World :=
  let s := io (inner w) in
  if reader s then
    set_receiver j (clear cut) (RxReading (generation s))
      (set_inner (set_io (mkIo (generation s) false (child s)) (inner w)) w)
  else set_receiver j cut RxHead w.

Definition rx_read (j : nat) (cut : FramedPacketCutter) (g : nat) (chunk : list Z) (w : World) : World :=
  let '(cut, packets) := feed_bytes cut chunk in
  set_receiver j cut (RxReading g) (set_inner (foldl (dispatch_packet j) (inner w) packets) w).

Definition rx_again (j : nat) (cut : FramedPacketCutter) (g : nat) (w : World) : World :=
  set_receiver j cut (if run (inner w) then RxManage g else RxDone) w.

Definition rx_manage (j : nat) (cut : FramedPacketCutter) (g : nat) (factory : Opened) (w : World) : World :=
  let '(go, c) := manage_closed_connection g factory (inner w) in
  set_receiver j cut (if go then RxHead else RxDone) (set_inner c w).

(** ** Closing: the two steps of [close] *)

Definition close_run (w : World) : World := set_inner (set_run false (inner w)) w.
Definition close_child (w : World) : World := set_inner (kill_child (inner w)) w.

(** ** Runs *)

Inductive gw_op : Type :=
| GwHook
| GwSend (data : list Z)
| GwSender (i : nat) (failed : option (nat * str)) (factory : Opened)
| GwStart (thread : option str)
| GwReceiver (j : nat) (chunk : list Z) (factory : Opened)
| GwStop
| GwKill.

(** one step of a sender *)
Definition sender_step (i : nat) (failed : option (nat * str)) (factory : Opened) (w : World) : World :=
  match senders w !! i with
  | Some (mkSender data st) =>
    match st with
    | SndCheck => send_check i w
    | SndWrite => send_write i data failed w
    | SndBroken broken err => send_manage i broken err factory w
    | SndDone _ => w
    end
  | None => w
  end.

(** one step of a receive loop; an empty [chunk] is the end of the stream or an error *)
Definition receiver_step (j : nat) (chunk : list Z) (factory : Opened) (w : World) : World :=
  match receivers w !! j with
  | Some (mkReceiver cut st) =>
    match st with
    | RxHead => rx_head j cut w
    | RxTake => rx_take j cut w
    | RxReading g =>
      match chunk with
      | [] => set_receiver j cut (RxBroken g) w
      | _ => rx_read j cut g chunk w
      end
    | RxBroken g => rx_again j cut g w
    | RxManage g => rx_manage j cut g factory w
    | RxDone => w
    end
  | None => w
  end.

Definition gw_step (w : World) (o : gw_op) : World :=
  match o with
  | GwHook => set_inner (set_packet_hook (inner w)) w
  | GwSend data => send_packet data w
  | GwSender i failed factory => sender_step i failed factory w
  | GwStart thread => (start_listen thread w).2
  | GwReceiver j chunk factory => receiver_step j chunk factory w
  | GwStop => close_run w
  | GwKill => close_child w
  end.

Definition run_gw (w : World) (ops : list gw_op) : World := foldl gw_step w ops.

(** ** Opening a stream *)

Record Command : Type := mkCommand { program : str; args : list str }.

Definition serial_socat_args (device : str) (baud : Z) : list str :=
  [device ++ $",b" ++ show_nat baud ++ $",raw,echo=0"; $"-"].

(** the started program; [spawn]: its error, if any *)
Definition open_communicator_process (spawn : Command -> option str) (program : str) (args : list str) : Opened :=
  match spawn (mkCommand program args) with
  | Some err => Err ($"can't start `" ++ program ++ $"`: " ++ err)
  | None => Ok true
  end.

Definition open_serial (spawn : Command -> option str) (device : str) (baud : Z) : Opened :=
  open_communicator_process spawn $"socat" (serial_socat_args device baud).

Definition open_direct_serial (spawn : Command -> option str) (program device : str) (baud : Z) : Opened :=
  open_communicator_process spawn program [device; show_nat baud].

(** ** Lemmas: generations *)

(** the stream that a receiver has in its hands *)
Definition holds (r : Receiver) : option nat :=
  match rx_state r with RxReading g | RxBroken g | RxManage g => Some g | _ => None end.

Record gen_inv (w : World) : Prop := {
  gen_outs : length (outs (inner w)) = S (generation (io (inner w)));
  gen_receivers : forall j r g, receivers w !! j = Some r -> holds r = Some g -> (g <= generation (io (inner w)))%nat;
  gen_unique : forall i j r r' g, receivers w !! i = Some r -> receivers w !! j = Some r' ->
    holds r = Some g -> holds r' = Some g -> i = j;
  gen_reader : reader (io (inner w)) = true -> forall j r, receivers w !! j = Some r ->
    holds r <> Some (generation (io (inner w)));
  gen_senders : forall i d g err, senders w !! i = Some (mkSender d (SndBroken g err)) ->
    (g <= generation (io (inner w)))%nat;
  gen_killed : NoDup (killed (inner w)) /\ Forall (fun g => (g <= generation (io (inner w)))%nat) (killed (inner w))
    /\ (child (io (inner w)) = true -> generation (io (inner w)) ∉ killed (inner w));
}.

(** a step that changes neither the streams nor what the threads hold *)
Lemma gen_inv_frame w w' : gen_inv w -> io (inner w') = io (inner w) ->
  length (outs (inner w')) = length (outs (inner w)) -> killed (inner w') = killed (inner w) ->
  (forall j r', receivers w' !! j = Some r' -> holds r' = None \/
     exists r, receivers w !! j = Some r /\ holds r = holds r') ->
  (forall i d g err, senders w' !! i = Some (mkSender d (SndBroken g err)) ->
     g = generation (io (inner w)) \/ exists d, senders w !! i = Some (mkSender d (SndBroken g err))) ->
  gen_inv w'.
Proof.
  intros [H1 H2 H3 H4 H5 H6] Hio Hlen Hk Hr Hs. split; rewrite ?Hio, ?Hlen, ?Hk; try done.
  - intros j r' g Hj Hg. destruct (Hr j r' Hj) as [?|(r & ? & Hh)]; [congruence|]. eapply H2; [done|congruence].
  - intros i j r r' g Hi Hj Hg Hg'. destruct (Hr i r Hi) as [?|(x & Hx & Hxh)]; [congruence|].
    destruct (Hr j r' Hj) as [?|(y & Hy & Hyh)]; [congruence|]. apply (H3 i j x y g); [exact Hx|exact Hy|congruence..].
  - intros Hrd j r' Hj Hg. destruct (Hr j r' Hj) as [?|(r & Hj' & Hh)]; [congruence|].
    apply (H4 Hrd j r Hj'). congruence.
  - intros i d g err Hi. destruct (Hs i d g err Hi) as [->|[d' Hd]]; [done|by eapply H5].
Qed.

Lemma kill_child_inv w : gen_inv w -> gen_inv (set_inner (kill_child (inner w)) w).
Proof.
  intros Hw. unfold kill_child. destruct (child (io (inner w))) eqn:Hc; [|by destruct w].
  destruct Hw as [H1 H2 H3 H4 H5 (H6 & H7 & H8)]. specialize (H8 Hc). split; try done. cbn. split; [|split; [|done]].
  - apply NoDup_app. split; [done|]. split; [|apply NoDup_singleton].
    intros g Hg Hg'%list_elem_of_singleton. by subst.
  - apply Forall_app. split; [done|]. by constructor.
Qed.

Lemma kill_child_io c : generation (io (kill_child c)) = generation (io c)
  /\ reader (io (kill_child c)) = reader (io c) /\ child (io (kill_child c)) = false.
Proof. unfold kill_child. by destruct (child (io c)) eqn:Hc. Qed.

Lemma reopen_inv b w : gen_inv w -> child (io (inner w)) = false -> gen_inv (set_inner (reopen b (inner w)) w).
Proof.
  intros [H1 H2 H3 H4 H5 (H6 & H7 & H8)] Hc. split; cbn; try done.
  - rewrite length_app. cbn. lia.
  - intros j r g Hj Hg. specialize (H2 j r g Hj Hg). lia.
  - intros _ j r Hj Hg. specialize (H2 j r _ Hj Hg). lia.
  - intros i d g err Hi. specialize (H5 i d g err Hi). lia.
  - split; [done|]. split; [eapply Forall_impl; [exact H7|]; cbn; lia|].
    intros _ Hin. eapply Forall_forall in H7; [|exact Hin]. cbn in H7. lia.
Qed.

Lemma manage_inv w g factory : gen_inv w ->
  gen_inv (set_inner (manage_closed_connection g factory (inner w)).2 w).
Proof.
  intros Hw. unfold manage_closed_connection. destruct (negb _); [by destruct w|].
  destruct (on_closed (inner w)); [|by destruct Hw].
  pose proof (kill_child_inv w Hw) as Hk. pose proof (kill_child_io (inner w)) as (_ & _ & Hc).
  destruct factory as [b|err|]; cbn [snd]; [|done..]. by apply (reopen_inv b _ Hk).
Qed.

Lemma dispatch_io j c packets : io (foldl (dispatch_packet j) c packets) = io c
  /\ outs (foldl (dispatch_packet j) c packets) = outs c
  /\ killed (foldl (dispatch_packet j) c packets) = killed c
  /\ hook (foldl (dispatch_packet j) c packets) = hook c
  /\ stream_escape (foldl (dispatch_packet j) c packets) = stream_escape c
  /\ dispatched (foldl (dispatch_packet j) c packets)
     = dispatched c ++ (if hook c then map (pair j) packets else []).
Proof.
  revert c. induction packets as [|p t IH]; intros c; cbn [foldl].
  - repeat (split; [done|]). destruct (hook c); by rewrite app_nil_r.
  - destruct (IH (dispatch_packet j c p)) as (-> & -> & -> & -> & -> & ->).
    unfold dispatch_packet. destruct (hook c) eqn:Hh; cbn; rewrite ?Hh; [|by rewrite app_nil_r].
    by rewrite <- app_assoc.
Qed.

Lemma set_receiver_lookup j cut st w i r : receivers (set_receiver j cut st w) !! i = Some r ->
  (i = j /\ r = mkReceiver cut st) \/ (i <> j /\ receivers w !! i = Some r).
Proof. cbn. intros Hi. apply list_lookup_insert_Some in Hi as [(-> & -> & _)|[? ?]]; [by left|by right]. Qed.

(** a receiver goes on with the stream it has, or without one *)
Lemma set_receiver_inv j cut st w r : gen_inv w -> receivers w !! j = Some r ->
  holds (mkReceiver cut st) = None \/ holds (mkReceiver cut st) = holds r -> gen_inv (set_receiver j cut st w).
Proof.
  intros Hw Hj Hh. apply (gen_inv_frame w); try done.
  - intros i r' [[-> ->]|[_ Hi]]%set_receiver_lookup; [|by eauto]. destruct Hh as [?|Hh]; [by left|].
    right. exists r. split; [done|congruence].
  - intros i d g err Hi. by eauto.
Qed.

Lemma set_sender_lookup i st w k s : senders (set_sender i st w) !! k = Some s ->
  exists s0, senders w !! k = Some s0 /\ s = (if bool_decide (k = i) then mkSender (s_data s0) st else s0).
Proof.
  cbn. destruct (decide (k = i)) as [->|Hne].
  - rewrite list_lookup_alter_eq, bool_decide_true by done. intros (s0 & -> & ->)%fmap_Some. eauto.
  - rewrite list_lookup_alter_ne, bool_decide_false by done. eauto.
Qed.

Lemma set_sender_inv i st w : gen_inv w ->
  (forall g err, st = SndBroken g err -> g = generation (io (inner w))) -> gen_inv (set_sender i st w).
Proof.
  intros Hw Hst. apply (gen_inv_frame w); try done; [by eauto|].
  intros k d g err Hk%set_sender_lookup. destruct Hk as (s0 & Hs0 & Heq). case_bool_decide.
  - injection Heq as _ <-. left. by apply (Hst g err).
  - subst. eauto.
Qed.

(** the reader of a stream is taken once *)
Lemma rx_take_inv j cut w r : gen_inv w -> receivers w !! j = Some r -> gen_inv (rx_take j cut w).
Proof.
  intros Hw Hj. unfold rx_take. destruct (reader (io (inner w))) eqn:Hr.
  2: { eapply set_receiver_inv; [done|exact Hj|by left]. }
  destruct Hw as [H1 H2 H3 H4 H5 H6]. specialize (H4 Hr). set (w' := set_receiver _ _ _ _).
  assert (forall i x g, receivers w' !! i = Some x -> holds x = Some g ->
    (i = j /\ g = generation (io (inner w)))
    \/ (i <> j /\ receivers w !! i = Some x /\ g <> generation (io (inner w)))) as Hx.
  { intros i x g [[-> ->]|[Hne Hi]]%set_receiver_lookup Hg; [left; split; [done|]; by injection Hg|].
    right. split; [done|]. split; [done|]. intros ->. by apply (H4 i x Hi). }
  split; try done.
  - intros i x g Hi Hg. destruct (Hx i x g Hi Hg) as [[_ ->]|(_ & Hi' & _)]; [done|]. by apply (H2 i x g).
  - intros i k x y g Hi Hk Hg Hg'.
    destruct (Hx i x g Hi Hg) as [[-> ->]|(Hij & Hi' & Hn)], (Hx k y _ Hk Hg') as [[-> ?]|(Hkj & Hk' & Hn')];
      try done. by apply (H3 i k x y g).
Qed.

Lemma gw_step_inv w o : gen_inv w -> gen_inv (gw_step w o).
Proof.
  intros Hw. destruct o as [|data|i failed factory| |j chunk factory| |]; cbn [gw_step].
  - apply (gen_inv_frame w); try done; eauto.
  - apply (gen_inv_frame w); try done; [by eauto|]. intros i d g err Hi. right. exists d.
    by apply lookup_snoc_Some in Hi as [[_ ?]|[_ ?]].
  - unfold sender_step. destruct (senders w !! i) as [[data st]|]; [|done]. destruct st as [| |g err|r]; [| | |done].
    + unfold send_check. destruct (run (inner w)); by apply set_sender_inv.
    + unfold send_write. destruct failed as [[n err]|]; apply set_sender_inv; try done;
        try (by intros ? ? [= <- _]); (apply (gen_inv_frame w); try done; [cbn; by rewrite length_alter| |]; by eauto).
    + unfold send_manage. pose proof (manage_inv w g factory Hw) as Hm.
      destruct (manage_closed_connection g factory (inner w)) as [go c]. apply set_sender_inv; [done|].
      by destruct go.
  - unfold start_listen. destruct (run (inner w)); [done|]. destruct thread; apply (gen_inv_frame w); try done; try (by eauto).
    intros j r' Hj. apply lookup_snoc_Some in Hj as [[_ ?]|[_ <-]]; [by eauto|by left].
  - unfold receiver_step. destruct (receivers w !! j) as [[cut st]|] eqn:Hj; [|done].
    destruct st as [| |g|g|g|]; [| | | | |done].
    + apply (set_receiver_inv j cut _ w _ Hw Hj). left. by destruct (run (inner w)).
    + by apply rx_take_inv with (r := mkReceiver cut RxTake).
    + destruct chunk as [|b chunk]; [by apply (set_receiver_inv j cut _ w _ Hw Hj); right|].
      unfold rx_read. destruct (feed_bytes cut (b :: chunk)) as [cut' packets].
      destruct (dispatch_io j (inner w) packets) as (E1 & E2 & E3 & _).
      eapply set_receiver_inv; [|exact Hj|by right]. apply (gen_inv_frame w); try done; cbn; try congruence; by eauto.
    + apply (set_receiver_inv j cut _ w _ Hw Hj). destruct (run (inner w)); [by right|by left].
    + unfold rx_manage. pose proof (manage_inv w g factory Hw) as Hm.
      destruct (manage_closed_connection g factory (inner w)) as [go c].
      eapply set_receiver_inv; [done|exact Hj|left; by destruct go].
  - apply (gen_inv_frame w); try done; eauto.
  - by apply kill_child_inv.
Qed.

Lemma run_gw_inv w ops : gen_inv w -> gen_inv (run_gw w ops).
Proof. revert w. induction ops as [|o t IH]; intros w Hw; [done|]. cbn. by apply IH, gw_step_inv. Qed.

Definition world_new (c : Inner) : World := mkWorld c [] [].

Lemma world_new_inv factory e closed c : connector_new factory e closed = Ok c -> gen_inv (world_new c).
Proof.
  intros Hc. unfold connector_new in Hc. destruct factory as [b| |]; cbn in Hc; [injection Hc as <-|done..].
  split; cbn; try done. split; [constructor|]. split; [constructor|]. intros _. apply not_elem_of_nil.
Qed.

(** ** Lemmas: sent packets *)

Definition done_ok (s : Sender) : bool := match s_state s with SndDone (Ok _) => true | _ => false end.

(** the successful writes of sender [i] on all streams *)
Definition ok_writes (i : nat) (c : Inner) : list Written :=
  filter (fun x => w_sender x = i /\ w_ok x = true) (mjoin (outs c)).

(** a successful write is the frame of its sender, who has returned [Ok]; each
    such sender has exactly one *)
Record sent_inv (w : World) : Prop := {
  sent_frame : forall x, x ∈ mjoin (outs (inner w)) -> exists s, senders w !! w_sender x = Some s
    /\ if w_ok x then w_bytes x = frame_bytes (s_data s) (stream_escape (inner w)) /\ done_ok s = true
       else exists n, w_bytes x = take n (frame_bytes (s_data s) (stream_escape (inner w)));
  sent_once : forall i s, senders w !! i = Some s ->
    length (ok_writes i (inner w)) = if done_ok s then 1%nat else 0%nat;
}.

(** a step that writes nothing and lets no sender return [Ok] *)
Lemma sent_inv_frame w w' : sent_inv w -> outs (inner w') = outs (inner w) \/ outs (inner w') = outs (inner w) ++ [[]] ->
  stream_escape (inner w') = stream_escape (inner w) ->
  (forall i s', senders w' !! i = Some s' -> (exists s, senders w !! i = Some s /\ s_data s = s_data s'
     /\ done_ok s = done_ok s') \/ (done_ok s' = false /\ senders w !! i = None)) ->
  (forall i s, senders w !! i = Some s -> is_Some (senders w' !! i)) -> sent_inv w'.
Proof.
  intros [H1 H2] Ho He Hs Hkeep.
  assert (mjoin (outs (inner w')) = mjoin (outs (inner w))) as Hj.
  { destruct Ho as [->| ->]; [done|]. rewrite join_app. cbn. by rewrite app_nil_r. }
  split.
  - rewrite Hj, He. intros x Hx. destruct (H1 x Hx) as (s & Hsx & Hok).
    destruct (Hkeep _ _ Hsx) as [s' Hs']. destruct (Hs _ _ Hs') as [(s0 & Hs0 & Hd & Hk)|[_ ?]]; [|congruence].
    exists s'. split; [done|]. rewrite Hsx in Hs0. injection Hs0 as <-. by rewrite <- Hd, <- Hk.
  - intros i s' Hi. unfold ok_writes. rewrite Hj. destruct (Hs i s' Hi) as [(s & Hsi & _ & <-)|[-> Hn]].
    + by apply H2.
    + apply length_zero_iff_nil. apply elem_of_nil_inv. intros x [[Hx1 Hx2] Hx]%list_elem_of_filter.
      destruct (H1 x Hx) as (s & Hsx & _). congruence.
Qed.

Lemma join_alter_snoc {A} (l : list (list A)) g x : (g < length l)%nat ->
  mjoin (alter (fun r => r ++ [x]) g l) ≡ₚ x :: mjoin l.
Proof.
  revert g. induction l as [|r l IH]; intros g Hg; cbn in Hg; [lia|]. destruct g as [|g]; cbn.
  - rewrite <- app_assoc. symmetry. apply Permutation_middle.
  - rewrite IH by lia. symmetry. apply Permutation_middle.
Qed.

Lemma sent_same w w' : sent_inv w -> senders w' = senders w -> outs (inner w') = outs (inner w) ->
  stream_escape (inner w') = stream_escape (inner w) -> sent_inv w'.
Proof.
  intros Hw Hs Ho He. apply (sent_inv_frame w); [done|by left|done| |]; rewrite Hs; [|by eauto].
  intros i s Hi. left. by eauto.
Qed.

(** a sender that has not returned goes on without returning [Ok] *)
Lemma sent_set_sender w i s st : sent_inv w -> senders w !! i = Some s -> done_ok s = false ->
  done_ok (mkSender (s_data s) st) = false -> sent_inv (set_sender i st w).
Proof.
  intros Hw Hi Hd Hst. apply (sent_inv_frame w); [done|by left|done| |].
  - intros k s' Hk%set_sender_lookup. destruct Hk as (s0 & Hs0 & ->). left. exists s0. split; [done|].
    case_bool_decide; [|done]. subst. rewrite Hi in Hs0. injection Hs0 as <-. split; [done|]. congruence.
  - intros k s0 Hk. cbn. destruct (decide (k = i)) as [->|].
    + rewrite list_lookup_alter_eq, Hk. by eexists.
    + by rewrite list_lookup_alter_ne.
Qed.

Lemma manage_sent w g factory : sent_inv w -> sent_inv (set_inner (manage_closed_connection g factory (inner w)).2 w).
Proof.
  intros Hw. assert (forall c, outs (kill_child c) = outs c /\ stream_escape (kill_child c) = stream_escape c) as Hk
    by (intros c; unfold kill_child; by destruct (child (io c))).
  destruct (Hk (inner w)) as [Ho He].
  unfold manage_closed_connection. destruct (negb _); [by destruct w|].
  destruct (on_closed (inner w)); [|by apply (sent_same w)].
  destruct factory as [b|err|]; cbn [snd]; [|by apply (sent_same w)..].
  apply (sent_inv_frame w); [done|right; cbn; by rewrite Ho|by cbn| |by eauto].
  intros i s Hi. left. by exists s.
Qed.

(** the write of a sender *)
Lemma send_write_sent w i data failed : gen_inv w -> sent_inv w -> senders w !! i = Some (mkSender data SndWrite) ->
  sent_inv (send_write i data failed w).
Proof.
  intros Hg [H1 H2] Hi. set (c := inner w) in *. set (f := frame_bytes data (stream_escape c)).
  set (ok := match failed with None => true | Some _ => false end).
  set (b := match failed with None => f | Some (n, _) => take n f end).
  set (st := match failed with None => SndDone (Ok tt) | Some (_, err) => SndBroken (generation (io c)) err end).
  set (w' := send_write i data failed w).
  assert (senders w' = alter (fun s => mkSender (s_data s) st) i (senders w)
    /\ stream_escape (inner w') = stream_escape c
    /\ outs (inner w') = alter (fun l => l ++ [mkWritten i b ok]) (generation (io c)) (outs c)) as (Hs & He & Ho)
    by (unfold w', send_write, st, b, ok; by destruct failed as [[??]|]).
  assert (mjoin (outs (inner w')) ≡ₚ mkWritten i b ok :: mjoin (outs c)) as Hp.
  { rewrite Ho. apply join_alter_snoc. pose proof (gen_outs w Hg) as Hl. fold c in Hl. rewrite Hl. lia. }
  assert (done_ok (mkSender data st) = ok) as Hdone by (unfold st, ok; by destruct failed as [[??]|]).
  split.
  - rewrite He. intros x Hx. rewrite Hp in Hx. apply elem_of_cons in Hx as [->|Hx].
    + exists (mkSender data st). rewrite Hs. cbn. rewrite list_lookup_alter_eq, Hi. split; [done|].
      unfold ok, b, f in *. destruct failed as [[n err]|]; cbn; [by exists n|done].
    + destruct (H1 x Hx) as (s & Hsx & Hok). rewrite Hs.
      destruct (decide (w_sender x = i)) as [Heq|Hne]; [|by rewrite list_lookup_alter_ne; eauto].
      rewrite Heq in *. rewrite Hi in Hsx. injection Hsx as <-. cbn in Hok.
      rewrite list_lookup_alter_eq, Hi. eexists. split; [done|]. destruct (w_ok x); [by destruct Hok|done].
  - intros k s Hk. unfold ok_writes. rewrite (filter_Permutation _ _ _ Hp), filter_cons. cbn [w_sender w_ok].
    rewrite Hs in Hk. destruct (decide (k = i)) as [->|Hne].
    + rewrite list_lookup_alter_eq, Hi in Hk. injection Hk as <-. cbn [s_data]. rewrite Hdone.
      specialize (H2 i _ Hi). unfold ok_writes in H2. cbn in H2. case_decide as Hd; [destruct Hd as [_ ->]|].
      * cbn. by rewrite H2.
      * destruct ok; [|done]. by destruct Hd.
    + rewrite list_lookup_alter_ne in Hk by done. rewrite decide_False by naive_solver. by apply H2.
Qed.

Lemma gw_step_sent w o : gen_inv w -> sent_inv w -> sent_inv (gw_step w o).
Proof.
  intros Hg Hw. destruct o as [|data|i failed factory| |j chunk factory| |]; cbn [gw_step].
  - by apply (sent_same w).
  - apply (sent_inv_frame w); [done|by left|done| |].
    + intros i s Hi. apply lookup_snoc_Some in Hi as [[_ ?]|[-> <-]]; [left; by eauto|].
      right. split; [done|]. by apply lookup_ge_None.
    + intros i s Hi. eexists. by apply lookup_app_l_Some.
  - unfold sender_step. destruct (senders w !! i) as [[data st]|] eqn:Hi; [|done].
    destruct st as [| |g err|r]; [| | |done].
    + unfold send_check. destruct (run (inner w)); by apply (sent_set_sender w i _ _ Hw Hi).
    + by apply send_write_sent.
    + unfold send_manage. pose proof (manage_sent w g factory Hw) as Hm.
      destruct (manage_closed_connection g factory (inner w)) as [go c].
      apply (sent_set_sender (set_inner c w) i _ _ Hm Hi); [done|]. by destruct go.
  - unfold start_listen. destruct (run (inner w)); [done|]. destruct thread; by apply (sent_same w).
  - unfold receiver_step. destruct (receivers w !! j) as [[cut st]|] eqn:Hj; [|done].
    destruct st as [| |g|g|g|]; [| | | | |done].
    + by apply (sent_same w).
    + unfold rx_take. destruct (reader (io (inner w))); by apply (sent_same w).
    + destruct chunk as [|b chunk]; [by apply (sent_same w)|].
      unfold rx_read. destruct (feed_bytes cut (b :: chunk)) as [cut' packets].
      destruct (dispatch_io j (inner w) packets) as (_ & E2 & _ & _ & E5 & _). by apply (sent_same w).
    + by apply (sent_same w).
    + unfold rx_manage. pose proof (manage_sent w g factory Hw) as Hm.
      destruct (manage_closed_connection g factory (inner w)) as [go c]. by apply (sent_same (set_inner c w)).
  - by apply (sent_same w).
  - unfold close_child, kill_child. destruct (child (io (inner w))); by apply (sent_same w).
Qed.

Lemma run_gw_sent w ops : gen_inv w -> sent_inv w -> sent_inv (run_gw w ops).
Proof.
  revert w. induction ops as [|o t IH]; intros w Hg Hw; [done|]. cbn.
  apply IH; [by apply gw_step_inv|by apply gw_step_sent].
Qed.

Lemma world_new_sent factory e closed c : connector_new factory e closed = Ok c ->
  sent_inv (world_new c) /\ stream_escape c = e.
Proof.
  intros Hc. unfold connector_new in Hc. destruct factory as [b| |]; cbn in Hc; [injection Hc as <-|done..].
  split; [|done]. split; cbn; [|done]. intros x Hx. by apply elem_of_nil in Hx.
Qed.

Lemma gw_step_escape w o : stream_escape (inner (gw_step w o)) = stream_escape (inner w).
Proof.
  assert (forall g f c, stream_escape (manage_closed_connection g f c).2 = stream_escape c) as Hm.
  { intros g f c. unfold manage_closed_connection, kill_child. destruct (negb _); [done|].
    destruct (on_closed c); [|done]. destruct (child (io c)); by destruct f. }
  destruct o as [|data|i failed factory| |j chunk factory| |]; cbn [gw_step]; try done.
  - unfold sender_step, send_check, send_write, send_manage.
    destruct (senders w !! i) as [[data [| |g err|r]]|]; try done.
    + by destruct (run (inner w)).
    + by destruct failed as [[??]|].
    + pose proof (Hm g factory (inner w)) as Hx.
      destruct (manage_closed_connection g factory (inner w)) as [go c]. by cbn in *.
  - unfold start_listen. destruct (run (inner w)), thread; done.
  - unfold receiver_step, rx_take, rx_read, rx_manage.
    destruct (receivers w !! j) as [[cut [| |g|g|g|]]|]; try done.
    + by destruct (reader (io (inner w))).
    + destruct chunk as [|b chunk]; [done|]. destruct (feed_bytes cut (b :: chunk)) as [cut' packets].
      by destruct (dispatch_io j (inner w) packets) as (_ & _ & _ & _ & E & _).
    + pose proof (Hm g factory (inner w)) as Hx.
      destruct (manage_closed_connection g factory (inner w)) as [go c]. by cbn in *.
  - unfold close_child, kill_child. by destruct (child (io (inner w))).
Qed.

Lemma run_gw_escape w ops : stream_escape (inner (run_gw w ops)) = stream_escape (inner w).
Proof.
  revert w. induction ops as [|o t IH]; intros w; [done|]. cbn. unfold run_gw in IH.
  by rewrite IH, gw_step_escape.
Qed.

(** ** Lemmas: received packets *)

(** the reads of receiver [j] in a run *)
Definition reads_of (j : nat) (ops : list gw_op) : list (list Z) :=
  omap (fun o => match o with
                 | GwReceiver k chunk _ => if bool_decide (k = j) then Some chunk else None
                 | _ => None
                 end) ops.

(** the packets that receiver [j] gave to the hook *)
Definition given (j : nat) (w : World) : list (list Z) :=
  (filter (fun d => d.1 = j) (dispatched (inner w))).*2.

Lemma manage_received g f c : hook (manage_closed_connection g f c).2 = hook c
  /\ dispatched (manage_closed_connection g f c).2 = dispatched c.
Proof.
  unfold manage_closed_connection, kill_child. destruct (negb _); [done|].
  destruct (on_closed c); [|done]. destruct (child (io c)); by destruct f.
Qed.

Lemma filter_pairs (j k : nat) (l : list (list Z)) :
  (filter (fun d => d.1 = j) (map (pair k) l)).*2 = if bool_decide (k = j) then l else [].
Proof.
  induction l as [|x t IH]; [by case_bool_decide|]. cbn [map]. rewrite filter_cons. cbn.
  case_bool_decide; case_decide; try done. cbn. by rewrite IH.
Qed.

(** the steps of the others do not touch receiver [j] *)
Lemma other_step_received w o j r : (forall chunk f, o <> GwReceiver j chunk f) ->
  receivers w !! j = Some r -> hook (inner w) = true ->
  receivers (gw_step w o) !! j = Some r /\ hook (inner (gw_step w o)) = true /\ given j (gw_step w o) = given j w.
Proof.
  intros Ho Hj Hh. unfold given.
  destruct o as [|data|i failed factory| |k chunk factory| |]; cbn [gw_step]; try done.
  - unfold sender_step, send_check, send_write, send_manage.
    destruct (senders w !! i) as [[data [| |g err|x]]|]; try done.
    + by destruct (run (inner w)).
    + by destruct failed as [[??]|].
    + destruct (manage_received g factory (inner w)) as [E1 E2].
      destruct (manage_closed_connection g factory (inner w)) as [go c]. cbn in *. by rewrite E1, E2.
  - unfold start_listen. destruct (run (inner w)); [done|]. destruct thread; cbn; [done|]. by erewrite lookup_app_l_Some.
  - assert (k <> j) as Hk by (intros ->; by apply (Ho chunk factory)).
    unfold receiver_step, rx_take, rx_read, rx_manage.
    destruct (receivers w !! k) as [[cut [| |g|g|g|]]|]; try done; cbn; rewrite ?list_lookup_insert_ne by done; try done.
    + destruct (reader (io (inner w))); cbn; by rewrite ?list_lookup_insert_ne by done.
    + destruct chunk as [|b chunk]; [cbn; by rewrite list_lookup_insert_ne|].
      destruct (feed_bytes cut (b :: chunk)) as [cut' packets].
      destruct (dispatch_io k (inner w) packets) as (_ & _ & _ & E4 & _ & E6). cbn.
      rewrite list_lookup_insert_ne, E4, E6, Hh, filter_app, fmap_app, filter_pairs, bool_decide_false by done.
      by rewrite app_nil_r.
    + destruct (manage_received g factory (inner w)) as [E1 E2].
      destruct (manage_closed_connection g factory (inner w)) as [go c]. cbn in *.
      by rewrite list_lookup_insert_ne, E1, E2.
  - unfold close_child, kill_child. by destruct (child (io (inner w))).
Qed.

Lemma reading_run w ops j cut g : hook (inner w) = true ->
  receivers w !! j = Some (mkReceiver cut (RxReading g)) -> Forall (fun chunk => chunk <> []) (reads_of j ops) ->
  receivers (run_gw w ops) !! j = Some (mkReceiver (feed_chunks cut (reads_of j ops)).1 (RxReading g))
  /\ given j (run_gw w ops) = given j w ++ (feed_chunks cut (reads_of j ops)).2.
Proof.
  revert w cut. induction ops as [|o t IH]; intros w cut Hh Hj Hne; [cbn; by rewrite app_nil_r|].
  cbn [run_gw foldl].
  assert ((exists chunk f, o = GwReceiver j chunk f) \/
    ((forall chunk f, o <> GwReceiver j chunk f) /\ reads_of j (o :: t) = reads_of j t)) as [(chunk & f & ->)|[Hno Hr]].
  { destruct o as [| | | |k chunk f| |]; try (by right). destruct (decide (k = j)) as [->|Hk]; [by eauto|].
    right. split; [congruence|]. unfold reads_of. cbn. by rewrite bool_decide_false. }
  - assert (reads_of j (GwReceiver j chunk f :: t) = chunk :: reads_of j t) as Hr
      by (unfold reads_of; cbn; by rewrite bool_decide_true).
    rewrite Hr in *. apply Forall_cons_1 in Hne as [Hc Hne]. destruct chunk as [|b chunk]; [done|].
    cbn [gw_step]. unfold receiver_step. rewrite Hj. unfold rx_read. cbn [feed_chunks].
    destruct (feed_bytes cut (b :: chunk)) as [cut1 packets] eqn:Hf.
    destruct (dispatch_io j (inner w) packets) as (_ & _ & _ & E4 & _ & E6).
    set (w1 := set_receiver _ _ _ _).
    destruct (IH w1 cut1) as [Hr1 Hg1]; [cbn; by rewrite E4| |done|].
    { cbn. apply list_lookup_insert_eq. by eapply lookup_lt_Some. }
    destruct (feed_chunks cut1 (reads_of j t)) as [cut2 out2]. unfold run_gw in *. rewrite Hr1, Hg1. cbn.
    split; [done|]. unfold given at 1, w1. cbn.
    rewrite E6, Hh, filter_app, fmap_app, filter_pairs, bool_decide_true by done. by rewrite <- app_assoc.
  - rewrite Hr in *. destruct (other_step_received w o j _ Hno Hj Hh) as (H1 & H2 & H3).
    destruct (IH (gw_step w o) cut H2 H1 Hne) as [Hr1 Hg1]. unfold run_gw in *. by rewrite Hr1, Hg1, H3.
Qed.

(** ** Lemmas: the generation *)

Lemma gw_step_generation w o : (generation (io (inner w)) <= generation (io (inner (gw_step w o))))%nat.
Proof.
  assert (forall g f c, (generation (io c) <= generation (io (manage_closed_connection g f c).2))%nat) as Hm.
  { intros g f c. unfold manage_closed_connection. destruct (negb _); [done|].
    destruct (on_closed c); [|done]. pose proof (kill_child_io c) as [Hg _]. destruct f; cbn; lia. }
  destruct o as [|data|i failed factory| |j chunk factory| |]; cbn [gw_step]; try done.
  - unfold sender_step, send_check, send_write, send_manage.
    destruct (senders w !! i) as [[data [| |g err|r]]|]; try done.
    + by destruct (run (inner w)).
    + by destruct failed as [[??]|].
    + pose proof (Hm g factory (inner w)) as Hx.
      destruct (manage_closed_connection g factory (inner w)) as [go c]. by cbn in *.
  - unfold start_listen. destruct (run (inner w)), thread; done.
  - unfold receiver_step, rx_take, rx_read, rx_manage.
    destruct (receivers w !! j) as [[cut [| |g|g|g|]]|]; try done.
    + by destruct (reader (io (inner w))).
    + destruct chunk as [|b chunk]; [done|]. destruct (feed_bytes cut (b :: chunk)) as [cut' packets].
      destruct (dispatch_io j (inner w) packets) as (E & _). cbn. by rewrite E.
    + pose proof (Hm g factory (inner w)) as Hx.
      destruct (manage_closed_connection g factory (inner w)) as [go c]. by cbn in *.
  - unfold close_child. cbn. by rewrite (proj1 (kill_child_io _)).
Qed.

Lemma run_gw_generation w ops : (generation (io (inner w)) <= generation (io (inner (run_gw w ops))))%nat.
Proof.
  revert w. induction ops as [|o t IH]; intros w; [done|]. cbn. etrans; [apply gw_step_generation|apply IH].
Qed.

(** the packets that a step gives to the hook *)
Lemma gw_step_dispatched w o : exists l, dispatched (inner (gw_step w o)) = dispatched (inner w) ++ l
  /\ match o with GwReceiver j _ _ => Forall (fun d => d.1 = j) l | _ => l = [] end.
Proof.
  assert (forall c c', dispatched c' = dispatched c -> exists l, dispatched c' = dispatched c ++ l /\ l = []) as Hsame
    by (intros c c' ->; exists []; by rewrite app_nil_r).
  assert (forall (c c' : Inner) (j : nat), dispatched c' = dispatched c -> exists l, dispatched c' = dispatched c ++ l
    /\ Forall (fun d => d.1 = j) l) as Hsame' by (intros c c' j ->; exists []; by rewrite app_nil_r).
  destruct o as [|data|i failed factory| |j chunk factory| |]; cbn [gw_step]; try by apply Hsame.
  - unfold sender_step, send_check, send_write, send_manage.
    destruct (senders w !! i) as [[data [| |g err|r]]|]; try by apply Hsame.
    + destruct (run (inner w)); by apply Hsame.
    + destruct failed as [[??]|]; by apply Hsame.
    + destruct (manage_received g factory (inner w)) as [_ E].
      destruct (manage_closed_connection g factory (inner w)) as [go c]. by apply Hsame.
  - unfold start_listen. destruct (run (inner w)), thread; by apply Hsame.
  - unfold receiver_step, rx_take, rx_read, rx_manage.
    destruct (receivers w !! j) as [[cut [| |g|g|g|]]|]; try by apply Hsame'.
    + destruct (reader (io (inner w))); by apply Hsame'.
    + destruct chunk as [|b chunk]; [by apply Hsame'|]. destruct (feed_bytes cut (b :: chunk)) as [cut' packets].
      destruct (dispatch_io j (inner w) packets) as (_ & _ & _ & _ & _ & E). cbn [inner set_inner set_receiver].
      rewrite E. eexists. split; [done|]. destruct (hook (inner w)); [|constructor].
      apply Forall_forall. intros x (y & -> & _)%list_elem_of_fmap. done.
    + destruct (manage_received g factory (inner w)) as [_ E].
      destruct (manage_closed_connection g factory (inner w)) as [go c]. by apply Hsame'.
  - unfold close_child, kill_child. destruct (child (io (inner w))); by apply Hsame.
Qed.

(** a sender keeps its packet and what it returned, and does not panic *)
Lemma gw_step_sender w o i d st : senders w !! i = Some (mkSender d st) ->
  exists st', senders (gw_step w o) !! i = Some (mkSender d st') /\ (forall r, st = SndDone r -> st' = st)
    /\ (st' = SndDone Panic -> st = SndDone Panic).
Proof.
  intros Hi.
  assert (forall k x w', (forall r, k = i -> st <> SndDone r) -> x <> SndDone Panic -> senders w' = senders w ->
    exists st', senders (set_sender k x w') !! i = Some (mkSender d st') /\ (forall r, st = SndDone r -> st' = st)
    /\ (st' = SndDone Panic -> st = SndDone Panic)) as Hset.
  { intros k x w' Hk Hx Hw. cbn. rewrite Hw. destruct (decide (k = i)) as [->|Hne].
    - rewrite list_lookup_alter_eq, Hi. cbn. eexists. split; [done|]. split; [|done]. intros r Hr. by destruct (Hk r eq_refl).
    - rewrite list_lookup_alter_ne by done. eauto. }
  assert (forall w', senders w' = senders w -> exists st', senders w' !! i = Some (mkSender d st')
    /\ (forall r, st = SndDone r -> st' = st)
    /\ (st' = SndDone Panic -> st = SndDone Panic)) as Hsame by (intros w' ->; eauto).
  destruct o as [|data|k failed factory| |j chunk factory| |]; cbn [gw_step]; try by apply Hsame.
  - exists st. split; [|done]. cbn. by apply lookup_app_l_Some.
  - unfold sender_step. destruct (senders w !! k) as [[data st0]|] eqn:Hk; [|by apply Hsame].
    destruct st0 as [| |g err|r]; [| | |by apply Hsame].
    + unfold send_check. destruct (run (inner w)); apply Hset; try done; intros r ->; congruence.
    + unfold send_write. destruct failed as [[??]|]; apply Hset; try done; intros r ->; congruence.
    + unfold send_manage. destruct (manage_closed_connection g factory (inner w)) as [go c].
      apply Hset; try done; [intros r ->; congruence|by destruct go].
  - unfold start_listen. destruct (run (inner w)), thread; by apply Hsame.
  - unfold receiver_step, rx_take, rx_read, rx_manage.
    destruct (receivers w !! j) as [[cut [| |g|g|g|]]|]; try by apply Hsame.
    + destruct (reader (io (inner w))); by apply Hsame.
    + destruct chunk as [|b chunk]; [by apply Hsame|]. destruct (feed_bytes cut (b :: chunk)). by apply Hsame.
    + destruct (manage_closed_connection g factory (inner w)) as [go c]. by apply Hsame.
Qed.

(** ** Properties *)


(** Received packets.  While a receiver reads a stream, whatever the other
    threads do, the packets it gives to the hook are exactly the packets whose
    frames arrive on the stream, in their order and however the reads split them,
    when its cutter is clean at the beginning. *)
Theorem gateway_receives w ops j cut g e ps : is_u8 e -> hook (inner w) = true ->
  receivers w !! j = Some (mkReceiver cut (RxReading g)) -> cut = cutter_new e ->
  Forall (fun chunk => chunk <> []) (reads_of j ops) -> mjoin (reads_of j ops) = frames ps e ->
  given j (run_gw w ops) = given j w ++ ps
  /\ receivers (run_gw w ops) !! j = Some (mkReceiver (cutter_new e) (RxReading g)).
Proof.
  intros He Hh Hj -> Hne Hreads. destruct (reading_run w ops j _ g Hh Hj Hne) as [Hr Hg].
  rewrite feed_chunks_concat, Hreads, feed_frames_clean in Hr, Hg by done. by split.
Qed.

(** C32: Streams.  In every run each stream is opened once and the generation
    never decreases; the reader of a stream is in the hands of at most one
    thread; no process is killed twice; and a thread that reports a stream as
    broken which somebody else has replaced changes nothing and goes on with the
    new stream. *)
Theorem gateway_streams factory e closed c ops ops' (w := run_gw (world_new c) ops) (w' := run_gw w ops') :
  connector_new factory e closed = Ok c ->
  length (outs (inner w')) = S (generation (io (inner w')))
  /\ (generation (io (inner w)) <= generation (io (inner w')))%nat
  /\ (forall i j r r' g, receivers w' !! i = Some r -> receivers w' !! j = Some r' ->
        holds r = Some g -> holds r' = Some g -> i = j)
  /\ NoDup (killed (inner w'))
  /\ (forall g f, (g < generation (io (inner w')))%nat -> manage_closed_connection g f (inner w') = (true, inner w')).
Proof.
  intros Hc. assert (gen_inv w') as [H1 H2 H3 H4 H5 (H6 & _)] by (do 2 apply run_gw_inv; by eapply world_new_inv).
  split; [done|]. split; [apply run_gw_generation|]. split; [exact H3|]. split; [done|].
  intros g f Hg. unfold manage_closed_connection.
  by rewrite (proj2 (Nat.eqb_neq _ _)) by lia.
Qed.

(** A gateway that sends and does not receive.  The stream breaks, the receiver
    can not reopen it and ends, but the connector is still marked as running; a
    later [send_packet] reopens the stream and succeeds, nobody reads the new
    stream, and [start_listen] is refused. *)
Theorem half_open_gateway c : connector_new (Ok true) 255 Reconnect = Ok c ->
  let w := run_gw (world_new c)
    [GwStart None; GwReceiver 0 [] (Ok true); GwReceiver 0 [] (Ok true); GwReceiver 0 [] (Ok true);
     GwReceiver 0 [] (Ok true); GwReceiver 0 [] (Err []);
     GwSend [1]; GwSender 0 None (Ok true); GwSender 0 (Some (0%nat, [])) (Ok true); GwSender 0 None (Ok true);
     GwSender 0 None (Ok true); GwSender 0 None (Ok true)] in
  map s_state (senders w) = [SndDone (Ok tt)] /\ map rx_state (receivers w) = [RxDone]
  /\ reader (io (inner w)) = true /\ (start_listen None w).1 = Err $"Listening already started".
Proof. intros [= <-]. vm_compute. done. Qed.

(** ** Witnesses *)

Definition example_inner : Inner :=
  mkInner 255 Reconnect (mkIo 0 true true) false false [[]] [] 0 [].

(** two packets are sent, the first stream breaks after the first one *)
Definition example_ops : list gw_op :=
  [GwHook; GwStart None; GwSend [1; 255]; GwSend [2]; GwSender 0 None (Ok true); GwSender 0 None (Ok true);
   GwReceiver 0 [] (Ok true); GwReceiver 0 [] (Ok true);
   GwSender 1 None (Ok true); GwSender 1 (Some (1%nat, [])) (Ok true); GwSender 1 None (Ok true);
   GwSender 1 None (Ok true); GwSender 1 None (Ok true)].


Lemma gateway_receives_witness :
  given 0 (run_gw (run_gw (world_new example_inner) example_ops)
             [GwReceiver 0 [7; 255; 255; 255] (Ok true); GwSend [3]; GwReceiver 0 [0; 255; 0] (Ok true)])
  = [[7; 255]; []].
Proof.
  apply (gateway_receives (run_gw (world_new example_inner) example_ops)
    [GwReceiver 0 [7; 255; 255; 255] (Ok true); GwSend [3]; GwReceiver 0 [0; 255; 0] (Ok true)] 0 (cutter_new 255)
    0 255 [[7; 255]; []]); try (vm_compute; reflexivity).
  - unfold is_u8. lia.
  - by repeat constructor.
Defined.

Lemma gateway_streams_witness :
  generation (io (inner (run_gw (run_gw (world_new example_inner) example_ops) [GwKill]))) = 1%nat
  /\ NoDup (killed (inner (run_gw (run_gw (world_new example_inner) example_ops) [GwKill]))).
Proof.
  split; [vm_compute; reflexivity|].
  exact (proj1 (proj2 (proj2 (proj2 (gateway_streams (Ok true) 255 Reconnect example_inner example_ops [GwKill] eq_refl))))).
Defined.
