(* ===== verification/LogFile.v ===== *)
(** * Packet logs in files

    Models [src/apps/log_file.rs]: the two record formats, the rotation of the
    log files and the command itself up to the start of the stream.  The files
    are a map from names to their bytes; the errors of the operating system are
    an argument of each call.  The sums and products panic when they leave [i64],
    as in a build with overflow checks. *)

From stdpp Require Import base list numbers option strings gmap sorting.
From Stdlib Require Import ZArith Lia.
From S2P Require Import Prelude RustStd Cli Tools Framing Time Apps.

Definition LOG_PREFIX : CliEntry :=
  mkEntry [$"b"; $"-prefix"] $"Log file prefix, it may contain path information".
Definition LOG_POSTFIX : CliEntry :=
  mkEntry [$"a"; $"-postfix"] $"Log file postfix, it may contain path information. Default: `.log`".
Definition LOG_ROTA_UNIT : CliEntry :=
  mkEntry [$"r"; $"-rotate-interval"]
    $"Log rotation interval, valid units are: year, month, day (default), hour, minute, secound or number as secounds.".
Definition LOG_FORMAT : CliEntry :=
  mkEntry [$"f"; $"-log-format"] $"Logging file format: binary, plain (default)".

Definition LOG_FILE_ENTRIES : list CliEntry :=
  [RPC_HOST; RPC_PORT; LOOPBACK; LOG_PREFIX; LOG_POSTFIX; LOG_ROTA_UNIT; LOG_FORMAT].

(** ** Records *)

Inductive LogFormat : Type :=
| Plain
| Binary.

Definition parse_format (name : str) : option LogFormat :=
  if bool_decide (name = $"plain") then Some Plain
  else if bool_decide (name = $"binary") then Some Binary
  else None.

Section LogFile.
Context {C : Libc}.

Definition encode_record (format : LogFormat) (time_ms : Z) (packet : list Z) : list Z :=
  match format with
  | Plain => as_bytes (utc_sql_timestamp_ms time_ms ++ $"|" ++ format_colon_data packet ++ [10])
  | Binary => frame_bytes (to_be_bytes 8 (as_u 64 time_ms) ++ packet) 0
  end.

(** ** Rotation *)

Inductive Rotation : Type :=
| Calendar (unit : CalendarUnit)
| Seconds (seconds : Z).

Definition parse_rotation (format : str) : res str Rotation :=
  if bool_decide (format = $"year") then Ok (Calendar Year)
  else if bool_decide (format = $"month") then Ok (Calendar Month)
  else if bool_decide (format = $"day") then Ok (Calendar Day)
  else if bool_decide (format = $"hour") then Ok (Calendar Hour)
  else if bool_decide (format = $"minute") then Ok (Calendar Minute)
  else if bool_decide (format = $"secound") || bool_decide (format = $"second") then Ok (Calendar Second)
  else
    seconds ← ok_or (parse_i64 format) ($"Can't parse rotation interval: " ++ format);
    if seconds <? 1 then Err ($"Invalid rotation interval: " ++ format) else Ok (Seconds seconds).

(** [/] of [i64]: towards zero; the divisor 0 panics *)
Definition div_i64 (a b : Z) : res never Z :=
  if b =? 0 then Panic else match try_i 64 (Z.quot a b) with Some v => Ok v | None => Panic end.

Definition next_cut_time (r : Rotation) (now : Z) : res never Z :=
  match r with
  | Calendar unit => local_unit_start now unit 1
  | Seconds seconds =>
    v ← mul_i 64 seconds 1000;
    q ← div_i64 now v;
    p ← mul_i 64 q v;
    add_i 64 p v
  end.

(** ** The output *)

Record LogRotaOutput : Type := mkOutput {
  prefix : str;
  postfix : str;
  rotation : Rotation;
  format : LogFormat;
  current : option str;
  cut_time : Z;
}.

Definition output_new (prefix postfix : str) (rotation : Rotation) (format : LogFormat) : LogRotaOutput :=
  mkOutput prefix postfix rotation format None 0.

Definition log_file_name (o : LogRotaOutput) (time_ms : Z) : str :=
  prefix o ++ local_file_timestamp time_ms ++ postfix o.

Abbreviation Files := (gmap str (list Z)).

(** what the operating system refuses: the directory, the file, the write (after some bytes) *)
Record IoErrors : Type := mkIoErrors {
  mkdir_error : option str;
  open_error : option str;
  write_error : option (nat * str);
}.

Definition no_errors : IoErrors := mkIoErrors None None None.

Definition LM : Type -> Type := SM (LogRotaOutput * Files) str.

Definition set_current (c : option str) (cut : Z) (o : LogRotaOutput) : LogRotaOutput :=
  mkOutput (prefix o) (postfix o) (rotation o) (format o) c cut.

(** [OpenOptions::new().create(true).append(true)] *)
Definition open_append (name : str) (files : Files) : Files :=
  match files !! name with Some _ => files | None => <[name := []]> files end.

Definition append (name : str) (data : list Z) (files : Files) : Files :=
  <[name := default [] (files !! name) ++ data]> files.

(** a new file when there is none or its time is over *)
Definition rotate (errors : IoErrors) (time_ms : Z) : LM unit := fun '(o, files) =>
  if bool_decide (current o = None) || (cut_time o <=? time_ms) then
    let o := set_current None (cut_time o) o in
    let name := log_file_name o time_ms in
    match mkdir_error errors, open_error errors with
    | Some err, _ | None, Some err => (Err err, (o, files))
    | None, None =>
      match next_cut_time (rotation o) time_ms with
      | Ok cut => (Ok tt, (set_current (Some name) cut o, open_append name files))
      | _ => (Panic, (set_current (Some name) (cut_time o) o, open_append name files))
      end
    end
  else (Ok tt, (o, files)).

Definition write_record (errors : IoErrors) (time_ms : Z) (packet : list Z) : LM unit := fun '(o, files) =>
  match current o with
  | None => (Panic, (o, files))
  | Some name =>
    let data := encode_record (format o) time_ms packet in
    match write_error errors with
    | None => (Ok tt, (o, append name data files))
    | Some (n, err) => (Err err, (o, append name (take n data) files))
    end
  end.

(** [LogRotaOutput::log] *)
Definition log_packet (errors : IoErrors) (time_ms : Z) (packet : list Z) : LM unit :=
  _ ← rotate errors time_ms; write_record errors time_ms packet.

(** the packets of a stream that are logged, with their times *)
Fixpoint log_packets (records : list (Z * list Z)) : LM unit :=
  match records with
  | [] => mret tt
  | (time_ms, packet) :: t => _ ← log_packet no_errors time_ms packet; log_packets t
  end.

(** ** The command *)

Inductive log_file_end : Type :=
| LogHelp (code : Z) (unknown_format : option str)
| LogFailed (err : str)
| LogStarts (o : LogRotaOutput) (server : str * Z) (initializer : option (str * str)).

(** [main] up to the connection *)
Definition log_file_main (args : list str) : option log_file_end :=
  match parse_cli_opts args with
  | Panic => None
  | Err _ => Some (LogHelp 1 None)
  | Ok pa =>
    let req_format := default $"plain" (get_simple LOG_FORMAT pa) in
    match parse_format req_format, first_unknown_param pa LOG_FILE_ENTRIES with
    | Some format, None =>
      match parse_rotation (default $"day" (get_simple LOG_ROTA_UNIT pa)), open_cli_endpoint pa with
      | Ok rotation, Ok server =>
        Some (LogStarts (output_new (default [] (get_simple LOG_PREFIX pa))
                (default $".log" (get_simple LOG_POSTFIX pa)) rotation format) server (loopback_initializer pa))
      | Err err, _ | Ok _, Err err => Some (LogFailed err)
      | _, _ => None
      end
    | f, _ => Some (LogHelp 1 (if f is None then Some req_format else None))
    end
  end.

(** ** Lemmas: rotation *)

Lemma next_cut_seconds s now (v := s * 1000) : 1 <= s -> 0 <= now -> now + v < 2 ^ 63 ->
  next_cut_time (Seconds s) now = Ok ((now / v) * v + v).
Proof.
  intros Hs Hn Hb. unfold next_cut_time. fold v.
  assert (0 < v) as Hv by (unfold v; lia).
  assert (0 <= now / v) by (apply Z.div_pos; lia). pose proof (Z.mul_div_le now v Hv) as Hle.
  rewrite mul_i_ok by (unfold in_i; fold v; lia). fold v. cbn [mbind res_bind].
  unfold div_i64. rewrite (proj2 (Z.eqb_neq v 0)) by lia. rewrite Z.quot_div_nonneg by lia.
  rewrite try_i_Some by (unfold in_i; nia). cbn [mbind res_bind].
  rewrite mul_i_ok by (unfold in_i; nia). cbn [mbind res_bind]. apply add_i_ok. unfold in_i. nia.
Qed.

(** ** Lemmas: the files of the intervals *)

(** the reference: consecutive records of the same interval of [v] milliseconds
    are a group, which begins with the time of its first record; newest group first *)
Definition add_record (v : Z) (groups : list (Z * list (Z * list Z))) (r : Z * list Z)
    : list (Z * list (Z * list Z)) :=
  match groups with
  | (t0, rs) :: older => if t0 / v =? r.1 / v then (t0, rs ++ [r]) :: older else (r.1, [r]) :: groups
  | [] => [(r.1, [r])]
  end.

Definition intervals (v : Z) (records : list (Z * list Z)) : list (Z * list (Z * list Z)) :=
  foldl (add_record v) [] records.

Definition encode_records (f : LogFormat) (rs : list (Z * list Z)) : list Z :=
  rs ≫= fun r => encode_record f r.1 r.2.

(** every group is appended to the file that is named after its first record *)
Definition contents (o : LogRotaOutput) (groups : list (Z * list (Z * list Z))) (files : Files) : Files :=
  foldr (fun g files => append (log_file_name o g.1) (encode_records (format o) g.2) files) files groups.

Lemma append_append name a b files : append name b (append name a files) = append name (a ++ b) files.
Proof. unfold append. by rewrite lookup_insert_eq, insert_insert_eq, app_assoc. Qed.

Lemma append_open name d files : append name d (open_append name files) = append name d files.
Proof.
  unfold append, open_append. destruct (files !! name) as [x|] eqn:Hn; [by rewrite Hn|].
  by rewrite lookup_insert_eq, insert_insert_eq.
Qed.

Lemma encode_records_snoc f rs r : encode_records f (rs ++ [r]) = encode_records f rs ++ encode_record f r.1 r.2.
Proof. unfold encode_records. rewrite bind_app. cbn. by rewrite app_nil_r. Qed.

Lemma encode_records_one f r : encode_records f [r] = encode_record f r.1 r.2.
Proof. unfold encode_records. cbn. by rewrite app_nil_r. Qed.

Lemma rotate_new o files t cut : bool_decide (current o = None) || (cut_time o <=? t) = true ->
  next_cut_time (rotation o) t = Ok cut -> rotate no_errors t (o, files)
  = (Ok tt, (set_current (Some (log_file_name o t)) cut o, open_append (log_file_name o t) files)).
Proof. intros Hc Hn. unfold rotate. rewrite Hc. cbn [no_errors mkdir_error open_error rotation set_current]. by rewrite Hn. Qed.

Lemma rotate_keep o files t : bool_decide (current o = None) || (cut_time o <=? t) = false ->
  rotate no_errors t (o, files) = (Ok tt, (o, files)).
Proof. intros Hc. unfold rotate. by rewrite Hc. Qed.

(** the output has the newest group in its hands *)
Definition at_groups (o0 : LogRotaOutput) (v : Z) (groups : list (Z * list (Z * list Z))) (o : LogRotaOutput) : Prop :=
  match groups with
  | [] => o = o0 /\ current o0 = None
  | (t0, _) :: _ => o = set_current (Some (log_file_name o0 t0)) ((t0 / v) * v + v) o0
  end.

Definition newest (groups : list (Z * list (Z * list Z))) : Z := match groups with (t0, _) :: _ => t0 | [] => 0 end.

Lemma log_packet_step o0 s groups o files t p (v := s * 1000) : rotation o0 = Seconds s -> 1 <= s ->
  at_groups o0 v groups o -> 0 <= newest groups <= t -> t + v < 2 ^ 63 ->
  exists o', log_packet no_errors t p (o, contents o0 groups files)
    = (Ok tt, (o', contents o0 (add_record v groups (t, p)) files))
    /\ at_groups o0 v (add_record v groups (t, p)) o'.
Proof.
  intros Hr Hs Hat Ht Hb. assert (0 < v) as Hv by (unfold v; lia).
  assert (bool_decide (current o = None) || (cut_time o <=? t)
    = match groups with (t0, _) :: _ => negb (t0 / v =? t / v) | [] => true end) as Hrot.
  { destruct groups as [|[t0 rs] older]; [destruct Hat as [-> Hc]; by rewrite bool_decide_true|].
    cbn in Hat. subst o. cbn. assert (t0 / v <= t / v) as Hle by (apply Z.div_le_mono; cbn in Ht; lia).
    pose proof (Z.div_mod t v ltac:(lia)). pose proof (Z.mod_pos_bound t v Hv).
    destruct (Z.eqb_spec (t0 / v) (t / v)), (Z.leb_spec (t0 / v * v + v) t); try done; nia. }
  assert (rotation o = Seconds s /\ format o = format o0 /\ forall x, log_file_name o x = log_file_name o0 x) as (Hro & Hfo & Hno).
  { destruct groups as [|[t0 rs] older]; [by destruct Hat as [-> _]|]. cbn in Hat. by subst o. }
  pose proof (next_cut_seconds s t Hs ltac:(lia) Hb) as Hcut. fold v in Hcut. rewrite <- Hro in Hcut.
  unfold log_packet, mbind, SM_bind.
  assert (match groups with (t0, _) :: _ => negb (t0 / v =? t / v) | [] => true end = true ->
    exists o', (let '(r, s) := rotate no_errors t (o, contents o0 groups files) in
      match r with Ok _ => write_record no_errors t p s | Err e => (Err e, s) | Panic => (Panic, s) end)
    = (Ok tt, (o', contents o0 ((t, [(t, p)]) :: groups) files)) /\ at_groups o0 v ((t, [(t, p)]) :: groups) o') as Hnew.
  { intros Hc. rewrite Hc in Hrot. rewrite (rotate_new _ _ _ _ Hrot Hcut), Hno. eexists. split.
    - unfold write_record. cbn [current set_current format write_error no_errors]. rewrite append_open.
      cbn [contents foldr fst snd]. by rewrite encode_records_one, Hfo.
    - destruct groups as [|[t0 rs] older]; [by destruct Hat as [-> _]|]. cbn in Hat |- *. by subst o. }
  destruct groups as [|[t0 rs] older]; [by apply Hnew|].
  cbn [add_record fst] in *. destruct (Z.eqb_spec (t0 / v) (t / v)) as [He|He]; [|by apply Hnew].
  cbn [negb] in Hrot. rewrite rotate_keep by done. exists o. cbn in Hat. subst o. split; [|done].
  unfold write_record. cbn [current set_current format write_error no_errors].
  cbn [contents foldr fst snd]. by rewrite encode_records_snoc, append_append.
Qed.

Lemma sorted_tail_le (r : Z * list Z) rs : StronglySorted (fun a b => a.1 <= b.1) (r :: rs) ->
  Forall (fun x => r.1 <= x.1) rs /\ StronglySorted (fun a b => a.1 <= b.1) rs.
Proof. intros H. inversion H; subst. done. Qed.

(** what the groups are: the records in their order, each in its interval *)
Definition groups_ok (v : Z) (groups : list (Z * list (Z * list Z))) (records : list (Z * list Z)) : Prop :=
  mjoin (map snd (rev groups)) = records
  /\ Forall (fun g => Forall (fun r => r.1 / v = g.1 / v) g.2) groups
  /\ StronglySorted (fun a b => b.1 / v < a.1 / v) groups.

Lemma add_record_ok v groups records r : 0 < v -> groups_ok v groups records -> newest groups <= r.1 ->
  groups_ok v (add_record v groups r) (records ++ [r]).
Proof.
  intros Hv (H1 & H2 & H3) Hr. unfold add_record.
  destruct groups as [|[t0 rs] older].
  { cbn in *. subst. split; [done|]. split; [by repeat constructor|]. repeat constructor. }
  cbn [newest fst] in Hr. apply Forall_cons_1 in H2 as [Hg Ho]. cbn [fst snd] in Hg.
  assert (t0 / v <= r.1 / v) as Hle by (apply Z.div_le_mono; lia).
  inversion H3 as [|? ? H3' Hall]; subst.
  destruct (Z.eqb_spec (t0 / v) (r.1 / v)) as [He|He].
  - split; [|split].
    + cbn [rev]. rewrite !map_app, !join_app. cbn. by rewrite !app_nil_r, app_assoc.
    + constructor; [|done]. apply Forall_app. split; [done|]. by repeat constructor.
    + constructor; [done|]. eapply Forall_impl; [exact Hall|]. done.
  - split; [|split].
    + cbn [rev]. rewrite !map_app, !join_app. cbn. by rewrite !app_nil_r.
    + constructor; [by repeat constructor|]. by constructor.
    + constructor; [done|]. constructor; [cbn; lia|]. eapply Forall_impl; [exact Hall|]. cbn. lia.
Qed.

Lemma newest_add v groups r t : newest groups <= r.1 -> r.1 <= t -> newest (add_record v groups r) <= t.
Proof.
  unfold add_record. destruct groups as [|[t0 rs] older]; cbn; [lia|]. destruct (_ =? _); cbn; lia.
Qed.

Lemma log_packets_groups o0 s groups o files records done (v := s * 1000) : rotation o0 = Seconds s -> 1 <= s ->
  at_groups o0 v groups o -> groups_ok v groups done -> 0 <= newest groups ->
  Forall (fun r => newest groups <= r.1 /\ r.1 + v < 2 ^ 63) records ->
  StronglySorted (fun a b => a.1 <= b.1) records ->
  exists o', log_packets records (o, contents o0 groups files)
    = (Ok tt, (o', contents o0 (foldl (add_record v) groups records) files))
    /\ groups_ok v (foldl (add_record v) groups records) (done ++ records).
Proof.
  intros Hr Hs. assert (0 < v) as Hv by (unfold v; lia). revert groups o done.
  induction records as [|[t p] rest IH]; intros groups o done Hat Hok Hn Hall Hsort.
  { exists o. by rewrite app_nil_r. }
  apply Forall_cons_1 in Hall as [[Ht Hb] Hall]. cbn [fst] in Ht, Hb.
  apply sorted_tail_le in Hsort as [Hle Hsort].
  destruct (log_packet_step o0 s groups o files t p Hr Hs Hat (conj Hn Ht) Hb) as (o1 & Hstep & Hat1). fold v in Hstep, Hat1.
  destruct (IH (add_record v groups (t, p)) o1 (done ++ [(t, p)])) as (o2 & Hrun & Hok2); try done.
  - by apply add_record_ok.
  - unfold add_record. destruct groups as [|[t0 rs] older]; cbn in *; [lia|]. destruct (_ =? _); cbn; lia.
  - apply Forall_forall. intros x Hx. split; [|by eapply Forall_forall in Hall as [_ ?]].
    apply newest_add; [done|]. by eapply Forall_forall in Hle.
  - exists o2. cbn [log_packets foldl]. unfold mbind, SM_bind. rewrite Hstep. split; [done|].
    by rewrite <- app_assoc in Hok2.
Qed.

(** ** Lemmas: reading a log *)

(** the records of a binary log: a cutter with the escape byte 0, then the time and the packet *)
Definition read_binary (data : list Z) : list (Z * list Z) :=
  map (fun r => (as_i 64 (be_value (take 8 r)), drop 8 r)) (feed_bytes (cutter_new 0) data).2.

(** the lines of a plain log: the time stamp and the packet *)
Definition read_plain_line (line : str) : str * option (list Z) :=
  match split 124 line with
  | [stamp; data] => (stamp, parse_colon_data data)
  | _ => (line, None)
  end.
Definition read_plain (data : list Z) : list (str * option (list Z)) :=
  map read_plain_line (filter (fun line => line <> []) (split 10 data)).

Lemma binary_record_parts time packet : in_i 64 time ->
  let r := to_be_bytes 8 (as_u 64 time) ++ packet in (as_i 64 (be_value (take 8 r)), drop 8 r) = (time, packet).
Proof.
  intros Ht. cbv zeta. pose proof (to_be_bytes_length 8 (as_u 64 time)) as Hl.
  rewrite take_app_length', drop_app_length' by (by rewrite Hl).
  rewrite be_value_to_be_bytes. change (256 ^ Z.of_nat 8) with (2 ^ 64).
  rewrite (Z.mod_small (as_u 64 time)) by (pose proof (as_u_range 64 time); unfold in_u in *; lia).
  by rewrite as_i_as_u.
Qed.

(** the characters of a plain record *)
Lemma plain_chars time packet : bytes packet ->
  Forall (fun c => 0 <= c < 128) (utc_sql_timestamp_ms time ++ $"|" ++ format_colon_data packet)
  /\ Forall (fun c => c <> 124 /\ c <> 10) (utc_sql_timestamp_ms time)
  /\ Forall (fun c => c <> 124 /\ c <> 10) (format_colon_data packet).
Proof.
  intros Hp. pose proof (proj1 (timestamp_chars time)) as Hs.
  assert (Forall (fun c => 48 <= c <= 58) (format_colon_data packet)) as Hc.
  { unfold format_colon_data. induction Hp as [|b t Hb Ht IH]; [constructor|].
    assert (Forall (fun c => 48 <= c <= 58) (show_nat b)) as Hd.
    { eapply Forall_impl; [apply show_nat_digits; unfold is_u8 in Hb; lia|]. cbn. lia. }
    destruct t as [|b' t]; [done|].
    change (join $":" (map show_nat (b :: b' :: t))) with (show_nat b ++ [58] ++ join $":" (map show_nat (b' :: t))).
    apply Forall_app_2; [done|]. apply Forall_app_2; [repeat constructor; lia|exact IH]. }
  split; [|split].
  - apply Forall_app_2; [|apply Forall_app_2; [repeat constructor; unfold char_of; cbn; lia|]].
    + eapply Forall_impl; [exact Hs|]. unfold stamp_char. cbn. lia.
    + eapply Forall_impl; [exact Hc|]. cbn. lia.
  - eapply Forall_impl; [exact Hs|]. unfold stamp_char. cbn. lia.
  - eapply Forall_impl; [exact Hc|]. cbn. lia.
Qed.

Lemma read_plain_cons time packet rest : bytes packet -> packet <> [] ->
  read_plain (encode_record Plain time packet ++ rest) = (utc_sql_timestamp_ms time, Some packet) :: read_plain rest.
Proof.
  intros Hp Hne. destruct (plain_chars time packet Hp) as (Ha & Hs & Hc).
  set (line := utc_sql_timestamp_ms time ++ $"|" ++ format_colon_data packet) in *.
  assert (encode_record Plain time packet ++ rest = line ++ 10 :: rest) as ->.
  { unfold encode_record.
    replace (utc_sql_timestamp_ms time ++ $"|" ++ format_colon_data packet ++ [10]) with (line ++ [10])
      by (unfold line; by rewrite <- !app_assoc).
    rewrite as_bytes_ascii; [by rewrite <- app_assoc|]. apply Forall_app_2; [done|]. repeat constructor; lia. }
  unfold read_plain. rewrite split_app.
  - rewrite filter_cons_True by (unfold line; by destruct (utc_sql_timestamp_ms time)). cbn [map]. f_equal.
    unfold read_plain_line, line. change $"|" with [124]. cbn [app].
    rewrite split_app by (eapply Forall_impl; [exact Hs|]; cbn; by intros ? [? _]).
    rewrite split_no_sep by (eapply Forall_impl; [exact Hc|]; cbn; by intros ? [? _]).
    by rewrite parse_format_colon.
  - unfold line. apply Forall_app_2; [eapply Forall_impl; [exact Hs|]; cbn; by intros ? [_ ?]|].
    apply Forall_app_2; [repeat constructor; unfold char_of; cbn; lia|].
    eapply Forall_impl; [exact Hc|]. cbn. by intros ? [_ ?].
Qed.

(** ** Properties *)


(** The next cut.  For a rotation of [s] seconds and a time after 1970 the
    next cut is the first multiple of [s] seconds after the time, so it lies
    after it and not more than [s] seconds after it; the computation panics when
    [s] seconds in milliseconds leave [i64], although the command line accepts
    every such [s]. *)
Theorem next_cut_bounds s now (v := s * 1000) : 1 <= s < 2 ^ 63 -> 0 <= now ->
  parse_rotation (show_int s) = Ok (Seconds s)
  /\ (now + v < 2 ^ 63 -> exists cut, next_cut_time (Seconds s) now = Ok cut /\ now < cut <= now + v /\ cut mod v = 0)
  /\ (2 ^ 63 <= v -> next_cut_time (Seconds s) now = Panic).
Proof.
  intros Hs Hn. split; [|split].
  - assert (forall lit, Forall (fun c => 97 <= c) lit -> lit <> [] -> show_int s <> lit) as Hno.
    { intros lit Hl Hne Heq. unfold show_int in Heq. rewrite (proj2 (Z.ltb_ge _ _)) in Heq by lia.
      pose proof (show_nat_digits s ltac:(lia)) as Hd. rewrite Heq in Hd. destruct lit as [|c t]; [done|].
      apply Forall_cons_1 in Hd as [Hd _], Hl as [Hl _]. lia. }
    unfold parse_rotation.
    rewrite !bool_decide_false by (apply Hno; [repeat constructor; unfold char_of; cbn; lia|done]). cbn [orb].
    unfold parse_i64. rewrite parse_show_int by lia. cbn. by rewrite (proj2 (Z.ltb_ge _ _)) by lia.
  - intros Hb. exists (now / v * v + v). assert (0 < v) as Hv by (unfold v; lia).
    rewrite next_cut_seconds by (fold v; lia). fold v. split; [done|].
    pose proof (Z.div_mod now v ltac:(lia)). pose proof (Z.mod_pos_bound now v Hv). split; [lia|].
    replace (now / v * v + v) with ((now / v + 1) * v) by lia. apply Z.mod_mul. lia.
  - intros Hv. unfold next_cut_time, mul_i, try_i. fold v.
    by rewrite (proj2 (Z.ltb_ge v _)), andb_false_r by lia.
Qed.

(** Log records.  A binary log is read back, with a cutter for its escape
    byte, to exactly the times and the packets that were logged, whatever bytes
    they contain; a plain log is read back, line by line, to the time stamps and
    the packets. *)
Theorem log_records_roundtrip records :
  Forall (fun r => in_i 64 r.1 /\ bytes r.2) records ->
  read_binary (encode_records Binary records) = records
  /\ (Forall (fun r => r.2 <> []) records ->
      read_plain (encode_records Plain records) = map (fun r => (utc_sql_timestamp_ms r.1, Some r.2)) records).
Proof.
  intros Hall. split.
  - unfold read_binary.
    assert (encode_records Binary records = frames (map (fun r => to_be_bytes 8 (as_u 64 r.1) ++ r.2) records) 0) as ->.
    { clear Hall. induction records as [|r t IH]; [done|]. cbn. f_equal. exact IH. }
    rewrite feed_frames_clean by (unfold is_u8; lia). cbn [snd].
    induction Hall as [|[time packet] t [Ht Hp] _ IH]; [done|]. cbn [map]. rewrite IH. f_equal.
    by apply binary_record_parts.
  - intros Hne. induction Hall as [|[time packet] t [Ht Hp] _ IH]; [done|].
    apply Forall_cons_1 in Hne as [Hn Hne]. cbn [fst snd] in *.
    change (encode_records Plain ((time, packet) :: t)) with (encode_record Plain time packet ++ encode_records Plain t).
    rewrite read_plain_cons by done. cbn [map fst snd]. by rewrite IH.
Qed.

End LogFile.

(** ** Witnesses *)

Definition example_records : list (Z * list Z) :=
  [(1791335768592, [5; 63; 1; 0; 196]); (1791335769000, [0; 0]); (1791335770001, [124; 10])].


Lemma next_cut_bounds_witness :
  (exists cut, next_cut_time (C := utc) (Seconds 10) 25300 = Ok cut /\ 25300 < cut <= 25300 + 10000)
  /\ next_cut_time (C := utc) (Seconds (2 ^ 61)) 25300 = Panic.
Proof.
  split.
  - destruct (proj1 (proj2 (next_cut_bounds (C := utc) 10 25300 ltac:(lia) ltac:(lia))) ltac:(lia)) as (cut & H1 & H2 & _).
    exists cut. split; [exact H1|exact H2].
  - apply (next_cut_bounds (C := utc) (2 ^ 61) 25300); lia.
Defined.

Lemma log_records_roundtrip_witness :
  read_binary (encode_records (C := utc) Binary example_records) = example_records
  /\ read_plain (encode_records (C := utc) Plain example_records)
     = map (fun r => (utc_sql_timestamp_ms (C := utc) r.1, Some r.2)) example_records.
Proof.
  destruct (log_records_roundtrip (C := utc) example_records) as [H1 H2].
  - unfold in_i, bytes, is_u8. repeat constructor; cbn; lia.
  - split; [exact H1|]. apply H2. by repeat constructor.
Defined.
