(* ===== verification/LogSql.v ===== *)
(** * Packet logs in an SQL table

    Models [src/apps/log_sql.rs]: the connect string, the client program that is
    started, the statements that are written to it, and the command up to the
    start of the stream.  The environment and the operating system are arguments. *)

From stdpp Require Import base list numbers option strings gmap.
From Stdlib Require Import ZArith Lia.
From S2P Require Import Prelude RustStd Cli Tools Time Apps.

Definition SQL_CONNECTION : CliEntry :=
  mkEntry [$"s"; $"-sql"]
    $"Sql server connect string like: jdbc:mysql://127.0.0.1:3306/database or jdbc:sqlite:/path/to/file.db".
Definition SQL_TABLE : CliEntry := mkEntry [$"t"; $"-table"] $"Sql server table".
Definition SQL_USER : CliEntry := mkEntry [$"u"; $"-user"] $"Sql server username".
Definition SQL_PASSWORD : CliEntry :=
  mkEntry [$"P"; $"-password"]
    $"Sql server password. Alternatively you can specify the password as UB_SQL_PASSWORD environment variable if you wan to keep it safe".

Definition LOG_SQL_ENTRIES : list CliEntry :=
  [RPC_HOST; RPC_PORT; LOOPBACK; SQL_CONNECTION; SQL_TABLE; SQL_USER; SQL_PASSWORD].

(** ** The target *)

Inductive SqlTarget : Type :=
| Sqlite (file : str)
| Mysql (host : str) (port : Z) (database : str).

Definition parse_mysql (url location : str) : res str SqlTarget :=
  let location := default location (strip_prefix $"//" location) in
  '(address, database) ← ok_or (split_once 47 location) ($"No database name in the connect string: " ++ url);
  let database := default [] (head (split 63 database)) in
  '(host, port) ←
    match split_once 58 address with
    | Some (host, port) =>
      port ← ok_or (parse_u16 port) ($"Invalid port in the connect string: " ++ url); Ok (host, port)
    | None => Ok (address, 3306)
    end;
  Ok (Mysql host port database).

Definition parse_target (url : str) : res str SqlTarget :=
  rest ← ok_or (strip_prefix $"jdbc:" url) ($"Sql connect string must start with `jdbc:`: " ++ url);
  '(kind, location) ← ok_or (split_once 58 rest) ($"No database type in the connect string: " ++ url);
  let kind := to_ascii_lowercase kind in
  if bool_decide (kind = $"sqlite") then Ok (Sqlite location)
  else if bool_decide (kind = $"mysql") then parse_mysql url location
  else Err ($"Unknown database type: " ++ kind).

(** ** Statements *)

Definition create_table_sql (target : SqlTarget) (table : str) : str :=
  match target with
  | Sqlite _ =>
    $"CREATE TABLE IF NOT EXISTS `" ++ table
    ++ $"` (`id` INTEGER NOT NULL PRIMARY KEY AUTOINCREMENT, `date` TIMESTAMP, `ms` BIGINT NOT NULL, `data` BLOB);" ++ [10]
    ++ $"CREATE INDEX IF NOT EXISTS `" ++ table ++ $"_index_date` ON `" ++ table ++ $"` (`date`);" ++ [10]
    ++ $"CREATE INDEX IF NOT EXISTS `" ++ table ++ $"_index_ms` ON `" ++ table ++ $"` (`ms`);" ++ [10]
    ++ $"CREATE INDEX IF NOT EXISTS `" ++ table ++ $"_index_data` ON `" ++ table ++ $"` (`data`);" ++ [10]
  | Mysql _ _ _ =>
    $"CREATE TABLE IF NOT EXISTS `" ++ table
    ++ $"` (`id` INT NOT NULL PRIMARY KEY AUTO_INCREMENT, `date` TIMESTAMP(3) NULL, `ms` BIGINT NOT NULL, `data` BLOB, INDEX `index_date` (`date`), INDEX `index_ms` (`ms`), INDEX `index_data` (`data`(128)));"
    ++ [10]
  end.

(** a program with its arguments and its environment *)
Record SqlCommand : Type := mkSqlCommand { sql_program : str; sql_args : list str; sql_env : list (str * str) }.

Definition sql_client (target : SqlTarget) (user password : option str) : SqlCommand :=
  match target with
  | Sqlite file => mkSqlCommand $"sqlite3" [$"-batch"; file] []
  | Mysql host port database =>
    mkSqlCommand $"mysql"
      ([$"--batch"; $"--unbuffered"; $"-h"; host; $"-P"; show_nat port]
       ++ (match user with Some user => [$"-u"; user] | None => [] end) ++ [database])
      (match password with Some password => [($"MYSQL_PWD", password)] | None => [] end)
  end.

(** [is_ascii_alphanumeric() || == b'_'] *)
Definition table_char (b : Z) : bool := is_ascii_digit b || is_ascii_alpha b || (b =? 95).

Definition check_table_name (table : str) : res str unit :=
  if negb (bool_decide (table = [])) && forallb table_char (as_bytes table) then Ok tt
  else Err ($"Invalid table name `" ++ table ++ $"`: only letters, digits and _ are accepted").

Section LogSql.
Context {C : Libc}.

Definition insert_sql (table : str) (time_ms : Z) (packet : list Z) : str :=
  $"INSERT INTO `" ++ table ++ $"` (date, ms, data) VALUES ('"
  ++ trim_end_matches 85 (utc_sql_timestamp_ms time_ms) ++ $"', " ++ show_int time_ms
  ++ $", X'" ++ to_hex packet ++ $"');" ++ [10].

(** ** The command *)

Inductive log_sql_end : Type :=
| SqlHelp (code : Z)
| SqlFailed (err : str)
| SqlStarts (client : SqlCommand) (first : str) (table : str) (server : str * Z) (initializer : option (str * str)).

Definition start_client (spawn : SqlCommand -> option str) (command : SqlCommand) : res str unit :=
  match spawn command with
  | Some err => Err ($"Can't start the database client `" ++ sql_program command ++ $"`: " ++ err)
  | None => Ok tt
  end.

(** [main] up to the connection; [env]: [UB_SQL_PASSWORD], [wrote]: the error of
    writing the first statement, if any *)
Definition log_sql_main (spawn : SqlCommand -> option str) (env wrote : option str) (args : list str)
    : option log_sql_end :=
  match parse_or_help args LOG_SQL_ENTRIES with
  | None => None
  | Some (ExitWithHelp code) => Some (SqlHelp code)
  | Some (Parsed pa) =>
    match get_simple SQL_CONNECTION pa, get_simple SQL_TABLE pa with
    | Some url, Some table =>
      let starts : res str log_sql_end :=
        target ← parse_target url;
        _ ← check_table_name table;
        let password := match get_simple SQL_PASSWORD pa with Some p => Some p | None => env end in
        let client := sql_client target (get_simple SQL_USER pa) password in
        _ ← start_client spawn client;
        _ ← match wrote with Some err => Err err | None => Ok tt end;
        server ← open_cli_endpoint pa;
        Ok (SqlStarts client (create_table_sql target table) table server (loopback_initializer pa)) in
      match starts with
      | Ok e => Some e
      | Err err => Some (SqlFailed err)
      | Panic => None
      end
    | _, _ => Some (SqlHelp 1)
    end
  end.

(** the listener of the stream on packets with the time of their arrival and the
    error of the write, if any: the statements that were written, and the exit
    code when a write failed *)
Fixpoint save_packets (table : str) (l : list (Z * list Z * option str)) : list str * option Z :=
  match l with
  | [] => ([], None)
  | (time_ms, packet, None) :: t =>
    let '(written, code) := save_packets table t in (insert_sql table time_ms packet :: written, code)
  | (_, _, Some _) :: _ => ([], Some 1)
  end.

(** the end of [main], when the stream has ended *)
Definition stream_lost : res str unit := Err $"The connection to the RPC server is lost".

(** every packet is one statement, in order, up to the first failed write *)
Lemma save_packets_prefix table ok failed :
  save_packets table (map (fun r => (r.1, r.2, None)) ok) = (map (fun r => insert_sql table r.1 r.2) ok, None)
  /\ forall time_ms packet err, save_packets table (map (fun r => (r.1, r.2, None)) ok ++ (time_ms, packet, Some err) :: failed)
     = (map (fun r => insert_sql table r.1 r.2) ok, Some 1).
Proof.
  induction ok as [|r t [IH1 IH2]]; [done|]. split.
  - cbn [map save_packets]. by rewrite IH1.
  - intros time_ms packet err. cbn [map app save_packets]. by rewrite IH2.
Qed.

End LogSql.

(** ** Lemmas *)

(** the characters that a statement can hold anywhere without changing its structure *)
Definition harmless (c : Z) : bool :=
  table_char c || (c =? 45) || (c =? 46) || (c =? 58) || (c =? 32).

(** the other characters of a statement: its quotes, brackets, separators and ends *)
Definition skeleton (sql : list Z) : list Z := filter (fun c => harmless c = false) sql.

Lemma skeleton_app a b : skeleton (a ++ b) = skeleton a ++ skeleton b.
Proof. apply filter_app. Qed.

Lemma skeleton_harmless s : Forall (fun c => harmless c = true) s -> skeleton s = [].
Proof.
  intros Hs. unfold skeleton. induction Hs as [|c t Hc _ IH]; [done|]. by rewrite filter_cons_False by congruence.
Qed.

Lemma table_char_utf8 c : forallb table_char (utf8_char c) = true -> table_char c = true.
Proof.
  assert (forall b, 128 <= b -> table_char b = false) as Hhigh.
  { intros b Hb. apply not_true_is_false. unfold table_char, is_ascii_digit, is_ascii_alpha.
    rewrite !orb_true_iff, !andb_true_iff, !Z.leb_le, Z.eqb_eq. lia. }
  assert (forall b l, 128 <= b -> forallb table_char (b :: l) = true -> table_char c = true) as Hcase.
  { intros b l Hb H. cbn in H. rewrite (Hhigh b Hb) in H. discriminate. }
  unfold utf8_char. destruct (Z.ltb_spec c 128).
  - cbn. by rewrite andb_true_r.
  - repeat case_match; apply Hcase; zdiv_lia.
Qed.

(** an accepted table name has harmless characters only *)
Lemma table_name_harmless table : check_table_name table = Ok tt -> Forall (fun c => harmless c = true) table.
Proof.
  unfold check_table_name. destruct (negb _ && _) eqn:Hc; [|done]. intros _.
  apply andb_true_iff in Hc as [_ Hc]. induction table as [|c t IH]; [constructor|].
  unfold as_bytes in Hc. cbn in Hc. rewrite forallb_app in Hc. apply andb_true_iff in Hc as [H1 H2].
  constructor; [|by apply IH]. unfold harmless. by rewrite (table_char_utf8 c H1).
Qed.

Lemma digits_harmless l : Forall (fun c => 48 <= c <= 57 \/ c = 45) l -> Forall (fun c => harmless c = true) l.
Proof.
  intros Hl. eapply Forall_impl; [exact Hl|]. intros c [Hc| ->]; [|done]. unfold harmless, table_char, is_ascii_digit.
  by rewrite (proj2 (Z.leb_le 48 c)), (proj2 (Z.leb_le c 57)) by lia.
Qed.

Lemma stamp_harmless l : Forall stamp_char l -> Forall (fun c => harmless c = true) l.
Proof.
  intros Hl. eapply Forall_impl; [exact Hl|]. intros c [Hc|[->|[->|[->|[->|[->| ->]]]]]]; try done.
  unfold harmless, table_char, is_ascii_digit. by rewrite (proj2 (Z.leb_le 48 c)), (proj2 (Z.leb_le c 57)) by lia.
Qed.

Lemma trim_start_suffix c l : Forall (fun x => harmless x = true) l ->
  Forall (fun x => harmless x = true) (trim_start_matches c l).
Proof. induction 1 as [|x t Hx Ht IH]; [constructor|]. cbn. destruct (x =? c); [done|]. by constructor. Qed.

Lemma show_int_harmless n : Forall (fun c => harmless c = true) (show_int n).
Proof.
  apply digits_harmless. unfold show_int. destruct (Z.ltb_spec n 0).
  - constructor; [by right|]. eapply Forall_impl; [apply show_nat_digits; lia|]. cbn. lia.
  - eapply Forall_impl; [apply show_nat_digits; lia|]. cbn. lia.
Qed.

Lemma to_hex_harmless data : bytes data -> Forall (fun c => harmless c = true) (to_hex data).
Proof.
  intros Hd. unfold to_hex. induction Hd as [|b t Hb _ IH]; [constructor|]. cbn. constructor; [|constructor; [|exact IH]].
  - apply (u8_forall (fun b => harmless (hex_digit_lower (b / 16)))); [vm_compute; reflexivity|done].
  - apply (u8_forall (fun b => harmless (hex_digit_lower (b mod 16)))); [vm_compute; reflexivity|done].
Qed.

(** two hex digits per byte are read back *)
Fixpoint unhex (s : str) : option (list Z) :=
  match s with
  | [] => Some []
  | a :: b :: t => x ← to_digit16 a; y ← to_digit16 b; rest ← unhex t; Some (16 * x + y :: rest)
  | _ => None
  end.

Lemma to_digit16_lower d : 0 <= d < 16 -> to_digit16 (hex_digit_lower d) = Some d.
Proof.
  intros Hd. assert (d ∈ seqZ 0 16) as Hin by (apply elem_of_seqZ; lia). cbn in Hin.
  repeat (apply elem_of_cons in Hin as [->|Hin]; [reflexivity|]). by apply elem_of_nil in Hin.
Qed.

Lemma unhex_to_hex data : bytes data -> unhex (to_hex data) = Some data.
Proof.
  intros Hd. unfold to_hex. induction Hd as [|b t Hb _ IH]; [done|].
  change ((b :: t) ≫= hex02_lower) with (hex02_lower b ++ (t ≫= hex02_lower)). unfold hex02_lower at 1. cbn [app unhex].
  unfold is_u8 in Hb. rewrite !to_digit16_lower by zdiv_lia.
  cbn. rewrite IH. cbn. f_equal. f_equal. pose proof (Z.div_mod b 16). lia.
Qed.

(** ** Properties *)

Section Properties.
Context {C : Libc}.


(** Connect strings.  The JDBC urls of a sqlite file and of a mysql database,
    with and without a port, are parsed to exactly their parts; and the password
    is never among the arguments of the client. *)
Theorem connect_string_roundtrip file host port database user password :
  Forall (fun c => c <> 47 /\ c <> 58) host -> host <> [] -> in_u 16 port -> Forall (fun c => c <> 63) database ->
  parse_target ($"jdbc:sqlite:" ++ file) = Ok (Sqlite file)
  /\ parse_target ($"jdbc:mysql://" ++ host ++ $":" ++ show_int port ++ $"/" ++ database) = Ok (Mysql host port database)
  /\ parse_target ($"jdbc:mysql://" ++ host ++ $"/" ++ database) = Ok (Mysql host 3306 database)
  /\ sql_args (sql_client (Mysql host port database) user password)
     = sql_args (sql_client (Mysql host port database) user None).
Proof.
  intros Hh Hne Hp Hd.
  assert (forall address, Forall (fun c => c <> 47) address ->
    parse_target ($"jdbc:mysql://" ++ address ++ $"/" ++ database)
    = ('(h, p) ← match split_once 58 address with
                 | Some (h, p) => p ← ok_or (parse_u16 p) ($"Invalid port in the connect string: "
                      ++ ($"jdbc:mysql://" ++ address ++ $"/" ++ database)); Ok (h, p)
                 | None => Ok (address, 3306)
                 end; Ok (Mysql h p database))) as Hurl.
  { intros address Ha. unfold parse_target, parse_mysql.
    set (url := $"jdbc:mysql://" ++ address ++ $"/" ++ database).
    assert (strip_prefix $"jdbc:" url = Some ($"mysql" ++ 58 :: ($"//" ++ address ++ 47 :: database))) as -> by reflexivity.
    cbn [ok_or mbind res_bind]. rewrite (split_once_app 58 $"mysql") by (repeat constructor; discriminate).
    cbn [ok_or mbind res_bind]. change (to_ascii_lowercase $"mysql") with $"mysql".
    rewrite bool_decide_false, bool_decide_true by done.
    rewrite (strip_prefix_app $"//"). cbn [from_option]. unfold id. rewrite split_once_app by done. cbn [ok_or mbind res_bind].
    rewrite split_no_sep by done. done. }
  split; [reflexivity|]. split; [|split; [|done]].
  - specialize (Hurl (host ++ $":" ++ show_int port)).
    rewrite <- !app_assoc in Hurl. rewrite Hurl.
    + change $":" with [58]. cbn [app]. rewrite split_once_app by (eapply Forall_impl; [exact Hh|]; cbn; by intros ? [_ ?]).
      unfold parse_u16. rewrite parse_show_int by (unfold in_u in Hp; lia). done.
    + apply Forall_app_2; [eapply Forall_impl; [exact Hh|]; cbn; by intros ? [? _]|].
      apply Forall_app_2; [repeat constructor; unfold char_of; cbn; lia|].
      unfold show_int. rewrite (proj2 (Z.ltb_ge _ _)) by (unfold in_u in Hp; lia).
      eapply Forall_impl; [apply show_nat_digits; unfold in_u in Hp; lia|]. cbn. lia.
  - rewrite Hurl by (eapply Forall_impl; [exact Hh|]; cbn; by intros ? [? _]).
    assert (split_once 58 host = None) as ->; [|done].
    clear Hne Hurl. induction Hh as [|c t [_ Hc] _ IH]; [done|]. cbn. by rewrite (proj2 (Z.eqb_neq _ _) Hc), IH.
Qed.

End Properties.


Lemma connect_string_roundtrip_witness :
  parse_target ($"jdbc:mysql://" ++ $"dbhost" ++ $":" ++ show_int 3307 ++ $"/" ++ $"bus") = Ok (Mysql $"dbhost" 3307 $"bus").
Proof.
  apply (connect_string_roundtrip [] $"dbhost" 3307 $"bus" None None).
  - repeat constructor; discriminate.
  - discriminate.
  - unfold in_u. lia.
  - repeat constructor; discriminate.
Defined.
