(* ===== verification/Base64.v ===== *)
(** * Base64, the encoding of packets in the JSON RPC protocol

    Models [src/base64.rs].  [u32] arithmetic is kept at its width. *)

From stdpp Require Import base list numbers option strings.
From Stdlib Require Import ZArith Lia.
From S2P Require Import Prelude RustStd.

Definition ALPHABET : list Z :=
  $"ABCDEFGHIJKLMNOPQRSTUVWXYZabcdefghijklmnopqrstuvwxyz0123456789+/".

(** [ALPHABET[i & 63] as char]: the index is always in range *)
Definition alphabet_at (i : Z) : Z := default 0 (ALPHABET !! Z.to_nat (Z.land i 63)).

(** [data.chunks(3)] *)
Fixpoint chunks3 (data : list Z) : list (list Z) :=
  match data with
  | [] => []
  | [a] => [[a]]
  | [a; b] => [[a; b]]
  | a :: b :: c :: rest => [a; b; c] :: chunks3 rest
  end.

(** body of the loop of [encode] *)
Definition encode_chunk (chunk : list Z) : str :=
  let b i := default 0 (chunk !! i) in
  let n := Z.lor (Z.lor (Z.shiftl (b 0%nat) 16) (Z.shiftl (b 1%nat) 8)) (b 2%nat) in
  [ alphabet_at (Z.shiftr n 18);
    alphabet_at (Z.shiftr n 12);
    (if (1 <? length chunk)%nat then alphabet_at (Z.shiftr n 6) else 61);
    (if (2 <? length chunk)%nat then alphabet_at n else 61) ].

Definition encode (data : list Z) : str := chunks3 data ≫= encode_chunk.

Inductive char_class : Type :=
| Value (v : Z)
| Skip
| Invalid.

(** the [match c] of [decode] *)
Definition classify (c : Z) : char_class :=
  if (65 <=? c) && (c <=? 90) then Value (c - 65)
  else if (97 <=? c) && (c <=? 122) then Value (c - 97 + 26)
  else if (48 <=? c) && (c <=? 57) then Value (c - 48 + 52)
  else if c =? 43 then Value 62
  else if c =? 47 then Value 63
  else if (c =? 61) || (c =? 13) || (c =? 10) then Skip
  else Invalid.

Record decoder : Type := mkDecoder {
  out : list Z;
  acc : Z;
  bits : Z;
}.

(** body of the loop of [decode]; the error is the text with the refused byte *)
Definition decode_byte (d : decoder) (c : Z) : res str decoder :=
  match classify c with
  | Skip => Ok d
  | Invalid => Err ($"invalid base64 character: `" ++ [c] ++ $"`")
  | Value value =>
    let acc := Z.lor (as_u 32 (Z.shiftl (acc d) 6)) value in
    let bits := bits d + 6 in
    if 8 <=? bits then
      let bits := bits - 8 in
      Ok (mkDecoder (out d ++ [as_u 8 (Z.shiftr acc bits)])
            (Z.land acc (Z.shiftl 1 bits - 1)) bits)
    else Ok (mkDecoder (out d) acc bits)
  end.

Definition decode (text : str) : res str (list Z) :=
  d ← foldM decode_byte (mkDecoder [] 0 0) (as_bytes text);
  Ok (out d).

(** ** Lemmas *)

Definition alphabet_char (v : Z) : Z := default 0 (ALPHABET !! Z.to_nat v).

Definition alphabet_char_ok (v : Z) : bool :=
  match classify (alphabet_char v) with
  | Value w => (w =? v) && (0 <=? alphabet_char v) && (alphabet_char v <? 128)
  | _ => 63 <? v
  end.

Lemma alphabet_sextet v : 0 <= v < 64 ->
  classify (alphabet_char v) = Value v /\ 0 <= alphabet_char v < 128.
Proof.
  intros Hv. assert (alphabet_char_ok v = true) as H.
  { apply u8_forall; [vm_compute; reflexivity|unfold is_u8; lia]. }
  unfold alphabet_char_ok in H. destruct (classify _) eqn:Hc; breflect; [|lia|lia].
  split; [f_equal; lia|lia].
Qed.

Lemma alphabet_at_mod i :
  alphabet_at i = alphabet_char (i mod 64) /\ 0 <= i mod 64 < 64.
Proof.
  unfold alphabet_at. change 63 with (Z.ones 6). rewrite Z.land_ones by lia.
  split; [done|]. apply Z.mod_pos_bound. lia.
Qed.

Lemma alphabet_class i : classify (alphabet_at i) = Value (i mod 64).
Proof. destruct (alphabet_at_mod i) as [-> H]. by apply alphabet_sextet. Qed.

Lemma alphabet_ascii i : 0 <= alphabet_at i < 128.
Proof. destruct (alphabet_at_mod i) as [-> H]. by apply alphabet_sextet. Qed.

(** One sextet: the accumulator is the number of the pending bits. *)
Lemma decode_byte_value o a k i (v := i mod 64) : 0 <= k < 8 -> 0 <= a < 2 ^ k ->
  decode_byte (mkDecoder o a k) (alphabet_at i)
  = Ok (if 8 <=? k + 6
        then mkDecoder (o ++ [(a * 64 + v) / 2 ^ (k - 2) mod 256])
               ((a * 64 + v) mod 2 ^ (k - 2)) (k - 2)
        else mkDecoder o (a * 64 + v) (k + 6)).
Proof.
  intros Hk Ha. unfold decode_byte. rewrite alphabet_class. cbn [acc bits out].
  assert (2 ^ k <= 2 ^ 7) by (apply Z.pow_le_mono_r; lia).
  assert (0 <= v < 64) by (apply Z.mod_pos_bound; lia).
  unfold as_u. rewrite (Z.mod_small (Z.shiftl a 6)) by (rewrite Z.shiftl_mul_pow2 by lia; lia).
  rewrite shiftl_lor_add by (unfold v in *; lia). fold v. change (2 ^ 6) with 64.
  destruct (8 <=? k + 6) eqn:Hc; breflect; [|done].
  replace (k + 6 - 8) with (k - 2) by lia. do 2 f_equal.
  - by rewrite Z.shiftr_div_pow2 by lia.
  - rewrite Z.shiftl_1_l. change (2 ^ (k - 2) - 1) with (Z.pred (2 ^ (k - 2))).
    rewrite <- Z.ones_equiv, Z.land_ones by lia. done.
Qed.

Lemma encode_chunk_n (chunk : list Z) (b := fun i : nat => default 0 (chunk !! i)) :
  is_u8 (b 0%nat) -> is_u8 (b 1%nat) -> is_u8 (b 2%nat) ->
  Z.lor (Z.lor (Z.shiftl (b 0%nat) 16) (Z.shiftl (b 1%nat) 8)) (b 2%nat)
  = b 0%nat * 65536 + b 1%nat * 256 + b 2%nat.
Proof.
  unfold is_u8. intros H0 H1 H2. rewrite <- Z.lor_assoc.
  rewrite (shiftl_lor_add (b 1%nat) 8) by (simpl; lia). change (2 ^ 8) with 256.
  rewrite shiftl_lor_add by (simpl; lia). change (2 ^ 16) with 65536. lia.
Qed.

(** the two forms of a sextet of [n] *)
Lemma sextet_shift n k : 0 <= k -> alphabet_at (Z.shiftr n k) = alphabet_at (n / 2 ^ k).
Proof. intros. by rewrite Z.shiftr_div_pow2. Qed.

(** the four positions of a sextet in a chunk *)
Lemma decode_sextet_1 o i : decode_byte (mkDecoder o 0 0) (alphabet_at i)
  = Ok (mkDecoder o (i mod 64) 6).
Proof. rewrite decode_byte_value by (simpl; lia). simpl. by rewrite Z.add_0_l. Qed.

Lemma decode_sextet_2 o a i (w := a * 64 + i mod 64) : 0 <= a < 64 ->
  decode_byte (mkDecoder o a 6) (alphabet_at i)
  = Ok (mkDecoder (o ++ [w / 16 mod 256]) (w mod 16) 4).
Proof. intros. by rewrite decode_byte_value by (simpl; lia). Qed.

Lemma decode_sextet_3 o a i (w := a * 64 + i mod 64) : 0 <= a < 16 ->
  decode_byte (mkDecoder o a 4) (alphabet_at i)
  = Ok (mkDecoder (o ++ [w / 4 mod 256]) (w mod 4) 2).
Proof. intros. by rewrite decode_byte_value by (simpl; lia). Qed.

Lemma decode_sextet_4 o a i (w := a * 64 + i mod 64) : 0 <= a < 4 ->
  decode_byte (mkDecoder o a 2) (alphabet_at i) = Ok (mkDecoder (o ++ [w mod 256]) 0 0).
Proof.
  intros. rewrite decode_byte_value by (simpl; lia). simpl.
  by rewrite Z.div_1_r, Z.mod_1_r.
Qed.

(** A whole chunk: its bytes are appended and no bits are left over. *)
Lemma decode_chunk3 o a b c : is_u8 a -> is_u8 b -> is_u8 c ->
  foldM decode_byte (mkDecoder o 0 0) (encode_chunk [a; b; c])
  = Ok (mkDecoder (o ++ [a; b; c]) 0 0).
Proof.
  intros Ha Hb Hc. unfold encode_chunk. rewrite (encode_chunk_n [a; b; c]) by done.
  rewrite !sextet_shift by lia. unfold is_u8 in *. simpl.
  rewrite decode_sextet_1, decode_sextet_2 by zdiv_lia.
  rewrite decode_sextet_3 by zdiv_lia. rewrite decode_sextet_4 by zdiv_lia.
  rewrite <- !app_assoc. simpl. repeat f_equal; zdiv_lia.
Qed.

(** The last, incomplete chunk. *)
Lemma decode_chunk2 o a b : is_u8 a -> is_u8 b ->
  exists k, foldM decode_byte (mkDecoder o 0 0) (encode_chunk [a; b])
  = Ok (mkDecoder (o ++ [a; b]) 0 k).
Proof.
  intros Ha Hb. unfold encode_chunk.
  rewrite (encode_chunk_n [a; b]) by (done || (unfold is_u8; simpl; lia)).
  rewrite !sextet_shift by lia. unfold is_u8 in *. exists 2. simpl.
  rewrite decode_sextet_1, decode_sextet_2 by zdiv_lia.
  rewrite decode_sextet_3 by zdiv_lia.
  rewrite <- !app_assoc. simpl. repeat f_equal; zdiv_lia.
Qed.

Lemma decode_chunk1 o a : is_u8 a ->
  exists k, foldM decode_byte (mkDecoder o 0 0) (encode_chunk [a])
  = Ok (mkDecoder (o ++ [a]) 0 k).
Proof.
  intros Ha. unfold encode_chunk.
  rewrite (encode_chunk_n [a]) by (done || (unfold is_u8; simpl; lia)).
  rewrite !sextet_shift by lia. unfold is_u8 in *. exists 4. simpl.
  rewrite decode_sextet_1, decode_sextet_2 by zdiv_lia.
  repeat f_equal; zdiv_lia.
Qed.

Lemma foldM_chunks o data : bytes data ->
  exists k, foldM decode_byte (mkDecoder o 0 0) (encode data) = Ok (mkDecoder (o ++ data) 0 k).
Proof.
  revert o. induction data as [data IH] using (induction_ltof1 _ (@length Z)).
  intros o Hd. destruct data as [|a [|b [|c rest]]].
  - exists 0. simpl. by rewrite app_nil_r.
  - apply bytes_cons in Hd as [Ha _]. unfold encode. simpl chunks3. cbn [mbind list_bind].
    rewrite app_nil_r. by apply decode_chunk1.
  - apply bytes_cons in Hd as [Ha Hd]. apply bytes_cons in Hd as [Hb _].
    unfold encode. simpl chunks3. cbn [mbind list_bind]. rewrite app_nil_r.
    by apply decode_chunk2.
  - apply bytes_cons in Hd as [Ha Hd]. apply bytes_cons in Hd as [Hb Hd].
    apply bytes_cons in Hd as [Hc Hd].
    change (encode (a :: b :: c :: rest)) with (encode_chunk [a; b; c] ++ encode rest).
    rewrite foldM_app, decode_chunk3 by done. cbn [mbind res_bind].
    destruct (IH rest ltac:(unfold ltof; simpl; lia) (o ++ [a; b; c]) Hd) as [k Hk].
    exists k. rewrite Hk. by rewrite <- app_assoc.
Qed.

Lemma encode_chunk_ascii chunk : Forall (fun c => 0 <= c < 128) (encode_chunk chunk).
Proof.
  unfold encode_chunk. repeat constructor; try apply alphabet_ascii; bool_cases;
    apply alphabet_ascii || lia.
Qed.

Lemma encode_ascii data : Forall (fun c => 0 <= c < 128) (encode data).
Proof.
  unfold encode. induction (chunks3 data) as [|ch t IH]; [constructor|].
  apply Forall_app. split; [apply encode_chunk_ascii|done].
Qed.

Lemma decode_byte_err_class d c : 
  (exists e, decode_byte d c = Err e) \/ classify c <> Invalid /\ exists d', decode_byte d c = Ok d'.
Proof.
  unfold decode_byte. destruct (classify c); [right|right|left]; bool_cases; eauto.
Qed.

Lemma foldM_decode_valid d l : 
  Forall (fun c => classify c <> Invalid) l <-> exists d', foldM decode_byte d l = Ok d'.
Proof.
  revert d. induction l as [|c t IH]; intros d; simpl.
  - split; [eauto|constructor].
  - rewrite Forall_cons_iff. unfold decode_byte at 1. split.
    + intros [Hc Ht]. destruct (classify c); [| |done]; bool_cases; by apply IH.
    + intros [d' Hd]. destruct (classify c); [| |done];
        (split; [done|]); revert Hd; bool_cases; intros Hd; eapply IH; eauto.
Qed.

Lemma decode_encode data : bytes data -> decode (encode data) = Ok data.
Proof.
  intros Hd. unfold decode. rewrite as_bytes_ascii by apply encode_ascii.
  by destruct (foldM_chunks [] data Hd) as [k ->].
Qed.

(** ** Properties *)

(** Base64 round trip.  Every byte sequence is decoded back from its
    encoding (padding included), without error. *)
Theorem base64_roundtrip data : bytes data -> decode (encode data) = Ok data.
Proof. apply decode_encode. Qed.

Lemma base64_roundtrip_witness : decode (encode [5; 63; 1; 0; 196]) = Ok [5; 63; 1; 0; 196].
Proof. apply base64_roundtrip. repeat constructor; lia. Defined.

(** The decoder never panics and refuses a text exactly when one of its
    bytes is neither in the alphabet nor padding, CR or LF. *)
Theorem base64_decode_total text :
  decode text <> Panic
  /\ (is_ok (decode text) = true <-> Forall (fun c => classify c <> Invalid) (as_bytes text)).
Proof.
  unfold decode. rewrite (foldM_decode_valid (mkDecoder [] 0 0)).
  assert (foldM decode_byte (mkDecoder [] 0 0) (as_bytes text) <> Panic) as Hnp.
  { generalize (mkDecoder [] 0 0). induction (as_bytes text) as [|c t IH]; intros d; [done|].
    cbn [foldM]. destruct (decode_byte_err_class d c) as [[e ->]|[_ [d' ->]]]; [done|].
    apply IH. }
  destruct (foldM _ _ _); simpl; [|split; [done|split; [done|by intros [??]]]|done].
  split; [done|]. split; [eauto|done].
Qed.
