(* ===== verification/Packet.v ===== *)
(** * Packets: building, reading and parsing

    Models [src/packet.rs] and [format_packet_with_mode] of [src/tools.rs]:
    the [PacketAssembler] that collects the bytes of a packet, the
    [PacketReader] with its cursor [ep], and [ParsedUartBusPacket].
    A float is represented by its bits ([to_bits] and [from_bits] are mutually
    inverse).  Operations with a [&mut self] receiver are state passing
    functions; a [None] of the reader is the error [tt]. *)

From stdpp Require Import base list numbers option strings.
From Stdlib Require Import ZArith Lia.
From S2P Require Import Prelude RustStd Tools VarInt.

Inductive PacketParseError : Type :=
| MissingCrc
| Address (err : UnpackError).

Definition PacketParseError_fmt (e : PacketParseError) : str :=
  match e with
  | MissingCrc => $"packet is missing crc8"
  | Address err => $"failed to parse packet address: " ++ UnpackError_fmt err
  end.

(** ** PacketAssembler *)

Record PacketAssembler : Type := mkAssembler { buffer : list Z }.

Definition assembler_new : PacketAssembler := mkAssembler [].

Definition write_u8 (value : Z) (a : PacketAssembler) : PacketAssembler :=
  mkAssembler (buffer a ++ [value]).
Definition write_i8 (value : Z) (a : PacketAssembler) : PacketAssembler :=
  write_u8 (as_u 8 value) a.
Definition write_u16_be (value : Z) (a : PacketAssembler) : PacketAssembler :=
  mkAssembler (buffer a ++ to_be_bytes 2 value).
Definition write_i16_be (value : Z) (a : PacketAssembler) : PacketAssembler :=
  write_u16_be (as_u 16 value) a.
Definition write_u32_be (value : Z) (a : PacketAssembler) : PacketAssembler :=
  mkAssembler (buffer a ++ to_be_bytes 4 value).
Definition write_i32_be (value : Z) (a : PacketAssembler) : PacketAssembler :=
  write_u32_be (as_u 32 value) a.
Definition write_u64_be (value : Z) (a : PacketAssembler) : PacketAssembler :=
  mkAssembler (buffer a ++ to_be_bytes 8 value).
Definition write_i64_be (value : Z) (a : PacketAssembler) : PacketAssembler :=
  write_u64_be (as_u 64 value) a.
(** the argument is the bit pattern of the float *)
Definition write_f32_be (bits : Z) (a : PacketAssembler) : PacketAssembler := write_u32_be bits a.
Definition write_f64_be (bits : Z) (a : PacketAssembler) : PacketAssembler := write_u64_be bits a.

Definition write_blob (data : list Z) (a : PacketAssembler) : PacketAssembler :=
  mkAssembler (buffer a ++ data).
Definition write_string (value : str) (a : PacketAssembler) : PacketAssembler :=
  write_u8 0 (write_blob (as_bytes value) a).

Definition append_crc8 (a : PacketAssembler) : PacketAssembler :=
  write_u8 (crc8 (buffer a)) a.

(** [mem::take]: the bytes, and an empty assembler *)
Definition done (a : PacketAssembler) : list Z * PacketAssembler := (buffer a, mkAssembler []).

Section Addressing.
Context {NB : NumBigint}.

Definition write_packed_value (signed : bool) (value : Z) : SM PacketAssembler PackError unit :=
  fun a =>
  match pack_value signed value with
  | Ok p =>
    let required := length p in
    let start := length (buffer a) in
    let resized := buffer a ++ replicate required 0 in
    match pack_value_into signed value resized start with
    | Ok (_, buffer) => (Ok tt, mkAssembler buffer)
    | Err e => (Err e, mkAssembler resized)
    | Panic => (Panic, mkAssembler resized)
    end
  | Err e => (Err e, a)
  | Panic => (Panic, a)
  end.

Definition write_address (value : Z) : SM PacketAssembler PackError unit :=
  write_packed_value true value.

Definition write_addressing (from to : Z) : SM PacketAssembler PackError unit :=
  _ ← write_address to; write_address from.
End Addressing.

(** ** PacketReader *)

Record PacketReader : Type := mkReader { data : list Z; ep : nat }.

Definition reader_new (data : list Z) : PacketReader := mkReader data 0.
Definition from_slice (data : list Z) : PacketReader := reader_new data.

Definition get_parse_state_index (r : PacketReader) : nat := ep r.
Definition set_parse_state_index (index : nat) (r : PacketReader) : PacketReader :=
  mkReader (data r) index.
(** [saturating_sub] *)
Definition get_remaining_bytes (r : PacketReader) : nat := (length (data r) - ep r)%nat.
Definition has_unprocessed_bytes (r : PacketReader) : bool := (ep r <? length (data r))%nat.

Definition read_ubyte : SM PacketReader unit Z := fun r =>
  match data r !! ep r with
  | None => (Err tt, r)
  | Some value => (Ok value, mkReader (data r) (ep r + 1))
  end.
Definition read_sbyte : SM PacketReader unit Z := v ← read_ubyte; mret (as_i 8 v).

Definition read_int (signed : bool) : SM PacketReader UnpackError (Z * nat) := fun r =>
  let start := ep r in
  match unpack_value signed (data r) start with
  | Ok (value, used) => (Ok (value, used), mkReader (data r) (ep r + used))
  | Err e => (Err e, r)
  | Panic => (Panic, r)
  end.
Definition read_vuint : SM PacketReader UnpackError Z := '(value, _) ← read_int false; mret value.
Definition read_vsint : SM PacketReader UnpackError Z := '(value, _) ← read_int true; mret value.

(** [get(ep..end)?]; a [checked_add] that fails is beyond every buffer *)
Definition read_blob (len : nat) : SM PacketReader unit (list Z) := fun r =>
  let end' := (ep r + len)%nat in
  if (length (data r) <? end')%nat then (Err tt, r)
  else (Ok (take len (drop (ep r) (data r))), mkReader (data r) end').

Definition read_blob_remain : SM PacketReader never (list Z) := fun r =>
  match slice (E := never) (data r) (ep r) (length (data r)) with
  | Ok d => (Ok d, mkReader (data r) (length (data r)))
  | _ => (Panic, r)
  end.

(** [iter().position(|byte| *byte == 0)] *)
Fixpoint position_zero (l : list Z) : option nat :=
  match l with
  | [] => None
  | b :: t => if b =? 0 then Some 0%nat else S <$> position_zero t
  end.

Definition read_string : SM PacketReader PacketParseError str := fun r =>
  match slice (E := never) (data r) (ep r) (length (data r)) with
  | Ok rest =>
    match position_zero rest with
    | Some offset =>
      match from_utf8 (take offset rest) with
      | Some value => (Ok value, mkReader (data r) (ep r + offset + 1))
      | None => (Err (Address IncompleteValue), r)
      end
    | None => (Err (Address IncompleteValue), r)
    end
  | _ => (Panic, r)
  end.

Definition read_u16_be : SM PacketReader unit Z := bytes ← read_blob 2; mret (be_value bytes).
Definition read_i16_be : SM PacketReader unit Z := v ← read_u16_be; mret (as_i 16 v).
Definition read_u32_be : SM PacketReader unit Z := bytes ← read_blob 4; mret (be_value bytes).
Definition read_i32_be : SM PacketReader unit Z := v ← read_u32_be; mret (as_i 32 v).
Definition read_u64_be : SM PacketReader unit Z := bytes ← read_blob 8; mret (be_value bytes).
Definition read_i64_be : SM PacketReader unit Z := v ← read_u64_be; mret (as_i 64 v).
Definition read_f32_be : SM PacketReader unit Z := read_u32_be.
Definition read_f64_be : SM PacketReader unit Z := read_u64_be.

(** ** ParsedUartBusPacket *)

Record ParsedUartBusPacket : Type := mkPacket {
  raw_packet : list Z;
  from : Z;
  to : Z;
  payload : list Z;
  packet_crc8 : option Z;
  valid_crc8 : option Z;
}.

Definition i32_MAX : Z := 2 ^ 31 - 1.
Definition i32_MIN : Z := - 2 ^ 31.

Definition parsed_new (data : list Z) : res PacketParseError ParsedUartBusPacket :=
  let ep := 0%nat in
  '(to, used) ← map_err Address (unpack_value true data ep);
  let ep := (ep + used)%nat in
  '(from, used) ← map_err Address (unpack_value true data ep);
  let ep := (ep + used)%nat in
  payload ← slice data ep (length data);
  Ok {| raw_packet := data;
        from := default i32_MAX (try_i 32 from);
        to := default i32_MIN (try_i 32 to);
        payload := payload;
        packet_crc8 := None;
        valid_crc8 := None |}.

Definition set_crc8 (value : option Z) (p : ParsedUartBusPacket) : ParsedUartBusPacket :=
  mkPacket (raw_packet p) (from p) (to p) (payload p) value (valid_crc8 p).
Definition get_crc8 (p : ParsedUartBusPacket) : option Z := packet_crc8 p.
Definition read_payload (p : ParsedUartBusPacket) : PacketReader := reader_new (payload p).

Definition from_raw_packet_with_crc (data : list Z) : res PacketParseError ParsedUartBusPacket :=
  match data with
  | [] => Err MissingCrc
  | _ =>
    body ← slice data 0 (length data - 1);
    packet ← parsed_new body;
    c ← idx data (length data - 1);
    Ok (set_crc8 (Some c) packet)
  end.

(** memoises the crc of the packet *)
Definition get_packet_valid_crc8_value (p : ParsedUartBusPacket) : Z * ParsedUartBusPacket :=
  match valid_crc8 p with
  | Some c => (c, p)
  | None =>
    let c := crc8 (raw_packet p) in
    (c, mkPacket (raw_packet p) (from p) (to p) (payload p) (packet_crc8 p) (Some c))
  end.

Definition is_valid (p : ParsedUartBusPacket) : bool * ParsedUartBusPacket :=
  match packet_crc8 p with
  | Some expected => let '(c, p) := get_packet_valid_crc8_value p in (c =? expected, p)
  | None => (true, p)
  end.

Definition to_short_user_text (p : ParsedUartBusPacket) : str :=
  let text := $"From: " ++ show_int (from p) ++ $", To: " ++ show_int (to p)
              ++ $", payload: " ++ format_colon_data (payload p) in
  match packet_crc8 p with
  | Some expected =>
    let text := text ++ $", crc8: " ++ show_nat expected in
    let valid := crc8 (raw_packet p) in
    if negb (valid =? expected) then text ++ $" != " ++ show_nat valid else text
  | None => text
  end.

(** [None] for a panic *)
Definition format_packet_with_mode (mode : PacketFormattingMode) (data : list Z) : option str :=
  match mode with
  | ParsedPacket =>
    match from_raw_packet_with_crc data with
    | Ok packet => Some (to_short_user_text packet)
    | Err _ => Some (format_colon_data_with_validation data)
    | Panic => None
    end
  | RawColonWithVerify => Some (format_colon_data_with_validation data)
  | RawColon => Some (format_colon_data data)
  end.

(** ** Lemmas: the assembler *)

Section AssemblerLemmas.
Context {NB : NumBigint}.

Lemma write_packed_value_ok signed v p a : pack_value signed v = Ok p ->
  write_packed_value signed v a = (Ok tt, mkAssembler (buffer a ++ p)).
Proof.
  intros Hp. unfold write_packed_value. rewrite Hp.
  apply pack_value_packed in Hp as [_ Hp].
  rewrite (packed_into _ _ _ Hp) by (rewrite length_app, length_replicate; lia).
  rewrite take_app_length, drop_ge, app_nil_r by (rewrite length_app, length_replicate; lia).
  done.
Qed.

Lemma write_packed_value_err v a : v < 0 ->
  write_packed_value false v a = (Err NegativeUnsignedValue, a).
Proof. intros Hv. unfold write_packed_value. by rewrite pack_value_negative. Qed.

(** the addresses in front of a packet *)
Lemma write_addressing_ok from to a :
  exists pt pf, pack_value true to = Ok pt /\ pack_value true from = Ok pf
    /\ write_addressing from to a = (Ok tt, mkAssembler (buffer a ++ pt ++ pf)).
Proof.
  destruct (pack_value_ok true to ltac:(by left)) as (pt & Ht & _).
  destruct (pack_value_ok true from ltac:(by left)) as (pf & Hf & _).
  exists pt, pf. split; [done|]. split; [done|].
  unfold write_addressing, mbind, SM_bind, write_address.
  rewrite (write_packed_value_ok _ _ _ _ Ht), (write_packed_value_ok _ _ _ _ Hf).
  cbn [buffer]. by rewrite app_assoc.
Qed.

(** parsing two packed addresses *)
Lemma parsed_new_packed from_ to_ pt pf rest :
  pack_value true to_ = Ok pt -> pack_value true from_ = Ok pf ->
  parsed_new (pt ++ pf ++ rest)
  = Ok (mkPacket (pt ++ pf ++ rest) (default i32_MAX (try_i 32 from_))
          (default i32_MIN (try_i 32 to_)) rest None None).
Proof.
  intros Ht Hf. apply pack_value_packed in Ht as [_ Ht]. apply pack_value_packed in Hf as [_ Hf].
  unfold parsed_new.
  pose proof (packed_unpack _ _ _ [] (pf ++ rest) Ht) as H1. cbn [app length] in H1.
  rewrite H1. cbn [mbind res_bind map_err]. rewrite Nat.add_0_l.
  rewrite (packed_unpack _ _ _ pt rest Hf). cbn [mbind res_bind map_err].
  rewrite slice_full by (rewrite !length_app; lia). cbn [mbind res_bind].
  do 2 f_equal. by rewrite app_assoc, <- length_app, drop_app_length.
Qed.
End AssemblerLemmas.

(** the last byte is the crc, the rest is parsed *)
Lemma from_raw_snoc body c :
  from_raw_packet_with_crc (body ++ [c])
  = packet ← parsed_new body; Ok (set_crc8 (Some c) packet).
Proof.
  unfold from_raw_packet_with_crc.
  destruct (body ++ [c]) as [|h t] eqn:Hb; [by destruct body|].
  rewrite <- Hb, length_app. cbn [length]. rewrite Nat.add_sub.
  rewrite slice_ok by (rewrite ?length_app; lia). cbn [mbind res_bind].
  rewrite Nat.sub_0_r, drop_0, take_app_length.
  destruct (parsed_new body); [|done..]. cbn [mbind res_bind].
  by rewrite (idx_Some _ _ c) by (by rewrite lookup_app_r, Nat.sub_diag by lia).
Qed.

(** ** A packet as a sequence of fields *)

(** The values the assembler can write and the reader can read. *)
Inductive field : Type :=
| FU8 (v : Z) | FI8 (v : Z) | FU16 (v : Z) | FI16 (v : Z) | FU32 (v : Z) | FI32 (v : Z)
| FU64 (v : Z) | FI64 (v : Z) | FF32 (bits : Z) | FF64 (bits : Z)
| FBlob (d : list Z) | FString (s : str) | FPacked (signed : bool) (v : Z).

(** a value of the Rust type; a string without NUL *)
Definition field_ok (f : field) : Prop :=
  match f with
  | FU8 v => in_u 8 v | FI8 v => in_i 8 v
  | FU16 v => in_u 16 v | FI16 v => in_i 16 v
  | FU32 v | FF32 v => in_u 32 v | FI32 v => in_i 32 v
  | FU64 v | FF64 v => in_u 64 v | FI64 v => in_i 64 v
  | FBlob d => bytes d
  | FString s => valid_str s /\ Forall (fun c => c <> 0) s
  | FPacked signed v => packable signed v
  end.

Section Fields.
Context {NB : NumBigint}.

Definition write_field (f : field) (a : PacketAssembler) : res PackError unit * PacketAssembler :=
  match f with
  | FU8 v => (Ok tt, write_u8 v a) | FI8 v => (Ok tt, write_i8 v a)
  | FU16 v => (Ok tt, write_u16_be v a) | FI16 v => (Ok tt, write_i16_be v a)
  | FU32 v => (Ok tt, write_u32_be v a) | FI32 v => (Ok tt, write_i32_be v a)
  | FU64 v => (Ok tt, write_u64_be v a) | FI64 v => (Ok tt, write_i64_be v a)
  | FF32 v => (Ok tt, write_f32_be v a) | FF64 v => (Ok tt, write_f64_be v a)
  | FBlob d => (Ok tt, write_blob d a)
  | FString s => (Ok tt, write_string s a)
  | FPacked signed v => write_packed_value signed v a
  end.

Fixpoint write_fields (fs : list field) : SM PacketAssembler PackError unit :=
  match fs with
  | [] => mret tt
  | f :: t => _ ← write_field f; write_fields t
  end.
End Fields.

Definition sm_forget {S E A B} (f : A -> B) (m : SM S E A) : SM S unit B := fun s =>
  match m s with
  | (Ok a, s') => (Ok (f a), s')
  | (Err _, s') => (Err tt, s')
  | (Panic, s') => (Panic, s')
  end.

(** reads a field of the same kind (and length, for a blob) *)
Definition read_like (f : field) : SM PacketReader unit field :=
  match f with
  | FU8 _ => sm_forget FU8 read_ubyte | FI8 _ => sm_forget FI8 read_sbyte
  | FU16 _ => sm_forget FU16 read_u16_be | FI16 _ => sm_forget FI16 read_i16_be
  | FU32 _ => sm_forget FU32 read_u32_be | FI32 _ => sm_forget FI32 read_i32_be
  | FU64 _ => sm_forget FU64 read_u64_be | FI64 _ => sm_forget FI64 read_i64_be
  | FF32 _ => sm_forget FF32 read_f32_be | FF64 _ => sm_forget FF64 read_f64_be
  | FBlob d => sm_forget FBlob (read_blob (length d))
  | FString _ => sm_forget FString read_string
  | FPacked true _ => sm_forget (FPacked true) read_vsint
  | FPacked false _ => sm_forget (FPacked false) read_vuint
  end.

Fixpoint read_fields (fs : list field) : SM PacketReader unit (list field) :=
  match fs with
  | [] => mret []
  | f :: t => x ← read_like f; xs ← read_fields t; mret (x :: xs)
  end.

(** ** Lemmas: reading back *)

Lemma read_blob_app pre b post :
  read_blob (length b) (mkReader (pre ++ b ++ post) (length pre))
  = (Ok b, mkReader (pre ++ b ++ post) (length pre + length b)).
Proof.
  unfold read_blob. cbn [data ep].
  rewrite (proj2 (Nat.ltb_ge _ _)) by (rewrite !length_app; lia).
  by rewrite drop_app_length, take_app_length.
Qed.

Lemma read_blob_be n v pre post (b := to_be_bytes n v) :
  read_blob n (mkReader (pre ++ b ++ post) (length pre))
  = (Ok b, mkReader (pre ++ b ++ post) (length pre + length b)).
Proof.
  pose proof (read_blob_app pre b post) as H. unfold b in H at 1.
  by rewrite to_be_bytes_length in H.
Qed.

Lemma position_zero_app l post : Forall (fun c => c <> 0) l ->
  position_zero (l ++ 0 :: post) = Some (length l).
Proof.
  induction 1 as [|c t Hc _ IH]; [done|]. cbn [app position_zero].
  rewrite (proj2 (Z.eqb_neq _ _) Hc), IH. done.
Qed.

Lemma utf8_char_nonzero c : is_char c -> c <> 0 -> Forall (fun b => b <> 0) (utf8_char c).
Proof.
  intros Hc Hn. unfold utf8_char, is_char in *. bool_cases; breflect;
    repeat constructor; zdiv_lia.
Qed.

Lemma as_bytes_nonzero s : valid_str s -> Forall (fun c => c <> 0) s ->
  Forall (fun b => b <> 0) (as_bytes s).
Proof.
  intros Hs. induction Hs as [|c t Hc _ IH]; intros Hz; [constructor|].
  apply Forall_cons_iff in Hz as [Hz Ht]. apply Forall_app.
  split; [by apply utf8_char_nonzero|by apply IH].
Qed.

Lemma read_string_app pre s post : valid_str s -> Forall (fun c => c <> 0) s ->
  let d := pre ++ (as_bytes s ++ [0]) ++ post in
  read_string (mkReader d (length pre))
  = (Ok s, mkReader d (length pre + length (as_bytes s ++ [0]))).
Proof.
  intros Hs Hz d. unfold read_string. cbn [data ep].
  rewrite slice_full by (unfold d; rewrite !length_app; lia).
  replace (drop (length pre) d) with (as_bytes s ++ 0 :: post)
    by (unfold d; by rewrite drop_app_length, <- app_assoc).
  rewrite position_zero_app by by apply as_bytes_nonzero.
  rewrite take_app_length, from_utf8_as_bytes_id by done.
  do 2 f_equal. rewrite length_app. simpl. lia.
Qed.

Lemma be_value_in_u n w v : w = 8 * Z.of_nat n -> in_u w v -> be_value (to_be_bytes n v) = v.
Proof.
  intros -> Hv. rewrite be_value_to_be_bytes. apply Z.mod_small.
  unfold in_u in Hv. rewrite Z.pow_mul_r in Hv by lia. exact Hv.
Qed.

Section FieldLemmas.
Context {NB : NumBigint}.

(** What a written field promises to the reader. *)
Definition field_codec (f : field) (enc : list Z) : Prop :=
  bytes enc
  /\ (forall a, write_field f a = (Ok tt, mkAssembler (buffer a ++ enc)))
  /\ (forall pre post, read_like f (mkReader (pre ++ enc ++ post) (length pre))
                       = (Ok f, mkReader (pre ++ enc ++ post) (length pre + length enc))).

Lemma fixed_codec n f v :
  (forall a, write_field f a = (Ok tt, mkAssembler (buffer a ++ to_be_bytes n v))) ->
  (forall r b r', read_blob n r = (Ok b, r') -> b = to_be_bytes n v -> read_like f r = (Ok f, r')) ->
  field_codec f (to_be_bytes n v).
Proof.
  intros Hw Hr. split; [apply to_be_bytes_bytes|]. split; [done|].
  intros pre post. eapply Hr; [apply read_blob_be|done].
Qed.

Lemma byte_codec f v : in_u 8 v ->
  (forall a, write_field f a = (Ok tt, write_u8 v a)) ->
  (forall r r', read_ubyte r = (Ok v, r') -> read_like f r = (Ok f, r')) ->
  field_codec f [v].
Proof.
  intros Hv Hw Hr. split; [by apply bytes_cons; split; [|apply bytes_nil]|].
  split; [done|]. intros pre post. apply Hr. unfold read_ubyte. cbn [data ep].
  by rewrite lookup_app_r, Nat.sub_diag by lia.
Qed.

(** closes the fixed width cases of [field_codec_exists] *)
Ltac fixed_width w :=
  eexists; apply fixed_codec; [reflexivity|]; intros r b r' Hr ->;
  cbn [read_like]; unfold sm_forget, read_i16_be, read_i32_be, read_i64_be, read_f32_be,
    read_f64_be, read_u16_be, read_u32_be, read_u64_be, mbind, SM_bind; rewrite Hr;
  cbv beta iota delta [mret SM_ret]; rewrite (be_value_in_u _ w);
  [try rewrite as_i_as_u by done; reflexivity|reflexivity
  |first [done | apply as_u_range; lia]].

Lemma field_codec_exists f : field_ok f -> exists enc, field_codec f enc.
Proof.
  destruct f as [v|v|v|v|v|v|v|v|v|v|d|s|signed v]; cbn [field_ok]; intros Hf.
  - eexists. apply (byte_codec _ v); [done..|]. intros r r' Hr. cbn [read_like].
    unfold sm_forget. by rewrite Hr.
  - eexists. apply (byte_codec _ (as_u 8 v)); [by apply as_u_range|done|]. intros r r' Hr.
    cbn [read_like]. unfold sm_forget, read_sbyte, mbind, SM_bind. rewrite Hr. cbn.
    by rewrite as_i_as_u.
  - fixed_width 16.
  - fixed_width 16.
  - fixed_width 32.
  - fixed_width 32.
  - fixed_width 64.
  - fixed_width 64.
  - fixed_width 32.
  - fixed_width 64.
  - exists d. split; [done|]. split; [done|]. intros pre post. cbn [read_like].
    unfold sm_forget. by rewrite read_blob_app.
  - exists (as_bytes s ++ [0]). destruct Hf as [Hs Hz]. split; [|split].
    + apply bytes_app. split; [by apply as_bytes_bytes|by repeat constructor].
    + intros a. cbn [write_field]. unfold write_string, write_u8, write_blob. cbn [buffer].
      by rewrite app_assoc.
    + intros pre post. cbn [read_like]. unfold sm_forget. by rewrite read_string_app.
  - destruct (pack_value_ok signed v Hf) as (p & Hp & HP). exists p.
    split; [apply HP|]. split; [intros a; by apply write_packed_value_ok|].
    intros pre post. pose proof (packed_unpack _ _ _ pre post HP) as Hu.
    destruct signed; cbn [read_like];
      unfold sm_forget, read_vsint, read_vuint, read_int, mbind, SM_bind; cbn [data ep];
      by rewrite Hu.
Qed.

Lemma fields_codec_exists fs : Forall field_ok fs -> exists enc,
  bytes enc
  /\ (forall a, write_fields fs a = (Ok tt, mkAssembler (buffer a ++ enc)))
  /\ (forall pre post, read_fields fs (mkReader (pre ++ enc ++ post) (length pre))
                       = (Ok fs, mkReader (pre ++ enc ++ post) (length pre + length enc))).
Proof.
  induction 1 as [|f t Hf _ IH].
  - exists []. split; [apply bytes_nil|]. split.
    + intros [b]. cbn. by rewrite app_nil_r.
    + intros. cbn. by rewrite Nat.add_0_r.
  - destruct (field_codec_exists f Hf) as (e1 & Hb1 & Hw1 & Hr1).
    destruct IH as (e2 & Hb2 & Hw2 & Hr2). exists (e1 ++ e2).
    split; [by apply bytes_app|]. split.
    + intros a. cbn [write_fields]. unfold mbind, SM_bind. rewrite Hw1, Hw2. cbn [buffer].
      by rewrite app_assoc.
    + intros pre post. cbn [read_fields]. unfold mbind, SM_bind.
      rewrite <- (app_assoc e1), Hr1. rewrite (app_assoc pre), <- length_app, Hr2.
      cbn. by rewrite !length_app, Nat.add_assoc.
Qed.
End FieldLemmas.

(** ** Lemmas: the reader *)

(** The reading operations, with their results erased. *)
Inductive reader_op : Type :=
| OpUByte | OpSByte | OpVUint | OpVSint | OpBlob (len : nat) | OpBlobRemain | OpString
| OpU16 | OpI16 | OpU32 | OpI32 | OpU64 | OpI64 | OpF32 | OpF64.

Definition run_op (o : reader_op) : SM PacketReader unit unit :=
  let k {A : Type} (_ : A) := tt in
  match o with
  | OpUByte => sm_forget k read_ubyte | OpSByte => sm_forget k read_sbyte
  | OpVUint => sm_forget k read_vuint | OpVSint => sm_forget k read_vsint
  | OpBlob n => sm_forget k (read_blob n) | OpBlobRemain => sm_forget k read_blob_remain
  | OpString => sm_forget k read_string
  | OpU16 => sm_forget k read_u16_be | OpI16 => sm_forget k read_i16_be
  | OpU32 => sm_forget k read_u32_be | OpI32 => sm_forget k read_i32_be
  | OpU64 => sm_forget k read_u64_be | OpI64 => sm_forget k read_i64_be
  | OpF32 => sm_forget k read_f32_be | OpF64 => sm_forget k read_f64_be
  end.

(** A step of the reader that is safe: no panic, the data stay, the cursor
    moves forward within the data, and a failed read does not move it. *)
Definition safe_step {E A} (r : PacketReader) (out : res E A * PacketReader) : Prop :=
  fst out <> Panic /\ data (snd out) = data r
  /\ (ep r <= ep (snd out) <= length (data r))%nat
  /\ (is_ok (fst out) = false -> snd out = r).

Definition reader_inv (r : PacketReader) : Prop := (ep r <= length (data r))%nat.

Lemma safe_step_err {E A} (e : E) r : reader_inv r -> safe_step r (Err e : res E A, r).
Proof. intros Hr. unfold reader_inv in Hr. split; [done|]. split; [done|]. cbn. split; [lia|done]. Qed.

Lemma safe_step_ok {E A} (a : A) r n : (ep r <= n <= length (data r))%nat ->
  safe_step r (Ok a : res E A, mkReader (data r) n).
Proof. intros Hn. split; [done|]. split; [done|]. cbn. split; [lia|done]. Qed.

Lemma safe_forget {E A B} (f : A -> B) (m : SM PacketReader E A) r :
  safe_step r (m r) -> safe_step r (sm_forget f m r).
Proof.
  intros (Hp & Hd & He & Hf). unfold sm_forget. destruct (m r) as [[a|e|] r']; cbn in *; [| |done].
  - split; [done|]. split; [done|]. split; [done|done].
  - split; [done|]. split; [done|]. by split; [|auto].
Qed.

(** a read followed by a conversion of its value *)
Lemma safe_map {E A B} (k : A -> SM PacketReader E B) (m : SM PacketReader E A) r :
  (forall a r', exists b, k a r' = (Ok b, r')) ->
  safe_step r (m r) -> safe_step r ((m ≫= k) r).
Proof.
  intros Hk (Hp & Hd & He & Hf). unfold mbind, SM_bind.
  destruct (m r) as [[a|e|] r']; cbn in *; [|by split; [|split; [|split]]|done].
  destruct (Hk a r') as [b ->]. by split; [|split; [|split]].
Qed.

Lemma safe_ubyte r : reader_inv r -> safe_step r (read_ubyte r).
Proof.
  intros Hr. unfold read_ubyte. destruct (data r !! ep r) eqn:Hl; [|by apply safe_step_err].
  apply safe_step_ok. apply lookup_lt_Some in Hl. lia.
Qed.

Lemma safe_blob n r : reader_inv r -> safe_step r (read_blob n r).
Proof.
  intros Hr. unfold read_blob. destruct (_ <? _)%nat eqn:Hl; [by apply safe_step_err|].
  breflect. apply safe_step_ok. lia.
Qed.

Lemma safe_blob_remain r : reader_inv r -> safe_step r (read_blob_remain r).
Proof.
  intros Hr. unfold read_blob_remain. rewrite slice_full by done. apply safe_step_ok.
  unfold reader_inv in Hr. lia.
Qed.

Lemma position_zero_lt l n : position_zero l = Some n -> (n < length l)%nat.
Proof.
  revert n. induction l as [|b t IH]; intros n; [done|]. cbn [position_zero length].
  destruct (b =? 0); [intros [= <-]; lia|]. destruct (position_zero t) as [k|]; [|done].
  intros [= <-]. specialize (IH k eq_refl). lia.
Qed.

Lemma safe_string r : reader_inv r -> safe_step r (read_string r).
Proof.
  intros Hr. unfold read_string. rewrite slice_full by done.
  destruct (position_zero _) eqn:Hz; [|by apply safe_step_err].
  destruct (from_utf8 _); [|by apply safe_step_err]. apply safe_step_ok.
  apply position_zero_lt in Hz. rewrite length_drop in Hz. lia.
Qed.

Lemma safe_int signed r : reader_inv r -> safe_step r (read_int signed r).
Proof.
  intros Hr. unfold read_int.
  destruct (unpack_value_cases signed (data r) (ep r)) as [(v & used & Hu & _ & Hle)|Hu]; rewrite Hu.
  - apply safe_step_ok. lia.
  - by apply safe_step_err.
Qed.

Lemma run_op_safe o r : reader_inv r -> safe_step r (run_op o r).
Proof.
  intros Hr. destruct o; cbn [run_op]; apply safe_forget;
    unfold read_sbyte, read_vuint, read_vsint, read_i16_be, read_i32_be, read_i64_be,
      read_f32_be, read_f64_be, read_u16_be, read_u32_be, read_u64_be;
    repeat apply safe_map; eauto using safe_ubyte, safe_blob, safe_blob_remain, safe_string, safe_int.
  all: intros [??]; eauto.
Qed.

(** ** Lemmas: the parser *)

Lemma parsed_new_cases d :
  parsed_new d = Err (Address IncompleteValue)
  \/ exists p pre, parsed_new d = Ok p /\ raw_packet p = d /\ d = pre ++ payload p
     /\ (2 <= length pre)%nat /\ in_i 32 (from p) /\ in_i 32 (to p)
     /\ packet_crc8 p = None /\ valid_crc8 p = None.
Proof.
  assert (forall v dflt, in_i 32 dflt -> in_i 32 (default dflt (try_i 32 v))) as Hdef.
  { intros v dflt Hd. unfold try_i. destruct (_ && _) eqn:Hb; [|done]. breflect. by split. }
  unfold parsed_new.
  destruct (unpack_value_cases true d 0) as [(t & u1 & -> & H1 & H1')| ->]; [|by left].
  cbn [mbind res_bind map_err].
  destruct (unpack_value_cases true d (0 + u1)) as [(f & u2 & -> & H2 & H2')| ->]; [|by left].
  cbn [mbind res_bind map_err]. rewrite slice_full by lia. right.
  do 2 eexists. split; [reflexivity|]. cbn.
  split; [done|]. split; [symmetry; apply take_drop|]. rewrite length_take.
  split; [lia|]. unfold i32_MAX, i32_MIN. by repeat split; try apply Hdef; unfold in_i.
Qed.

(** ** Properties *)

Section Properties.
Context {NB : NumBigint}.

(** an assembled packet is parsed back *)
Lemma assembled_packet f t body :
  in_i 32 f -> in_i 32 t -> bytes body ->
  exists a, write_addressing f t assembler_new = (Ok tt, a)
  /\ let wire := fst (done (append_crc8 (write_blob body a))) in
     get_valid_packet wire = Some (buffer a ++ body) /\ bytes wire
     /\ exists p, from_raw_packet_with_crc wire = Ok p
       /\ from p = f /\ to p = t /\ payload p = body /\ fst (is_valid p) = true.
Proof.
  intros Hf Ht Hb. destruct (write_addressing_ok f t assembler_new) as (pt & pf & H1 & H2 & H3).
  eexists. split; [exact H3|]. cbn [buffer assembler_new app] in *.
  unfold append_crc8, write_blob, write_u8, done. cbn [buffer fst].
  split; [apply get_valid_packet_append|]. split.
  - assert (bytes ((pt ++ pf) ++ body)).
    { apply pack_value_packed in H1 as [_ H1], H2 as [_ H2]. rewrite !bytes_app.
      eauto using packed_bytes. }
    apply bytes_app. split; [done|]. apply bytes_cons. split; [by apply crc8_u8|apply bytes_nil].
  - rewrite from_raw_snoc, <- app_assoc, (parsed_new_packed _ _ _ _ _ H1 H2).
    eexists. split; [reflexivity|]. cbn [from to payload set_crc8].
    rewrite !try_i_Some by done. repeat split. apply Z.eqb_refl.
Qed.

(** C7: Packet round trip.  A packet assembled from its addresses, a payload
    and the crc8 passes the crc check of the bus, and is parsed back to the
    same addresses, payload and a valid crc. *)
Theorem packet_roundtrip f t body :
  in_i 32 f -> in_i 32 t -> bytes body ->
  exists a, write_addressing f t assembler_new = (Ok tt, a)
  /\ let wire := fst (done (append_crc8 (write_blob body a))) in
     get_valid_packet wire = Some (buffer a ++ body) /\ bytes wire
     /\ exists p, from_raw_packet_with_crc wire = Ok p
       /\ from p = f /\ to p = t /\ payload p = body /\ fst (is_valid p) = true.
Proof. apply assembled_packet. Qed.

(** Field round trip.  Any sequence of values written with the
    [write_*] methods of the assembler (fixed width integers, float bits,
    blobs, NUL terminated strings, packed integers) is read back, value by
    value, with the matching [read_*] methods, and the cursor stands right
    after the last byte written, whatever follows. *)
Theorem fields_roundtrip fs a post : Forall field_ok fs ->
  exists enc, write_fields fs a = (Ok tt, mkAssembler (buffer a ++ enc))
  /\ read_fields fs (mkReader (buffer a ++ enc ++ post) (length (buffer a)))
     = (Ok fs, mkReader (buffer a ++ enc ++ post) (length (buffer a ++ enc))).
Proof.
  intros Hfs. destruct (fields_codec_exists fs Hfs) as (enc & _ & Hw & Hr).
  exists enc. rewrite length_app. eauto.
Qed.
End Properties.

Lemma packet_roundtrip_witness :
  exists p, from_raw_packet_with_crc [0x10; 0x3f; 5; 1; crc8 [0x10; 0x3f; 5; 1]] = Ok p
    /\ from p = 63 /\ to p = 16 /\ payload p = [5; 1] /\ fst (is_valid p) = true.
Proof.
  destruct (@packet_roundtrip num_bigint_ref 63 16 [5; 1]) as (a & Ha & _ & _ & Hp);
    [by split|by split|repeat constructor; lia|].
  vm_compute in Ha. injection Ha as <-. exact Hp.
Defined.

Lemma fields_roundtrip_witness :
  exists enc, @write_fields num_bigint_ref [FI16 (- 2); FString $"ok"; FPacked true (- 300)]
                assembler_new = (Ok tt, mkAssembler enc)
    /\ read_fields [FI16 (- 2); FString $"ok"; FPacked true (- 300)] (reader_new (enc ++ [9]))
       = (Ok [FI16 (- 2); FString $"ok"; FPacked true (- 300)],
          mkReader (enc ++ [9]) (length enc)).
Proof.
  apply (@fields_roundtrip num_bigint_ref
    [FI16 (- 2); FString $"ok"; FPacked true (- 300)] assembler_new [9]).
  apply Forall_cons; split; [by split|]. apply Forall_cons; split.
  { split; apply (bool_decide_eq_true_1 _); vm_compute; reflexivity. }
  apply Forall_cons; split; [by left|constructor].
Defined.

(** The reader is memory safe.  Every reading method, from a cursor
    within the data, does not panic, leaves the data alone, moves the cursor
    forward to a place within the data, and does not move it when it fails. *)
Theorem reader_ops_safe ops r : reader_inv r ->
  Forall (fun o => forall r', reader_inv r' -> safe_step r' (run_op o r')) ops
  /\ let r' := foldl (fun r o => snd (run_op o r)) r ops in
     reader_inv r' /\ data r' = data r /\ (ep r <= ep r')%nat.
Proof.
  intros Hr. split; [apply Forall_forall; intros; by apply run_op_safe|].
  revert r Hr. induction ops as [|o t IH]; intros r Hr; cbn [foldl]; [by split|].
  destruct (run_op_safe o r Hr) as (_ & Hd & He & _).
  destruct (IH (snd (run_op o r))) as (Hi & Hd' & He'); [unfold reader_inv; rewrite Hd; lia|].
  split; [done|]. split; [congruence|lia].
Qed.

Lemma reader_ops_safe_witness :
  let r' := foldl (fun r o => snd (run_op o r)) (reader_new [1; 65; 0; 130])
              [OpUByte; OpString; OpVUint] in
  reader_inv r' /\ data r' = [1; 65; 0; 130] /\ (0 <= ep r')%nat.
Proof.
  apply (reader_ops_safe [OpUByte; OpString; OpVUint] (reader_new [1; 65; 0; 130])).
  unfold reader_inv. cbn. lia.
Defined.

(** C24: The parser is total.  Any bytes either are refused with an error or
    give a packet with addresses of 32 bits whose raw bytes and crc are the
    input, whose payload ends it, and whose [is_valid] agrees with the crc
    check of the bus; formatting a packet never panics. *)
Theorem packet_parse_total d mode :
  format_packet_with_mode mode d <> None
  /\ match from_raw_packet_with_crc d with
     | Panic => False
     | Err e => e = if bool_decide (d = []) then MissingCrc else Address IncompleteValue
     | Ok p => exists c pre, d = raw_packet p ++ [c] /\ get_crc8 p = Some c
         /\ raw_packet p = pre ++ payload p /\ in_i 32 (from p) /\ in_i 32 (to p)
         /\ fst (is_valid p) = is_packet_crc8_valid d
     end.
Proof.
  assert (from_raw_packet_with_crc d <> Panic /\ match from_raw_packet_with_crc d with
     | Panic => False
     | Err e => e = if bool_decide (d = []) then MissingCrc else Address IncompleteValue
     | Ok p => exists c pre, d = raw_packet p ++ [c] /\ get_crc8 p = Some c
         /\ raw_packet p = pre ++ payload p /\ in_i 32 (from p) /\ in_i 32 (to p)
         /\ fst (is_valid p) = is_packet_crc8_valid d
     end) as [Hnp Hm].
  { destruct (decide (d = [])) as [->|Hne]; [done|].
    destruct (exists_last Hne) as (body & c & ->). rewrite from_raw_snoc.
    rewrite bool_decide_false by done.
    destruct (parsed_new_cases body) as [->|(p & pre & -> & Hraw & Hd & _ & Hf & Ht & Hc & Hv)];
      [done|]. split; [done|]. cbn [mbind res_bind]. exists c, pre.
    cbn [raw_packet set_crc8 get_crc8 packet_crc8 payload from to]. rewrite Hraw.
    split; [done|]. split; [done|]. split; [done|]. split; [done|]. split; [done|].
    unfold is_valid, get_packet_valid_crc8_value, is_packet_crc8_valid, last_is_crc8, set_crc8.
    cbn [packet_crc8 valid_crc8 raw_packet]. rewrite Hv, Hraw. cbn [fst].
    rewrite last_snoc, length_app. cbn [length]. rewrite Nat.add_sub.
    unfold crc8_prefix at 1. by rewrite take_app_length, <- crc8_unfold. }
  split; [|done]. destruct mode; [done..|]. unfold format_packet_with_mode.
  by destruct (from_raw_packet_with_crc d).
Qed.
