(* ===== verification/Console.v ===== *)
(** * The interactive console

    Models [src/console.rs]: the two addresses of the console and its command
    language.  The [Cell]s of the environment are its state. *)

From stdpp Require Import base list numbers option strings.
From Stdlib Require Import ZArith Lia.
From S2P Require Import Prelude RustStd Tools VarInt Packet.

Definition HELP_LINES : list str :=
  [$"help:";
   9 :: $"? : prints this help";
   9 :: $"> : sets the destination address like: >3";
   9 :: $"?> : prints the current destination address";
   9 :: $"< : sets the source address like: >12";
   9 :: $"?< : prints the current source address";
   9 :: $"lines started with numbers and separated with colon is recognised as packet to send"].

Inductive ConsoleInquiry : Type :=
| NoOp
| SendPacket
| QueryAddressFrom
| QueryAddressTo
| NeedHelp
| UnknownCommand.

Record ConsoleResponse : Type := with_addresses {
  inquiry : ConsoleInquiry;
  response_data : option (list Z);
  message : option str;
  response_from : Z;
  response_to : Z;
}.

Definition response_new (i : ConsoleInquiry) (data : option (list Z)) (message : option str)
    : ConsoleResponse := with_addresses i data message 0 0.

Definition get_type (r : ConsoleResponse) : ConsoleInquiry := inquiry r.
Definition get_data (r : ConsoleResponse) : option (list Z) := response_data r.
Definition get_message (r : ConsoleResponse) : option str := message r.

Definition response_to_packet {NB : NumBigint} (r : ConsoleResponse) : res PackError (list Z) :=
  let '(out, assembler) := write_addressing (response_from r) (response_to r) assembler_new in
  _ ← out;
  let assembler := match response_data r with
                   | Some data => write_blob data assembler
                   | None => assembler
                   end in
  Ok (fst (done (append_crc8 assembler))).

Record UartbusConsoleEnv : Type := mkEnv { address_from : Z; address_to : Z }.

Definition env_new : UartbusConsoleEnv := mkEnv 0 0.
Definition set_from_address (a : Z) (e : UartbusConsoleEnv) : UartbusConsoleEnv := mkEnv a (address_to e).
Definition set_to_address (a : Z) (e : UartbusConsoleEnv) : UartbusConsoleEnv := mkEnv (address_from e) a.
Definition get_address_from (e : UartbusConsoleEnv) : Z := address_from e.
Definition get_address_to (e : UartbusConsoleEnv) : Z := address_to e.

Definition unrecognised_cmd (line : str) : ConsoleResponse :=
  response_new UnknownCommand None (Some line).

Definition starts_with_char (c : Z) (s : str) : bool :=
  match s with x :: _ => x =? c | [] => false end.

(** a query: the line starts with a question mark *)
Definition feed_query (line : str) (e : UartbusConsoleEnv) : ConsoleResponse :=
  if bool_decide (line = $"?") then response_new NeedHelp None None
  else if (str_len line =? 2)%nat then
    match as_bytes line !! 1%nat with
    | Some 62 => response_new QueryAddressFrom None (Some (show_int (address_from e)))
    | Some 60 => response_new QueryAddressTo None (Some (show_int (address_to e)))
    | _ => unrecognised_cmd line
    end
  else unrecognised_cmd line.

(** the part of [feed] after the address commands *)
Definition feed_rest (line : str) (e : UartbusConsoleEnv) : ConsoleResponse :=
  if starts_with_char 63 line then feed_query line e
  else match parse_colon_data line with
       | Some data => with_addresses SendPacket (Some data) None (address_from e) (address_to e)
       | None => unrecognised_cmd line
       end.

Definition feed (line : str) (e : UartbusConsoleEnv) : ConsoleResponse * UartbusConsoleEnv :=
  let line := trim line in
  match line with
  | [] => (response_new NoOp None None, e)
  | c :: rest =>
    if c =? 62 then
      match parse_i32 (trim rest) with
      | Some address => let e := set_from_address address e in (feed_rest $"?>" e, e)
      | None => (unrecognised_cmd line, e)
      end
    else if c =? 60 then
      match parse_i32 (trim rest) with
      | Some address => let e := set_to_address address e in (feed_rest $"?<" e, e)
      | None => (unrecognised_cmd line, e)
      end
    else (feed_rest line e, e)
  end.

(** ** Lemmas *)

Definition plain_char (c : Z) : Prop := 48 <= c <= 57 \/ c = 45 \/ c = 58.

Lemma plain_not_space c : plain_char c -> is_whitespace c = false.
Proof. unfold plain_char, is_whitespace. intros H. by decide_cmp || (destruct H as [H|[->| ->]]; [by decide_cmp|done..]). Qed.

Lemma show_int_plain n : Forall plain_char (show_int n).
Proof.
  unfold show_int. destruct (n <? 0) eqn:Hn; breflect.
  - constructor; [by right; left|]. eapply Forall_impl; [apply show_nat_digits; lia|]. by left.
  - eapply Forall_impl; [apply show_nat_digits; lia|]. by left.
Qed.

Lemma trim_plain s : Forall plain_char s -> trim s = s.
Proof. intros Hs. apply trim_id. eapply Forall_impl; [exact Hs|]. apply plain_not_space. Qed.

(** an address command sets the address and answers with it *)
Lemma feed_address_all c n e : in_i 32 n -> c = 62 \/ c = 60 ->
  (feed (c :: show_int n) e).2 = (if c =? 62 then set_from_address n e else set_to_address n e)
  /\ get_type (feed (c :: show_int n) e).1 = if c =? 62 then QueryAddressFrom else QueryAddressTo.
Proof.
  intros Hn Hc. unfold feed.
  assert (trim (c :: show_int n) = c :: show_int n) as ->.
  { apply trim_id. constructor; [by destruct Hc as [->| ->]|].
    eapply Forall_impl; [apply show_int_plain|]. apply plain_not_space. }
  rewrite trim_plain by apply show_int_plain.
  assert (parse_i32 (show_int n) = Some n) as -> by (apply parse_show_int; unfold in_i in Hn; simpl in *; lia).
  by destruct Hc as [->| ->].
Qed.

Lemma feed_address c n e : in_i 32 n -> c = 62 \/ c = 60 ->
  (feed (c :: show_int n) e).2 = if c =? 62 then set_from_address n e else set_to_address n e.
Proof. intros Hn Hc. by apply feed_address_all. Qed.

Lemma feed_address_reply c n e : in_i 32 n -> c = 62 \/ c = 60 ->
  get_type (feed (c :: show_int n) e).1 = if c =? 62 then QueryAddressFrom else QueryAddressTo.
Proof. intros Hn Hc. by apply feed_address_all. Qed.

Lemma join_plain data : Forall is_u8 data -> Forall plain_char (join $":" (map show_nat data)).
Proof.
  induction 1 as [|b t Hb Ht IH]; [constructor|]. unfold is_u8 in Hb.
  assert (Forall plain_char (show_nat b)) by (eapply Forall_impl; [apply show_nat_digits; lia|]; by left).
  destruct t as [|b' t]; [done|].
  change (Forall plain_char (show_nat b ++ 58 :: join $":" (map show_nat (b' :: t)))).
  apply Forall_app. split; [done|]. constructor; [by right; right|done].
Qed.

Lemma format_starts_digit b t : is_u8 b ->
  exists c rest, format_colon_data (b :: t) = c :: rest /\ 48 <= c <= 57.
Proof.
  unfold is_u8. intros Hb. pose proof (show_nat_digits b ltac:(lia)) as Hd.
  destruct (show_nat b) as [|c u] eqn:Hs; [by apply show_nat_nonempty in Hs|].
  apply Forall_cons_iff in Hd as [Hc _]. unfold format_colon_data. cbn [map].
  destruct t as [|b' t]; cbn [map join]; rewrite Hs; cbn [app]; eauto.
Qed.

Lemma feed_packet_line data e : bytes data -> data <> [] ->
  feed (format_colon_data data) e
  = (with_addresses SendPacket (Some data) None (address_from e) (address_to e), e).
Proof.
  intros Hd Hne. unfold feed. rewrite trim_plain by by apply join_plain.
  destruct data as [|b t]; [done|]. pose proof (proj1 (bytes_cons b t) Hd) as [Hb _].
  destruct (format_starts_digit b t Hb) as (c & rest & Hf & Hc). rewrite Hf.
  rewrite (proj2 (Z.eqb_neq c 62)), (proj2 (Z.eqb_neq c 60)) by lia.
  unfold feed_rest, starts_with_char. rewrite (proj2 (Z.eqb_neq c 63)) by lia.
  rewrite <- Hf, parse_format_colon by done. done.
Qed.

(** ** Properties *)

(** A console session.  After [>f] and [<t], a line of colon separated
    bytes is answered with a packet to send; the packet is valid, its sender is
    [f], its receiver is [t] (the help text says it the other way round) and its
    payload is the bytes that were typed. *)
Theorem console_sends {NB : NumBigint} f t data e :
  in_i 32 f -> in_i 32 t -> bytes data -> data <> [] ->
  let e := (feed ($">" ++ show_int f) e).2 in
  let e := (feed ($"<" ++ show_int t) e).2 in
  let r := (feed (format_colon_data data) e).1 in
  get_type r = SendPacket
  /\ exists wire raw, response_to_packet r = Ok wire /\ get_valid_packet wire = Some raw
     /\ parsed_new raw = Ok (mkPacket raw f t data None None).
Proof.
  intros Hf Ht Hd Hne. cbv zeta.
  change ($">" ++ show_int f) with (62 :: show_int f). change ($"<" ++ show_int t) with (60 :: show_int t).
  rewrite !feed_address by auto. rewrite feed_packet_line by done. split; [done|].
  unfold response_to_packet. cbn [response_from response_to response_data fst set_from_address
    set_to_address Z.eqb Pos.eqb address_from address_to].
  destruct (write_addressing_ok f t assembler_new) as (pt & pf & H1 & H2 & ->).
  do 2 eexists. split; [reflexivity|]. unfold append_crc8, write_blob, write_u8, done. cbn [buffer fst].
  split; [apply get_valid_packet_append|]. cbn [assembler_new buffer app].
  rewrite <- app_assoc, (parsed_new_packed _ _ _ _ _ H1 H2). by rewrite !try_i_Some.
Qed.

Lemma console_sends_witness :
  exists wire raw, @response_to_packet num_bigint_ref
      (feed $"1:0:255" (feed $"<-1" (feed $">63" env_new).2).2).1 = Ok wire
    /\ get_valid_packet wire = Some raw
    /\ parsed_new raw = Ok (mkPacket raw 63 (- 1) [1; 0; 255] None None).
Proof.
  apply (@console_sends num_bigint_ref 63 (- 1) [1; 0; 255] env_new);
    [by split|by split|repeat constructor; lia|done].
Defined.
