(* ===== verification/ConsoleApp.v ===== *)
(** * The console command

    Models [src/apps/console.rs]: the options, the packet given on the command
    line, the loop over the lines of the standard input and the lines shown for
    received packets.  The lines that are typed, the clock and what a send
    returns are parameters: a function of the number of the send. *)

From stdpp Require Import base list numbers option strings.
From Stdlib Require Import ZArith Lia.
From S2P Require Import Prelude RustStd Time Cli Tools Apps VarInt Packet Console.

Definition DATA : CliEntry := mkEntry [$"d"; $"-data"] $"Data to send (colon separated uint8_t)".
Definition EXIT : CliEntry := mkEntry [$"e"; $"-exit"] $"Exit after packet sent".
Definition CONSOLE_ENTRIES : list CliEntry :=
  [RPC_HOST; RPC_PORT; FROM; TO; DATA; EXIT; LOG_TIME; LOOPBACK; DECODE_PACKET].

(** ** Received packets *)

(** [None] for a panic *)
Definition format_received (packet : list Z) (time : option str) (decode : bool) : option str :=
  let line := match time with Some time => $">[" ++ time ++ $"] " | None => [] end in
  text ← (if decode then format_packet_with_mode ParsedPacket packet
          else Some (format_colon_data_with_validation packet));
  Some (line ++ text).

(** the listener of the stream: an empty packet is not shown *)
Definition show_received (log_times decode : bool) (time : str) (packet : list Z) : option (list str) :=
  match packet with
  | [] => Some []
  | _ => line ← format_received packet (if log_times then Some time else None) decode; Some [line]
  end.

(** ** The loop over the lines *)

Inductive console_output : Type :=
| SentPacket (packet : list Z)
| Printed (line : str).

Section Loop.
Context {NB : NumBigint} {C : Libc}.
Variables (send : nat -> option str) (clock : nat -> Z) (log_times : bool).
(** the text of the [ParseIntError] of a colon separated text *)
Variable colon_error : str -> str.

(** [get_time] at the send number [k] *)
Definition get_time (k : nat) : str := utc_sql_timestamp_ms (clock k).

(** what is done for a line that was fed; [k] sends were made before *)
Definition console_react (k : nat) (ret : ConsoleResponse) (env : UartbusConsoleEnv)
    : list console_output * res str nat :=
  match get_type ret with
  | NoOp => ([], Ok k)
  | NeedHelp => (map Printed HELP_LINES, Ok k)
  | QueryAddressFrom => ([Printed ($"From address: " ++ show_int (get_address_from env))], Ok k)
  | QueryAddressTo => ([Printed ($"To address: " ++ show_int (get_address_to env))], Ok k)
  | SendPacket =>
    match response_to_packet ret with
    | Panic => ([], Panic)
    | Err err => ([], Err (PackError_fmt err))
    | Ok packet =>
      match send k with
      | Some err => ([], Err err)
      | None => (SentPacket packet :: (if log_times then [Printed ($"<[" ++ get_time k ++ $"]")] else []), Ok (S k))
      end
    end
  | UnknownCommand =>
    ([Printed ($"Unrecognised command or packet sequence: `" ++ default [] (get_message ret)
               ++ $"` enter `?` to display help")], Ok k)
  end.

(** [for line in io::stdin().lock().lines()]; [Err] for a line that can not be read *)
Fixpoint console_loop (k : nat) (input : list (res str str)) (env : UartbusConsoleEnv)
    : list console_output * res str UartbusConsoleEnv :=
  match input with
  | [] => ([], Ok env)
  | Ok line :: rest =>
    let '(ret, env) := feed line env in
    match console_react k ret env with
    | (outs, Ok k) => let '(more, r) := console_loop k rest env in (outs ++ more, r)
    | (outs, Err err) => (outs, Err err)
    | (outs, Panic) => (outs, Panic)
    end
  | Err err :: _ => ([], Err err)
  | Panic :: _ => ([], Panic)
  end.

(** ** The command *)

(** how [main] ends: the usage, an error, after the packet of the command line,
    or waiting for the stream after the last line *)
Inductive console_end : Type :=
| ConsoleHelp (code : Z)
| ConsoleFailed (err : str)
| ConsoleExit
| ConsoleJoin (env : UartbusConsoleEnv).

(** the packet of the option [DATA] *)
Definition data_packet (env : UartbusConsoleEnv) (data : str) : res str (list Z) :=
  match parse_colon_data data with
  | None => Err ($"Invalid data `" ++ data ++ $"`: " ++ colon_error data)
  | Some bytes =>
    let '(r, asm) := write_addressing (get_address_from env) (get_address_to env) assembler_new in
    match r with
    | Ok _ => Ok (fst (done (append_crc8 (write_blob bytes asm))))
    | Err err => Err (PackError_fmt err)
    | Panic => Panic
    end
  end.

(** the loop and the end, after [outs] *)
Definition console_lines (k : nat) (outs : list console_output) (input : list (res str str)) (env : UartbusConsoleEnv)
    : option (list console_output * console_end) :=
  match console_loop k input env with
  | (more, Ok env) => Some (outs ++ more, ConsoleJoin env)
  | (more, Err err) => Some (outs ++ more, ConsoleFailed err)
  | (_, Panic) => None
  end.

(** [main]; [connect]: the error of starting the stream or of getting the
    connection, if any; [None] for a panic *)
Definition console_main (args : list str) (connect : option str) (input : list (res str str))
    : option (list console_output * console_end) :=
  match parse_or_help args CONSOLE_ENTRIES with
  | None => None
  | Some (ExitWithHelp code) => Some ([], ConsoleHelp code)
  | Some (Parsed pa) =>
    match (from ← parse_from pa; to ← parse_or parse_i32 TO pa (-1); _ ← open_cli_endpoint pa; Ok (from, to)) with
    | Panic => None
    | Err err => Some ([], ConsoleFailed err)
    | Ok (from, to) =>
      let cmd := set_to_address to (set_from_address from env_new) in
      match connect with
      | Some err => Some ([], ConsoleFailed err)
      | None =>
        match get_simple DATA pa with
        | None => console_lines 0 [] input cmd
        | Some data =>
          match data_packet cmd data with
          | Panic => None
          | Err err => Some ([], ConsoleFailed err)
          | Ok packet =>
            match send 0%nat with
            | Some err => Some ([], ConsoleFailed err)
            | None =>
              if has_option EXIT pa then Some ([SentPacket packet], ConsoleExit)
              else console_lines 1 [SentPacket packet] input cmd
            end
          end
        end
      end
    end
  end.

End Loop.

(** ** Commands *)

(** what can be typed *)
Inductive command : Type :=
| SetFrom (a : Z)
| SetTo (a : Z)
| SendData (data : list Z)
| Help.

Definition command_text (c : command) : str :=
  match c with
  | SetFrom a => $">" ++ show_int a
  | SetTo a => $"<" ++ show_int a
  | SendData data => format_colon_data data
  | Help => $"?"
  end.

Definition command_ok (c : command) : Prop :=
  match c with
  | SetFrom a | SetTo a => in_i 32 a
  | SendData data => bytes data /\ data <> []
  | Help => True
  end.

Definition command_env (c : command) (env : UartbusConsoleEnv) : UartbusConsoleEnv :=
  match c with SetFrom a => set_from_address a env | SetTo a => set_to_address a env | _ => env end.

(** the packets the commands are about: sender, receiver, payload *)
Fixpoint wanted (cmds : list command) (env : UartbusConsoleEnv) : list (Z * Z * list Z) :=
  match cmds with
  | [] => []
  | c :: t =>
    match c with SendData data => [(address_from env, address_to env, data)] | _ => [] end
    ++ wanted t (command_env c env)
  end.

Definition env_ok (env : UartbusConsoleEnv) : Prop := in_i 32 (address_from env) /\ in_i 32 (address_to env).

Definition carries (packet : list Z) (w : Z * Z * list Z) : Prop :=
  exists raw, get_valid_packet packet = Some raw /\ parsed_new raw = Ok (mkPacket raw w.1.1 w.1.2 w.2 None None).

Definition sent_packets (outs : list console_output) : list (list Z) :=
  omap (fun o => match o with SentPacket p => Some p | _ => None end) outs.

(** ** Lemmas *)

Section Lemmas.
Context {NB : NumBigint} {C : Libc}.
Variables (clock : nat -> Z) (log_times : bool).

Lemma feed_command c env : command_ok c ->
  (feed (command_text c) env).2 = command_env c env
  /\ match c with
     | SendData data => (feed (command_text c) env).1
         = with_addresses SendPacket (Some data) None (address_from env) (address_to env)
     | _ => get_type (feed (command_text c) env).1 <> SendPacket
     end.
Proof.
  destruct c as [a|a|data|]; cbn [command_ok command_text command_env].
  - intros Ha. change ($">" ++ show_int a) with (62 :: show_int a). rewrite feed_address by auto. split; [done|].
    rewrite feed_address_reply by auto. done.
  - intros Ha. change ($"<" ++ show_int a) with (60 :: show_int a). rewrite feed_address by auto. split; [done|].
    rewrite feed_address_reply by auto. done.
  - intros [Hd Hne]. by rewrite feed_packet_line.
  - done.
Qed.

Lemma packet_carries env data : env_ok env ->
  exists packet, response_to_packet (with_addresses SendPacket (Some data) None (address_from env) (address_to env)) = Ok packet
    /\ carries packet (address_from env, address_to env, data).
Proof.
  intros [Hf Ht]. unfold response_to_packet. cbn [response_from response_to response_data].
  destruct (write_addressing_ok (address_from env) (address_to env) assembler_new) as (pt & pf & H1 & H2 & ->).
  eexists. split; [reflexivity|]. unfold append_crc8, write_blob, write_u8, done, carries. cbn [buffer fst snd].
  eexists. split; [apply get_valid_packet_append|]. cbn [assembler_new buffer app].
  rewrite <- app_assoc, (parsed_new_packed _ _ _ _ _ H1 H2). by rewrite !try_i_Some.
Qed.

Lemma sent_app a b : sent_packets (a ++ b) = sent_packets a ++ sent_packets b.
Proof. apply omap_app. Qed.

(** a line that sends nothing *)
Lemma react_quiet send k ret env : get_type ret <> SendPacket ->
  exists outs, console_react send clock log_times k ret env = (outs, Ok k) /\ sent_packets outs = [].
Proof. unfold console_react. destruct (get_type ret); try done; intros _; by eexists. Qed.

(** the loop up to the first send that fails *)
Lemma loop_commands send cmds k env : Forall command_ok cmds -> env_ok env ->
  exists outs r, console_loop send clock log_times k (map (fun c => Ok (command_text c)) cmds) env = (outs, r)
    /\ r <> Panic
    /\ (forall n, (forall i, (i < n)%nat -> send (k + i)%nat = None) ->
        (length (wanted cmds env) <= n)%nat -> r = Ok (foldl (fun env c => command_env c env) env cmds)
          /\ Forall2 carries (sent_packets outs) (wanted cmds env))
    /\ (forall n err, (forall i, (i < n)%nat -> send (k + i)%nat = None) -> send (k + n)%nat = Some err ->
        (n < length (wanted cmds env))%nat -> r = Err err
          /\ Forall2 carries (sent_packets outs) (take n (wanted cmds env))).
Proof.
  intros Hc. revert k env. induction Hc as [|c t Hc _ IH]; intros k env He; cbn [map console_loop wanted foldl].
  - eexists _, _. split; [reflexivity|]. split; [done|]. split; [intros n _ _; by split; [|constructor]|]. intros n err _ _ Hn. cbn in Hn. lia.
  - destruct (feed_command c env Hc) as [Henv Hret]. destruct (feed (command_text c) env) as [ret env1]. cbn [fst snd] in *.
    subst env1. assert (env_ok (command_env c env)) as He1 by (destruct c; cbn in *; unfold env_ok in *; cbn; tauto).
    assert ((exists data, c = SendData data) \/ get_type ret <> SendPacket) as [[data ->]|Hq]
      by (destruct c; [by right|by right|by left; eexists|by right]).
    + rewrite Hret. cbn [command_env] in *. destruct (packet_carries env data He) as (packet & Hp & Hcar).
      unfold console_react. cbn [get_type inquiry]. rewrite Hp. cbn [app length].
      destruct (send k) as [err|] eqn:Hs.
      * eexists _, _. split; [reflexivity|]. split; [done|]. split.
        { intros [|n] Hok Hlen; [lia|]. specialize (Hok 0%nat ltac:(lia)). rewrite Nat.add_0_r in Hok. congruence. }
        intros [|n] err' Hok Hfail Hlen.
        { rewrite Nat.add_0_r in Hfail. rewrite Hs in Hfail. injection Hfail as <-. by split; [|constructor]. }
        specialize (Hok 0%nat ltac:(lia)). rewrite Nat.add_0_r in Hok. congruence.
      * destruct (IH (S k) env He1) as (outs & r & -> & Hnp & Hall & Hsome). eexists _, _. split; [reflexivity|]. split; [done|].
        assert (sent_packets (if log_times then [Printed ($"<[" ++ get_time clock k ++ $"]")] else []) = []) as Hlog
          by by destruct log_times.
        assert (forall n, (forall i, (i < S n)%nat -> send (k + i)%nat = None) -> forall i, (i < n)%nat -> send (S k + i)%nat = None)
          as Hshift by (intros n Hok i Hi; specialize (Hok (S i) ltac:(lia)); by rewrite Nat.add_succ_r in Hok).
        split.
        -- intros [|n] Hok Hlen; [lia|]. destruct (Hall n (Hshift n Hok) ltac:(lia)) as [-> Hf]. split; [done|].
           rewrite sent_app. cbn [sent_packets omap list_omap]. unfold sent_packets in Hlog. rewrite Hlog. by constructor.
        -- intros [|n] err Hok Hfail Hlen; [rewrite Nat.add_0_r in Hfail; congruence|].
           rewrite Nat.add_succ_r in Hfail.
           destruct (Hsome n err (Hshift n Hok) Hfail ltac:(lia)) as [-> Hf]. split; [done|].
           rewrite sent_app. cbn [sent_packets omap list_omap take]. unfold sent_packets in Hlog. rewrite Hlog. by constructor.
    + destruct (react_quiet send k ret (command_env c env) Hq) as (o & -> & Ho).
      assert (match c with SendData data => [(address_from env, address_to env, data)] | _ => [] end = []) as ->
        by (destruct c; [done|done|by rewrite Hret in Hq|done]).
      destruct (IH k (command_env c env) He1) as (outs & r & -> & Hnp & Hall & Hsome). eexists _, _. split; [reflexivity|].
      cbn [app]. rewrite sent_app, Ho. done.
Qed.

End Lemmas.

(** ** Properties *)

Section Properties.
Context {NB : NumBigint} {C : Libc}.


End Properties.


Example received_line : @format_received [5; 63; 1; 0; 196] (Some $"2026-10-07 01:16:08.592U") false
  = Some $">[2026-10-07 01:16:08.592U] 5:63:1:0:196".
Proof. reflexivity. Qed.

Example received_decoded : format_received [5; 63; 1; 0; 196] None true
  = Some $"From: 63, To: 5, payload: 1:0, crc8: 196".
Proof. vm_compute. reflexivity. Qed.
