(* ===== verification/RpcTools.v ===== *)
(** * RPC values on the wire

    Models [src/rpc/types.rs] and [src/rpc/tools.rs]: the values and types of
    the RPC layer, [append_value]/[append_elements]/[to_packet] that write them
    and [read_type] that reads a value of a given type.

    The [while] loop of [read_type] for arrays runs under a fuel [n]; the
    result [None] means that some loop used it up.  [read_type_terminates]
    shows that one more unit than there are unread bytes is always enough for a
    type whose array items take up space. *)

From stdpp Require Import base list numbers option strings.
From Stdlib Require Import ZArith Lia.
From S2P Require Import Prelude RustStd Tools VarInt Packet.

(** ** Wrapper types of [rpc/types.rs] *)

Record VSigned : Type := VSigned_new { VSigned_value : Z }.
Record VUnsigned : Type := VUnsigned_new { VUnsigned_value : Z }.
Record UInt8 : Type := UInt8_new { UInt8_value : Z }.
Record UInt16 : Type := UInt16_new { UInt16_value : Z }.

(** ** Values and types *)

(** the enum [RpcValue]: constructor [X] of the source is [VX] *)
Inductive RpcValue : Type :=
| VBool (b : bool)
| VS8 (v : Z)
| VU8 (v : Z)
| VUInt8 (v : UInt8)
| VU16 (v : Z)
| VUInt16 (v : UInt16)
| VS16 (v : Z)
| VBytes (d : list Z)
| VString (s : str)
| VVSigned (v : VSigned)
| VVUnsigned (v : VUnsigned)
| VEnum (index : Z)
| VStruct (values : list RpcValue)
| VArray (values : list RpcValue).

(** the enum [RpcType]: constructor [X] of the source is [TX] *)
Inductive RpcType : Type :=
| TBool | TS8 | TU8 | TUInt8 | TU16 | TUInt16 | TS16 | TBytes | TString | TVSigned | TVUnsigned
| TEnum (values : list str)
| TStruct (types : list RpcType)
| TArray (item_type : RpcType).

Inductive RpcReadError : Type :=
| Packet (err : UnpackError)
| Utf8 (message : str)
| EnumIndexOutOfRange (index len : Z).

Definition RpcReadError_fmt (e : RpcReadError) : str :=
  match e with
  | Packet err => $"packet read error: " ++ UnpackError_fmt err
  | Utf8 err => $"UTF-8 error: " ++ err
  | EnumIndexOutOfRange index len =>
      $"enum index " ++ show_nat index ++ $" is out of range for " ++ show_nat len ++ $" values"
  end.

(** [From<PacketParseError> for RpcReadError] *)
Definition read_error_of_parse (e : PacketParseError) : RpcReadError :=
  match e with
  | MissingCrc => Packet IncompleteValue
  | Address err => Packet err
  end.

(** ** Writing *)

Section Append.
Context {NB : NumBigint}.

(** the loop over the elements *)
Definition append_all (f : RpcValue -> SM PacketAssembler PackError unit)
    : list RpcValue -> SM PacketAssembler PackError unit :=
  fix go l := match l with
              | [] => mret tt
              | value :: t => _ ← f value; go t
              end.

Definition infallible (f : PacketAssembler -> PacketAssembler)
    : SM PacketAssembler PackError unit := fun a => (Ok tt, f a).

Fixpoint append_value (value : RpcValue) : SM PacketAssembler PackError unit :=
  match value with
  | VBool b => infallible (write_u8 (if b then 1 else 0))
  | VS8 v => infallible (write_i8 v)
  | VU8 v => infallible (write_u8 v)
  | VUInt8 v => infallible (write_u8 (UInt8_value v))
  | VU16 v => infallible (write_u16_be v)
  | VUInt16 v => infallible (write_u16_be (UInt16_value v))
  | VS16 v => infallible (write_i16_be v)
  | VBytes d => infallible (write_blob d)
  | VString s => infallible (write_string s)
  | VVSigned v => write_packed_value true (VSigned_value v)
  | VVUnsigned v => write_packed_value true (VUnsigned_value v)
  | VEnum index => write_packed_value false index
  | VStruct values => append_all append_value values
  | VArray values => append_all append_value values
  end.

Definition append_elements (elements : list RpcValue) : SM PacketAssembler PackError unit :=
  append_all append_value elements.

Definition to_packet (to from : Z) (elements : list RpcValue) : res PackError (list Z) :=
  let '(r, assembler) := (_ ← write_addressing from to; append_elements elements) assembler_new in
  _ ← r;
  Ok (fst (done (append_crc8 assembler))).
End Append.

(** ** Reading *)

(** a computation with a loop: [None] when the fuel is used up *)
Definition LM (S E A : Type) : Type := S -> option (res E A * S).

#[global] Instance LM_ret {S E} : MRet (LM S E) := fun A a s => Some (Ok a, s).

#[global] Instance LM_bind {S E} : MBind (LM S E) := fun A B f m s =>
  match m s with
  | Some (Ok a, s') => f a s'
  | Some (Err e, s') => Some (Err e, s')
  | Some (Panic, s') => Some (Panic, s')
  | None => None
  end.

(** a loop free reading method, its errors mapped *)
Definition reading {E A B} (f : A -> res RpcReadError B) (g : E -> RpcReadError)
    (m : SM PacketReader E A) : LM PacketReader RpcReadError B := fun r =>
  match m r with
  | (Ok a, r') => Some (f a, r')
  | (Err e, r') => Some (Err (g e), r')
  | (Panic, r') => Some (Panic, r')
  end.

(** [.ok_or(RpcReadError::Packet(UnpackError::IncompleteValue))] *)
Definition incomplete {E} (_ : E) : RpcReadError := Packet IncompleteValue.

Definition read_enum (values : list str) (v : Z) : res RpcReadError RpcValue :=
  index ← ok_or (try_u 64 v) (Packet IncompleteValue);
  if Z.of_nat (length values) <=? index
  then Err (EnumIndexOutOfRange index (Z.of_nat (length values)))
  else Ok (VEnum index).

(** the loop over the fields of a struct *)
Definition read_all (f : RpcType -> LM PacketReader RpcReadError RpcValue)
    : list RpcType -> LM PacketReader RpcReadError (list RpcValue) :=
  fix go types := match types with
                  | [] => mret []
                  | ty :: t => v ← f ty; vs ← go t; mret (v :: vs)
                  end.

(** [while reader.has_unprocessed_bytes() { values.push(..) }] *)
Fixpoint read_while (n : nat) (item : LM PacketReader RpcReadError RpcValue)
    : LM PacketReader RpcReadError (list RpcValue) := fun r =>
  match n with
  | O => None
  | S m => if has_unprocessed_bytes r
           then (v ← item; vs ← read_while m item; mret (v :: vs)) r
           else Some (Ok [], r)
  end.

Fixpoint read_type (n : nat) (ty : RpcType) : LM PacketReader RpcReadError RpcValue :=
  match ty with
  | TBool => reading (fun v => Ok (VBool (negb (v =? 0)))) incomplete read_sbyte
  | TS8 => reading (fun v => Ok (VS8 v)) incomplete read_sbyte
  | TU8 => reading (fun v => Ok (VU8 v)) incomplete read_ubyte
  | TUInt8 => reading (fun v => Ok (VUInt8 (UInt8_new v))) incomplete read_ubyte
  | TU16 => reading (fun v => Ok (VU16 v)) incomplete read_u16_be
  | TUInt16 => reading (fun v => Ok (VUInt16 (UInt16_new v))) incomplete read_u16_be
  | TS16 => reading (fun v => Ok (VS16 v)) incomplete read_i16_be
  | TBytes => reading (fun d => Ok (VBytes d)) incomplete read_blob_remain
  | TString => reading (fun s => Ok (VString s)) read_error_of_parse read_string
  | TVSigned => reading (fun v => Ok (VVSigned (VSigned_new v))) Packet read_vsint
  | TVUnsigned => reading (fun v => Ok (VVUnsigned (VUnsigned_new v))) Packet read_vuint
  | TEnum values => reading (read_enum values) Packet read_vuint
  | TStruct types => values ← read_all (read_type n) types; mret (VStruct values)
  | TArray item_type => values ← read_while n (read_type n item_type); mret (VArray values)
  end.

(** ** Induction on values and types *)

Section Induction.
Variable P : RpcValue -> Prop.
Hypothesis Hbase : forall v,
  match v with VStruct _ | VArray _ => True | _ => P v end.
Hypothesis Hstruct : forall vs, Forall P vs -> P (VStruct vs).
Hypothesis Harray : forall vs, Forall P vs -> P (VArray vs).

Fixpoint RpcValue_ind' (v : RpcValue) : P v :=
  let all := fix go (l : list RpcValue) : Forall P l :=
    match l with
    | [] => Forall_nil_2 P
    | x :: t => Forall_cons_2 P x t (RpcValue_ind' x) (go t)
    end in
  match v return P v with
  | VStruct vs => Hstruct vs (all vs)
  | VArray vs => Harray vs (all vs)
  | v => Hbase v
  end.
End Induction.

Section TypeInduction.
Variable P : RpcType -> Prop.
Hypothesis Hbase : forall t,
  match t with TStruct _ | TArray _ => True | _ => P t end.
Hypothesis Hstruct : forall ts, Forall P ts -> P (TStruct ts).
Hypothesis Harray : forall t, P t -> P (TArray t).

Fixpoint RpcType_ind' (t : RpcType) : P t :=
  let all := fix go (l : list RpcType) : Forall P l :=
    match l with
    | [] => Forall_nil_2 P
    | x :: t => Forall_cons_2 P x t (RpcType_ind' x) (go t)
    end in
  match t return P t with
  | TStruct ts => Hstruct ts (all ts)
  | TArray t => Harray t (RpcType_ind' t)
  | t => Hbase t
  end.
End TypeInduction.

(** ** Types *)

(** [v] is a value of type [ty] *)
Fixpoint has_type (v : RpcValue) (ty : RpcType) : Prop :=
  match v, ty with
  | VBool _, TBool => True
  | VS8 v, TS8 => in_i 8 v
  | VU8 v, TU8 => in_u 8 v
  | VUInt8 v, TUInt8 => in_u 8 (UInt8_value v)
  | VU16 v, TU16 => in_u 16 v
  | VUInt16 v, TUInt16 => in_u 16 (UInt16_value v)
  | VS16 v, TS16 => in_i 16 v
  | VBytes d, TBytes => bytes d
  | VString s, TString => valid_str s /\ Forall (fun c => c <> 0) s
  | VVSigned _, TVSigned => True
  | VVUnsigned v, TVUnsigned => 0 <= VUnsigned_value v
  | VEnum i, TEnum values => 0 <= i < Z.of_nat (length values) /\ i < 2 ^ 64
  | VStruct vs, TStruct ts =>
      (fix all2 vs ts := match vs, ts with
                         | [], [] => True
                         | v :: vs, t :: ts => has_type v t /\ all2 vs ts
                         | _, _ => False
                         end) vs ts
  | VArray vs, TArray t =>
      (fix all vs := match vs with
                     | [] => True
                     | v :: vs => has_type v t /\ all vs
                     end) vs
  | _, _ => False
  end.

(** the end of a value is seen from its bytes: not so for the rest of the packet *)
Fixpoint delimited (ty : RpcType) : bool :=
  match ty with
  | TBytes | TArray _ => false
  | TStruct ts => forallb delimited ts
  | _ => true
  end.

(** a value takes up at least one byte, if there is one *)
Fixpoint consumes (ty : RpcType) : bool :=
  match ty with
  | TStruct ts => existsb consumes ts
  | _ => true
  end.

(** types that can be read at the end of a packet: a blob or an array is the
    last field, and the items of an array are delimited *)
Fixpoint at_end (ty : RpcType) : bool :=
  match ty with
  | TStruct ts => (fix go ts := match ts with
                                | [] => true
                                | [t] => at_end t
                                | t :: ts => delimited t && go ts
                                end) ts
  | TArray t => delimited t && consumes t
  | _ => true
  end.

(** every array has items that take up space *)
Fixpoint loops_ok (ty : RpcType) : bool :=
  match ty with
  | TStruct ts => forallb loops_ok ts
  | TArray t => consumes t && loops_ok t
  | _ => true
  end.

(** ** Lemmas: reading back what was written *)

Lemma sm_forget_Ok {S E A B} (f : A -> B) (m : SM S E A) s b s' :
  sm_forget f m s = (Ok b, s') -> exists a, m s = (Ok a, s') /\ f a = b.
Proof. unfold sm_forget. destruct (m s) as [[a|e|] t]; intros [= <- <-]; eauto. Qed.

Section Codec.
Context {NB : NumBigint}.

Definition codec (v : RpcValue) (ty : RpcType) (enc : list Z) : Prop :=
  bytes enc
  /\ (forall a, append_value v a = (Ok tt, mkAssembler (buffer a ++ enc)))
  /\ (consumes ty = true -> delimited ty = true -> enc <> [])
  /\ forall n pre post, delimited ty = true \/ post = [] -> (length enc < n)%nat ->
       read_type n ty (mkReader (pre ++ enc ++ post) (length pre))
       = Some (Ok v, mkReader (pre ++ enc ++ post) (length pre + length enc)).

(** a value that is one field of the packet *)
Lemma codec_field v ty f :
  field_ok f -> delimited ty = true -> (forall enc, field_codec f enc -> enc <> []) ->
  (forall a, append_value v a = write_field f a) ->
  (forall n r r', read_like f r = (Ok f, r') -> read_type n ty r = Some (Ok v, r')) ->
  exists enc, codec v ty enc.
Proof.
  intros Hf Hd Hne Hw Hr. destruct (field_codec_exists f Hf) as (enc & Hc).
  exists enc. pose proof (Hne enc Hc). destruct Hc as (Hb & Hwf & Hrf).
  split; [done|]. split; [intros a; by rewrite Hw|]. split; [done|].
  intros n pre post _ _. apply Hr, Hrf.
Qed.

(** a field that is read is not empty *)
Lemma field_codec_nonempty f enc : field_codec f enc ->
  match f with FBlob _ => False | _ => True end -> enc <> [].
Proof.
  intros (_ & Hw & Hr) Hf ->. specialize (Hw assembler_new). cbn [buffer assembler_new app] in Hw.
  apply (f_equal (fun x => length (buffer (snd x)))) in Hw.
  destruct f; cbn in Hw; try done.
  - rewrite length_app in Hw. cbn in Hw. lia.
  - specialize (Hr [] []). cbn [app length] in Hr.
    destruct signed; cbn [read_like] in Hr; vm_compute in Hr; congruence.
Qed.

(** closes the cases of [codec_base] *)
Ltac one_field f :=
  apply (codec_field _ _ f);
  [done|done|intros enc He; by apply (field_codec_nonempty f enc He)|done
  |intros n r r' Hr; cbn [read_like read_type] in *; unfold reading;
   apply sm_forget_Ok in Hr as (x & -> & [= ->]); try done].

Lemma codec_vunsigned v : 0 <= VUnsigned_value v ->
  exists enc, codec (VVUnsigned v) TVUnsigned enc.
Proof.
  intros Hv. destruct (pack_value_ok true (VUnsigned_value v) ltac:(by left)) as (p & Hp & HP).
  exists p. split; [apply HP|]. split; [intros a; by apply write_packed_value_ok|].
  split; [intros _ _; by eapply packed_nonempty|]. intros n pre post _ _.
  pose proof (packed_unpack_unsigned _ _ _ pre post HP Hv) as Hu. cbn [read_type].
  unfold reading, read_vuint, read_int, mbind, SM_bind. cbn [data ep]. rewrite Hu.
  cbn. by destruct v.
Qed.

Lemma codec_bytes d : bytes d -> exists enc, codec (VBytes d) TBytes enc.
Proof.
  intros Hd. exists d. split; [done|]. split; [done|]. split; [done|].
  intros n pre post [?| ->] _; [done|]. cbn [read_type]. unfold reading, read_blob_remain.
  cbn [data ep]. rewrite app_nil_r, slice_full by (rewrite length_app; lia).
  by rewrite drop_app_length, length_app.
Qed.

Lemma codec_base v : match v with
  | VStruct _ | VArray _ => True
  | _ => forall ty, has_type v ty -> at_end ty = true -> exists enc, codec v ty enc
  end.
Proof.
  destruct v as [b|v|v|[v]|v|[v]|v|d|s|v|v|i|vs|vs]; try done;
    intros ty; destruct ty; cbn [has_type]; try done; intros Ht _.
  - destruct b; [one_field (FI8 1)|one_field (FI8 0)].
  - one_field (FI8 v).
  - one_field (FU8 v).
  - one_field (FU8 v).
  - one_field (FU16 v).
  - one_field (FU16 v).
  - one_field (FI16 v).
  - by apply codec_bytes.
  - one_field (FString s).
  - destruct v as [v]. apply (codec_field _ _ (FPacked true v));
    [by left|done|intros enc He; by apply (field_codec_nonempty _ enc He)|done|].
    intros n r r' Hr. cbn [read_like read_type] in *. unfold reading.
    by apply sm_forget_Ok in Hr as (x & -> & [= ->]).
  - by apply codec_vunsigned.
  - destruct Ht as [Hi Hi']. apply (codec_field _ _ (FPacked false i));
    [right; lia|done|intros enc He; by apply (field_codec_nonempty _ enc He)|done|].
    intros n r r' Hr. cbn [read_like read_type] in *. unfold reading.
    apply sm_forget_Ok in Hr as (x & -> & [= ->]). unfold read_enum.
    rewrite try_u_Some by (split; lia). cbn [mbind res_bind ok_or].
    by rewrite (proj2 (Z.leb_gt _ _)) by lia.
Qed.
End Codec.

Lemma delimited_at_end ty : delimited ty = true -> at_end ty = true.
Proof.
  revert ty. apply (RpcType_ind' (fun ty => delimited ty = true -> at_end ty = true));
    [intros t; by destruct t|intros ts IH|done].
  cbn [delimited at_end]. induction IH as [|t ts Ht _ IHts]; [done|].
  cbn [forallb]. intros [Hd Hds]%andb_prop. destruct ts as [|t' ts]; [by apply Ht|].
  rewrite Hd. by apply IHts.
Qed.

Lemma at_end_struct_cons t ts : at_end (TStruct (t :: ts)) = true ->
  at_end t = true /\ at_end (TStruct ts) = true /\ (delimited t = true \/ ts = []).
Proof.
  destruct ts as [|t' ts]; [by auto|]. intros [Hd Hts]%andb_prop.
  split; [by apply delimited_at_end|]. auto.
Qed.

Section CodecLists.
Context {NB : NumBigint}.

Definition codec_all (vs : list RpcValue) (ts : list RpcType) (enc : list Z) : Prop :=
  bytes enc
  /\ (forall a, append_all append_value vs a = (Ok tt, mkAssembler (buffer a ++ enc)))
  /\ (existsb consumes ts = true -> forallb delimited ts = true -> enc <> [])
  /\ forall n pre post, forallb delimited ts = true \/ post = [] -> (length enc < n)%nat ->
       read_all (read_type n) ts (mkReader (pre ++ enc ++ post) (length pre))
       = Some (Ok vs, mkReader (pre ++ enc ++ post) (length pre + length enc)).

Lemma append_all_nil a : append_all append_value [] a = (Ok tt, mkAssembler (buffer a ++ [])).
Proof. cbn. rewrite app_nil_r. by destruct a. Qed.

Lemma append_all_cons v vs e1 e2 :
  (forall a, append_value v a = (Ok tt, mkAssembler (buffer a ++ e1))) ->
  (forall a, append_all append_value vs a = (Ok tt, mkAssembler (buffer a ++ e2))) ->
  forall a, append_all append_value (v :: vs) a = (Ok tt, mkAssembler (buffer a ++ e1 ++ e2)).
Proof.
  intros H1 H2 a. cbn [append_all]. unfold mbind, SM_bind. rewrite H1, H2. cbn [buffer].
  by rewrite app_assoc.
Qed.

Lemma codec_all_cons v vs t ts e1 e2 :
  codec v t e1 -> codec_all vs ts e2 -> delimited t = true \/ ts = [] ->
  codec_all (v :: vs) (t :: ts) (e1 ++ e2).
Proof.
  intros (Hb1 & Hw1 & Hn1 & Hr1) (Hb2 & Hw2 & Hn2 & Hr2) Hdt.
  split; [by apply bytes_app|]. split; [by apply append_all_cons|]. split.
  { cbn [existsb forallb]. intros [Hc|Hc]%orb_prop [Hd Hds]%andb_prop Hnil;
      apply app_nil in Hnil as [? ?]; [by apply Hn1|by apply Hn2]. }
  intros n pre post Hpost Hlen. rewrite length_app in Hlen. cbn [read_all].
  unfold mbind, LM_bind. rewrite <- (app_assoc e1), Hr1; [| |lia].
  - rewrite (app_assoc pre), <- length_app, Hr2; [| |lia].
    + cbn. by rewrite !length_app, Nat.add_assoc.
    + cbn [forallb] in Hpost. destruct Hpost as [Hd|?]; [left|by right].
      by apply andb_prop in Hd as [_ ?].
  - destruct Hdt as [?| ->]; [by left|]. destruct Hpost as [Hd| ->].
    + cbn in Hd. rewrite andb_true_r in Hd. by left.
    + right. rewrite app_nil_r. specialize (Hw2 assembler_new).
      destruct vs as [|v' vs].
      * cbn in Hw2. by injection Hw2 as <-.
      * by specialize (Hr2 (S (length e2)) [] [] ltac:(by right) ltac:(lia)).
Qed.

Lemma codec_struct vs ty :
  Forall (fun v => forall ty, has_type v ty -> at_end ty = true -> exists enc, codec v ty enc) vs ->
  has_type (VStruct vs) ty -> at_end ty = true -> exists enc, codec (VStruct vs) ty enc.
Proof.
  intros HP Ht Ha. destruct ty as [| | | | | | | | | | | |ts|]; try done.
  assert (exists enc, codec_all vs ts enc) as (enc & Hb & Hw & Hn & Hr).
  { revert ts Ht Ha. induction HP as [|v vs Hv _ IH]; intros [|t ts] Ht Ha; try done.
    - exists []. split; [apply bytes_nil|]. split; [by apply append_all_nil|]. split; [done|].
      intros. cbn. by rewrite Nat.add_0_r.
    - destruct Ht as [Ht Hts]. apply at_end_struct_cons in Ha as (Ha & Has & Hd).
      destruct (Hv t Ht Ha) as [e1 H1]. destruct (IH ts Hts Has) as [e2 H2].
      exists (e1 ++ e2). by apply codec_all_cons. }
  exists enc. split; [done|]. split; [done|]. split; [done|].
  intros n pre post Hpost Hlen. cbn [read_type]. unfold mbind, LM_bind. by rewrite Hr.
Qed.

(** the loop over the items of an array, at the end of the packet *)
Lemma codec_array_items vs t :
  Forall (fun v => exists enc, codec v t enc) vs ->
  delimited t = true -> consumes t = true ->
  exists enc, bytes enc
  /\ (forall a, append_all append_value vs a = (Ok tt, mkAssembler (buffer a ++ enc)))
  /\ forall n k pre, (length enc < n)%nat -> (length enc < k)%nat ->
       read_while k (read_type n t) (mkReader (pre ++ enc) (length pre))
       = Some (Ok vs, mkReader (pre ++ enc) (length pre + length enc)).
Proof.
  intros HP Hd Hc. induction HP as [|v vs (e1 & Hb1 & Hw1 & Hn1 & Hr1) _ IH].
  - exists []. split; [apply bytes_nil|]. split; [by apply append_all_nil|].
    intros n [|k] pre Hn Hk; [cbn in Hk; lia|]. cbn [read_while]. unfold has_unprocessed_bytes.
    cbn [data ep]. rewrite app_nil_r, Nat.ltb_irrefl, Nat.add_0_r. done.
  - destruct IH as (e2 & Hb2 & Hw2 & Hr2). specialize (Hn1 Hc Hd).
    exists (e1 ++ e2). split; [by apply bytes_app|]. split; [by apply append_all_cons|].
    intros n [|k] pre Hn Hk; [lia|]. rewrite length_app in Hn, Hk.
    assert (0 < length e1)%nat by (destruct e1; [done|cbn; lia]).
    cbn [read_while]. unfold has_unprocessed_bytes. cbn [data ep].
    rewrite (proj2 (Nat.ltb_lt _ _)) by (rewrite !length_app; lia).
    unfold mbind, LM_bind. rewrite Hr1 by (by left || lia).
    rewrite (app_assoc pre), <- length_app, Hr2 by lia. cbn.
    by rewrite !length_app, Nat.add_assoc.
Qed.

Lemma codec_exists v ty : has_type v ty -> at_end ty = true -> exists enc, codec v ty enc.
Proof.
  revert v ty. apply (RpcValue_ind' (fun v => forall ty, has_type v ty -> at_end ty = true ->
    exists enc, codec v ty enc)).
  - apply codec_base.
  - intros vs IH ty. by apply codec_struct.
  - intros vs IH ty Ht Ha. destruct ty as [| | | | | | | | | | | | |t]; try done.
    cbn in Ha. apply andb_prop in Ha as [Hd Hc].
    destruct (codec_array_items vs t) as (enc & Hb & Hw & Hr); [|done|done|].
    { clear Hc. revert Ht. induction IH as [|v vs Hv _ IHvs]; intros Ht; [constructor|].
      destruct Ht as [Ht Hts]. constructor; [|by apply IHvs].
      by apply Hv; [|apply delimited_at_end]. }
    exists enc. split; [done|]. split; [done|]. split; [done|].
    intros n pre post [?| ->] Hlen; [done|]. cbn [read_type]. unfold mbind, LM_bind.
    rewrite app_nil_r, Hr by done. done.
Qed.
End CodecLists.

(** ** Lemmas: requests *)

Section ToPacket.
Context {NB : NumBigint}.

Lemma to_packet_ok t f es enc :
  (forall a, append_elements es a = (Ok tt, mkAssembler (buffer a ++ enc))) ->
  exists pt pf, pack_value true t = Ok pt /\ pack_value true f = Ok pf
    /\ to_packet t f es = Ok ((pt ++ pf ++ enc) ++ [crc8 (pt ++ pf ++ enc)]).
Proof.
  intros Hw. destruct (write_addressing_ok f t assembler_new) as (pt & pf & H1 & H2 & H3).
  exists pt, pf. split; [done|]. split; [done|]. unfold to_packet.
  assert ((write_addressing f t ≫= fun _ => append_elements es) assembler_new
          = (Ok tt, mkAssembler (pt ++ pf ++ enc))) as ->; [|done].
  unfold mbind, SM_bind. rewrite H3, Hw. cbn [buffer assembler_new app]. by rewrite <- app_assoc.
Qed.

(** a request is valid and parsed back *)
Lemma to_packet_parsed t f es enc :
  (forall a, append_elements es a = (Ok tt, mkAssembler (buffer a ++ enc))) ->
  in_i 32 t -> in_i 32 f ->
  exists wire raw, to_packet t f es = Ok wire /\ get_valid_packet wire = Some raw
    /\ parsed_new raw = Ok (mkPacket raw f t enc None None).
Proof.
  intros Hw Ht Hf. destruct (to_packet_ok t f es enc Hw) as (pt & pf & H1 & H2 & H3).
  do 2 eexists. split; [exact H3|]. split; [apply get_valid_packet_append|].
  rewrite (parsed_new_packed _ _ _ _ _ H1 H2). by rewrite !try_i_Some.
Qed.

Lemma append_one v enc :
  (forall a, append_value v a = (Ok tt, mkAssembler (buffer a ++ enc))) ->
  forall a, append_elements [v] a = (Ok tt, mkAssembler (buffer a ++ enc)).
Proof. intros Hw a. cbn. unfold mbind, SM_bind. by rewrite Hw. Qed.
End ToPacket.

(** ** Lemmas: termination *)

(** A reading step that ends without panic, with the cursor in the data, moved
    forward when [progress] holds and a value was read. *)
Definition good_step {E A} (progress : bool) (r : PacketReader)
    (o : option (res E A * PacketReader)) : Prop :=
  exists out r', o = Some (out, r') /\ out <> Panic /\ data r' = data r
    /\ (ep r <= ep r' <= length (data r))%nat
    /\ (progress = true -> is_ok out = true -> (ep r < length (data r))%nat -> (ep r < ep r')%nat).

Definition progress_step {E A} (r : PacketReader) (out : res E A * PacketReader) : Prop :=
  is_ok (fst out) = true -> (ep r < length (data r))%nat -> (ep r < ep (snd out))%nat.

Lemma good_reading {E A B} (f : A -> res RpcReadError B) (g : E -> RpcReadError)
    (m : SM PacketReader E A) r :
  (forall a, f a <> Panic) -> safe_step r (m r) -> progress_step r (m r) ->
  good_step true r (reading f g m r).
Proof.
  intros Hf (Hp & Hd & He & _) Hprog. unfold reading, good_step, progress_step in *.
  destruct (m r) as [[a|e|] r']; cbn in *; [|do 2 eexists; by eauto 10|done].
  do 2 eexists. split; [done|]. split; [done|]. split; [done|]. split; [done|].
  intros _ _. by apply Hprog.
Qed.

Lemma progress_map {E A B} (k : A -> SM PacketReader E B) (m : SM PacketReader E A) r :
  (forall a r', exists b, k a r' = (Ok b, r')) ->
  progress_step r (m r) -> progress_step r ((m ≫= k) r).
Proof.
  intros Hk. unfold progress_step, mbind, SM_bind.
  destruct (m r) as [[a|e|] r']; cbn; [|done..]. by destruct (Hk a r') as [b ->].
Qed.

Lemma progress_ubyte r : progress_step r (read_ubyte r).
Proof. unfold progress_step, read_ubyte. destruct (_ !! _); cbn; [lia|done]. Qed.

Lemma progress_blob n r : progress_step r (read_blob (S n) r).
Proof. unfold progress_step, read_blob. destruct (_ <? _)%nat; cbn; [done|lia]. Qed.

Lemma progress_blob_remain r : progress_step r (read_blob_remain r).
Proof. unfold progress_step, read_blob_remain. destruct (slice _ _ _); cbn; [lia|done..]. Qed.

Lemma progress_string r : progress_step r (read_string r).
Proof.
  unfold progress_step, read_string. destruct (slice _ _ _); cbn; [|done..].
  destruct (position_zero _); cbn; [|done]. destruct (from_utf8 _); cbn; [lia|done].
Qed.

Lemma progress_int signed r : progress_step r (read_int signed r).
Proof.
  unfold progress_step, read_int.
  destruct (unpack_value_cases signed (data r) (ep r)) as [(v & u & -> & Hu & _)| ->]; cbn; [lia|done].
Qed.

Lemma read_enum_no_panic values v : read_enum values v <> Panic.
Proof. unfold read_enum. destruct (try_u 64 v); cbn; [|done]. by bool_cases. Qed.

Lemma read_type_base n ty r : reader_inv r ->
  match ty with TStruct _ | TArray _ => True | _ => good_step true r (read_type n ty r) end.
Proof.
  intros Hr.
  destruct ty; try done; cbn [read_type]; apply good_reading; try (by intros);
    try apply read_enum_no_panic;
    unfold read_sbyte, read_vuint, read_vsint, read_i16_be, read_u16_be;
    first [ repeat apply safe_map; eauto using safe_ubyte, safe_blob, safe_blob_remain, safe_string,
              safe_int; by intros [??]; eauto
          | repeat apply progress_map; eauto using progress_ubyte, progress_blob,
              progress_blob_remain, progress_string, progress_int; by intros [??]; eauto ].
Qed.

Lemma good_ret {A} (a : A) r : reader_inv r ->
  good_step false r (Some (Ok a : res RpcReadError A, r)).
Proof. intros Hr. unfold reader_inv in Hr. exists (Ok a), r. by repeat split. Qed.

Lemma good_bind {A B} p1 p2 (m : LM PacketReader RpcReadError A)
    (k : A -> LM PacketReader RpcReadError B) r :
  good_step p1 r (m r) ->
  (forall a r', data r' = data r -> (ep r <= ep r' <= length (data r))%nat ->
     (p1 = true -> (ep r < length (data r))%nat -> (ep r < ep r')%nat) ->
     good_step p2 r' (k a r')) ->
  good_step (p1 || p2) r ((m ≫= k) r).
Proof.
  intros (out & r' & Hm & Hnp & Hd & He & Hp) Hk. unfold mbind, LM_bind. rewrite Hm.
  destruct out as [a|e|]; [|by exists (Err e), r'|done].
  destruct (Hk a r' Hd He ltac:(auto)) as (o2 & r2 & -> & Hnp2 & Hd2 & He2 & Hp2). exists o2, r2.
  rewrite Hd in *. split; [done|]. split; [done|]. split; [done|]. split; [lia|].
  intros Hpp Hok Hlt. apply orb_prop in Hpp as [->|Hpp].
  - specialize (Hp eq_refl eq_refl Hlt). lia.
  - destruct (decide (ep r' < length (data r))%nat); [specialize (Hp2 Hpp Hok); lia|lia].
Qed.

(** a type is read to its end with any fuel above the number of unread bytes *)
Definition reads_ok (ty : RpcType) : Prop :=
  loops_ok ty = true -> forall n r, reader_inv r -> (get_remaining_bytes r < n)%nat ->
  good_step (consumes ty) r (read_type n ty r).

Lemma reads_all ts n r : Forall reads_ok ts -> forallb loops_ok ts = true ->
  reader_inv r -> (get_remaining_bytes r < n)%nat ->
  good_step (existsb consumes ts) r (read_all (read_type n) ts r).
Proof.
  intros HP. revert r. unfold reader_inv, get_remaining_bytes.
  induction HP as [|t ts Ht _ IH]; intros r Hl Hr Hn; cbn [existsb].
  - by apply good_ret.
  - cbn [forallb] in Hl. apply andb_prop in Hl as [Hlt Hlts]. cbn [read_all].
    apply good_bind; [by apply Ht|]. intros v r' Hd He _. rewrite <- (orb_false_r (existsb _ _)).
    apply good_bind; [apply IH; rewrite ?Hd; [done|lia..]|]. intros vs r2 Hd2 He2 _.
    rewrite Hd in *. apply good_ret. unfold reader_inv. rewrite Hd2. lia.
Qed.

Lemma reads_while item n k r :
  reads_ok item -> loops_ok item = true -> consumes item = true ->
  reader_inv r -> (get_remaining_bytes r < n)%nat -> (get_remaining_bytes r < k)%nat ->
  good_step true r (read_while k (read_type n item) r).
Proof.
  intros Hi Hl Hc. unfold reader_inv, get_remaining_bytes.
  revert r. induction k as [|k IH]; intros r Hr Hn Hk; [lia|].
  cbn [read_while]. unfold has_unprocessed_bytes. destruct (_ <? _)%nat eqn:Hlt; breflect.
  - rewrite <- (orb_true_r (consumes item)). apply good_bind; [by apply Hi|].
    intros v r' Hd He Hp. specialize (Hp Hc Hlt). rewrite <- (orb_false_r true).
    apply good_bind; [apply IH; rewrite ?Hd; lia|]. intros vs r2 Hd2 He2 _.
    rewrite Hd in *. apply good_ret. unfold reader_inv. rewrite Hd2. lia.
  - exists (Ok []), r. repeat split; [done|lia..].
Qed.

Lemma reads_ok_all ty : reads_ok ty.
Proof.
  revert ty. apply (RpcType_ind' reads_ok).
  - intros t. destruct t eqn:Et; try done; intros _ n r Hr _;
      pose proof (read_type_base n t r Hr) as H; by rewrite Et in H.
  - intros ts IH Hl n r Hr Hn. cbn [read_type consumes]. rewrite <- (orb_false_r (existsb _ _)).
    apply good_bind; [by apply reads_all|]. intros vs r' Hd He _. apply good_ret.
    unfold reader_inv. rewrite Hd. lia.
  - intros t IH [Hc Hl]%andb_prop n r Hr Hn. cbn [read_type consumes].
    rewrite <- (orb_false_r true). apply good_bind; [by apply reads_while|].
    intros vs r' Hd He _. apply good_ret. unfold reader_inv. rewrite Hd. lia.
Qed.

(** ** Lemmas: types of what is read *)

(** the values that [m] reads from bytes satisfy [P] *)
Definition reads_in {E A} (P : A -> Prop) (m : SM PacketReader E A) : Prop :=
  forall r a r', bytes (data r) -> m r = (Ok a, r') -> P a /\ data r' = data r.

Definition yields {E A} (P : A -> Prop) (m : LM PacketReader E A) : Prop :=
  forall r a r', bytes (data r) -> m r = Some (Ok a, r') -> P a /\ data r' = data r.

Lemma reads_in_map {E A B} (P : A -> Prop) (Q : B -> Prop) (f : A -> B) (m : SM PacketReader E A) :
  reads_in P m -> (forall a, P a -> Q (f a)) -> reads_in Q (a ← m; mret (f a)).
Proof.
  intros Hm Hf r b r' Hr. unfold mbind, SM_bind. destruct (m r) as [[a|e|] r1] eqn:Hmr; [|done..].
  intros [= <- <-]. destruct (Hm r a r1 Hr Hmr). auto.
Qed.

Lemma yields_reading {E A B} (P : A -> Prop) (Q : B -> Prop) (f : A -> res RpcReadError B) g (m : SM PacketReader E A) :
  reads_in P m -> (forall a b, P a -> f a = Ok b -> Q b) -> yields Q (reading f g m).
Proof.
  intros Hm Hf r b r' Hr. unfold reading. destruct (m r) as [[a|e|] r1] eqn:Hmr; [|done..].
  intros [= Ha <-]. destruct (Hm r a r1 Hr Hmr). split; [|done]. by eapply Hf.
Qed.

Lemma yields_bind {A B} (P : A -> Prop) (Q : B -> Prop) (m : LM PacketReader RpcReadError A)
    (k : A -> LM PacketReader RpcReadError B) :
  yields P m -> (forall a, P a -> yields Q (k a)) -> yields Q (m ≫= k).
Proof.
  intros Hm Hk r b r' Hr. unfold mbind, LM_bind. destruct (m r) as [[[a|e|] r1]|] eqn:Hmr; [|done..].
  intros Hb. destruct (Hm r a r1 Hr Hmr) as [Ha Hd]. destruct (Hk a Ha r1 b r' ltac:(by rewrite Hd) Hb).
  split; [done|congruence].
Qed.

Lemma yields_ret {E A} (P : A -> Prop) (a : A) : P a -> yields (E := E) P (mret a).
Proof. by intros Ha r b r' _ [= <- <-]. Qed.

Lemma reads_ubyte : reads_in (in_u 8) read_ubyte.
Proof.
  intros r a r' Hr. unfold read_ubyte. destruct (data r !! ep r) as [b|] eqn:Hb; [|done].
  intros [= <- <-]. split; [|done]. by apply (Forall_lookup_1 _ _ _ _ Hr) in Hb.
Qed.

Lemma reads_blob len : reads_in (fun d => bytes d /\ length d = len) (read_blob len).
Proof.
  intros r a r' Hr. unfold read_blob. destruct (Nat.ltb_spec (length (data r)) (ep r + len)); [done|].
  intros [= <- <-]. split; [|done]. split; [by apply bytes_take, bytes_drop|]. rewrite length_take, length_drop. lia.
Qed.

Lemma reads_blob_remain : reads_in bytes read_blob_remain.
Proof.
  intros r a r' Hr. unfold read_blob_remain, slice. destruct (_ && _); [|done].
  intros [= <- <-]. split; [|done]. by apply bytes_take, bytes_drop.
Qed.

Lemma position_zero_before l n : position_zero l = Some n -> Forall (fun b => b <> 0) (take n l).
Proof.
  revert n. induction l as [|b t IH]; intros n; cbn; [done|]. destruct (Z.eqb_spec b 0) as [->|Hb]; [by intros [= <-]|].
  intros (m & Hm & ->)%fmap_Some. cbn. constructor; [done|by apply IH].
Qed.

Lemma reads_string : reads_in (fun s => valid_str s /\ Forall (fun c => c <> 0) s) read_string.
Proof.
  intros r a r' Hr. unfold read_string, slice. destruct (_ && _); [|done].
  destruct (position_zero _) as [n|] eqn:Hp; [|done]. destruct (from_utf8 _) as [s|] eqn:Hs; [|done].
  intros [= <- <-]. split; [|done]. apply from_utf8_valid in Hs as [Hv Hz]; [|by apply bytes_take, bytes_take, bytes_drop].
  split; [done|]. apply Hz. by apply position_zero_before.
Qed.

Lemma reads_int signed : reads_in (fun v => signed = false -> 0 <= v.1) (read_int signed).
Proof.
  intros r a r' Hr. unfold read_int. destruct (unpack_used (drop (ep r) (data r)) 1) as [u|] eqn:Hu.
  - apply unpack_used_Some in Hu as (ds & rest & Hd & Hvl & _). rewrite (unpack_value_vl _ _ _ _ _ Hd Hvl).
    intros [= <- <-]. split; [|done]. cbn. apply vl_decode_bound. by destruct Hvl as ([|] & ? & -> & _).
  - unfold unpack_value. by rewrite Hu.
Qed.

Lemma reads_u16 : reads_in (in_u 16) read_u16_be.
Proof.
  eapply reads_in_map; [apply reads_blob|]. cbn. intros d [Hd Hl]. pose proof (be_value_bound d Hd) as Hb.
  rewrite Hl in Hb. exact Hb.
Qed.

Lemma read_enum_in values v i : 0 <= v -> read_enum values v = Ok i -> has_type i (TEnum values).
Proof.
  intros Hv. unfold read_enum, try_u. destruct (_ && _) eqn:Hr; [|done]. cbn [ok_or mbind res_bind].
  destruct (Z.leb_spec (Z.of_nat (length values)) v); [done|]. intros [= <-]. breflect. cbn. lia.
Qed.

Lemma yields_base n ty :
  match ty with TStruct _ | TArray _ => True | _ => yields (fun v => has_type v ty) (read_type n ty) end.
Proof.
  assert (forall signed, reads_in (fun v => signed = false -> 0 <= v) ('(value, _) ← read_int signed; mret value)) as Hint.
  { intros signed r a r' Hr. unfold mbind, SM_bind. destruct (read_int signed r) as [[[v u]|e|] r1] eqn:Hm; [|done..].
    intros [= <- <-]. by apply (reads_int signed r (v, u) r1). }
  assert (reads_in (in_i 8) read_sbyte) as Hs8
    by (eapply reads_in_map; [apply reads_ubyte|intros v _; apply as_i_range; lia]).
  assert (reads_in (in_i 16) read_i16_be) as Hs16
    by (eapply reads_in_map; [apply reads_u16|intros v _; apply as_i_range; lia]).
  destruct ty; try done; cbn [read_type];
    (eapply yields_reading;
     [first [exact Hs8 | exact Hs16 | apply reads_ubyte | apply reads_u16 | apply reads_blob_remain | apply reads_string
            | apply (Hint true) | apply (Hint false)]
     |]); try (intros a b Ha [= <-]; cbn; by auto).
  intros a b Ha. apply read_enum_in. by apply Ha.
Qed.

Lemma yields_type n ty : yields (fun v => has_type v ty) (read_type n ty).
Proof.
  revert ty. apply (RpcType_ind' (fun ty => yields (fun v => has_type v ty) (read_type n ty))).
  - intros t. pose proof (yields_base n t). by destruct t.
  - intros ts IH. cbn [read_type]. apply (yields_bind (fun vs => has_type (VStruct vs) (TStruct ts))).
    + induction IH as [|t ts Ht _ IHts]; [by apply yields_ret|]. cbn [read_all].
      eapply yields_bind; [exact Ht|]. intros v Hv. eapply yields_bind; [exact IHts|]. intros vs Hvs. by apply yields_ret.
    + intros vs Hvs. by apply yields_ret.
  - intros t Ht. cbn [read_type]. apply (yields_bind (fun vs => has_type (VArray vs) (TArray t))).
    + assert (forall k, yields (fun vs => has_type (VArray vs) (TArray t)) (read_while k (read_type n t))) as Hw; [|done].
      induction k as [|k IHk]; [by intros ????|]. intros r vs r' Hr. cbn [read_while].
      destruct (has_unprocessed_bytes r); [|by intros [= <- <-]]. revert r vs r' Hr.
      change (yields (fun vs => has_type (VArray vs) (TArray t))
        (v ← read_type n t; vs ← read_while k (read_type n t); mret (v :: vs))).
      eapply yields_bind; [exact Ht|]. intros v Hv. eapply yields_bind; [exact IHk|]. intros vs Hvs. by apply yields_ret.
    + intros vs Hvs. by apply yields_ret.
Qed.

(** an item type without size leaves the cursor where it was *)
Lemma read_sizeless n ty r : consumes ty = false ->
  exists v, read_type n ty r = Some (Ok v, r).
Proof.
  revert ty r. apply (RpcType_ind' (fun ty => forall r, consumes ty = false ->
    exists v, read_type n ty r = Some (Ok v, r))); [intros t; by destruct t| |done].
  intros ts IH r Hc. cbn [consumes] in Hc.
  enough (exists vs, read_all (read_type n) ts r = Some (Ok vs, r)) as [vs Hvs].
  { exists (VStruct vs). cbn [read_type]. unfold mbind, LM_bind. by rewrite Hvs. }
  induction IH as [|t ts Ht _ IHts]; [by exists []|].
  cbn [existsb] in Hc. apply orb_false_elim in Hc as [Hct Hcts].
  destruct (Ht r Hct) as [v Hv]. destruct (IHts Hcts) as [vs Hvs].
  exists (v :: vs). cbn [read_all]. unfold mbind, LM_bind. by rewrite Hv, Hvs.
Qed.

Lemma read_while_sizeless k item r : has_unprocessed_bytes r = true ->
  (exists v, item r = Some (Ok v, r)) -> read_while k item r = None.
Proof.
  intros Hu [v Hv]. induction k as [|k IH]; [done|]. cbn [read_while]. rewrite Hu.
  unfold mbind, LM_bind. by rewrite Hv, IH.
Qed.

(** ** Properties *)

Section Properties.
Context {NB : NumBigint}.


(** Request packets.  [to_packet] never fails on values of types and the
    packet it builds passes the crc check and parses back to the addresses
    and to a payload from which the values are read. *)
Theorem to_packet_parses t f v ty :
  in_i 32 t -> in_i 32 f -> has_type v ty -> at_end ty = true ->
  exists wire raw p, to_packet t f [v] = Ok wire /\ get_valid_packet wire = Some raw
    /\ parsed_new raw = Ok p /\ from p = f /\ to p = t
    /\ read_type (S (length (payload p))) ty (read_payload p)
       = Some (Ok v, mkReader (payload p) (length (payload p))).
Proof.
  intros Ht Hf Hty Hend. destruct (codec_exists v ty Hty Hend) as (enc & _ & Hw & _ & Hr).
  destruct (to_packet_parsed t f [v] enc) as (wire & raw & H1 & H2 & H3);
    [by apply append_one|done..|].
  exists wire, raw, (mkPacket raw f t enc None None). do 5 (split; [done|]). cbn [payload].
  specialize (Hr (S (length enc)) [] [] ltac:(by right) ltac:(lia)).
  cbn [app length] in Hr. rewrite app_nil_r in Hr. exact Hr.
Qed.
End Properties.


Lemma to_packet_parses_witness :
  exists wire raw p, @to_packet num_bigint_ref 16 63 [VBytes [2; 4; 3]] = Ok wire
    /\ get_valid_packet wire = Some raw /\ parsed_new raw = Ok p /\ from p = 63 /\ to p = 16
    /\ read_type (S (length (payload p))) TBytes (read_payload p)
       = Some (Ok (VBytes [2; 4; 3]), mkReader (payload p) (length (payload p))).
Proof.
  apply (@to_packet_parses num_bigint_ref 16 63 (VBytes [2; 4; 3]) TBytes);
    [by split|by split|repeat constructor; lia|reflexivity].
Defined.

(** Termination of [read_type].  At a type whose arrays have items that
    take up space, from a cursor within the data, reading any bytes ends after
    at most one loop iteration per unread byte and one more, without panic,
    with the data unchanged and the cursor within them. *)
Theorem read_type_terminates ty n r :
  loops_ok ty = true -> reader_inv r -> (get_remaining_bytes r < n)%nat ->
  exists out r', read_type n ty r = Some (out, r') /\ out <> Panic
    /\ data r' = data r /\ (ep r <= ep r' <= length (data r))%nat.
Proof.
  intros Hl Hr Hn. destruct (reads_ok_all ty Hl n r Hr Hn) as (out & r' & H1 & H2 & H3 & H4 & _).
  eauto 10.
Qed.

Lemma read_type_terminates_witness :
  exists out r', read_type 5 (TArray TU16) (reader_new [1; 2; 3]) = Some (out, r') /\ out <> Panic
    /\ data r' = [1; 2; 3] /\ (0 <= ep r' <= 3)%nat.
Proof.
  apply (read_type_terminates (TArray TU16) 5 (reader_new [1; 2; 3]));
    [reflexivity|unfold reader_inv; cbn; lia|cbn; lia].
Defined.

(** C36: Type soundness of [read_type].  Reading any bytes at a type whose array
    items take up space ends with a value of exactly this type (numbers within
    their width, strings of chars without 0, enum indices below the number of
    their values, as many struct fields as the type has) or with an error. *)
Theorem read_type_sound ty n r :
  bytes (data r) -> loops_ok ty = true -> reader_inv r -> (get_remaining_bytes r < n)%nat ->
  exists out r', read_type n ty r = Some (out, r') /\ data r' = data r
    /\ match out with Ok v => has_type v ty | Err _ => True | Panic => False end.
Proof.
  intros Hb Hl Hr Hn. destruct (reads_ok_all ty Hl n r Hr Hn) as (out & r' & H1 & H2 & H3 & _).
  exists out, r'. split; [done|]. split; [done|]. destruct out as [v|e|]; [|done..].
  by destruct (yields_type n ty r v r' Hb H1).
Qed.

Lemma read_type_sound_witness :
  let ty := TStruct [TBool; TEnum [$"off"; $"on"]; TString; TArray TU16] in
  exists v r', read_type 12 ty (reader_new [1; 1; 104; 105; 0; 1; 2; 255; 255]) = Some (Ok v, r') /\ has_type v ty.
Proof.
  intros ty.
  destruct (read_type_sound ty 12 (reader_new [1; 1; 104; 105; 0; 1; 2; 255; 255])) as (out & r' & H1 & _ & H2).
  - repeat constructor; unfold is_u8; lia.
  - reflexivity.
  - unfold reader_inv. cbn. lia.
  - cbn. lia.
  - destruct out as [v|e|]; [by exists v, r'|by vm_compute in H1|done].
Defined.

(** The exception.  For an array whose items have no size (a struct
    without fields) the loop of [read_type] never ends while there is an unread
    byte: no fuel is enough. *)
Theorem read_type_sizeless_items_diverge item r n :
  consumes item = false -> has_unprocessed_bytes r = true -> read_type n (TArray item) r = None.
Proof.
  intros Hc Hu. cbn [read_type]. unfold mbind, LM_bind.
  by rewrite read_while_sizeless by (done || by apply read_sizeless).
Qed.

Lemma read_type_sizeless_items_diverge_witness :
  read_type 1000 (TArray (TStruct [])) (reader_new [7]) = None.
Proof. apply read_type_sizeless_items_diverge; reflexivity. Defined.

(** Negative values of the unsigned type.  [append_value] writes a
    [VUnsigned] in the signed form, so a negative one is not refused, and
    [read_type] reads another, non-negative value: -1 comes back as 64. *)
Theorem vunsigned_negative_misread :
  exists enc, @append_value num_bigint_ref (VVUnsigned (VUnsigned_new (- 1))) assembler_new
              = (Ok tt, mkAssembler enc)
    /\ read_type 1 TVUnsigned (reader_new enc)
       = Some (Ok (VVUnsigned (VUnsigned_new 64)), mkReader enc (length enc)).
Proof. exists [64]. split; vm_compute; reflexivity. Qed.
