(* ===== verification/Bus.v ===== *)
(** * The client view of the bus

    Models [src/rpc/bus.rs]: pending requests, the pairing of received packets
    with them, and the listeners of the other packets.

    The [Arc<TransactionState>]s live in a store: [transactions] has every
    transaction ever registered and a pointer is its index, so that the pending
    list and the [UartbusTransaction] handles share the mutable [response].
    Each operation runs under the lock of [pending_requests] (or of a listener
    list) in the source, so a run is a sequence of operations; calls of
    listeners and log lines are the outputs of an operation, in order.  The
    sender of the bus is a parameter, [send]. *)

From stdpp Require Import base list numbers option strings sets.
From Stdlib Require Import ZArith Lia Sorted.
From S2P Require Import Prelude RustStd Tools VarInt Packet RpcTools.

(** ** Transactions *)

Definition TransactionError : Type := str.

Record TransactionState : Type := mkTransaction {
  tx_to : Z;
  tx_from : Z;
  tx_path : list Z;
  zero_namespace_answer : bool;
  response : option (list Z);
}.

Definition set_response (d : list Z) (t : TransactionState) : TransactionState :=
  mkTransaction (tx_to t) (tx_from t) (tx_path t) (zero_namespace_answer t) (Some d).

(** the returned flag, and the transaction with its response stored *)
Definition try_accept_response (t : TransactionState) (packet : ParsedUartBusPacket)
    : res never (bool * TransactionState) :=
  if negb (to packet =? tx_from t) || negb (from packet =? tx_to t) then Ok (false, t) else
  let diff := if zero_namespace_answer t then 1%nat else 0%nat in
  if (length (payload packet) <? length (tx_path t) + diff)%nat then Ok (false, t) else
  other_namespace ← (if zero_namespace_answer t
                     then b ← idx (payload packet) 0; Ok (negb (b =? 0)) else Ok false);
  if other_namespace : bool then Ok (false, t) else
  start ← slice (payload packet) diff (diff + length (tx_path t));
  if negb (bool_decide (start = tx_path t)) then Ok (false, t) else
  Ok (true, set_response (payload packet) t).

Definition is_responsed (t : TransactionState) : bool := bool_decide (is_Some (response t)).

(** The loop of [wait_response]: [wakeups] is what each iteration sees, the
    content of [response] and the time; [None] while it goes on waiting. *)
Fixpoint wait_response (deadline : Z) (wakeups : list (option (list Z) * Z))
    : option (option (list Z)) :=
  match wakeups with
  | [] => None
  | (Some payload, _) :: _ => Some (Some payload)
  | (None, now) :: t => if deadline <=? now then Some None else wait_response deadline t
  end.

(** the error of [ensure_response]; [timeout] in milliseconds *)
Definition not_responded (t : TransactionState) (timeout : Z) (err_append_msg : option str)
    : TransactionError :=
  $"Device (`" ++ show_int (tx_to t) ++ $"`) not responded within " ++ show_nat timeout
  ++ $" MILLISECONDS for the request"
  ++ match err_append_msg with None => [] | Some msg => $": " ++ msg end.

Definition ensure_response (t : TransactionState) (start timeout : Z) (err_append_msg : option str)
    (wakeups : list (option (list Z) * Z)) : option (res TransactionError (list Z)) :=
  (fun r => ok_or r (not_responded t timeout err_append_msg))
  <$> wait_response (start + timeout) wakeups.

(** ** The bus *)

(** what an operation does to the outside *)
Inductive bus_output : Type :=
| Listener (listener : nat) (packet : list Z)
| LogNotice (text : str).

(** [listener] names the closure *)
Record Inner : Type := mkInner {
  from_address : Z;
  transactions : list TransactionState;
  pending_requests : list nat;
  next_listener_id : Z;
  unrelated_packets : list (Z * nat);
  invalid_packets : list (Z * nat);
}.

Definition build (from_address : Z) : Inner := mkInner from_address [] [] 0 [] [].

Definition get_from_address (b : Inner) : Z := from_address b.

Definition set_pending (p : list nat) (b : Inner) : Inner :=
  mkInner (from_address b) (transactions b) p (next_listener_id b) (unrelated_packets b)
    (invalid_packets b).

(** the id of the listener, the next id and the list with the listener; [fetch_add] wraps around *)
Definition add_listener (l : list (Z * nat)) (listener : nat) (b : Inner) : Z * Z * list (Z * nat) :=
  let id := next_listener_id b in (id, as_u 64 (id + 1), l ++ [(id, listener)]).

Definition add_unrelated_packet_listener (listener : nat) (b : Inner) : Z * Inner :=
  let '(id, next, l) := add_listener (unrelated_packets b) listener b in
  (id, mkInner (from_address b) (transactions b) (pending_requests b) next l (invalid_packets b)).

Definition remove_unrelated_packet_listener (id : Z) (b : Inner) : Inner :=
  mkInner (from_address b) (transactions b) (pending_requests b) (next_listener_id b)
    (filter (fun l => l.1 <> id) (unrelated_packets b)) (invalid_packets b).

Definition add_invalid_packet_listener (listener : nat) (b : Inner) : Z * Inner :=
  let '(id, next, l) := add_listener (invalid_packets b) listener b in
  (id, mkInner (from_address b) (transactions b) (pending_requests b) next (unrelated_packets b) l).

Definition dispatch (l : list (Z * nat)) (packet : list Z) : list bus_output :=
  map (fun e => Listener e.2 packet) l.

(** [pending.iter().position(|t| t.try_accept_response(&parsed))], counting from [k] *)
Fixpoint position_accepting (txs : list TransactionState) (pending : list nat)
    (parsed : ParsedUartBusPacket) (k : nat) : res never (option (nat * list TransactionState)) :=
  match pending with
  | [] => Ok None
  | i :: rest =>
    t ← idx txs i;
    '(accepted, t) ← try_accept_response t parsed;
    if accepted : bool then Ok (Some (k, <[i := t]> txs)) else position_accepting txs rest parsed (S k)
  end.

Definition process_packet (packet : list Z) (b : Inner) : res never (Inner * list bus_output) :=
  match get_valid_packet packet with
  | None => Ok (b, dispatch (invalid_packets b) packet)
  | Some data =>
    match parsed_new data with
    | Panic => Panic
    | Err err => Ok (b, [LogNotice ($"Exception while parsing packet: " ++ PacketParseError_fmt err)])
    | Ok parsed =>
      found ← position_accepting (transactions b) (pending_requests b) parsed 0;
      match found with
      | Some (index, txs) =>
        Ok (mkInner (from_address b) txs (delete index (pending_requests b)) (next_listener_id b)
              (unrelated_packets b) (invalid_packets b), [])
      | None => Ok (b, dispatch (unrelated_packets b) (raw_packet parsed))
      end
    end
  end.

(** the [Drop] of a [UartbusTransaction] *)
Definition revoke_pending_request (state : nat) (b : Inner) : Inner :=
  set_pending (filter (fun t => t <> state) (pending_requests b)) b.

(** the pointer of the new transaction *)
Definition register (from to : Z) (path : list Z) (zero : bool) (b : Inner) : nat * Inner :=
  let state := length (transactions b) in
  (state, mkInner (from_address b) (transactions b ++ [mkTransaction to from path zero None])
            (pending_requests b ++ [state]) (next_listener_id b) (unrelated_packets b)
            (invalid_packets b)).

Definition subscribe_response (from to : Z) (path : list Z) (zero_namespace : bool) (b : Inner)
    : nat * Inner := register from to path zero_namespace b.

Section Transaction.
Context {NB : NumBigint}.

(** [send packet = Some error]: the packet was not sent.  When sending fails
    the transaction is dropped, which revokes it. *)
Definition new_transaction (send : list Z -> option str) (to : Z) (path payload : list Z)
    (zero : bool) (b : Inner) : res str nat * Inner :=
  match to_packet to (from_address b) [VBytes payload] with
  | Panic => (Panic, b)
  | Err e => (Err (PackError_fmt e), b)
  | Ok packet =>
    let '(transaction, b) := register (from_address b) to path zero b in
    match send packet with
    | Some e => (Err e, revoke_pending_request transaction b)
    | None => (Ok transaction, b)
    end
  end.
End Transaction.

(** the response a handle sees *)
Definition response_of (b : Inner) (i : nat) : option (list Z) :=
  t ← transactions b !! i; response t.

(** ** Runs *)

(** an operation of a client, of the receiver thread, or the end of a handle *)
Inductive bus_op : Type :=
| DoRegister (from to : Z) (path : list Z) (zero : bool)
| DoPacket (packet : list Z)
| DoDrop (transaction : nat)
| DoListen (listener : nat)
| DoUnlisten (id : Z)
| DoListenInvalid (listener : nat).

Definition bus_step (b : Inner) (o : bus_op) : res never Inner :=
  match o with
  | DoRegister f t path zero => Ok (register f t path zero b).2
  | DoPacket packet => '(b, _) ← process_packet packet b; Ok b
  | DoDrop i => Ok (revoke_pending_request i b)
  | DoListen l => Ok (add_unrelated_packet_listener l b).2
  | DoUnlisten id => Ok (remove_unrelated_packet_listener id b)
  | DoListenInvalid l => Ok (add_invalid_packet_listener l b).2
  end.

Definition run_bus (b : Inner) (ops : list bus_op) : res never Inner := foldM bus_step b ops.

(** ** What a transaction accepts *)

(** the answer starts with (0 and) the path of the request *)
Definition answer_prefix (t : TransactionState) : list Z :=
  (if zero_namespace_answer t then [0] else []) ++ tx_path t.

Definition accepts (t : TransactionState) (p : ParsedUartBusPacket) : bool :=
  bool_decide (to p = tx_from t /\ from p = tx_to t
               /\ take (length (answer_prefix t)) (payload p) = answer_prefix t).

Lemma try_accept_spec t p :
  try_accept_response t p
  = Ok (if accepts t p then (true, set_response (payload p) t) else (false, t)).
Proof.
  assert (forall b : bool, b = false -> accepts t p = b ->
    Ok (E := never) (false, t) = Ok (if accepts t p then (true, set_response (payload p) t) else (false, t)))
    as Hno by (by intros b -> ->).
  unfold try_accept_response.
  destruct (to p =? tx_from t) eqn:H1; breflect; cbn [negb orb].
  2: { apply (Hno false); [done|]. apply bool_decide_false. naive_solver. }
  destruct (from p =? tx_to t) eqn:H2; breflect; cbn [negb].
  2: { apply (Hno false); [done|]. apply bool_decide_false. naive_solver. }
  set (diff := if zero_namespace_answer t then 1%nat else 0%nat).
  assert (length (answer_prefix t) = diff + length (tx_path t))%nat as Hlen
    by (unfold answer_prefix, diff; by destruct (zero_namespace_answer t)).
  destruct (_ <? _)%nat eqn:H3; breflect.
  { apply (Hno false); [done|]. apply bool_decide_false. intros (_ & _ & Ht).
    apply (f_equal length) in Ht. rewrite length_take, Hlen in Ht. lia. }
  rewrite slice_ok by lia. replace (diff + length (tx_path t) - diff)%nat with (length (tx_path t)) by lia.
  unfold accepts in *. rewrite Hlen in *. unfold answer_prefix, diff in *.
  destruct (zero_namespace_answer t); cbn [app] in *.
  - destruct (payload p) as [|b rest] eqn:Hp; [cbn in H3; lia|].
    cbn [idx lookup list_lookup unwrap mbind res_bind Nat.add take drop].
    destruct (b =? 0) eqn:Hb; breflect; cbn [negb].
    + subst b. destruct (decide (take (length (tx_path t)) rest = tx_path t)) as [He|He].
      * rewrite !bool_decide_true by (done || by rewrite He). done.
      * rewrite (bool_decide_false (take _ _ = _)) by done. cbn [negb].
        apply (Hno false); [done|]. apply bool_decide_false. naive_solver.
    + apply (Hno false); [done|]. apply bool_decide_false. naive_solver.
  - cbn [mbind res_bind Nat.add]. rewrite drop_0.
    destruct (decide (take (length (tx_path t)) (payload p) = tx_path t)) as [He|He].
    + by rewrite !bool_decide_true.
    + rewrite (bool_decide_false (take _ _ = _)) by done. cbn [negb].
      apply (Hno false); [done|]. apply bool_decide_false. naive_solver.
Qed.

(** ** The invariant *)

Definition answered_well (t : TransactionState) : Prop :=
  match response t with
  | Some d => take (length (answer_prefix t)) d = answer_prefix t
  | None => True
  end.

(** the transaction [i] waits: it exists and has no response *)
Definition waiting (txs : list TransactionState) (i : nat) : Prop :=
  exists t, txs !! i = Some t /\ response t = None.

Record bus_inv (b : Inner) : Prop := {
  inv_sorted : StronglySorted lt (pending_requests b);
  inv_waiting : Forall (waiting (transactions b)) (pending_requests b);
  inv_answers : Forall answered_well (transactions b);
}.

Lemma sorted_filter (P : nat -> Prop) `{!forall x, Decision (P x)} l :
  StronglySorted lt l -> StronglySorted lt (filter P l).
Proof.
  induction 1 as [|x l Hl IH Hx]; [constructor|]. rewrite filter_cons.
  destruct (decide (P x)); [|done]. constructor; [done|].
  apply Forall_forall. intros y Hy. apply list_elem_of_filter in Hy as [_ Hy].
  by eapply Forall_forall in Hx.
Qed.

Lemma sorted_remove pre i post :
  StronglySorted lt (pre ++ i :: post) -> StronglySorted lt (pre ++ post).
Proof.
  induction pre as [|x pre IH]; cbn; intros Hs; apply StronglySorted_inv in Hs as [Hs Hx]; [done|].
  constructor; [by apply IH|]. rewrite Forall_app, Forall_cons_iff in Hx. apply Forall_app. tauto.
Qed.

Lemma sorted_snoc l n : StronglySorted lt l -> Forall (fun i => (i < n)%nat) l ->
  StronglySorted lt (l ++ [n]).
Proof.
  induction 1 as [|x l Hl IH Hx]; intros Hn; [by repeat constructor|].
  apply Forall_cons_iff in Hn as [Hxn Hn]. constructor; [by apply IH|].
  apply Forall_app. split; [done|]. by constructor.
Qed.

Lemma waiting_lt txs i : waiting txs i -> (i < length txs)%nat.
Proof. intros (t & Ht & _). by eapply lookup_lt_Some. Qed.

Lemma waiting_app txs l i : waiting txs i -> waiting (txs ++ l) i.
Proof. intros (t & Ht & Hr). exists t. split; [by apply lookup_app_l_Some|done]. Qed.

(** the oldest pending transaction that accepts the packet *)
Lemma position_accepting_spec txs pending p k :
  Forall (waiting txs) pending ->
  (exists pre i post t, pending = pre ++ i :: post /\ txs !! i = Some t /\ accepts t p = true
     /\ Forall (fun j => forall u, txs !! j = Some u -> accepts u p = false) pre
     /\ position_accepting txs pending p k
        = Ok (Some ((k + length pre)%nat, <[i := set_response (payload p) t]> txs)))
  \/ (Forall (fun j => forall u, txs !! j = Some u -> accepts u p = false) pending
      /\ position_accepting txs pending p k = Ok None).
Proof.
  intros Hw. revert k. induction Hw as [|i rest (t & Ht & _) _ IH]; intros k; [by right|].
  cbn [position_accepting]. rewrite (idx_Some _ _ _ Ht). cbn [mbind res_bind].
  rewrite try_accept_spec. cbn [mbind res_bind]. destruct (accepts t p) eqn:Ha.
  - left. exists [], i, rest, t. rewrite Nat.add_0_r. auto.
  - destruct (IH (S k)) as [(pre & j & post & u & -> & Hu & Hau & Hpre & ->)|[Hno ->]].
    + left. exists (i :: pre), j, post, u. do 3 (split; [done|]). split.
      * constructor; [|done]. intros u' Hu'. congruence.
      * cbn [length]. by rewrite Nat.add_succ_r.
    + right. split; [|done]. constructor; [|done]. intros u Hu. congruence.
Qed.

(** Processing of a packet, by cases. *)
Lemma process_packet_cases packet b : bus_inv b ->
  (get_valid_packet packet = None
   /\ process_packet packet b = Ok (b, dispatch (invalid_packets b) packet))
  \/ (exists raw e, get_valid_packet packet = Some raw /\ parsed_new raw = Err e
      /\ process_packet packet b
         = Ok (b, [LogNotice ($"Exception while parsing packet: " ++ PacketParseError_fmt e)]))
  \/ (exists raw p pre i post t, get_valid_packet packet = Some raw /\ parsed_new raw = Ok p
      /\ pending_requests b = pre ++ i :: post /\ transactions b !! i = Some t
      /\ accepts t p = true
      /\ Forall (fun j => forall u, transactions b !! j = Some u -> accepts u p = false) pre
      /\ process_packet packet b
         = Ok (mkInner (from_address b) (<[i := set_response (payload p) t]> (transactions b))
                 (pre ++ post) (next_listener_id b) (unrelated_packets b) (invalid_packets b), []))
  \/ (exists raw p, get_valid_packet packet = Some raw /\ parsed_new raw = Ok p
      /\ Forall (fun j => forall u, transactions b !! j = Some u -> accepts u p = false)
           (pending_requests b)
      /\ process_packet packet b = Ok (b, dispatch (unrelated_packets b) raw)).
Proof.
  intros [Hs Hw Ha]. unfold process_packet.
  destruct (get_valid_packet packet) as [raw|]; [right|by left].
  destruct (parsed_new_cases raw) as [Hn|(p & _ & Hn & Hraw & _)]; rewrite Hn; [left|right].
  { by exists raw, (Address IncompleteValue). }
  destruct (position_accepting_spec (transactions b) (pending_requests b) p 0 Hw)
    as [(pre & i & post & t & Hp & Ht & Hat & Hpre & Hpos)|[Hno Hpos]]; rewrite Hpos; [left|right].
  - exists raw, p, pre, i, post, t. do 6 (split; [done|]). cbn [mbind res_bind Nat.add].
    by rewrite Hp, delete_middle.
  - exists raw, p. do 3 (split; [done|]). cbn [mbind res_bind]. by rewrite Hraw.
Qed.

Lemma accepts_well t p : accepts t p = true -> answered_well (set_response (payload p) t).
Proof. intros Ha%bool_decide_eq_true. by destruct Ha as (_ & _ & ?). Qed.

(** a response leaves the other transactions alone *)
Lemma waiting_insert txs i j t : i <> j -> waiting txs j -> waiting (<[i := t]> txs) j.
Proof. intros Hij (u & Hu & Hr). exists u. by rewrite list_lookup_insert_ne. Qed.

Lemma sorted_notin pre i post : StronglySorted lt (pre ++ i :: post) ->
  Forall (fun j => i <> j) (pre ++ post).
Proof.
  induction pre as [|x pre IH]; cbn; intros Hs; apply StronglySorted_inv in Hs as [Hs Hx].
  - eapply Forall_impl; [exact Hx|]. cbn. lia.
  - constructor; [|by apply IH]. rewrite Forall_app, Forall_cons_iff in Hx. lia.
Qed.

Lemma process_packet_inv packet b : bus_inv b ->
  exists b' out, process_packet packet b = Ok (b', out) /\ bus_inv b'.
Proof.
  intros Hinv. pose proof Hinv as [Hs Hw Ha].
  destruct (process_packet_cases packet b Hinv) as
    [[_ ->]|[(raw & e & _ & _ & ->)|[(raw & p & pre & i & post & t & _ & _ & Hp & Ht & Hat & _ & ->)
    |(raw & p & _ & _ & _ & ->)]]]; eauto.
  do 2 eexists. split; [reflexivity|]. rewrite Hp in Hs, Hw.
  pose proof (sorted_notin _ _ _ Hs) as Hni. split; cbn.
  - by eapply sorted_remove.
  - rewrite Forall_app, Forall_cons_iff in Hw. destruct Hw as (Hw1 & _ & Hw2).
    eapply Forall_impl; [apply Forall_and; split; [exact Hni|apply Forall_app; split; eassumption]|].
    intros j [? ?]. by apply waiting_insert.
  - by apply Forall_insert; [|apply accepts_well].
Qed.

Lemma bus_step_inv b o : bus_inv b -> exists b', bus_step b o = Ok b' /\ bus_inv b'.
Proof.
  intros Hinv. destruct o as [f t path zero|packet|i|l|id|l]; cbn [bus_step];
    try (eexists; split; [reflexivity|]; by destruct Hinv).
  - eexists. split; [reflexivity|]. destruct Hinv as [Hs Hw Ha]. split; cbn.
    + apply sorted_snoc; [done|]. eapply Forall_impl; [exact Hw|]. apply waiting_lt.
    + apply Forall_app. split.
      * eapply Forall_impl; [exact Hw|]. intros j. apply waiting_app.
      * constructor; [|constructor]. eexists. by rewrite list_lookup_middle.
    + apply Forall_app. split; [done|]. by repeat constructor.
  - destruct (process_packet_inv packet b Hinv) as (b' & out & -> & Hb'). by exists b'.
  - eexists. split; [reflexivity|]. destruct Hinv as [Hs Hw Ha]. split; cbn.
    + by apply sorted_filter.
    + apply Forall_forall. intros j Hj. apply list_elem_of_filter in Hj as [_ Hj].
      by eapply Forall_forall in Hw.
    + done.
Qed.

Lemma build_inv f : bus_inv (build f).
Proof. split; constructor. Qed.

Lemma run_bus_inv ops b : bus_inv b -> exists b', run_bus b ops = Ok b' /\ bus_inv b'.
Proof.
  intros Hb. apply (foldM_inv bus_step (fun _ b' => bus_inv b')); [done|].
  intros _ o _ b' _ Hb'. by apply bus_step_inv.
Qed.

(** a step leaves an existing transaction as it is, or answers it while it is pending *)
Lemma bus_step_transaction b o b' i t : bus_inv b -> bus_step b o = Ok b' ->
  transactions b !! i = Some t ->
  transactions b' !! i = Some t
  \/ i ∈ pending_requests b /\ response t = None
     /\ exists d, transactions b' !! i = Some (set_response d t).
Proof.
  intros Hinv Hs Hi. destruct o as [f u path zero|packet|j|l|id|l]; cbn [bus_step] in Hs;
    try (simplify_eq; by left).
  - simplify_eq. left. cbn. by apply lookup_app_l_Some.
  - destruct (process_packet_cases packet b Hinv) as
      [[_ Hq]|[(raw & e & _ & _ & Hq)|[(raw & p & pre & j & post & u & _ & _ & Hp & Hu & _ & _ & Hq)
      |(raw & p & _ & _ & _ & Hq)]]]; rewrite Hq in Hs; cbn in Hs; simplify_eq; auto.
    cbn. destruct (decide (j = i)) as [->|Hne]; [|left; by rewrite list_lookup_insert_ne].
    right. simplify_eq. rewrite Hp. split; [set_solver|]. split.
    + pose proof (inv_waiting b Hinv) as Hw. rewrite Hp, Forall_app, Forall_cons_iff in Hw.
      destruct Hw as (_ & (t' & Ht' & Hr) & _). congruence.
    + exists (payload p). rewrite list_lookup_insert_eq; [done|by eapply lookup_lt_Some].
Qed.

(** what is not pending stays so *)
Lemma bus_step_not_pending b o b' i : bus_inv b -> bus_step b o = Ok b' ->
  (i < length (transactions b))%nat -> i ∉ pending_requests b ->
  i ∉ pending_requests b' /\ (i < length (transactions b'))%nat.
Proof.
  intros Hinv Hs Hi Hni. destruct o as [f u path zero|packet|j|l|id|l]; cbn [bus_step] in Hs;
    try (simplify_eq; by split).
  - simplify_eq. cbn. rewrite length_app. cbn. split; [|lia].
    rewrite elem_of_app, list_elem_of_singleton. intros [?|?]; [done|lia].
  - destruct (process_packet_cases packet b Hinv) as
      [[_ Hq]|[(raw & e & _ & _ & Hq)|[(raw & p & pre & j & post & u & _ & _ & Hp & Hu & _ & _ & Hq)
      |(raw & p & _ & _ & _ & Hq)]]]; rewrite Hq in Hs; cbn in Hs; simplify_eq; auto.
    cbn. rewrite length_insert. split; [|done]. rewrite Hp in Hni. set_solver.
  - simplify_eq. cbn. split; [|done]. rewrite list_elem_of_filter. tauto.
Qed.

Lemma run_bus_cons b o ops b' : run_bus b (o :: ops) = Ok b' ->
  exists b1, bus_step b o = Ok b1 /\ run_bus b1 ops = Ok b'.
Proof. unfold run_bus. cbn [foldM]. destruct (bus_step b o); [eauto|done..]. Qed.

Lemma register_response f t path zero b : 
  response_of (register f t path zero b).2 (length (transactions b)) = None.
Proof. unfold response_of. cbn. by rewrite list_lookup_middle. Qed.

(** the newest transaction is revoked *)
Lemma revoke_new b : bus_inv b ->
  filter (fun t => t <> length (transactions b)) (pending_requests b ++ [length (transactions b)])
  = pending_requests b.
Proof.
  intros Hinv. pose proof (inv_waiting b Hinv) as Hw. rewrite filter_app, filter_cons_False by tauto.
  rewrite filter_nil, app_nil_r. induction Hw as [|j l Hj _ IH]; [done|].
  rewrite filter_cons_True, IH; [done|]. apply waiting_lt in Hj. lia.
Qed.

(** a packet that only the newest request accepts answers it *)
Lemma answer_delivered b tx wire raw p (n := length (transactions b))
    (b1 := mkInner (from_address b) (transactions b ++ [tx]) (pending_requests b ++ [n])
             (next_listener_id b) (unrelated_packets b) (invalid_packets b)) :
  bus_inv b -> tx = mkTransaction (tx_to tx) (tx_from tx) (tx_path tx) (zero_namespace_answer tx) None ->
  get_valid_packet wire = Some raw -> parsed_new raw = Ok p ->
  (forall j u, j ∈ pending_requests b -> transactions b !! j = Some u -> accepts u p = false) ->
  accepts tx p = true ->
  exists b2, process_packet wire b1 = Ok (b2, []) /\ response_of b2 n = Some (payload p)
    /\ pending_requests b2 = pending_requests b.
Proof.
  intros Hinv Htx Hv Hn Hno Hacc.
  assert (transactions b1 !! n = Some tx) as Hlast by (cbn; by rewrite list_lookup_middle).
  assert (bus_inv b1) as Hinv1.
  { destruct (bus_step_inv b (DoRegister (tx_from tx) (tx_to tx) (tx_path tx) (zero_namespace_answer tx))
      Hinv) as (b' & [= <-] & Hb'). cbn in Hb'. by rewrite <- Htx in Hb'. }
  destruct (process_packet_cases wire b1 Hinv1) as
    [[? _]|[(? & e & ? & ? & _)|[(raw' & p' & pre & i & post & u & Hv' & Hn' & H1 & H2 & H3 & _ & ->)
    |(raw' & p' & Hv' & Hn' & Hno' & _)]]]; [congruence|congruence|..];
    (assert (p' = p) as -> by congruence).
  - eexists. split; [reflexivity|]. cbn in H1.
    destruct (decide (i = n)) as [->|Hne].
    + assert (post = [] /\ pre = pending_requests b) as [-> ->].
      { destruct post as [|x post _] using rev_ind.
        - by apply app_inj_tail in H1 as [? _].
        - exfalso. pose proof (inv_sorted b1 Hinv1) as Hs. cbn in Hs. rewrite H1 in Hs.
          apply sorted_notin in Hs. rewrite app_comm_cons, app_assoc in H1.
          apply app_inj_tail in H1 as [_ <-]. rewrite !Forall_app, Forall_cons_iff in Hs. tauto. }
      unfold response_of. cbn. rewrite list_lookup_insert_eq by (rewrite length_app; cbn; lia).
      rewrite app_nil_r. split; [|done]. by rewrite Hlast in H2; simplify_eq.
    + exfalso. assert (i ∈ pending_requests b) as Hi.
      { assert (i ∈ pending_requests b ++ [n]) as Hin by (rewrite H1; set_solver). set_solver. }
      pose proof (inv_waiting b Hinv) as Hw. eapply Forall_forall in Hw; [|exact Hi].
      cbn in H2. rewrite lookup_app_l in H2 by by apply waiting_lt.
      by rewrite (Hno _ _ Hi H2) in H3.
  - exfalso. cbn in Hno'. apply Forall_app in Hno' as [_ Hno']. apply Forall_cons_iff in Hno' as [Hx _].
    by rewrite (Hx tx Hlast) in Hacc.
Qed.

Lemma append_bytes {NB : NumBigint} body a :
  append_elements [VBytes body] a = (Ok tt, mkAssembler (buffer a ++ body)).
Proof. done. Qed.

(** ** Properties *)


(** the bus of the examples: it awaits the answer of a call of [1:0] on device 16 *)
Definition example_bus : Inner := (register 63 16 [1; 0] true (build 63)).2.
Definition example_answer : list Z := [0x3f; 0x10; 0; 1; 0; crc8 [0x3f; 0x10; 0; 1; 0]].

Lemma example_bus_inv : bus_inv example_bus.
Proof.
  destruct (bus_step_inv (build 63) (DoRegister 63 16 [1; 0] true) (build_inv 63)) as (b & Hb & Hi).
  by injection Hb as <-.
Qed.


(** C22: Bus invariant.  Whatever clients, handles and the receiver do, in any
    order, nothing panics, the pending requests stand in the order of their
    registration without repetition, none of them has a response, and every
    response that was stored starts with the (0 and the) path its request
    asked for. *)
Theorem bus_runs_keep_invariant f ops :
  exists b, run_bus (build f) ops = Ok b /\ bus_inv b /\ NoDup (pending_requests b).
Proof.
  destruct (run_bus_inv ops (build f) (build_inv f)) as (b & Hb & Hi). exists b.
  split; [done|]. split; [done|]. clear Hb. destruct Hi as [Hs _ _].
  induction Hs as [|x l Hl IH Hx]; [constructor|]. constructor; [|done].
  intros Hin. eapply Forall_forall in Hx; [|done]. cbn in Hx. lia.
Qed.

(** A response is final.  Once a handle sees a response, every later run
    of the bus leaves it there unchanged. *)
Theorem response_is_final b ops b' i d :
  bus_inv b -> run_bus b ops = Ok b' -> response_of b i = Some d -> response_of b' i = Some d.
Proof.
  intros Hinv Hr Hd. revert b Hinv Hr Hd. induction ops as [|o ops IH]; intros b Hinv Hr Hd.
  - by injection Hr as <-.
  - apply run_bus_cons in Hr as (b1 & Hs & Hr).
    destruct (bus_step_inv b o Hinv) as (b2 & Hs2 & Hi). rewrite Hs in Hs2. simplify_eq.
    apply (IH b2); [done|done|]. unfold response_of in *.
    destruct (transactions b !! i) as [t|] eqn:Ht; [|done]. cbn in Hd.
    destruct (bus_step_transaction _ _ _ _ _ Hinv Hs Ht) as [->|(_ & ? & _)]; [done|congruence].
Qed.

Lemma response_is_final_witness :
  exists b' b'', run_bus example_bus [DoPacket example_answer] = Ok b'
    /\ run_bus b' [DoPacket example_answer; DoDrop 0] = Ok b'' /\ response_of b'' 0 = Some [0; 1; 0].
Proof.
  destruct (run_bus_inv [DoPacket example_answer] example_bus example_bus_inv) as (b' & Hb' & Hi).
  destruct (run_bus_inv [DoPacket example_answer; DoDrop 0] b' Hi) as (b'' & Hb'' & _).
  exists b', b''. split; [done|]. split; [done|].
  apply (response_is_final b' [DoPacket example_answer; DoDrop 0]); [done|done|].
  vm_compute in Hb'. injection Hb' as <-. vm_compute. reflexivity.
Defined.

(** A dropped handle.  After the handle of an unanswered request is
    dropped, no packet is ever paired with it: its response stays empty, and
    packets it would have accepted are free for the other requests and for the
    listeners. *)
Theorem dropped_never_answered b ops b' i :
  bus_inv b -> (i < length (transactions b))%nat -> response_of b i = None ->
  run_bus b (DoDrop i :: ops) = Ok b' ->
  i ∉ pending_requests b' /\ response_of b' i = None.
Proof.
  intros Hinv Hi Hd Hr. apply run_bus_cons in Hr as (b1 & [= <-] & Hr).
  assert (bus_inv (revoke_pending_request i b)) as Hinv1.
  { destruct (bus_step_inv b (DoDrop i) Hinv) as (b2 & [= <-] & ?). done. }
  assert (i ∉ pending_requests (revoke_pending_request i b)) as Hni
    by (cbn; rewrite list_elem_of_filter; naive_solver).
  revert Hr Hinv1 Hni. change (response_of b i) with (response_of (revoke_pending_request i b) i) in Hd.
  change (transactions b) with (transactions (revoke_pending_request i b)) in Hi. revert Hi Hd.
  generalize (revoke_pending_request i b) as c. clear b Hinv.
  induction ops as [|o ops IH]; intros c Hi Hd Hr Hinv Hni.
  - by injection Hr as <-.
  - apply run_bus_cons in Hr as (c1 & Hs & Hr).
    destruct (bus_step_inv c o Hinv) as (c2 & Hs2 & Hinv2). rewrite Hs in Hs2. simplify_eq.
    destruct (bus_step_not_pending _ _ _ _ Hinv Hs Hi Hni) as [Hni' Hi'].
    apply (IH c2); try done. unfold response_of in *.
    destruct (lookup_lt_is_Some_2 _ _ Hi) as [t Ht]. rewrite Ht in Hd. cbn in Hd.
    by destruct (bus_step_transaction _ _ _ _ _ Hinv Hs Ht) as [->|[? _]].
Qed.

Lemma dropped_never_answered_witness :
  exists b', run_bus example_bus [DoDrop 0; DoPacket example_answer] = Ok b'
    /\ 0%nat ∉ pending_requests b' /\ response_of b' 0 = None.
Proof.
  destruct (run_bus_inv [DoDrop 0; DoPacket example_answer] example_bus example_bus_inv)
    as (b' & Hb' & _).
  exists b'. split; [done|].
  apply (dropped_never_answered example_bus [DoPacket example_answer]);
    [apply example_bus_inv|cbn; lia|reflexivity|done].
Defined.

(** Waiting.  [wait_response] returns the response exactly when it is
    there at an iteration before which the deadline had not been reached, gives
    up at the first iteration at or after the deadline without a response, and
    otherwise goes on waiting. *)
Theorem wait_response_spec deadline wakeups :
  match wait_response deadline wakeups with
  | Some (Some d) => exists pre now post, wakeups = pre ++ (Some d, now) :: post
      /\ Forall (fun w => w.1 = None /\ w.2 < deadline) pre
  | Some None => exists pre now post, wakeups = pre ++ (None, now) :: post /\ deadline <= now
      /\ Forall (fun w => w.1 = None /\ w.2 < deadline) pre
  | None => Forall (fun w => w.1 = None /\ w.2 < deadline) wakeups
  end.
Proof.
  induction wakeups as [|[[d|] now] t IH]; cbn [wait_response].
  - constructor.
  - exists [], now, t. by split; [|constructor].
  - destruct (deadline <=? now) eqn:Hn; breflect.
    + exists [], now, t. by split; [|split; [|constructor]].
    + destruct (wait_response deadline t) as [[d|]|].
      * destruct IH as (pre & now' & post & -> & Hp). exists ((None, now) :: pre), now', post.
        split; [done|]. by constructor.
      * destruct IH as (pre & now' & post & -> & Hd & Hp).
        exists ((None, now) :: pre), now', post. split; [done|]. split; [done|]. by constructor.
      * by constructor.
Qed.

Section Requests.
Context {NB : NumBigint}.

(** Request and answer.  When the packet of a transaction is sent, the
    transaction waits, and the answer of the device (built with [to_packet] in
    the reverse direction: the optional 0, the path, any bytes) is delivered
    to it, to no listener and to no other request, unless an older pending
    request accepts the same packet; when sending fails the request leaves no
    pending entry behind. *)
Theorem transaction_answered send t path body zero b rest :
  bus_inv b -> in_i 32 (from_address b) -> in_i 32 t ->
  let answer := (if zero : bool then [0] else []) ++ path ++ rest in
  let n := length (transactions b) in
  exists packet, to_packet t (from_address b) [VBytes body] = Ok packet
  /\ (forall e, send packet = Some e ->
       exists b1, new_transaction send t path body zero b = (Err e, b1)
         /\ pending_requests b1 = pending_requests b)
  /\ (send packet = None ->
       exists b1 wire, new_transaction send t path body zero b = (Ok n, b1)
         /\ response_of b1 n = None
         /\ to_packet (from_address b) t [VBytes answer] = Ok wire
         /\ ((forall j u p, j ∈ pending_requests b -> transactions b !! j = Some u ->
               from p = t -> to p = from_address b -> payload p = answer -> accepts u p = false) ->
            exists b2, process_packet wire b1 = Ok (b2, []) /\ response_of b2 n = Some answer
              /\ pending_requests b2 = pending_requests b)).
Proof.
  intros Hinv Hf Ht answer n.
  destruct (to_packet_parsed t (from_address b) _ _ (append_bytes body)) as (packet & _ & Hpk & _);
    [done..|].
  exists packet. split; [done|]. unfold new_transaction. rewrite Hpk. unfold register. split.
  - intros e ->. eexists. split; [reflexivity|]. cbn. by apply revoke_new.
  - intros ->.
    destruct (to_packet_parsed (from_address b) t _ _ (append_bytes answer))
      as (wire & raw & Hw & Hv & Hn); [done..|].
    do 2 eexists. split; [reflexivity|]. split; [apply (register_response (from_address b))|].
    split; [exact Hw|]. intros Hno. 
    apply (answer_delivered b (mkTransaction t (from_address b) path zero None) wire raw
      (mkPacket raw t (from_address b) answer None None)); [done..| |].
    { intros j u Hj Hu. by eapply Hno. }
    unfold accepts, answer_prefix. cbn [to from payload tx_from tx_to tx_path zero_namespace_answer].
    apply bool_decide_true. split; [done|]. split; [done|]. unfold answer.
    by rewrite app_assoc, take_app_length.
Qed.
End Requests.

Lemma transaction_answered_witness :
  exists packet, @to_packet num_bigint_ref 16 63 [VBytes [1; 0]] = Ok packet
    /\ exists b1 wire b2, @new_transaction num_bigint_ref (fun _ => None) 16 [1; 0] [1; 0] true (build 63)
         = (Ok 0%nat, b1)
      /\ @to_packet num_bigint_ref 63 16 [VBytes [0; 1; 0; 9]] = Ok wire
      /\ process_packet wire b1 = Ok (b2, []) /\ response_of b2 0 = Some [0; 1; 0; 9].
Proof.
  destruct (@transaction_answered num_bigint_ref (fun _ => None) 16 [1; 0] [1; 0] true (build 63) [9])
    as (packet & Hp & _ & Hok); [apply build_inv|by split|by split|].
  exists packet. split; [done|]. destruct (Hok eq_refl) as (b1 & wire & H1 & _ & H2 & H3).
  destruct H3 as (b2 & H3 & H4 & _); [by intros j u p Hj%not_elem_of_nil|]. eauto 10.
Defined.
