(* ===== verification/Json.v ===== *)
(** * JSON values

    The part of serde_json that the RPC server and client use.  A [Value] of
    the crate is [Json]; an object is a [BTreeMap], the list of its entries in
    the order of the keys.  Printing and parsing the text of a value are the
    operations of the class [SerdeJson], with the behaviour that the crate
    documents as laws: the text is one line, and it is parsed to the value it
    was printed from. *)

From stdpp Require Import base list numbers option strings countable sorting.
From Stdlib Require Import ZArith Lia.
From S2P Require Import Prelude RustStd.

(** [serde_json::Number]; a float is represented by its bits *)
Inductive Number : Type :=
| PosInt (n : Z)
| NegInt (n : Z)
| Float (bits : Z).

Inductive Json : Type :=
| JNull
| JBool (b : bool)
| JNumber (n : Number)
| JString (s : str)
| JArray (l : list Json)
| JObject (m : list (str * Json)).

(** ** Maps *)

Fixpoint map_get (key : str) (m : list (str * Json)) : option Json :=
  match m with
  | [] => None
  | (k, v) :: t => if bool_decide (key = k) then Some v else map_get key t
  end.

(** [BTreeMap::insert] *)
Fixpoint map_insert (key : str) (v : Json) (m : list (str * Json)) : list (str * Json) :=
  match m with
  | [] => [(key, v)]
  | (k, w) :: t =>
    if bool_decide (key = k) then (key, v) :: t
    else if str_leb key k then (key, v) :: m
    else (k, w) :: map_insert key v t
  end.

(** [json!({ .. })] *)
Definition json_object (l : list (str * Json)) : Json :=
  JObject (foldl (fun m e => map_insert e.1 e.2 m) [] l).

(** ** Accessors *)

(** [Value::get] with a string index *)
Definition get (key : str) (v : Json) : option Json :=
  match v with JObject m => map_get key m | _ => None end.
Definition as_str (v : Json) : option str :=
  match v with JString s => Some s | _ => None end.
Definition as_array (v : Json) : option (list Json) :=
  match v with JArray l => Some l | _ => None end.
Definition as_u64 (v : Json) : option Z :=
  match v with JNumber (PosInt n) => Some n | _ => None end.
Definition is_null (v : Json) : bool := match v with JNull => true | _ => false end.

(** ** Text *)

Section Induction.
Variable P : Json -> Prop.
Hypothesis Hnull : P JNull.
Hypothesis Hbool : forall b, P (JBool b).
Hypothesis Hnumber : forall n, P (JNumber n).
Hypothesis Hstring : forall s, P (JString s).
Hypothesis Harray : forall l, Forall P l -> P (JArray l).
Hypothesis Hobject : forall m, Forall (fun e => P e.2) m -> P (JObject m).

Fixpoint Json_ind' (v : Json) : P v :=
  match v with
  | JNull => Hnull
  | JBool b => Hbool b
  | JNumber n => Hnumber n
  | JString s => Hstring s
  | JArray l => Harray l ((fix all (l : list Json) : Forall P l :=
      match l with
      | [] => Forall_nil_2 P
      | x :: t => Forall_cons_2 P x t (Json_ind' x) (all t)
      end) l)
  | JObject m => Hobject m ((fix all (m : list (str * Json)) : Forall (fun e => P e.2) m :=
      match m with
      | [] => Forall_nil_2 _
      | (k, x) :: t => Forall_cons_2 (fun e => P e.2) (k, x) t (Json_ind' x) (all t)
      end) m)
  end.
End Induction.

(** values that can be printed: integers within their types, no floats (which
    may lose precision), strings of chars, keys in order *)
Fixpoint printable (v : Json) : Prop :=
  match v with
  | JNull | JBool _ => True
  | JNumber (PosInt n) => in_u 64 n
  | JNumber (NegInt n) => - 2 ^ 63 <= n < 0
  | JNumber (Float _) => False
  | JString s => valid_str s
  | JArray l => (fix all l := match l with [] => True | x :: t => printable x /\ all t end) l
  | JObject m =>
      StronglySorted (fun a b => str_leb a b = true /\ a <> b) m.*1
      /\ (fix all m := match m with [] => True | (k, x) :: t => valid_str k /\ printable x /\ all t end) m
  end.

Class SerdeJson : Type := {
  to_string : Json -> str;
  from_str : str -> option Json;
  from_str_to_string : forall v, printable v -> from_str (to_string v) = Some v;
  to_string_one_line : forall v, printable v -> Forall (fun c => c <> 10) (to_string v);
  to_string_number : forall n, in_u 64 n -> to_string (JNumber (PosInt n)) = show_nat n;
}.

(** ** An instance

    Numbers are printed in digits, every other value as the number of the value
    in an enumeration of all values: a printer and a parser with the laws above,
    not the text format of the crate. *)

Definition leaf : Type := Z * list Z.

Fixpoint json_tree (v : Json) : gen_tree leaf :=
  match v with
  | JNull => GenLeaf (0, [])
  | JBool b => GenLeaf (1, if b then [1] else [])
  | JNumber (PosInt n) => GenLeaf (2, [n])
  | JNumber (NegInt n) => GenLeaf (3, [n])
  | JNumber (Float n) => GenLeaf (4, [n])
  | JString s => GenLeaf (5, s)
  | JArray l => GenNode 0 (map json_tree l)
  | JObject m => GenNode 1 (map (fun '(k, x) => GenNode 2 [GenLeaf (6, k); json_tree x]) m)
  end.

Definition leaf_json (l : leaf) : Json :=
  let '(tag, d) := l in
  let n := default 0 (head d) in
  if tag =? 0 then JNull
  else if tag =? 1 then JBool (bool_decide (d = [1]))
  else if tag =? 2 then JNumber (PosInt n)
  else if tag =? 3 then JNumber (NegInt n)
  else if tag =? 4 then JNumber (Float n)
  else JString d.

Fixpoint tree_json (t : gen_tree leaf) : Json :=
  match t with
  | GenLeaf l => leaf_json l
  | GenNode 0 l => JArray (map tree_json l)
  | GenNode _ l =>
    JObject (map (fun t => match t with
                           | GenNode _ [GenLeaf (_, k); x] => (k, tree_json x)
                           | _ => ([], JNull)
                           end) l)
  end.

Lemma tree_json_tree v : tree_json (json_tree v) = v.
Proof.
  revert v. apply Json_ind'; try done.
  - by intros [].
  - by intros [].
  - intros l Hl. cbn. f_equal. induction Hl as [|x t Hx _ IH]; [done|]. cbn. by rewrite Hx, IH.
  - intros m Hm. cbn. f_equal. induction Hm as [|[k x] t Hx _ IH]; [done|]. cbn in *. by rewrite Hx, IH.
Qed.

#[local] Instance Json_eq_dec : EqDecision Json.
Proof.
  refine (fun a b => match decide (json_tree a = json_tree b) with
                     | left H => left _ | right H => right _ end).
  - rewrite <- (tree_json_tree a), <- (tree_json_tree b). by f_equal.
  - intros ->. by apply H.
Defined.

#[local] Instance Json_countable : Countable Json := inj_countable' json_tree tree_json tree_json_tree.

Definition to_string_ref (v : Json) : str :=
  match v with
  | JNumber (PosInt n) => show_nat n
  | _ => 120 :: show_nat (Zpos (encode v))
  end.

Definition from_str_ref (s : str) : option Json :=
  match s with
  | c :: t => if c =? 120 then n ← parse_digits t; decode (Z.to_pos n)
              else n ← parse_digits s; Some (JNumber (PosInt n))
  | [] => None
  end.

Lemma from_str_ref_number n : 0 <= n -> from_str_ref (show_nat n) = Some (JNumber (PosInt n)).
Proof.
  intros Hn. pose proof (show_nat_digits n Hn) as Hd. pose proof (parse_show_nat n Hn) as Hp.
  destruct (show_nat n) as [|c t] eqn:Hs; [by apply show_nat_nonempty in Hs|].
  apply Forall_cons_iff in Hd as [Hc _]. unfold from_str_ref.
  rewrite (proj2 (Z.eqb_neq c 120)) by lia. by rewrite Hp.
Qed.

Lemma from_str_ref_other v : from_str_ref (120 :: show_nat (Zpos (encode v))) = Some v.
Proof. unfold from_str_ref. rewrite Z.eqb_refl, parse_show_nat by lia. apply decode_encode. Qed.

Lemma show_nat_line n : 0 <= n -> Forall (fun c => c <> 10) (show_nat n).
Proof. intros Hn. eapply Forall_impl; [by apply show_nat_digits|]. cbn. lia. Qed.

#[local] Program Instance serde_ref : SerdeJson := {
  to_string := to_string_ref;
  from_str := from_str_ref;
}.
Next Obligation.
  intros v Hv. destruct v as [| |[n|n|n]| | |]; try apply from_str_ref_other.
  apply from_str_ref_number. cbn in Hv. unfold in_u in Hv. lia.
Qed.
Next Obligation.
  intros v Hv. destruct v as [| |[n|n|n]| | |]; try (constructor; [done|by apply show_nat_line]).
  apply show_nat_line. cbn in Hv. unfold in_u in Hv. lia.
Qed.
Next Obligation. done. Qed.
