(* ===== verification/Endpoint.v ===== *)
(** * The RPC endpoint: sessions of the clients

    Models [src/rpc/endpoint.rs]: the packet queues of the sessions, the
    distribution of gateway packets and of sent packets, closing.  The
    [Arc<Session>]s live in a store ([store], a pointer is an index) that the
    session list of the endpoint and the handles share.  [take] waits on a
    condition variable: one look at the queue gives a packet, the end, or [None]
    while it goes on waiting.  [new_session] is not atomic in the source: its
    check of [closed] and its push are separate steps.  The connector is a
    parameter: what it returns for a packet. *)

From stdpp Require Import base list numbers option strings sets.
From Stdlib Require Import ZArith Lia.
From S2P Require Import Prelude RustStd.

(** ** Sessions *)

Definition ATTR_LOOPBACK_SEND_PACKETS : str := $"loopback_send_packets".
Definition ATTR_ECHO_LOOPBACK : str := $"echo_loopback".

Record Session : Type := mkSession {
  echo_loopback : bool;
  loopback_send_packets : bool;
  packets : list (list Z);
  session_closed : bool;
}.

Definition put (packet : list Z) (s : Session) : Session :=
  if session_closed s then s
  else mkSession (echo_loopback s) (loopback_send_packets s) (packets s ++ [packet]) false.

Definition end_of_receive : str := $"End of receive.".

(** one look of [take] at the queue *)
Definition take_packet (s : Session) : option (res str (list Z)) * Session :=
  match packets s with
  | p :: rest =>
    (Some (Ok p), mkSession (echo_loopback s) (loopback_send_packets s) rest (session_closed s))
  | [] => (if session_closed s then Some (Err end_of_receive) else None, s)
  end.

Definition session_close (s : Session) : Session :=
  mkSession (echo_loopback s) (loopback_send_packets s) (packets s) true.

Definition show_bool (b : bool) : str := if b then $"true" else $"false".

Definition parse_bool (value : str) : option bool :=
  let v := to_ascii_lowercase (trim value) in
  if bool_decide (v = $"true") || bool_decide (v = $"1") then Some true
  else if bool_decide (v = $"false") || bool_decide (v = $"0") then Some false
  else None.

Definition get_attribute (key : str) (s : Session) : option str :=
  if bool_decide (key = ATTR_LOOPBACK_SEND_PACKETS) then Some (show_bool (loopback_send_packets s))
  else if bool_decide (key = ATTR_ECHO_LOOPBACK) then Some (show_bool (echo_loopback s))
  else None.

Definition set_attribute (key value : str) (s : Session) : res str unit * Session :=
  let refused := Err ($"The given value `" ++ value ++ $"` can not be casted to boolean.") in
  if bool_decide (key = ATTR_LOOPBACK_SEND_PACKETS) then
    match parse_bool value with
    | Some b => (Ok tt, mkSession (echo_loopback s) b (packets s) (session_closed s))
    | None => (refused, s)
    end
  else if bool_decide (key = ATTR_ECHO_LOOPBACK) then
    match parse_bool value with
    | Some b => (Ok tt, mkSession b (loopback_send_packets s) (packets s) (session_closed s))
    | None => (refused, s)
    end
  else (Ok tt, s).

(** ** The endpoint *)

Record Endpoint : Type := mkEndpoint {
  store : list Session;
  sessions : list nat;
  closed : bool;
  default_echo_loopback : bool;
  default_loopback_send_packets : bool;
}.

Definition endpoint_new (echo loopback : bool) : Endpoint := mkEndpoint [] [] false echo loopback.
Definition new_dummy : Endpoint := endpoint_new false true.

Definition with_store (st : list Session) (e : Endpoint) : Endpoint :=
  mkEndpoint st (sessions e) (closed e) (default_echo_loopback e) (default_loopback_send_packets e).

Definition with_session (i : nat) (f : Session -> Session) (e : Endpoint) : Endpoint :=
  with_store (alter f i (store e)) e.

(** the first step of [new_session] *)
Definition new_session_check (e : Endpoint) : res str unit :=
  if closed e then Err end_of_receive else Ok tt.

(** the second step: the pointer of the session *)
Definition new_session_push (e : Endpoint) : nat * Endpoint :=
  let i := length (store e) in
  (i, mkEndpoint (store e ++ [mkSession (default_echo_loopback e) (default_loopback_send_packets e) [] false])
        (sessions e ++ [i]) (closed e) (default_echo_loopback e) (default_loopback_send_packets e)).

(** both steps without interruption *)
Definition new_session (e : Endpoint) : res str nat * Endpoint :=
  match new_session_check e with
  | Ok _ => let '(i, e) := new_session_push e in (Ok i, e)
  | Err err => (Err err, e)
  | Panic => (Panic, e)
  end.

Definition create_new_connection (e : Endpoint) : res str nat * Endpoint :=
  if closed e then (Err $"Distributor closed", e) else new_session e.

Definition remove_session (i : nat) (e : Endpoint) : Endpoint :=
  with_session i session_close
    (mkEndpoint (store e) (filter (fun s => s <> i) (sessions e)) (closed e)
       (default_echo_loopback e) (default_loopback_send_packets e)).

Definition session_count (e : Endpoint) : nat := length (sessions e).

(** the packet hook of the connector: every session gets the packet *)
Definition gateway_packet (packet : list Z) (e : Endpoint) : Endpoint :=
  foldl (fun e i => with_session i (put packet) e) e (sessions e).

Definition put_sent (data : list Z) (s : Session) : Session :=
  if loopback_send_packets s || echo_loopback s then put data s else s.

(** [sent = Some error]: the connector could not send *)
Definition send_packet (sent : option str) (data : list Z) (e : Endpoint) : res str unit * Endpoint :=
  match sent with
  | Some err => (Err err, e)
  | None => (Ok tt, foldl (fun e i => with_session i (put_sent data) e) e (sessions e))
  end.

Definition endpoint_close (e : Endpoint) : Endpoint :=
  foldl (fun e i => with_session i session_close e)
    (mkEndpoint (store e) [] true (default_echo_loopback e) (default_loopback_send_packets e))
    (sessions e).

Definition is_closed (e : Endpoint) : bool := closed e.

(** the attributes that are announced, with their descriptions *)
Definition list_attributes : list (str * str) :=
  [(ATTR_LOOPBACK_SEND_PACKETS,
    $"The call of `getNextPacket` functions returns also the you sent with `sendPacket`. Used to implement full network sniffing")].

(** ** Connections in this process *)

(** [InProcessConnection]: the endpoint is shared, the connection is its session *)
Definition conn_init (session : nat) (e : Endpoint) : res str unit := Ok tt.
Definition conn_send_packet (sent : option str) (data : list Z) (e : Endpoint) : res str unit * Endpoint :=
  send_packet sent data e.
Definition conn_list_attributes : res str (list (str * str)) := Ok list_attributes.
Definition conn_get_attribute (session : nat) (key : str) (e : Endpoint) : res str (option str) :=
  Ok (s ← store e !! session; get_attribute key s).
Definition conn_set_attribute (session : nat) (key value : str) (e : Endpoint) : res str unit * Endpoint :=
  match store e !! session with
  | Some s => let '(r, s) := set_attribute key value s in (r, with_session session (fun _ => s) e)
  | None => (Panic, e)
  end.
Definition conn_get_next_packet (session : nat) (e : Endpoint) : option (res str (list Z)) * Endpoint :=
  match store e !! session with
  | Some s => let '(r, s) := take_packet s in (r, with_session session (fun _ => s) e)
  | None => (Some Panic, e)
  end.
(** also when the connection is dropped *)
Definition conn_close (session : nat) (e : Endpoint) : Endpoint := remove_session session e.

(** ** Runs *)

Inductive ep_op : Type :=
| DoNewPush
| DoGateway (packet : list Z)
| DoSend (sent : option str) (data : list Z)
| DoTake (i : nat)
| DoRemove (i : nat)
| DoSet (i : nat) (key value : str)
| DoClose
| DoShut (i : nat).

Definition ep_step (e : Endpoint) (o : ep_op) : Endpoint :=
  match o with
  | DoNewPush => (new_session_push e).2
  | DoGateway packet => gateway_packet packet e
  | DoSend sent data => (send_packet sent data e).2
  | DoTake i => with_session i (fun s => (take_packet s).2) e
  | DoRemove i => remove_session i e
  | DoSet i key value => with_session i (fun s => (set_attribute key value s).2) e
  | DoClose => endpoint_close e
  | DoShut i => with_session i session_close e
  end.

Definition run_ep (e : Endpoint) (ops : list ep_op) : Endpoint := foldl ep_step e ops.

(** ** The stream of a session *)

Definition queue_of (e : Endpoint) (i : nat) : list (list Z) :=
  match store e !! i with Some s => packets s | None => [] end.

(** the packets that the step [o] has for session [i]: gateway packets for
    every registered session that is open, sent packets for those that asked *)
Definition offered (i : nat) (e : Endpoint) (o : ep_op) : list (list Z) :=
  match store e !! i with
  | Some s =>
    if session_closed s || negb (bool_decide (i ∈ sessions e)) then [] else
    match o with
    | DoGateway packet => [packet]
    | DoSend None data => if loopback_send_packets s || echo_loopback s then [data] else []
    | _ => []
    end
  | None => []
  end.

(** the packet that the step [o] gives to the receiver of session [i] *)
Definition taken (i : nat) (e : Endpoint) (o : ep_op) : list (list Z) :=
  match o with
  | DoTake j =>
    if bool_decide (j = i) then
      match store e !! i with
      | Some s => match (take_packet s).1 with Some (Ok p) => [p] | _ => [] end
      | None => []
      end
    else []
  | _ => []
  end.

(** both over a run *)
Fixpoint offered_run (i : nat) (e : Endpoint) (ops : list ep_op) : list (list Z) :=
  match ops with
  | [] => []
  | o :: t => offered i e o ++ offered_run i (ep_step e o) t
  end.

Fixpoint taken_run (i : nat) (e : Endpoint) (ops : list ep_op) : list (list Z) :=
  match ops with
  | [] => []
  | o :: t => taken i e o ++ taken_run i (ep_step e o) t
  end.

(** ** Lemmas: the store *)

Record ep_inv (e : Endpoint) : Prop := {
  ep_nodup : NoDup (sessions e);
  ep_range : Forall (fun i => (i < length (store e))%nat) (sessions e);
}.

Lemma fold_with_session f l e :
  foldl (fun e i => with_session i f e) e l
  = with_store (foldl (fun st i => alter f i st) (store e) l) e.
Proof.
  revert e. induction l as [|i l IH]; intros e; [by destruct e|]. cbn [foldl]. by rewrite IH.
Qed.

Lemma fold_alter_lookup (f : Session -> Session) (l : list nat) (st : list Session) (i : nat) : NoDup l ->
  foldl (fun st i => alter f i st) st l !! i
  = if bool_decide (i ∈ l) then f <$> st !! i else st !! i.
Proof.
  intros Hl. revert st. induction Hl as [|j l Hj _ IH]; intros st; [done|]. cbn [foldl].
  rewrite IH. destruct (decide (j = i)) as [->|Hne].
  - rewrite (bool_decide_false (i ∈ l)), (bool_decide_true (i ∈ i :: l)) by (done || set_solver).
    apply list_lookup_alter_eq.
  - rewrite list_lookup_alter_ne by done.
    by rewrite (bool_decide_ext (i ∈ j :: l) (i ∈ l)) by set_solver.
Qed.

Lemma fold_alter_length (f : Session -> Session) (l : list nat) (st : list Session) :
  length (foldl (fun st i => alter f i st) st l) = length st.
Proof. revert st. induction l as [|i l IH]; intros st; [done|]. cbn. by rewrite IH, length_alter. Qed.

Lemma with_session_lookup i f e j :
  store (with_session i f e) !! j = if bool_decide (j = i) then f <$> store e !! j else store e !! j.
Proof.
  cbn. case_bool_decide as H; [subst; apply list_lookup_alter_eq|by rewrite list_lookup_alter_ne].
Qed.

Lemma ep_step_inv e o : ep_inv e -> ep_inv (ep_step e o).
Proof.
  intros [Hn Hr]. destruct o as [|p|[err|] d|i|i|i k v| |i]; cbn [ep_step send_packet snd];
    unfold gateway_packet, endpoint_close; rewrite ?fold_with_session; split; cbn [sessions store with_store
      new_session_push snd with_session remove_session]; rewrite ?fold_alter_length, ?length_alter; try done.
  - apply NoDup_app. split; [done|]. split; [|apply NoDup_singleton].
    intros x Hx Hx'%list_elem_of_singleton. eapply Forall_forall in Hr; [|exact Hx]. cbn in Hr. lia.
  - rewrite length_app. cbn. apply Forall_app. split.
    + eapply Forall_impl; [exact Hr|]. cbn. lia.
    + constructor; [lia|constructor].
  - by apply NoDup_filter.
  - apply Forall_forall. intros x Hx%list_elem_of_filter. destruct Hx as [_ Hx].
    by eapply Forall_forall in Hr.
  - constructor.
Qed.

Lemma run_ep_inv e ops : ep_inv e -> ep_inv (run_ep e ops).
Proof.
  revert e. induction ops as [|o t IH]; intros e He; [done|]. cbn. by apply IH, ep_step_inv.
Qed.

(** sessions are never taken out of the store *)
Lemma ep_step_length e o : (length (store e) <= length (store (ep_step e o)))%nat.
Proof.
  destruct o as [|p|[err|] d|i|i|i k v| |i]; cbn [ep_step send_packet snd]; unfold gateway_packet, endpoint_close;
    rewrite ?fold_with_session; cbn [store with_store new_session_push snd with_session remove_session];
    rewrite ?fold_alter_length, ?length_alter, ?length_app; lia.
Qed.

Lemma run_ep_length e ops : (length (store e) <= length (store (run_ep e ops)))%nat.
Proof.
  revert e. induction ops as [|o t IH]; intros e; [done|]. cbn.
  etrans; [apply ep_step_length|apply IH].
Qed.

Lemma run_ep_app e ops1 ops2 : run_ep e (ops1 ++ ops2) = run_ep (run_ep e ops1) ops2.
Proof. apply foldl_app. Qed.

(** what a step does to the session [i] *)
Definition session_step (i : nat) (e : Endpoint) (o : ep_op) (s : Session) : Session :=
  let mine := bool_decide (i ∈ sessions e) in
  match o with
  | DoGateway packet => if mine then put packet s else s
  | DoSend None data => if mine then put_sent data s else s
  | DoTake j => if bool_decide (i = j) then (take_packet s).2 else s
  | DoRemove j => if bool_decide (i = j) then session_close s else s
  | DoSet j key value => if bool_decide (i = j) then (set_attribute key value s).2 else s
  | DoClose => if mine then session_close s else s
  | DoShut j => if bool_decide (i = j) then session_close s else s
  | _ => s
  end.

Lemma ep_step_lookup e o i s : ep_inv e -> store e !! i = Some s ->
  store (ep_step e o) !! i = Some (session_step i e o s).
Proof.
  intros [Hn Hr] Hs. destruct o as [|p|[err|] d|j|j|j k v| |j]; cbn [ep_step send_packet snd session_step].
  - cbn. by apply lookup_app_l_Some.
  - unfold gateway_packet. rewrite fold_with_session. cbn. rewrite fold_alter_lookup, Hs by done.
    by case_bool_decide.
  - done.
  - rewrite fold_with_session. cbn. rewrite fold_alter_lookup, Hs by done. by case_bool_decide.
  - rewrite with_session_lookup, Hs. by case_bool_decide.
  - unfold remove_session. rewrite with_session_lookup. cbn [store]. rewrite Hs. by case_bool_decide.
  - rewrite with_session_lookup, Hs. by case_bool_decide.
  - unfold endpoint_close. rewrite fold_with_session. cbn. rewrite fold_alter_lookup, Hs by done.
    by case_bool_decide.
  - rewrite with_session_lookup, Hs. by case_bool_decide.
Qed.

Lemma set_attribute_packets key value s : packets (set_attribute key value s).2 = packets s
  /\ session_closed (set_attribute key value s).2 = session_closed s.
Proof. unfold set_attribute. repeat case_bool_decide; by destruct (parse_bool value). Qed.

(** one step of the stream *)
Lemma fifo_step e o i s : ep_inv e -> store e !! i = Some s ->
  packets s ++ offered i e o = taken i e o ++ packets (session_step i e o s).
Proof.
  intros Hinv Hs. unfold offered, taken, session_step. rewrite Hs.
  assert (forall b : bool, (if b then [] else []) = ([] : list (list Z))) as Hnil by by intros [].
  destruct o as [|p|[err|] d|j|j|j k v| |j]; rewrite ?Hnil, ?app_nil_r; try done.
  - unfold put. destruct (session_closed s), (bool_decide (i ∈ sessions e)); cbn; by rewrite ?app_nil_r.
  - unfold put_sent, put.
    destruct (session_closed s), (bool_decide (i ∈ sessions e)),
      (loopback_send_packets s || echo_loopback s); cbn; by rewrite ?app_nil_r.
  - rewrite (bool_decide_ext (j = i) (i = j)) by (split; congruence). case_bool_decide; [|done].
    unfold take_packet. destruct (packets s) eqn:Hq; cbn; [|done]. by destruct (session_closed s).
  - by case_bool_decide.
  - case_bool_decide; [|done]. by rewrite (proj1 (set_attribute_packets _ _ _)).
  - by case_bool_decide.
  - by case_bool_decide.
Qed.

(** the stream over a run *)
Lemma fifo_run e ops i : ep_inv e -> (i < length (store e))%nat ->
  queue_of e i ++ offered_run i e ops = taken_run i e ops ++ queue_of (run_ep e ops) i.
Proof.
  revert e. induction ops as [|o t IH]; intros e He Hi; [cbn; by rewrite app_nil_r|].
  cbn [offered_run taken_run run_ep foldl]. rewrite app_assoc.
  destruct (lookup_lt_is_Some_2 _ _ Hi) as [s Hs].
  pose proof (ep_step_lookup e o i s He Hs) as Hs'.
  assert (queue_of e i ++ offered i e o = taken i e o ++ queue_of (ep_step e o) i) as ->.
  { unfold queue_of. rewrite Hs, Hs'. by apply fifo_step. }
  rewrite <- !app_assoc. f_equal. apply IH; [by apply ep_step_inv|by eapply lookup_lt_Some].
Qed.

Lemma taken_run_app i e ops1 ops2 :
  taken_run i e (ops1 ++ ops2) = taken_run i e ops1 ++ taken_run i (run_ep e ops1) ops2.
Proof. revert e. induction ops1 as [|o t IH]; intros e; [done|]. cbn. by rewrite IH, <- app_assoc. Qed.

(** a closed session stays closed *)
Lemma closed_step i e o s : session_closed s = true -> session_closed (session_step i e o s) = true.
Proof.
  intros Hc. destruct o as [|p|[err|] d|j|j|j k v| |j]; cbn [session_step]; try case_bool_decide; try done.
  - unfold put. by rewrite Hc.
  - unfold put_sent, put. rewrite Hc. by destruct (_ || _).
  - unfold take_packet. by destruct (packets s).
  - by rewrite (proj2 (set_attribute_packets _ _ _)).
Qed.

Lemma closed_run i e ops s : ep_inv e -> store e !! i = Some s -> session_closed s = true ->
  exists s', store (run_ep e ops) !! i = Some s' /\ session_closed s' = true.
Proof.
  revert e s. induction ops as [|o t IH]; intros e s He Hs Hc; [by exists s|]. cbn.
  apply (IH (ep_step e o) (session_step i e o s)); [by apply ep_step_inv|by apply ep_step_lookup|].
  by apply closed_step.
Qed.

Lemma endpoint_new_inv a b : ep_inv (endpoint_new a b).
Proof. split; constructor. Qed.

(** the operations of a connection are steps of the endpoint *)
Lemma conn_steps session data key value e : (session < length (store e))%nat ->
  (conn_send_packet None data e).2 = ep_step e (DoSend None data)
  /\ (conn_get_next_packet session e).2 = ep_step e (DoTake session)
  /\ (conn_set_attribute session key value e).2 = ep_step e (DoSet session key value)
  /\ conn_close session e = ep_step e (DoRemove session).
Proof.
  intros Hi. destruct (lookup_lt_is_Some_2 _ _ Hi) as [s Hs].
  unfold conn_get_next_packet, conn_set_attribute. rewrite Hs. cbn [ep_step].
  assert (forall f : Session -> Session,
    with_session session (fun _ => f s) e = with_session session f e) as Hw.
  { intros f. unfold with_session. f_equal. apply list_eq. intros j.
    destruct (decide (session = j)) as [->|Hne].
    - by rewrite !list_lookup_alter_eq, Hs.
    - by rewrite !list_lookup_alter_ne. }
  split; [done|]. split; [|split; [|done]].
  - rewrite <- Hw. by destruct (take_packet s).
  - rewrite <- Hw. by destruct (set_attribute key value s).
Qed.

(** ** Properties *)

(** C10: No packet is lost, repeated or reordered.  In every run, what the
    receiver of a session took, followed by what is still in its queue, is what
    was in its queue at the beginning followed by all packets offered to it:
    every gateway packet while it is registered and open, and the packets sent
    by clients while it asked for them. *)
Theorem session_fifo e ops i : ep_inv e -> (i < length (store e))%nat ->
  queue_of e i ++ offered_run i e ops = taken_run i e ops ++ queue_of (run_ep e ops) i.
Proof. apply fifo_run. Qed.

Definition example_endpoint : Endpoint := run_ep new_dummy [DoNewPush; DoNewPush].

Lemma session_fifo_witness :
  let ops := [DoGateway [1]; DoSend None [2]; DoTake 1; DoRemove 1; DoGateway [3]] in
  taken_run 1 example_endpoint ops = [[1]]
  /\ queue_of example_endpoint 1 ++ offered_run 1 example_endpoint ops
     = taken_run 1 example_endpoint ops ++ queue_of (run_ep example_endpoint ops) 1.
Proof.
  intros ops. split; [vm_compute; reflexivity|].
  apply session_fifo; [|cbn; lia]. apply run_ep_inv, endpoint_new_inv.
Defined.

(** Closing wakes everybody.  After the endpoint is closed no session is
    registered, a new one is refused, and a receiver of any session that was
    registered never waits again: in every later run a look at its queue gives a
    packet or the end. *)
Theorem close_wakes_receivers e ops i s : ep_inv e -> i ∈ sessions e ->
  store (run_ep (endpoint_close e) ops) !! i = Some s ->
  sessions (endpoint_close e) = [] /\ (new_session (endpoint_close e)).1 = Err end_of_receive
  /\ session_closed s = true /\ (take_packet s).1 <> None.
Proof.
  intros He Hi Hs.
  assert (sessions (endpoint_close e) = [] /\ closed (endpoint_close e) = true) as [H1 H2]
    by (unfold endpoint_close; by rewrite fold_with_session).
  split; [done|]. split; [unfold new_session, new_session_check; by rewrite H2|].
  destruct (lookup_lt_is_Some_2 (store e) i) as [s0 Hs0].
  { pose proof (ep_range e He) as Hr. by eapply Forall_forall in Hr. }
  destruct (closed_run i (endpoint_close e) ops (session_step i e DoClose s0)) as (s' & Hs' & Hc).
  - by apply (ep_step_inv e DoClose).
  - by apply (ep_step_lookup e DoClose).
  - cbn. by rewrite bool_decide_true.
  - rewrite Hs in Hs'. injection Hs' as <-. split; [done|]. unfold take_packet.
    destruct (packets s); [|done]. by rewrite Hc.
Qed.

Lemma close_wakes_receivers_witness :
  exists s, store (run_ep (endpoint_close example_endpoint) [DoTake 0]) !! 0%nat = Some s
    /\ (take_packet s).1 <> None.
Proof.
  eexists. split; [vm_compute; reflexivity|].
  refine (proj2 (proj2 (proj2 (close_wakes_receivers example_endpoint [DoTake 0] 0 _ _ _ _)))).
  - apply run_ep_inv, endpoint_new_inv.
  - apply (bool_decide_eq_true_1 _). vm_compute. reflexivity.
  - vm_compute. reflexivity.
Defined.

(** The race between opening and closing.  When the endpoint is closed
    between the check of [closed] and the push of [new_session], the new session
    is registered at a closed endpoint, open and empty: its receiver waits, and
    closing again is the only thing that would wake it. *)
Theorem new_session_close_race e (e' := (new_session_push (endpoint_close e)).2) (i := length (store e)) :
  closed e = false ->
  new_session_check e = Ok tt /\ closed e' = true /\ sessions e' = [i]
  /\ exists s, store e' !! i = Some s /\ session_closed s = false /\ (take_packet s).1 = None.
Proof.
  intros He. unfold new_session_check. rewrite He. split; [done|].
  unfold e', endpoint_close. rewrite fold_with_session. cbn [new_session_push snd closed sessions store
    with_store app]. rewrite fold_alter_length. split; [done|]. split; [done|].
  exists (mkSession (default_echo_loopback e) (default_loopback_send_packets e) [] false).
  split; [|by split]. unfold i.
  by rewrite lookup_app_r, fold_alter_length, Nat.sub_diag by (rewrite fold_alter_length; lia).
Qed.

Lemma new_session_close_race_witness :
  let e' := (new_session_push (endpoint_close example_endpoint)).2 in
  closed e' = true /\ sessions e' = [2%nat].
Proof.
  destruct (new_session_close_race example_endpoint) as (_ & H1 & H2 & _).
  - vm_compute. reflexivity.
  - split; [exact H1|exact H2].
Defined.
