(* ===== verification/Gateway.v ===== *)
(** * The endpoint on its gateway

    Composes [src/rpc/endpoint.rs] with [src/connector.rs].  In [Endpoint] an
    operation is one step; here it is the steps between its accesses to the
    shared state: the list of sessions is cloned under its lock, each session is
    asked and given the packet on its own, closing sets the flag, stops the
    connector and only then closes the sessions.  The receiving thread of the
    connector runs the packet hook, one packet of a read after the other; any
    number of calls of clients run beside it.  A run is any interleaving.  The
    endpoint lives as long as its gateway, so the hook can always upgrade its
    weak pointer.

    The state keeps a history: the packets the hook started to distribute
    ([hooked]), for each session how many that were when it was registered
    ([born]), the packets accepted by the queues with their origin ([log]) and
    those taken from the queues ([takes]). *)

From stdpp Require Import base list numbers option strings sets.
From Stdlib Require Import ZArith Lia.
From S2P Require Import Prelude RustStd Framing Connector Endpoint.

(** ** State *)

(** where a call of an endpoint method is *)
Inductive CallState : Type :=
| SendGateway (k : nat) (data : list Z)
| SendClone (data : list Z)
| SendEach (data : list Z) (todo : list nat)
| SendEcho (data : list Z) (i : nat) (todo : list nat)
| SendPut (data : list Z) (i : nat) (todo : list nat)
| SendReturn (r : res str unit)
| NewCheck
| NewPush
| NewReturn (r : res str nat)
| RemoveRetain (i : nat)
| RemoveClose (i : nat)
| TakeWait (i : nat)
| TakeReturn (r : res str (list Z))
| SetValue (i : nat) (key value : str)
| SetReturn (r : res str unit)
| CloseFlag
| CloseRun
| CloseKill
| CloseTake
| CloseEach (todo : list nat)
| Finished.

(** a packet that a queue accepted: from the hook or from a call *)
Record Put : Type := mkPut { to : nat; origin : option nat; payload : list Z }.

Record System : Type := mkSystem {
  gateway : World;
  ep : Endpoint;
  pending : list (list Z);
  hook_call : option (list Z * list nat);
  calls : list CallState;
  hooked : list (list Z);
  born : list nat;
  log : list Put;
  takes : list (nat * list Z);
}.

Definition set_gateway (w : World) (s : System) : System :=
  mkSystem w (ep s) (pending s) (hook_call s) (calls s) (hooked s) (born s) (log s) (takes s).
Definition set_ep (e : Endpoint) (s : System) : System :=
  mkSystem (gateway s) e (pending s) (hook_call s) (calls s) (hooked s) (born s) (log s) (takes s).
Definition set_call (c : nat) (x : CallState) (s : System) : System :=
  mkSystem (gateway s) (ep s) (pending s) (hook_call s) (<[c := x]> (calls s)) (hooked s) (born s) (log s) (takes s).
Definition set_hook (rest : list (list Z)) (h : option (list Z * list nat)) (s : System) : System :=
  mkSystem (gateway s) (ep s) rest h (calls s) (hooked s) (born s) (log s) (takes s).
Definition set_sessions (l : list nat) (is_closed : bool) (s : System) : System :=
  set_ep (mkEndpoint (store (ep s)) l is_closed (default_echo_loopback (ep s)) (default_loopback_send_packets (ep s))) s.

(** [UartbusRpcEndpoint::new]: the hook is set and the connector listens;
    [thread]: the error of starting its thread, if any *)
Definition system_new (thread : option str) (w : World) (echo loopback : bool) : res str System :=
  match start_listen thread (set_inner (set_packet_hook (inner w)) w) with
  | (Ok _, w) => Ok (mkSystem w (endpoint_new echo loopback) [] None [] [] [] [] [])
  | (Err err, _) => Err err
  | (Panic, _) => Panic
  end.

(** ** Steps *)

(** [session.put]; a closed queue does not accept *)
Definition put_session (i : nat) (o : option nat) (p : list Z) (s : System) : System :=
  let accepted := match store (ep s) !! i with Some x => negb (session_closed x) | None => false end in
  mkSystem (gateway s) (with_session i (put p) (ep s)) (pending s) (hook_call s) (calls s) (hooked s) (born s)
    (log s ++ if accepted then [mkPut i o p] else []) (takes s).

(** a step of the receiving thread in the connector; the packets of a read wait for the hook *)
Definition rx_step (chunk : list Z) (factory : Opened) (s : System) : System :=
  let w := receiver_step 0 chunk factory (gateway s) in
  let read := (drop (length (dispatched (inner (gateway s)))) (dispatched (inner w))).*2 in
  set_hook (pending s ++ read) (hook_call s) (set_gateway w s).

(** a step of the receiving thread: the hook comes first *)
Definition receiver (chunk : list Z) (factory : Opened) (s : System) : System :=
  match hook_call s with
  | Some (p, i :: todo) => set_hook (pending s) (Some (p, todo)) (put_session i None p s)
  | Some (_, []) => set_hook (pending s) None s
  | None =>
    match pending s with
    | p :: rest =>
      mkSystem (gateway s) (ep s) rest (Some (p, sessions (ep s))) (calls s) (hooked s ++ [p]) (born s) (log s) (takes s)
    | [] => rx_step chunk factory s
    end
  end.

(** [connector.send_packet(data)?] *)
Definition send_in_gateway (c k : nat) (data : list Z) (failed : option (nat * str)) (factory : Opened) (s : System)
    : System :=
  match s_state <$> senders (gateway s) !! k with
  | Some (SndDone (Ok _)) => set_call c (SendClone data) s
  | Some (SndDone r) => set_call c (SendReturn r) s
  | _ => set_gateway (sender_step k failed factory (gateway s)) s
  end.

Definition new_push (c : nat) (s : System) : System :=
  let '(i, e) := new_session_push (ep s) in
  set_call c (NewReturn (Ok i))
    (mkSystem (gateway s) e (pending s) (hook_call s) (calls s) (hooked s) (born s ++ [length (hooked s)]) (log s) (takes s)).

(** one look of [take] at the queue; without a packet the call goes on waiting *)
Definition take_look (c i : nat) (s : System) : System :=
  match conn_get_next_packet i (ep s) with
  | (Some r, e) =>
    let got := match r with Ok p => [(i, p)] | _ => [] end in
    set_call c (TakeReturn r)
      (mkSystem (gateway s) e (pending s) (hook_call s) (calls s) (hooked s) (born s) (log s) (takes s ++ got))
  | (None, _) => s
  end.

(** the flag [f] of session [i] *)
Definition flag (f : Session -> bool) (i : nat) (s : System) : bool :=
  match store (ep s) !! i with Some x => f x | None => false end.

(** a step of the call [c] *)
Definition call_step (c : nat) (failed : option (nat * str)) (factory : Opened) (s : System) : System :=
  match calls s !! c with
  | Some (SendGateway k data) => send_in_gateway c k data failed factory s
  | Some (SendClone data) => set_call c (SendEach data (sessions (ep s))) s
  | Some (SendEach _ []) => set_call c (SendReturn (Ok tt)) s
  | Some (SendEach data (i :: todo)) =>
    set_call c (if flag loopback_send_packets i s then SendPut data i todo else SendEcho data i todo) s
  | Some (SendEcho data i todo) =>
    set_call c (if flag echo_loopback i s then SendPut data i todo else SendEach data todo) s
  | Some (SendPut data i todo) => set_call c (SendEach data todo) (put_session i (Some c) data s)
  | Some NewCheck =>
    set_call c (match new_session_check (ep s) with Ok _ => NewPush | Err err => NewReturn (Err err) | Panic => NewReturn Panic end) s
  | Some NewPush => new_push c s
  | Some (RemoveRetain i) =>
    set_call c (RemoveClose i) (set_sessions (filter (fun x => x <> i) (sessions (ep s))) (closed (ep s)) s)
  | Some (RemoveClose i) => set_call c Finished (set_ep (with_session i session_close (ep s)) s)
  | Some (TakeWait i) => take_look c i s
  | Some (SetValue i key value) =>
    let '(r, e) := conn_set_attribute i key value (ep s) in set_call c (SetReturn r) (set_ep e s)
  | Some CloseFlag => set_call c CloseRun (set_sessions (sessions (ep s)) true s)
  | Some CloseRun => set_call c CloseKill (set_gateway (close_run (gateway s)) s)
  | Some CloseKill => set_call c CloseTake (set_gateway (close_child (gateway s)) s)
  | Some CloseTake => set_call c (CloseEach (sessions (ep s))) (set_sessions [] (closed (ep s)) s)
  | Some (CloseEach (i :: todo)) => set_call c (CloseEach todo) (set_ep (with_session i session_close (ep s)) s)
  | Some (CloseEach []) => set_call c Finished s
  | _ => s
  end.

(** the methods a client calls *)
Inductive Request : Type :=
| ReqSend (data : list Z)
| ReqNew
| ReqRemove (i : nat)
| ReqTake (i : nat)
| ReqSet (i : nat) (key value : str)
| ReqShut (i : nat)
| ReqClose.

Definition first_step (r : Request) (s : System) : CallState :=
  match r with
  | ReqSend data => SendGateway (length (senders (gateway s))) data
  | ReqNew => NewCheck
  | ReqRemove i => RemoveRetain i
  | ReqTake i => TakeWait i
  | ReqSet i key value => SetValue i key value
  | ReqShut i => RemoveClose i
  | ReqClose => CloseFlag
  end.

(** the call is the last one of [calls]; a sender enters the connector *)
Definition start_call (r : Request) (s : System) : System :=
  mkSystem (match r with ReqSend data => Connector.send_packet data (gateway s) | _ => gateway s end)
    (ep s) (pending s) (hook_call s) (calls s ++ [first_step r s]) (hooked s) (born s) (log s) (takes s).

Inductive sys_op : Type :=
| SysStart (r : Request)
| SysCall (c : nat) (failed : option (nat * str)) (factory : Opened)
| SysReceiver (chunk : list Z) (factory : Opened).

Definition sys_step (s : System) (o : sys_op) : System :=
  match o with
  | SysStart r => start_call r s
  | SysCall c failed factory => call_step c failed factory s
  | SysReceiver chunk factory => receiver chunk factory s
  end.

Definition run_sys (s : System) (ops : list sys_op) : System := foldl sys_step s ops.

(** ** The history of a session *)

(** what the queue of [i] accepted, and what it accepted from [o] *)
Definition put_to (i : nat) (s : System) : list (list Z) := payload <$> filter (fun x => to x = i) (log s).
Definition put_from (o : option nat) (i : nat) (s : System) : list (list Z) :=
  payload <$> filter (fun x => to x = i /\ origin x = o) (log s).
Definition taken_by (i : nat) (s : System) : list (list Z) := (filter (fun x => x.1 = i) (takes s)).*2.

(** the packet that the hook still has for [i] *)
Definition in_flight (i : nat) (s : System) : list (list Z) :=
  match hook_call s with
  | Some (p, todo) => if bool_decide (i ∈ todo) then [p] else []
  | None => []
  end.

Definition open_session (i : nat) (s : System) : Prop :=
  exists x, store (ep s) !! i = Some x /\ session_closed x = false.

(** ** Lemmas: histories *)

Record hist_inv (s : System) : Prop := {
  hist_ep : ep_inv (ep s);
  hist_born : length (born s) = length (store (ep s));
  hist_range : Forall (fun x => (to x < length (store (ep s)))%nat) (log s)
    /\ Forall (fun x => (x.1 < length (store (ep s)))%nat) (takes s);
  hist_hook : forall p todo, hook_call s = Some (p, todo) ->
    NoDup todo /\ Forall (fun i => (i < length (store (ep s)))%nat) todo;
  hist_fifo : forall i, put_to i s = taken_by i s ++ queue_of (ep s) i;
  hist_gateway : forall i b, born s !! i = Some b -> (b <= length (hooked s))%nat
    /\ put_from None i s `prefix_of` drop b (hooked s)
    /\ (open_session i s -> put_from None i s ++ in_flight i s `prefix_of` drop b (hooked s))
    /\ (open_session i s -> i ∈ sessions (ep s) -> put_from None i s ++ in_flight i s = drop b (hooked s));
}.

(** a step that puts and takes nothing; sessions may be closed and removed *)
Lemma hist_weaken s s' : hist_inv s ->
  hook_call s' = hook_call s -> hooked s' = hooked s -> born s' = born s -> log s' = log s -> takes s' = takes s ->
  ep_inv (ep s') -> length (store (ep s')) = length (store (ep s)) ->
  (forall i, queue_of (ep s') i = queue_of (ep s) i) ->
  (forall i, open_session i s' -> open_session i s) -> (forall i, i ∈ sessions (ep s') -> i ∈ sessions (ep s)) ->
  hist_inv s'.
Proof.
  intros [H1 H2 H3 H4 H5 H6] Eh Ek Eb El Et Hep Hlen Hq Ho Hs.
  split; rewrite ?Eh, ?Eb, ?El, ?Et, ?Hlen; try done.
  - intros i. unfold put_to, taken_by. rewrite El, Et, Hq. apply H5.
  - intros i b Hb. destruct (H6 i b Hb) as (Hle & Hp & Hpo & Heq).
    unfold put_from, in_flight in *. rewrite El, Ek, Eh. repeat split; auto.
Qed.

(** a step that does not touch the sessions and the history *)
Lemma hist_same s s' : hist_inv s ->
  ep s' = ep s -> hook_call s' = hook_call s -> hooked s' = hooked s -> born s' = born s -> log s' = log s ->
  takes s' = takes s -> hist_inv s'.
Proof.
  intros Hs Ee Eh Ek Eb El Et. apply (hist_weaken s); rewrite ?Ee; try done; [by destruct Hs|].
  intros i. unfold open_session. by rewrite Ee.
Qed.

Lemma with_session_inv i f e : ep_inv e -> ep_inv (with_session i f e).
Proof. intros [H1 H2]. split; [done|]. cbn. by rewrite length_alter. Qed.

(** a session is changed, its packets stay and it is not opened again *)
Lemma hist_session i f s : hist_inv s ->
  (forall x, packets (f x) = packets x /\ (session_closed (f x) = false -> session_closed x = false)) ->
  hist_inv (set_ep (with_session i f (ep s)) s).
Proof.
  intros Hs Hf. apply (hist_weaken s); try done.
  - apply with_session_inv. by destruct Hs.
  - cbn. by rewrite length_alter.
  - intros j. unfold queue_of. cbn [ep set_ep]. rewrite with_session_lookup. case_bool_decide; [subst|done].
    destruct (store (ep s) !! i) as [x|]; [|done]. cbn. apply Hf.
  - intros j (x & Hx & Hc). cbn [ep set_ep] in Hx. rewrite with_session_lookup in Hx. case_bool_decide; [subst|by exists x].
    apply fmap_Some in Hx as (y & Hy & ->). exists y. split; [done|]. by apply Hf.
Qed.

Lemma hist_sessions l b s : hist_inv s -> NoDup l -> (forall i, i ∈ l -> i ∈ sessions (ep s)) ->
  hist_inv (set_sessions l b s).
Proof.
  intros Hs Hn Hl. apply (hist_weaken s); try done. destruct Hs as [[_ Hr] _ _ _ _ _]. split; [done|].
  apply Forall_forall. intros i Hi%Hl. by eapply Forall_forall in Hr.
Qed.

Lemma put_session_queue i o p s j :
  queue_of (ep (put_session i o p s)) j
  = queue_of (ep s) j ++ if bool_decide (j = i) then
      match store (ep s) !! i with Some x => if session_closed x then [] else [p] | None => [] end else [].
Proof.
  unfold queue_of, put_session. cbn [ep]. rewrite with_session_lookup.
  case_bool_decide; [subst|by rewrite app_nil_r].
  destruct (store (ep s) !! i) as [x|]; [|done]. cbn. unfold put. by destruct (session_closed x); [rewrite app_nil_r|].
Qed.

Lemma put_session_open i o p s j : open_session j (put_session i o p s) <-> open_session j s.
Proof.
  unfold open_session, put_session. cbn [ep]. setoid_rewrite with_session_lookup.
  case_bool_decide; [subst|done]. destruct (store (ep s) !! i) as [x|]; cbn; [|split; by intros (? & ? & ?)].
  unfold put. destruct (session_closed x) eqn:Hc; split; intros (y & [= <-] & Hy); cbn in *; try congruence; by eexists.
Qed.

(** the packets accepted from [o'] after a put *)
Lemma put_session_from i o p s o' j :
  put_from o' j (put_session i o p s)
  = put_from o' j s ++ if bool_decide (j = i /\ o' = o) then
      match store (ep s) !! i with Some x => if session_closed x then [] else [p] | None => [] end else [].
Proof.
  unfold put_from, put_session. cbn [log]. rewrite filter_app, fmap_app. f_equal.
  destruct (store (ep s) !! i) as [x|]; [destruct (session_closed x)|]; cbn [negb]; try (cbn; by case_bool_decide).
  rewrite filter_cons, filter_nil. cbn [to origin]. case_decide; case_bool_decide; naive_solver.
Qed.

Lemma put_session_to i o p s j :
  put_to j (put_session i o p s)
  = put_to j s ++ if bool_decide (j = i) then
      match store (ep s) !! i with Some x => if session_closed x then [] else [p] | None => [] end else [].
Proof.
  unfold put_to, put_session. cbn [log]. rewrite filter_app, fmap_app. f_equal.
  destruct (store (ep s) !! i) as [x|]; [destruct (session_closed x)|]; cbn [negb]; try (cbn; by case_bool_decide).
  rewrite filter_cons, filter_nil. cbn [to origin]. case_decide; case_bool_decide; naive_solver.
Qed.

Lemma put_session_inv i o p s : hist_inv s ->
  ep_inv (ep (put_session i o p s)) /\ length (store (ep (put_session i o p s))) = length (store (ep s))
  /\ Forall (fun x => (to x < length (store (ep s)))%nat) (log (put_session i o p s))
  /\ (forall j, put_to j (put_session i o p s) = taken_by j s ++ queue_of (ep (put_session i o p s)) j).
Proof.
  intros [H1 H2 [H3 _] H4 H5 H6]. repeat split.
  - by destruct H1.
  - destruct H1. cbn. by rewrite length_alter.
  - cbn. by rewrite length_alter.
  - cbn. apply Forall_app. split; [done|]. destruct (store (ep s) !! i) as [x|] eqn:Hx; [|constructor].
    destruct (session_closed x); [constructor|]. constructor; [|constructor]. by eapply lookup_lt_Some.
  - intros j. by rewrite put_session_to, put_session_queue, H5, app_assoc.
Qed.

(** a packet of a call *)
Lemma hist_put i c p s : hist_inv s -> hist_inv (put_session i (Some c) p s).
Proof.
  intros Hs. destruct (put_session_inv i (Some c) p s Hs) as (E1 & E2 & E3 & E4).
  destruct Hs as [H1 H2 H3 H4 H5 H6]. split; rewrite ?E2; try done; [by split; [|apply H3]|].
  intros j b Hb. destruct (H6 j b Hb) as (Hle & Hp & Hpo & Heq).
  rewrite put_session_from, bool_decide_false, app_nil_r, put_session_open by naive_solver. by split.
Qed.

(** the hook gives its packet to the next session *)
Lemma hist_hook_put i p todo s : hist_inv s -> hook_call s = Some (p, i :: todo) ->
  hist_inv (set_hook (pending s) (Some (p, todo)) (put_session i None p s)).
Proof.
  intros Hs Hh. destruct (put_session_inv i None p s Hs) as (E1 & E2 & E3 & E4).
  destruct Hs as [H1 H2 H3 H4 H5 H6]. destruct (H4 p (i :: todo) Hh) as [[Hi Hn]%NoDup_cons [_ Hr]%Forall_cons_1].
  split; cbn [ep set_hook log takes hook_call born]; rewrite ?E2; try done; [by split; [|apply H3]|by intros ? ? [= <- <-]|].
  intros j b Hb. destruct (H6 j b Hb) as (Hle & Hp & Hpo & Heq). split; [done|]. cbn [hooked set_hook put_session].
  assert (put_from None j (put_session i None p s) = put_from None j s ++ in_flight j s /\ j = i /\ open_session j s
     \/ put_from None j (put_session i None p s) = put_from None j s /\ (j = i -> ~ open_session j s)) as Hput.
  { rewrite put_session_from. unfold in_flight. rewrite Hh. destruct (decide (j = i)) as [->|Hne].
    2: { rewrite bool_decide_false, app_nil_r by naive_solver. by right. }
    rewrite !bool_decide_true by (done || set_solver). destruct (store (ep s) !! i) as [x|] eqn:Hx.
    - destruct (session_closed x) eqn:Hc; [right|left].
      + rewrite app_nil_r. split; [done|]. intros _ (y & Hy & Hyc). congruence.
      + split; [done|]. split; [done|]. by exists x.
    - right. rewrite app_nil_r. split; [done|]. intros _ (y & Hy & _). congruence. }
  change (open_session j (set_hook (pending s) (Some (p, todo)) (put_session i None p s)))
    with (open_session j (put_session i None p s)).
  change (put_from None j (set_hook (pending s) (Some (p, todo)) (put_session i None p s)))
    with (put_from None j (put_session i None p s)).
  rewrite put_session_open. destruct Hput as [(-> & -> & Ho)|[-> Hno]].
  - assert (in_flight i (set_hook (pending s) (Some (p, todo)) (put_session i None p s)) = []) as ->
      by (unfold in_flight; cbn; by rewrite bool_decide_false).
    rewrite app_nil_r. by auto.
  - split; [done|].
    assert (open_session j s -> in_flight j (set_hook (pending s) (Some (p, todo)) (put_session i None p s))
      = in_flight j s) as Hf.
    { intros Ho. unfold in_flight. rewrite Hh. cbn.
      rewrite (bool_decide_ext (j ∈ i :: todo) (j ∈ todo)) by (rewrite elem_of_cons; naive_solver). done. }
    split; [intros Ho|intros Ho Hj]; rewrite Hf by done; auto.
Qed.

(** the hook starts with the next packet *)
Lemma hist_hook_start p rest s : hist_inv s -> hook_call s = None ->
  hist_inv (mkSystem (gateway s) (ep s) rest (Some (p, sessions (ep s))) (calls s) (hooked s ++ [p]) (born s)
    (log s) (takes s)).
Proof.
  intros [H1 H2 H3 H4 H5 H6] Hh. split; try done.
  { intros p' todo [= <- <-]. by destruct H1. }
  intros i b Hb. destruct (H6 i b Hb) as (Hle & Hp & Hpo & Heq). cbn [hooked].
  rewrite length_app, drop_app_le by done. split; [lia|]. split; [by apply prefix_app_r|].
  unfold in_flight in *. rewrite Hh in Hpo, Heq. cbn [hook_call].
  change (put_from None i _) with (put_from None i s). change (open_session i _) with (open_session i s).
  cbn [ep]. split; intros Ho.
  - case_bool_decide as Hi.
    + specialize (Heq Ho Hi). rewrite app_nil_r in Heq. by rewrite Heq.
    + by apply prefix_app_r, Hpo.
  - intros Hi. specialize (Heq Ho Hi). rewrite app_nil_r in Heq. by rewrite Heq, bool_decide_true.
Qed.

(** the hook is done with its packet *)
Lemma hist_hook_end p s : hist_inv s -> hook_call s = Some (p, []) -> hist_inv (set_hook (pending s) None s).
Proof.
  intros [H1 H2 H3 H4 H5 H6] Hh. split; try done. intros i b Hb. specialize (H6 i b Hb).
  unfold in_flight in *. by rewrite Hh in H6.
Qed.

(** a pointer that the history does not know *)
Lemma fresh_history s i : hist_inv s -> (length (store (ep s)) <= i)%nat ->
  put_to i s = [] /\ put_from None i s = [] /\ taken_by i s = [] /\ in_flight i s = [].
Proof.
  intros [H1 H2 [H3 H3'] H4 H5 H6] Hi.
  assert (forall x, x ∈ log s -> to x <> i) as Hl.
  { intros x Hx Hxi. eapply Forall_forall in H3; [|exact Hx]. cbn in H3. lia. }
  unfold put_to, put_from, taken_by, in_flight.
  rewrite (filter_none (fun x => to x = i) (log s)) by auto.
  rewrite (filter_none (fun x => to x = i /\ origin x = None) (log s)) by (intros x Hx [? _]; by apply (Hl x Hx)).
  split; [done|]. split; [done|]. split.
  - rewrite (filter_none (fun x => x.1 = i) (takes s)); [done|].
    intros x Hx Hxi. eapply Forall_forall in H3'; [|exact Hx]. cbn in H3'. lia.
  - destruct (hook_call s) as [[p todo]|]; [|done]. destruct (H4 p todo eq_refl) as [_ Hr].
    rewrite bool_decide_false; [done|]. intros Hin. eapply Forall_forall in Hr; [|exact Hin]. cbn in Hr. lia.
Qed.

Lemma hist_new_push c s : hist_inv s -> hist_inv (new_push c s).
Proof.
  intros Hs. destruct (fresh_history s _ Hs (Nat.le_refl _)) as (F1 & F2 & F3 & F4).
  pose proof (ep_step_inv (ep s) DoNewPush (hist_ep s Hs)) as Hep.
  destruct Hs as [H1 H2 [H3 H3'] H4 H5 H6].
  unfold new_push. cbn [new_session_push]. cbn [ep_step new_session_push snd] in Hep.
  set (e := mkEndpoint _ _ _ _ _) in *.
  assert (length (store e) = S (length (store (ep s)))) as Hlen by (cbn; rewrite length_app; cbn; lia).
  assert (forall j x, store e !! j = Some x -> (store (ep s) !! j = Some x)
    \/ (j = length (store (ep s)) /\ packets x = [])) as Hst.
  { intros j x Hj. cbn in Hj. apply lookup_snoc_Some in Hj as [[_ ?]|[-> <-]]; [by left|by right]. }
  split; cbn [ep set_call born log takes hook_call hooked]; rewrite ?Hlen; try done.
  - rewrite length_app. cbn. lia.
  - split; (eapply Forall_impl; [eassumption|]); cbn; lia.
  - intros p todo Hh. destruct (H4 p todo Hh) as [Hn Hr]. split; [done|]. eapply Forall_impl; [exact Hr|]. cbn. lia.
  - intros j. change (put_to j s = taken_by j s ++ queue_of e j). rewrite H5. f_equal. unfold queue_of.
    destruct (store e !! j) as [x|] eqn:Hj.
    + destruct (Hst j x Hj) as [->|[-> ->]]; [done|]. by rewrite lookup_ge_None_2.
    + apply lookup_ge_None in Hj. rewrite lookup_ge_None_2; [done|]. rewrite Hlen in Hj. lia.
  - intros j b Hb. change (put_from None j (set_call _ _ _)) with (put_from None j s).
    change (in_flight j (set_call _ _ _)) with (in_flight j s). cbn [ep set_call].
    apply lookup_snoc_Some in Hb as [[Hj Hb]|[Hj <-]].
    + destruct (H6 j b Hb) as (Hle & Hp & Hpo & Heq).
      assert (open_session j (set_call c (NewReturn (Ok (length (store (ep s)))))
        (mkSystem (gateway s) e (pending s) (hook_call s) (calls s) (hooked s) (born s ++ [length (hooked s)]) (log s) (takes s)))
        -> open_session j s) as Ho.
      { intros (x & Hx & Hc). destruct (Hst j x Hx) as [?|[? _]]; [by exists x|lia]. }
      split; [done|]. split; [done|]. split; [auto|]. intros Ho' Hj'. apply Heq; [auto|]. cbn in Hj'.
      apply elem_of_app in Hj' as [?|?%list_elem_of_singleton]; [done|lia].
    + rewrite Hj, H2, F2, F4, drop_all. by split.
Qed.

Lemma with_session_id i x e : store e !! i = Some x -> with_session i (fun _ => x) e = e.
Proof.
  intros Hx. destruct e as [st l b d1 d2]. unfold with_session, with_store. cbn in *. f_equal.
  apply list_eq. intros j. destruct (decide (i = j)) as [->|]; [by rewrite list_lookup_alter_eq, Hx|by rewrite list_lookup_alter_ne].
Qed.

(** one look at a queue *)
Lemma hist_take c i s : hist_inv s -> hist_inv (take_look c i s).
Proof.
  intros Hs. unfold take_look, conn_get_next_packet. destruct (store (ep s) !! i) as [x|] eqn:Hx.
  2: { apply (hist_same s); try done. cbn. by rewrite app_nil_r. }
  unfold take_packet. destruct (packets x) as [|p rest] eqn:Hp.
  { destruct (session_closed x) eqn:Hc; [|done]. rewrite with_session_id by done.
    apply (hist_same s); try done. cbn. by rewrite app_nil_r. }
  set (y := mkSession _ _ _ _). destruct Hs as [H1 H2 [H3 H3'] H4 H5 H6].
  assert (length (store (with_session i (fun _ => y) (ep s))) = length (store (ep s))) as Hlen
    by (cbn; by rewrite length_alter).
  split; cbn [ep set_call log takes born hook_call hooked]; rewrite ?Hlen; try done.
  - by apply with_session_inv.
  - split; [done|]. apply Forall_app. split; [done|]. constructor; [|constructor]. by eapply lookup_lt_Some.
  - intros j. specialize (H5 j). change (put_to j (set_call _ _ _)) with (put_to j s). rewrite H5.
    unfold taken_by. cbn [takes set_call]. rewrite filter_app, fmap_app, <- app_assoc. f_equal.
    unfold queue_of. rewrite with_session_lookup, filter_cons, filter_nil. cbn [fst].
    case_bool_decide as Hj; [subst|by rewrite decide_False by congruence].
    rewrite Hx, decide_True by done. cbn. by rewrite Hp.
  - intros j b Hb. destruct (H6 j b Hb) as (Hle & Hpf & Hpo & Heq).
    enough (forall e t, open_session j (set_call c (TakeReturn (Ok p)) (mkSystem (gateway s)
      (with_session i (fun _ => y) (ep s)) (pending s) (hook_call s) (calls s) (hooked s) e (log s) t))
      -> open_session j s) as Ho by (split; [done|]; split; [done|]; split; [eauto|]; intros Ho'; apply Heq; eauto).
    intros e t (z & Hz & Hc). cbn [ep set_call] in Hz. rewrite with_session_lookup in Hz.
    case_bool_decide; [subst|by exists z]. rewrite Hx in Hz. injection Hz as <-. by exists x.
Qed.

Lemma hist_set_attribute i key value s : hist_inv s ->
  hist_inv (set_ep (conn_set_attribute i key value (ep s)).2 s).
Proof.
  intros Hs. destruct (decide (i < length (store (ep s)))%nat) as [Hi|Hi].
  - rewrite (proj1 (proj2 (proj2 (conn_steps i [] key value (ep s) Hi)))). cbn [ep_step].
    apply hist_session; [done|]. intros x. destruct (set_attribute_packets key value x) as [-> ->]. by split.
  - unfold conn_set_attribute. rewrite lookup_ge_None_2 by lia. by apply (hist_same s).
Qed.

(** any step of a call keeps the sessions and the history together *)
Lemma hist_call c failed factory s : hist_inv s -> hist_inv (call_step c failed factory s).
Proof.
  intros Hs. unfold call_step. pose proof (hist_ep s Hs) as Hep.
  destruct (calls s !! c) as [x|]; [|done].
  destruct x as [k data|data|data [|i todo]|data i todo|data i todo|r| | |r|i|i|i|r|i key value|r| | | | |[|i todo]|];
    try done; try (by apply (hist_same s)).
  - unfold send_in_gateway. destruct (s_state <$> _) as [[| | |[]]|]; by apply (hist_same s).
  - apply (hist_same (put_session i (Some c) data s)); try done. by apply hist_put.
  - by apply hist_new_push.
  - apply (hist_same (set_sessions (filter (fun x => x <> i) (sessions (ep s))) (closed (ep s)) s)); try done.
    apply hist_sessions; [done|by apply NoDup_filter; destruct Hep|]. by intros j [_ ?]%list_elem_of_filter.
  - apply (hist_same (set_ep (with_session i session_close (ep s)) s)); try done. by apply hist_session.
  - by apply hist_take.
  - pose proof (hist_set_attribute i key value s Hs) as Ha.
    destruct (conn_set_attribute i key value (ep s)) as [r e]. by apply (hist_same (set_ep e s)).
  - apply (hist_same (set_sessions (sessions (ep s)) true s)); try done. apply hist_sessions; by destruct Hep.
  - apply (hist_same (set_sessions [] (closed (ep s)) s)); try done. apply hist_sessions; [done|constructor|].
    intros j Hj. by apply elem_of_nil in Hj.
  - apply (hist_same (set_ep (with_session i session_close (ep s)) s)); try done. by apply hist_session.
Qed.

Lemma hist_receiver chunk factory s : hist_inv s -> hist_inv (receiver chunk factory s).
Proof.
  intros Hs. unfold receiver. destruct (hook_call s) as [[p [|i todo]]|] eqn:Hh.
  - by apply (hist_hook_end p).
  - by apply hist_hook_put.
  - destruct (pending s) as [|p rest]; [|by apply hist_hook_start]. by apply (hist_same s).
Qed.

Lemma hist_step s o : hist_inv s -> hist_inv (sys_step s o).
Proof.
  intros Hs. destruct o as [r|c failed factory|chunk factory]; cbn [sys_step].
  - by apply (hist_same s).
  - by apply hist_call.
  - by apply hist_receiver.
Qed.

Lemma hist_run s ops : hist_inv s -> hist_inv (run_sys s ops).
Proof. revert s. induction ops as [|o t IH]; intros s Hs; [done|]. cbn. by apply IH, hist_step. Qed.

(** ** Lemmas: the connector below *)

(** the step of the connector in a step of the system *)
Definition gw_of (s : System) (o : sys_op) : list gw_op :=
  match o with
  | SysStart (ReqSend data) => [GwSend data]
  | SysStart _ => []
  | SysCall c failed factory =>
    match calls s !! c with
    | Some (SendGateway k _) =>
      match s_state <$> senders (gateway s) !! k with
      | Some (SndDone _) => []
      | _ => [GwSender k failed factory]
      end
    | Some CloseRun => [GwStop]
    | Some CloseKill => [GwKill]
    | _ => []
    end
  | SysReceiver chunk factory =>
    match hook_call s, pending s with None, [] => [GwReceiver 0 chunk factory] | _, _ => [] end
  end.

Fixpoint gw_run (s : System) (ops : list sys_op) : list gw_op :=
  match ops with
  | [] => []
  | o :: t => gw_of s o ++ gw_run (sys_step s o) t
  end.

Lemma gateway_step s o : gateway (sys_step s o) = run_gw (gateway s) (gw_of s o).
Proof.
  destruct o as [[data| |i|i|i key value|i|]|c failed factory|chunk factory]; try done.
  - cbn [sys_step gw_of]. unfold call_step. destruct (calls s !! c) as [x|]; [|done].
    destruct x as [k data|data|data [|i todo]|data i todo|data i todo|r| | |r|i|i|i|r|i key value|r| | | | |[|i todo]|];
      try done.
    + unfold send_in_gateway. by destruct (s_state <$> _) as [[| | |[]]|].
    + unfold take_look. by destruct (conn_get_next_packet i (ep s)) as [[r|] e].
    + by destruct (conn_set_attribute i key value (ep s)).
  - cbn [sys_step gw_of]. unfold receiver. destruct (hook_call s) as [[p [|i todo]]|]; try done.
    by destruct (pending s).
Qed.

Lemma gateway_run s ops : gateway (run_sys s ops) = run_gw (gateway s) (gw_run s ops).
Proof.
  revert s. induction ops as [|o t IH]; intros s; [done|]. cbn [run_sys foldl gw_run].
  unfold run_sys in IH. rewrite IH, gateway_step. unfold run_gw. by rewrite foldl_app.
Qed.

(** every packet that the connector dispatched was distributed or waits for it *)
Record wire_inv (s : System) : Prop := {
  wire_hook : hook (inner (gateway s)) = true;
  wire_packets : (dispatched (inner (gateway s))).*2 = hooked s ++ pending s;
  wire_receiver : Forall (fun d => d.1 = 0%nat) (dispatched (inner (gateway s)));
}.

Lemma gw_step_hook w o : hook (inner w) = true -> hook (inner (gw_step w o)) = true.
Proof.
  intros Hh. destruct o as [|data|i failed factory| |j chunk factory| |]; cbn [gw_step]; try done.
  - unfold sender_step, send_check, send_write, send_manage.
    destruct (senders w !! i) as [[data [| |g err|r]]|]; try done.
    + by destruct (run (inner w)).
    + by destruct failed as [[??]|].
    + destruct (manage_received g factory (inner w)) as [E _].
      destruct (manage_closed_connection g factory (inner w)) as [go c]. cbn in *. congruence.
  - unfold start_listen. destruct (run (inner w)), thread; done.
  - unfold receiver_step, rx_take, rx_read, rx_manage.
    destruct (receivers w !! j) as [[cut [| |g|g|g|]]|]; try done.
    + by destruct (reader (io (inner w))).
    + destruct chunk as [|b chunk]; [done|]. destruct (feed_bytes cut (b :: chunk)) as [cut' packets].
      destruct (dispatch_io j (inner w) packets) as (_ & _ & _ & E & _). cbn in *. congruence.
    + destruct (manage_received g factory (inner w)) as [E _].
      destruct (manage_closed_connection g factory (inner w)) as [go c]. cbn in *. congruence.
  - unfold close_child, kill_child. by destruct (child (io (inner w))).
Qed.

(** a step with which the connector dispatches nothing *)
Lemma wire_quiet s o : wire_inv s -> (forall j chunk f, GwReceiver j chunk f ∉ gw_of s o) ->
  hooked (sys_step s o) ++ pending (sys_step s o) = hooked s ++ pending s -> wire_inv (sys_step s o).
Proof.
  intros [H1 H2 H3] Ho Hp.
  assert (hook (inner (gateway (sys_step s o))) = true
    /\ dispatched (inner (gateway (sys_step s o))) = dispatched (inner (gateway s))) as [E1 E2].
  { rewrite gateway_step. clear Hp H2 H3. revert H1 Ho. generalize (gateway s). induction (gw_of s o) as [|x t IH];
      intros w Hw Ho; [done|]. change (run_gw w (x :: t)) with (run_gw (gw_step w x) t).
    destruct (IH (gw_step w x)) as [-> ->]; [by apply gw_step_hook|set_solver|]. split; [done|].
    destruct (gw_step_dispatched w x) as (l & -> & Hl).
    destruct x as [| | | |j chunk f| |]; subst; rewrite ?app_nil_r; try done. exfalso. set_solver. }
  by split; rewrite ?E1, ?E2, ?Hp.
Qed.

Lemma call_step_pending c failed factory s :
  hooked (call_step c failed factory s) = hooked s /\ pending (call_step c failed factory s) = pending s.
Proof.
  unfold call_step. destruct (calls s !! c) as [x|]; [|done].
  destruct x as [k data|data|data [|i todo]|data i todo|data i todo|r| | |r|i|i|i|r|i key value|r| | | | |[|i todo]|];
    try done.
  - unfold send_in_gateway. by destruct (s_state <$> _) as [[| | |[]]|].
  - unfold take_look. by destruct (conn_get_next_packet i (ep s)) as [[r|] e].
  - by destruct (conn_set_attribute i key value (ep s)).
Qed.

Lemma wire_step s o : wire_inv s -> wire_inv (sys_step s o).
Proof.
  intros Hs. destruct o as [r|c failed factory|chunk factory].
  - apply wire_quiet; [done| |done]. intros j chunk f. destruct r; cbn; set_solver.
  - apply wire_quiet; [done| |]; cbn [sys_step gw_of].
    + intros j chunk f. destruct (calls s !! c) as [[]|]; try set_solver.
      destruct (s_state <$> _) as [[]|]; set_solver.
    + by destruct (call_step_pending c failed factory s) as [-> ->].
  - destruct (hook_call s) as [[p [|i todo]]|] eqn:Hh; [| |destruct (pending s) as [|p rest] eqn:Hp].
    1, 2, 4: apply wire_quiet; [done|cbn; rewrite Hh, ?Hp; set_solver|];
      cbn; unfold receiver; rewrite Hh, ?Hp; cbn; by rewrite <- ?app_assoc.
    pose proof (gw_step_hook (gateway s) (GwReceiver 0 chunk factory) (wire_hook s Hs)) as E1.
    destruct (gw_step_dispatched (gateway s) (GwReceiver 0 chunk factory)) as (l & E2 & Hl).
    destruct Hs as [H1 H2 H3]. cbn [sys_step]. unfold receiver. rewrite Hh, Hp. cbn [gw_step] in E1, E2.
    split; cbn; [done| |].
    + rewrite E2, drop_app_length, fmap_app, H2, Hp. by rewrite app_nil_r.
    + rewrite E2. by apply Forall_app.
Qed.

Lemma wire_run s ops : wire_inv s -> wire_inv (run_sys s ops).
Proof. revert s. induction ops as [|o t IH]; intros s Hs; [done|]. cbn. by apply IH, wire_step. Qed.

(** ** Lemmas: sessions are opened and registered once *)

(** [later s s']: no session of [s] was registered or opened again in [s'] *)
Record later (s s' : System) : Prop := {
  later_length : (length (store (ep s)) <= length (store (ep s')))%nat;
  later_sessions : forall i, (i < length (store (ep s)))%nat -> i ∈ sessions (ep s') -> i ∈ sessions (ep s);
  later_open : forall i, (i < length (store (ep s)))%nat -> open_session i s' -> open_session i s;
  later_born : born s `prefix_of` born s';
}.

#[export] Instance later_preorder : PreOrder later.
Proof.
  split.
  - intros s. split; try done.
  - intros s1 s2 s3 [H1 H2 H3 H4] [H1' H2' H3' H4']. split; [lia| | |by etrans].
    + intros i Hi Hs. apply H2; [done|]. apply H2'; [lia|done].
    + intros i Hi Hs. apply H3; [done|]. apply H3'; [lia|done].
Qed.

Lemma later_same s s' : ep s' = ep s -> born s' = born s -> later s s'.
Proof. intros E1 E2. split; rewrite ?E1, ?E2; try done. intros i _. unfold open_session. by rewrite E1. Qed.

Lemma later_session i f s s' : (forall x, session_closed (f x) = false -> session_closed x = false) ->
  ep s' = with_session i f (ep s) -> born s' = born s -> later s s'.
Proof.
  intros Hf E1 E2. split; rewrite ?E1, ?E2; try done; [cbn; by rewrite length_alter|].
  intros j _. unfold open_session. rewrite E1. setoid_rewrite with_session_lookup.
  intros (x & Hx & Hc). case_bool_decide; [subst|by exists x].
  apply fmap_Some in Hx as (y & Hy & ->). exists y. auto.
Qed.

Lemma later_sessions_sub l b s s' : (forall i, i ∈ l -> i ∈ sessions (ep s)) ->
  ep s' = ep (set_sessions l b s) -> born s' = born s -> later s s'.
Proof. intros Hl E1 E2. split; rewrite ?E1, ?E2; try done; [by auto|]. intros i _. unfold open_session. by rewrite E1. Qed.

Lemma put_closed p x : session_closed (put p x) = session_closed x.
Proof. unfold put. by destruct (session_closed x) eqn:Hc; [|cbn]. Qed.

Lemma later_new_push c s : later s (new_push c s).
Proof.
  split; cbn.
  - rewrite length_app. lia.
  - intros i Hi [?|?%list_elem_of_singleton]%elem_of_app; [done|lia].
  - intros i Hi (x & Hx & Hc). exists x. split; [|done]. cbn in Hx. by rewrite lookup_app_l in Hx.
  - by apply prefix_app_r.
Qed.

Lemma later_set_attribute i key value s s' : ep s' = (conn_set_attribute i key value (ep s)).2 -> born s' = born s ->
  later s s'.
Proof.
  intros E1 E2. destruct (decide (i < length (store (ep s)))%nat) as [Hi|Hi].
  - rewrite (proj1 (proj2 (proj2 (conn_steps i [] key value (ep s) Hi)))) in E1. cbn [ep_step] in E1.
    eapply later_session; [|exact E1|done]. intros x. by destruct (set_attribute_packets key value x) as [_ ->].
  - unfold conn_set_attribute in E1. rewrite lookup_ge_None_2 in E1 by lia. by apply later_same.
Qed.

Lemma later_take c i s : later s (take_look c i s).
Proof.
  destruct (decide (i < length (store (ep s)))%nat) as [Hi|Hi].
  - pose proof (proj1 (proj2 (conn_steps i [] [] [] (ep s) Hi))) as E. unfold take_look.
    destruct (conn_get_next_packet i (ep s)) as [[r|] e]; [|done]. cbn [snd ep_step] in E.
    eapply later_session; [|exact E|done]. intros x. unfold take_packet. by destruct (packets x).
  - unfold take_look, conn_get_next_packet. rewrite lookup_ge_None_2 by lia. by apply later_same.
Qed.

Lemma later_step s o : later s (sys_step s o).
Proof.
  destruct o as [r|c failed factory|chunk factory]; cbn [sys_step]; [by apply later_same| |].
  - unfold call_step. destruct (calls s !! c) as [x|]; [|done].
    destruct x as [k data|data|data [|i todo]|data i todo|data i todo|r| | |r|i|i|i|r|i key value|r| | | | |[|i todo]|];
      try done; try (by apply later_same).
    + unfold send_in_gateway. destruct (s_state <$> _) as [[| | |[]]|]; by apply later_same.
    + apply (later_session i (put data)); [|done..]. intros x. by rewrite put_closed.
    + apply later_new_push.
    + eapply later_sessions_sub; [|done..]. by intros j [_ ?]%list_elem_of_filter.
    + by apply (later_session i session_close).
    + apply later_take.
    + destruct (conn_set_attribute i key value (ep s)) as [r e] eqn:Hr.
      apply (later_set_attribute i key value); [by rewrite Hr|done].
    + eapply later_sessions_sub; [|done..]. intros j Hj. by apply elem_of_nil in Hj.
    + by apply (later_session i session_close).
  - unfold receiver. destruct (hook_call s) as [[p [|i todo]]|]; [by apply later_same| |].
    + apply (later_session i (put p)); [|done..]. intros x. by rewrite put_closed.
    + destruct (pending s); by apply later_same.
Qed.

Lemma later_run s ops : later s (run_sys s ops).
Proof.
  revert s. induction ops as [|o t IH]; intros s; [done|]. cbn. etrans; [apply later_step|apply IH].
Qed.

(** ** Lemmas: the whole system *)

Record sys_inv (s : System) : Prop := {
  sys_hist : hist_inv s;
  sys_wire : wire_inv s;
  sys_gen : gen_inv (gateway s);
  sys_sent : sent_inv (gateway s);
}.

Lemma sys_inv_run s ops : sys_inv s -> sys_inv (run_sys s ops).
Proof.
  intros [H1 H2 H3 H4]. split; [by apply hist_run|by apply wire_run|..]; rewrite gateway_run;
    [by apply run_gw_inv|by apply run_gw_sent].
Qed.

(** an endpoint on a new connector whose thread was started *)
Definition started (factory : Opened) (e : Z) (on_closed : OnStreamClosed) (echo loopback : bool) : res str System :=
  c ← connector_new factory e on_closed; system_new None (world_new c) echo loopback.

Lemma started_inv factory e on_closed echo loopback s : started factory e on_closed echo loopback = Ok s ->
  sys_inv s /\ stream_escape (inner (gateway s)) = e /\ run (inner (gateway s)) = true.
Proof.
  unfold started. destruct (connector_new factory e on_closed) as [c| |] eqn:Hc; [|done..]. intros Hs.
  pose proof (world_new_inv _ _ _ _ Hc) as Hgen. destruct (world_new_sent _ _ _ _ Hc) as [Hsent He].
  unfold connector_new in Hc. destruct factory as [b| |]; cbn in Hc; [injection Hc as <-|done..].
  pose proof (run_gw_inv _ [GwHook; GwStart None] Hgen) as Hgen'. pose proof (run_gw_sent _ [GwHook; GwStart None] Hgen Hsent) as Hsent'.
  cbn in Hs. injection Hs as <-. split; [|done]. split; [| |exact Hgen'|exact Hsent'].
  - split; try done. apply endpoint_new_inv.
  - by split.
Qed.

(** the packets that the connector gave to the hook *)
Lemma wire_given s : wire_inv s -> given 0 (gateway s) = hooked s ++ pending s.
Proof.
  intros [_ H2 H3]. unfold given. rewrite <- H2. f_equal. clear H2. induction H3 as [|d t Hd _ IH]; [done|].
  rewrite filter_cons, decide_True by done. by rewrite IH.
Qed.

(** what a registered, open session has and will get is everything since its registration *)
Lemma session_stream s i b : sys_inv s -> born s !! i = Some b -> i ∈ sessions (ep s) -> open_session i s ->
  put_from None i s ++ in_flight i s ++ pending s = drop b (given 0 (gateway s)).
Proof.
  intros [Hh Hw _ _] Hb Hi Ho. destruct (hist_gateway s Hh i b Hb) as (Hle & _ & _ & Heq).
  rewrite (wire_given s Hw), app_assoc, Heq by done. by rewrite drop_app_le.
Qed.

(** ** Properties: packets of the gateway *)

(** C5: From the stream to the queues.  The receiving thread reads a stream on
    which the frames of [ps] arrive, in any pieces, while clients send, receive,
    open and close sessions in any interleaving.  Then every session that was
    there at the beginning and is registered and open at the end was given
    exactly [ps], in order, after what it had been given: the packets are in its
    queue, in the hands of the hook or still waiting for it.  And what was taken
    from the queue followed by what is in it is what was put there. *)
Theorem stream_to_sessions factory e on_closed echo loopback s0 ops0 ops g ps i
    (s := run_sys s0 ops0) (s' := run_sys s ops) :
  started factory e on_closed echo loopback = Ok s0 -> is_u8 e ->
  receivers (gateway s) !! 0%nat = Some (mkReceiver (cutter_new e) (RxReading g)) ->
  Forall (fun chunk => chunk <> []) (reads_of 0 (gw_run s ops)) -> mjoin (reads_of 0 (gw_run s ops)) = frames ps e ->
  (i < length (store (ep s)))%nat -> i ∈ sessions (ep s') -> open_session i s' ->
  put_from None i s' ++ in_flight i s' ++ pending s' = (put_from None i s ++ in_flight i s ++ pending s) ++ ps
  /\ taken_by i s' ++ queue_of (ep s') i = put_to i s'.
Proof.
  intros Hst He Hrx Hne Hreads Hi Hreg Hopen. destruct (started_inv _ _ _ _ _ _ Hst) as [Hinv0 _].
  assert (sys_inv s) as Hinv by by apply sys_inv_run. assert (sys_inv s') as Hinv' by by apply sys_inv_run.
  destruct (later_run s ops) as [_ Hl1 Hl2 Hl3].
  assert (is_Some (born s !! i)) as [b Hb].
  { apply lookup_lt_is_Some. by rewrite (hist_born s (sys_hist s Hinv)). }
  assert (born s' !! i = Some b) as Hb' by by eapply prefix_lookup_Some.
  rewrite (session_stream s i b), (session_stream s' i b) by auto.
  split; [|symmetry; apply (hist_fifo s' (sys_hist s' Hinv'))].
  assert (given 0 (gateway s') = given 0 (gateway s) ++ ps) as ->.
  { unfold s'. rewrite gateway_run.
    destruct (reading_run (gateway s) (gw_run s ops) 0 _ g (wire_hook s (sys_wire s Hinv)) Hrx Hne) as [_ ->].
    by rewrite feed_chunks_concat, Hreads, feed_frames_clean. }
  apply drop_app_le. rewrite (wire_given s (sys_wire s Hinv)), length_app.
  destruct (hist_gateway s (sys_hist s Hinv) i b Hb) as [Hle _]. lia.
Qed.

(** ** Witness *)

Definition rx : sys_op := SysReceiver [] (Err []).
Definition step_of (c : nat) : sys_op := SysCall c None (Err []).

(** a gateway with echo on; the thread reads its stream, one session is open *)
Definition example_system : System :=
  match started (Ok true) 255 Reconnect true false with
  | Ok s => s
  | _ => mkSystem (world_new example_inner) (endpoint_new true false) [] None [] [] [] [] []
  end.

Definition example_start : list sys_op := [rx; rx; SysStart ReqNew; step_of 0; step_of 0].

(** two frames arrive in two pieces while a client sends and takes a packet *)
Definition example_run : list sys_op :=
  [SysReceiver [7; 255] (Err []); SysStart (ReqSend [3]); SysReceiver [0; 8; 255; 0] (Err []); step_of 1; rx; step_of 1;
   step_of 1; step_of 1; step_of 1; rx; step_of 1; step_of 1; SysStart (ReqTake 0); step_of 2; rx; rx; rx; step_of 1].

Lemma stream_to_sessions_witness :
  let s := run_sys example_system example_start in
  let s' := run_sys s example_run in
  taken_by 0 s' = [[7]] /\ queue_of (ep s') 0 = [[3]; [8]]
  /\ put_from None 0 s' ++ in_flight 0 s' ++ pending s' = [[7]; [8]].
Proof.
  split; [vm_compute; reflexivity|]. split; [vm_compute; reflexivity|].
  refine (proj1 (stream_to_sessions (Ok true) 255 Reconnect true false example_system example_start example_run 0 [[7]; [8]] 0
    _ _ _ _ _ _ _ _)).
  - reflexivity.
  - unfold is_u8. lia.
  - vm_compute. reflexivity.
  - vm_compute. by repeat constructor.
  - vm_compute. reflexivity.
  - vm_compute. lia.
  - apply (bool_decide_eq_true_1 _). vm_compute. reflexivity.
  - eexists. split; vm_compute; reflexivity.
Defined.
