(* ===== verification/GatewayCalls.v ===== *)
(** * The calls of an endpoint on its gateway

    What the calls of [Gateway] do in every interleaving: a sent packet, the end
    of the endpoint after [close], and, when nobody interrupts them, the atomic
    operations of [Endpoint]. *)

From stdpp Require Import base list numbers option strings sets.
From Stdlib Require Import ZArith Lia.
From S2P Require Import Prelude RustStd Framing Connector Endpoint Gateway.

(** ** Lemmas: a call of send *)

Lemma sys_step_sender s o k d st : senders (gateway s) !! k = Some (mkSender d st) ->
  exists st', senders (gateway (sys_step s o)) !! k = Some (mkSender d st') /\ (forall r, st = SndDone r -> st' = st)
    /\ (st' = SndDone Panic -> st = SndDone Panic).
Proof.
  rewrite gateway_step. generalize (gateway s). intros w Hk. revert w st Hk.
  induction (gw_of s o) as [|x t IH]; intros w st Hk; [by eauto|].
  destruct (gw_step_sender w x k d st Hk) as (st1 & Hk1 & Hd1 & Hp1).
  destruct (IH (gw_step w x) st1 Hk1) as (st2 & Hk2 & Hd2 & Hp2).
  exists st2. split; [done|]. split; [|by auto]. intros r Hr. rewrite (Hd2 r); [by apply (Hd1 r)|]. by rewrite (Hd1 r).
Qed.

Lemma put_from_same o i s s' : log s' = log s -> put_from o i s' = put_from o i s.
Proof. unfold put_from. by intros ->. Qed.

Lemma own_step c (o : sys_op) : (exists f g, o = SysCall c f g) \/ (forall f g, o <> SysCall c f g).
Proof.
  destruct o as [| c' f g|]; [by right| |by right]. destruct (decide (c' = c)) as [->|]; [by eauto|]. right. congruence.
Qed.

(** the steps of the others do not touch a call *)
Lemma other_step_call s o c x : calls s !! c = Some x -> (forall f g, o <> SysCall c f g) ->
  calls (sys_step s o) !! c = Some x /\ forall i, put_from (Some c) i (sys_step s o) = put_from (Some c) i s.
Proof.
  intros Hc Ho. destruct o as [r|c' failed factory|chunk factory]; cbn [sys_step].
  - split; [|done]. cbn. by apply lookup_app_l_Some.
  - assert (c' <> c) as Hne by (intros ->; by apply (Ho failed factory)).
    assert (forall y s', calls s' = calls s -> log s' = log s ->
      calls (set_call c' y s') !! c = Some x /\ forall i, put_from (Some c) i (set_call c' y s') = put_from (Some c) i s) as Hset.
    { intros y s' E1 E2. cbn. rewrite E1, list_lookup_insert_ne by done. split; [done|]. intros i. by apply put_from_same. }
    unfold call_step. destruct (calls s !! c') as [y|]; [|done].
    destruct y as [k data|data|data [|i todo]|data i todo|data i todo|r| | |r|i|i|i|r|i key value|r| | | | |[|i todo]|];
      try done; try (by apply Hset).
    + unfold send_in_gateway. destruct (s_state <$> _) as [[| | |[]]|]; first [done|by apply Hset].
    + cbn. rewrite list_lookup_insert_ne by done. split; [done|]. intros j.
      change (put_from (Some c) j (put_session i (Some c') data s) = put_from (Some c) j s).
      rewrite put_session_from, bool_decide_false, app_nil_r; [done|]. intros [_ [= ?]]. congruence.
    + unfold take_look. destruct (conn_get_next_packet i (ep s)) as [[r|] e]; first [done|by apply Hset].
    + destruct (conn_set_attribute i key value (ep s)). by apply Hset.
  - unfold receiver. destruct (hook_call s) as [[p [|i todo]]|]; [done| |by destruct (pending s)].
    split; [done|]. intros j. change (put_from (Some c) j (put_session i None p s) = put_from (Some c) j s).
    rewrite put_session_from, bool_decide_false, app_nil_r; [done|]. by intros [_ ?].
Qed.

Section Send.
Context (c k : nat) (data : list Z).

(** the sender of the call in the connector *)
Definition sender_at (st : SendState) (s : System) : Prop := senders (gateway s) !! k = Some (mkSender data st).

(** until the connector has sent the packet no session gets it *)
Definition send_early (s : System) : Prop :=
  match calls s !! c with
  | Some (SendGateway k' d) => k' = k /\ d = data /\ (exists st, sender_at st s /\ st <> SndDone Panic)
    /\ forall i, put_from (Some c) i s = []
  | Some (SendClone d) => d = data /\ sender_at (SndDone (Ok tt)) s /\ forall i, put_from (Some c) i s = []
  | Some (SendEach d _) | Some (SendEcho d _ _) | Some (SendPut d _ _) => d = data /\ sender_at (SndDone (Ok tt)) s
  | Some (SendReturn (Ok _)) => sender_at (SndDone (Ok tt)) s
  | Some (SendReturn (Err err)) => sender_at (SndDone (Err err)) s /\ forall i, put_from (Some c) i s = []
  | _ => False
  end.

Lemma sender_at_step st s o : sender_at st s -> (exists r, st = SndDone r) -> sender_at st (sys_step s o).
Proof.
  intros Hs [r ->]. destruct (sys_step_sender s o k data _ Hs) as (st & Hst & Hd & _). unfold sender_at.
  by rewrite Hst, (Hd r).
Qed.

Lemma send_early_step s o : send_early s -> send_early (sys_step s o).
Proof.
  intros Hs.
  assert (forall r, sender_at (SndDone r) s -> sender_at (SndDone r) (sys_step s o)) as Hdone
    by (intros r Hr; apply sender_at_step; eauto).
  assert (forall st, sender_at st s /\ st <> SndDone Panic -> exists st, sender_at st (sys_step s o) /\ st <> SndDone Panic)
    as Hst by (intros st [Hr Hp]; destruct (sys_step_sender s o k data _ Hr) as (st' & Hst' & _ & Hp'); by eauto 6).
  destruct (own_step c o) as [(f & g & ->)|Hno].
  2: { unfold send_early in *. destruct (calls s !! c) as [x|] eqn:Hc; [|done].
    destruct (other_step_call s o c x Hc Hno) as [-> Hput].
    destruct x as [| | | | |[| |]| | | | | | | | | | | | | | |]; try done; try (by intuition).
    - destruct Hs as (-> & -> & [st Hk] & Hp). split; [done|]. split; [done|]. split; [by eauto|]. intros i. by rewrite Hput.
    - destruct Hs as (-> & Hk & Hp). split; [done|]. split; [by auto|]. intros i. by rewrite Hput.
    - destruct Hs as (Hk & Hp). split; [by auto|]. intros i. by rewrite Hput. }
  cbn [sys_step] in *. unfold send_early in Hs |- *. unfold call_step in *.
  destruct (calls s !! c) as [x|] eqn:Hc; [|done].
  assert (c < length (calls s))%nat as Hlt by by eapply lookup_lt_Some.
  destruct x as [k' d|d|d [|i todo]|d i todo|d i todo|r| | |r|i|i|i|r|i key value|r| | | | |[|i todo]|]; try done.
  - destruct Hs as (-> & -> & (st & Hk & Hpanic) & Hput). unfold send_in_gateway in *. unfold sender_at in Hk.
    specialize (Hst st (conj Hk Hpanic)). rewrite Hk in *. cbn in *.
    destruct st as [| | |[[]|err|]]; cbn; rewrite ?list_lookup_insert_eq by done; try (by eauto); rewrite Hc; by eauto.
  - cbn. rewrite list_lookup_insert_eq by done. naive_solver.
  - cbn. rewrite list_lookup_insert_eq by done. naive_solver.
  - cbn. rewrite list_lookup_insert_eq by done. destruct (flag _ _ _); naive_solver.
  - cbn. rewrite list_lookup_insert_eq by done. destruct (flag _ _ _); naive_solver.
  - cbn. rewrite list_lookup_insert_eq by done. naive_solver.
  - rewrite Hc. by destruct r.
Qed.

Section Asked.
Context (i : nat) (lb eb : bool).

(** session [i], with these settings, got the packet unless it is still to come in [rest] *)
Definition served (rest : list nat) (s : System) : Prop :=
  put_from (Some c) i s = if (lb || eb) && negb (bool_decide (i ∈ rest)) then [data] else [].

Definition send_progress (s : System) : Prop :=
  match calls s !! c with
  | Some (SendEach _ todo) => NoDup todo /\ served todo s
  | Some (SendEcho _ j todo) => NoDup (j :: todo) /\ served (j :: todo) s /\ (j = i -> lb = false)
  | Some (SendPut _ j todo) => NoDup (j :: todo) /\ served (j :: todo) s /\ (j = i -> lb || eb = true)
  | Some (SendReturn (Ok _)) => served [] s
  | _ => True
  end.

Lemma served_other (rest : list nat) j s : j <> i -> served (j :: rest) s -> served rest s.
Proof.
  intros Hj. unfold served. by rewrite (bool_decide_ext (i ∈ j :: rest) (i ∈ rest)) by set_solver.
Qed.

Lemma served_refused (rest : list nat) j s : j = i -> lb || eb = false -> served (j :: rest) s -> served rest s.
Proof. intros -> Hb. unfold served. by rewrite Hb. Qed.

(** the put of the call reaches an open session *)
Lemma served_put (rest : list nat) j s : NoDup (j :: rest) -> (j = i -> lb || eb = true) -> open_session i s ->
  served (j :: rest) s -> served rest (put_session j (Some c) data s).
Proof.
  intros [Hj _]%NoDup_cons Hb (x & Hx & Hc) Hs. destruct (decide (j = i)) as [->|Hne].
  - unfold served in *. rewrite put_session_from, Hs, Hx, Hc, (Hb eq_refl).
    by rewrite (bool_decide_true (i ∈ i :: rest)), (bool_decide_false (i ∈ rest)), (bool_decide_true (i = i /\ _)) by
      (done || set_solver).
  - apply served_other in Hs; [|done]. unfold served in *.
    rewrite put_session_from, (bool_decide_false (i = j /\ _)), app_nil_r; [done|]. by intros [-> _].
Qed.

Lemma send_progress_step s o : ep_inv (ep s) -> i ∈ sessions (ep s) -> open_session i s ->
  flag loopback_send_packets i s = lb -> flag echo_loopback i s = eb ->
  send_early s -> send_progress s -> send_progress (sys_step s o).
Proof.
  intros Hep Hi Ho Hlb Heb He Hs. destruct (own_step c o) as [(f & g & ->)|Hno].
  2: { unfold send_early in He. unfold send_progress in *. destruct (calls s !! c) as [x|] eqn:Hc; [|done].
    destruct (other_step_call s o c x Hc Hno) as [-> Hput]. unfold served in *. by rewrite Hput. }
  cbn [sys_step]. unfold send_early in He. unfold send_progress in *. unfold call_step.
  destruct (calls s !! c) as [x|] eqn:Hc; [|done].
  assert (c < length (calls s))%nat as Hlt by by eapply lookup_lt_Some.
  destruct x as [k' d|d|d [|j todo]|d j todo|d j todo|r| | |r|j|j|j|r|j key value|r| | | | |[|j todo]|]; try done.
  - destruct He as (-> & -> & (st & Hk & _) & Hput). unfold send_in_gateway in *. unfold sender_at in Hk. rewrite Hk.
    cbn. destruct st as [| | |[[]|err|]]; cbn; rewrite ?list_lookup_insert_eq by done; try done; by rewrite Hc.
  - cbn. rewrite list_lookup_insert_eq by done. destruct He as (_ & _ & Hput). split; [by destruct Hep|].
    unfold served. change (put_from (Some c) i _) with (put_from (Some c) i s).
    by rewrite Hput, bool_decide_true, andb_false_r.
  - cbn. rewrite list_lookup_insert_eq by done. apply Hs.
  - cbn. rewrite list_lookup_insert_eq by done. destruct Hs as [Hn Hs].
    destruct (flag loopback_send_packets j s) eqn:Hf; (split; [done|]); (split; [done|]); intros ->; [|congruence].
    by rewrite <- Hlb, Hf.
  - cbn. rewrite list_lookup_insert_eq by done. destruct Hs as (Hn & Hs & Hj).
    destruct (flag echo_loopback j s) eqn:Hf; split; try done; [split; [done|]|by apply NoDup_cons in Hn as [_ ?]|].
    + intros ->. rewrite <- Heb, Hf. apply orb_true_r.
    + destruct (decide (j = i)) as [->|Hne]; [|by apply (served_other _ j)].
      apply (served_refused _ i); [done| |done]. rewrite (Hj eq_refl). cbn. congruence.
  - cbn. rewrite list_lookup_insert_eq by done. destruct Hs as (Hn & Hs & Hj). destruct He as [-> _].
    split; [by apply NoDup_cons in Hn as [_ ?]|].
    by apply (served_put todo j s).
  - by rewrite Hc.
Qed.
End Asked.
End Send.

(** a packet of a call comes from a call that was made *)
Definition origin_inv (s : System) : Prop :=
  Forall (fun x => match origin x with Some c => (c < length (calls s))%nat | None => True end) (log s).

Lemma origin_grow s s' : origin_inv s -> log s' = log s -> (length (calls s) <= length (calls s'))%nat -> origin_inv s'.
Proof.
  intros Hs El Hc. unfold origin_inv in *. rewrite El. eapply Forall_impl; [exact Hs|]. intros x. cbn.
  destruct (origin x); [lia|done].
Qed.

Lemma origin_put i o p s s' : origin_inv s -> match o with Some c => (c < length (calls s))%nat | None => True end ->
  log s' = log (put_session i o p s) -> length (calls s') = length (calls s) -> origin_inv s'.
Proof.
  intros Hs Ho El Hc. unfold origin_inv in *. rewrite El, Hc. cbn. apply Forall_app. split; [done|].
  destruct (store (ep s) !! i) as [x|]; [|constructor]. destruct (session_closed x); [constructor|]. by constructor.
Qed.

Lemma origin_step s o : origin_inv s -> origin_inv (sys_step s o).
Proof.
  intros Hs. destruct o as [r|c failed factory|chunk factory]; cbn [sys_step].
  - apply (origin_grow s); [done|done|]. cbn. rewrite length_app. lia.
  - unfold call_step. destruct (calls s !! c) as [x|] eqn:Hc; [|done].
    assert (forall y s', calls s' = calls s -> log s' = log s -> origin_inv (set_call c y s')) as Hset.
    { intros y s' E1 E2. apply (origin_grow s); [done|done|]. cbn. rewrite length_insert. by rewrite E1. }
    destruct x as [k data|data|data [|i todo]|data i todo|data i todo|r| | |r|i|i|i|r|i key value|r| | | | |[|i todo]|];
      try done; try (by apply Hset).
    + unfold send_in_gateway. destruct (s_state <$> _) as [[| | |[]]|]; first [by apply Hset|by apply (origin_grow s)].
    + eapply (origin_put i (Some c) data s); [done| |done|cbn; by rewrite length_insert]. by eapply lookup_lt_Some.
    + unfold take_look. destruct (conn_get_next_packet i (ep s)) as [[r|] e]; first [done|by apply Hset].
    + destruct (conn_set_attribute i key value (ep s)). by apply Hset.
  - unfold receiver. destruct (hook_call s) as [[p [|i todo]]|]; [by apply (origin_grow s)| |].
    + by eapply (origin_put i None p s).
    + destruct (pending s); by apply (origin_grow s).
Qed.

Lemma origin_run s ops : origin_inv s -> origin_inv (run_sys s ops).
Proof. revert s. induction ops as [|o t IH]; intros s Hs; [done|]. cbn. by apply IH, origin_step. Qed.

Lemma started_origin factory e on_closed echo loopback s : started factory e on_closed echo loopback = Ok s -> origin_inv s.
Proof.
  unfold started, connector_new. destruct factory as [b| |]; [|done..]. cbn. intros [= <-]. constructor.
Qed.

(** the call of [start_call] at its beginning *)
Lemma send_starts s data : origin_inv s ->
  send_early (length (calls s)) (length (senders (gateway s))) data (start_call (ReqSend data) s).
Proof.
  intros Hs. unfold send_early. cbn. rewrite lookup_app_r, Nat.sub_diag by lia. cbn.
  split; [done|]. split; [done|]. split.
  - exists SndCheck. split; [|done]. unfold sender_at. cbn. by rewrite lookup_app_r, Nat.sub_diag by lia.
  - intros i. unfold put_from. cbn. rewrite filter_none; [done|]. intros x Hx [_ Ho].
    unfold origin_inv in Hs. eapply Forall_forall in Hs; [|exact Hx]. cbn in Hs. rewrite Ho in Hs. lia.
Qed.

Lemma send_early_run c k data s ops : send_early c k data s -> send_early c k data (run_sys s ops).
Proof. revert s. induction ops as [|o t IH]; intros s Hs; [done|]. cbn. by apply IH, send_early_step. Qed.

(** a session that stays registered and open and keeps its settings *)
Lemma send_progress_run c k data i lb eb s ops : sys_inv s -> (i < length (store (ep s)))%nat ->
  i ∈ sessions (ep (run_sys s ops)) -> open_session i (run_sys s ops) ->
  (forall ops1 ops2, ops = ops1 ++ ops2 ->
     flag loopback_send_packets i (run_sys s ops1) = lb /\ flag echo_loopback i (run_sys s ops1) = eb) ->
  send_early c k data s -> send_progress c data i lb eb s -> send_progress c data i lb eb (run_sys s ops).
Proof.
  revert s. induction ops as [|o t IH]; intros s Hinv Hi Hreg Hopen Hf He Hs; [done|].
  change (run_sys s (o :: t)) with (run_sys (sys_step s o) t) in *.
  destruct (later_run s (o :: t)) as [_ Hl1 Hl2 _]. destruct (later_step s o) as [Hlen _ _ _].
  destruct (Hf [] (o :: t) eq_refl) as [Hf1 Hf2]. apply IH; try done; [by apply (sys_inv_run s [o])|lia| | |].
  - intros ops1 ops2 ->. apply (Hf (o :: ops1) ops2 eq_refl).
  - by apply send_early_step.
  - apply (send_progress_step _ k); try done; [by destruct Hinv as [[? _ _ _ _ _] _ _ _]| |]; auto.
Qed.

(** the write of a sender that is done *)
Lemma ok_write_of w k data r e : sent_inv w -> stream_escape (inner w) = e ->
  senders w !! k = Some (mkSender data (SndDone r)) ->
  match r with
  | Ok _ => exists x, ok_writes k (inner w) = [x] /\ w_bytes x = frame_bytes data e
  | _ => ok_writes k (inner w) = []
  end.
Proof.
  intros [H1 H2] He Hk. specialize (H2 k _ Hk). cbn in H2. destruct r as [u|err|]; cbn in H2;
    try by apply length_zero_iff_nil.
  destruct (ok_writes k (inner w)) as [|x [|y l]] eqn:Hx; try done. exists x. split; [done|].
  assert (x ∈ ok_writes k (inner w)) as Hin by (rewrite Hx; set_solver).
  unfold ok_writes in Hin. apply list_elem_of_filter in Hin as [[Hxk Hok] Hin].
  destruct (H1 x Hin) as (s & Hs & Hf). rewrite Hok in Hf. rewrite Hxk, Hk in Hs. injection Hs as <-.
  by rewrite (proj1 Hf), He.
Qed.

(** ** Properties: packets of clients *)

(** C11: A packet that a client sends.  In every interleaving with the gateway,
    other clients, reopened streams and closing, a call that returned [Ok] had
    exactly one successful write, of the frame of its packet, and a session that
    was there before the call, is registered and open after it and did not change
    its settings meanwhile got the packet exactly once if it asked for sent
    packets and not at all otherwise.  A call that returned an error had no
    successful write and gave the packet to no session. *)
Theorem send_call_delivers factory e on_closed echo loopback s0 ops0 data ops r
    (s := run_sys s0 ops0) (c := length (calls s)) (k := length (senders (gateway s)))
    (s1 := start_call (ReqSend data) s) (s' := run_sys s1 ops) :
  started factory e on_closed echo loopback = Ok s0 -> calls s' !! c = Some (SendReturn r) ->
  match r with
  | Ok _ => (exists x, ok_writes k (inner (gateway s')) = [x] /\ w_bytes x = frame_bytes data e)
    /\ forall i lb eb, (i < length (store (ep s)))%nat -> i ∈ sessions (ep s') -> open_session i s' ->
         (forall ops1 ops2, ops = ops1 ++ ops2 ->
            flag loopback_send_packets i (run_sys s1 ops1) = lb /\ flag echo_loopback i (run_sys s1 ops1) = eb) ->
         put_from (Some c) i s' = if lb || eb then [data] else []
  | Err _ => ok_writes k (inner (gateway s')) = [] /\ forall i, put_from (Some c) i s' = []
  | Panic => False
  end.
Proof.
  intros Hst Hr. destruct (started_inv _ _ _ _ _ _ Hst) as (Hinv0 & He & _).
  assert (sys_inv s1) as Hinv1 by by apply (sys_inv_run s [SysStart (ReqSend data)]), sys_inv_run.
  assert (sys_inv s') as [_ _ _ Hsent] by by apply sys_inv_run.
  assert (stream_escape (inner (gateway s')) = e) as Hesc.
  { unfold s'. rewrite gateway_run, run_gw_escape. cbn. unfold s. by rewrite gateway_run, run_gw_escape. }
  assert (send_early c k data s1) as He1 by (apply send_starts, origin_run; by eapply started_origin).
  pose proof (send_early_run c k data s1 ops He1) as Hearly. fold s' in Hearly.
  unfold send_early in Hearly. rewrite Hr in Hearly. destruct r as [u|err|]; [| |done].
  - split; [by apply (ok_write_of _ _ _ (Ok tt))|]. intros i lb eb Hi Hreg Hopen Hf.
    assert (send_progress c data i lb eb s') as Hp.
    { apply (send_progress_run c k); try done. unfold send_progress. cbn. unfold c. by rewrite lookup_app_r, Nat.sub_diag by lia. }
    unfold send_progress, served in Hp. rewrite Hr in Hp.
    by rewrite (bool_decide_false (i ∈ [])), andb_true_r in Hp by set_solver.
  - destruct Hearly as [Hk Hput]. split; [|done]. by apply (ok_write_of _ _ data (Err err) e).
Qed.

(** ** Lemmas: closing *)

Definition closed_session (i : nat) (s : System) : Prop :=
  exists x, store (ep s) !! i = Some x /\ session_closed x = true.

(** a call that is going to close session [i] *)
Definition closes (i : nat) (x : CallState) : Prop :=
  match x with RemoveClose j => j = i | CloseEach todo => i ∈ todo | _ => False end.

(** no session is forgotten: it is registered, closed or about to be closed *)
Definition attended (i : nat) (s : System) : Prop :=
  i ∈ sessions (ep s) \/ closed_session i s \/ exists c x, calls s !! c = Some x /\ closes i x.

(** a step of call [c], which was not going to close the session *)
Lemma attended_call i c x y s s' : attended i s -> calls s !! c = Some x -> calls s' = <[c := y]> (calls s) ->
  (i ∈ sessions (ep s) -> attended i s') -> (closed_session i s -> closed_session i s') ->
  (closes i x -> closes i y \/ closed_session i s') -> attended i s'.
Proof.
  intros [Hreg|[Hcl|(c' & z & Hz & Hi)]] Hc E Hr Hcl' Hx; [by apply Hr|right; left; by apply Hcl'|].
  destruct (decide (c' = c)) as [->|Hne].
  - rewrite Hc in Hz. injection Hz as <-. destruct (Hx Hi) as [Hy|?]; [|by right; left].
    right; right. exists c, y. rewrite E, list_lookup_insert_eq; [done|]. by eapply lookup_lt_Some.
  - right; right. exists c', z. by rewrite E, list_lookup_insert_ne.
Qed.

Lemma closed_session_with i j f s s' : (forall x, session_closed x = true -> session_closed (f x) = true) ->
  ep s' = with_session j f (ep s) -> closed_session i s -> closed_session i s'.
Proof.
  intros Hf E (x & Hx & Hc). unfold closed_session. rewrite E, with_session_lookup. case_bool_decide; [subst|by eauto].
  rewrite Hx. cbn. eauto.
Qed.

Lemma closed_session_store i s s' : store (ep s') = store (ep s) -> closed_session i s -> closed_session i s'.
Proof. unfold closed_session. by intros ->. Qed.

Lemma session_close_closes i s s' : (i < length (store (ep s)))%nat -> ep s' = with_session i session_close (ep s) ->
  closed_session i s'.
Proof.
  intros Hi E. destruct (lookup_lt_is_Some_2 _ _ Hi) as [x Hx]. unfold closed_session.
  rewrite E, with_session_lookup, bool_decide_true, Hx by done. cbn. eauto.
Qed.

Lemma take_look_ep c i s : ep (take_look c i s) = with_session i (fun x => (take_packet x).2) (ep s)
  \/ ep (take_look c i s) = ep s.
Proof.
  unfold take_look. destruct (decide (i < length (store (ep s)))%nat) as [Hi|Hi].
  - pose proof (proj1 (proj2 (conn_steps i [] [] [] (ep s) Hi))) as E.
    destruct (conn_get_next_packet i (ep s)) as [[r|] e]; [left; exact E|by right].
  - unfold conn_get_next_packet. rewrite lookup_ge_None_2 by lia. by right.
Qed.

Lemma conn_set_attribute_ep i key value e :
  (conn_set_attribute i key value e).2 = with_session i (fun x => (set_attribute key value x).2) e
  \/ (conn_set_attribute i key value e).2 = e.
Proof.
  destruct (decide (i < length (store e))%nat) as [Hi|Hi].
  - left. apply (proj1 (proj2 (proj2 (conn_steps i [] key value e Hi)))).
  - right. unfold conn_set_attribute. by rewrite lookup_ge_None_2 by lia.
Qed.

Lemma take_closed x : session_closed x = true -> session_closed (take_packet x).2 = true.
Proof. unfold take_packet. by destruct (packets x). Qed.

Lemma set_attribute_closed key value x : session_closed x = true -> session_closed (set_attribute key value x).2 = true.
Proof. by rewrite (proj2 (set_attribute_packets key value x)). Qed.

Lemma closed_put p x : session_closed x = true -> session_closed (put p x) = true.
Proof. by rewrite put_closed. Qed.

(** a closed session stays closed *)
Lemma closed_session_step i s o : closed_session i s -> closed_session i (sys_step s o).
Proof.
  intros Hs. destruct o as [r|c failed factory|chunk factory]; cbn [sys_step]; [done| |].
  - unfold call_step. destruct (calls s !! c) as [x|]; [|done].
    destruct x as [k data|data|data [|j todo]|data j todo|data j todo|r| | |r|j|j|j|r|j key value|r| | | | |[|j todo]|];
      try done.
    + unfold send_in_gateway. by destruct (s_state <$> _) as [[| | |[]]|].
    + by apply (closed_session_with i j (put data) s); [apply closed_put|..].
    + destruct Hs as (x & Hx & Hc). exists x. split; [|done]. cbn. by apply lookup_app_l_Some.
    + by apply (closed_session_with i j session_close s).
    + destruct (take_look_ep c j s) as [E|E]; [eapply closed_session_with; [apply take_closed|exact E|done]|].
      apply (closed_session_store i s); [by rewrite E|done].
    + destruct (conn_set_attribute_ep j key value (ep s)) as [E|E];
        destruct (conn_set_attribute j key value (ep s)) as [r e]; cbn in E; subst e; [|done].
      by eapply (closed_session_with i j); [apply set_attribute_closed|..].
    + by apply (closed_session_with i j session_close s).
  - unfold receiver. destruct (hook_call s) as [[p [|j todo]]|]; [done| |by destruct (pending s)].
    by apply (closed_session_with i j (put p) s); [apply closed_put|..].
Qed.

(** a step that changes neither the list of sessions nor the calls that close *)
Lemma attended_keep i s s' : attended i s -> sessions (ep s') = sessions (ep s) ->
  (closed_session i s -> closed_session i s') ->
  (forall c x, calls s !! c = Some x -> closes i x -> exists y, calls s' !! c = Some y /\ closes i y) -> attended i s'.
Proof.
  intros [Hreg|[Hcl|(c & x & Hx & Hi)]] E Hcl' Hcalls; [left; by rewrite E|right; left; auto|].
  destruct (Hcalls c x Hx Hi) as (y & ? & ?). right; right. by eauto.
Qed.

Lemma attended_set_call i c x y s s' : attended i s -> calls s !! c = Some x -> closes i x = False ->
  calls s' = <[c := y]> (calls s) -> sessions (ep s') = sessions (ep s) ->
  (closed_session i s -> closed_session i s') -> attended i s'.
Proof.
  intros Hs Hc Hx E Es Hcl. apply (attended_keep i s); try done. intros c' z Hz Hi.
  destruct (decide (c' = c)) as [->|]; [|rewrite E, list_lookup_insert_ne by done; by eauto].
  rewrite Hc in Hz. injection Hz as <-. by rewrite Hx in Hi.
Qed.

Lemma attended_step i s o : (i < length (store (ep s)))%nat -> attended i s -> attended i (sys_step s o).
Proof.
  intros Hi Hs. pose proof (closed_session_step i s o) as Hcl.
  destruct o as [r|c failed factory|chunk factory]; cbn [sys_step] in *.
  - apply (attended_keep i s); try done. intros c x Hx Hi'. exists x. split; [|done]. cbn. by apply lookup_app_l_Some.
  - unfold call_step in *. destruct (calls s !! c) as [x|] eqn:Hc; [|done].
    destruct x as [k data|data|data [|j todo]|data j todo|data j todo|r| | |r|j|j|j|r|j key value|r| | | | |[|j todo]|];
      try done; try (by eapply (attended_set_call i c)).
    + unfold send_in_gateway in *. destruct (s_state <$> _) as [[| | |[]]|]; first [by apply (attended_keep i s); eauto|by eapply (attended_set_call i c)].
    + eapply (attended_call i c); [exact Hs|exact Hc|done| |done|done]. intros ?. left. cbn. set_solver.
    + eapply (attended_call i c); [exact Hs|exact Hc|done| |done|done]. intros Hr. destruct (decide (j = i)) as [->|Hne].
      * right; right. exists c, (RemoveClose i). cbn. rewrite list_lookup_insert_eq; [done|]. by eapply lookup_lt_Some.
      * left. cbn. apply list_elem_of_filter. by split.
    + eapply (attended_call i c); [exact Hs|exact Hc|done|by left|done|]. intros ->. right.
      by apply (session_close_closes i s).
    + unfold take_look in *. destruct (conn_get_next_packet j (ep s)) as [[r|] e] eqn:Hn; [|done].
      eapply (attended_set_call i c); try done. destruct (take_look_ep c j s) as [E|E]; unfold take_look in E; rewrite Hn in E;
        cbn in *; by rewrite E.
    + destruct (conn_set_attribute_ep j key value (ep s)) as [E|E];
        destruct (conn_set_attribute j key value (ep s)) as [r e]; cbn in E; subst e; by eapply (attended_set_call i c).
    + eapply (attended_call i c); [exact Hs|exact Hc|done| |done|done]. intros Hr. right; right.
      exists c, (CloseEach (sessions (ep s))). cbn. rewrite list_lookup_insert_eq; [done|]. by eapply lookup_lt_Some.
    + eapply (attended_call i c); [exact Hs|exact Hc|done|by left|done|]. cbn. intros Hx. by apply elem_of_nil in Hx.
    + eapply (attended_call i c); [exact Hs|exact Hc|done|by left|done|]. cbn [closes].
      intros [->|Hx]%elem_of_cons; [right|by left]. by apply (session_close_closes j s).
  - apply (attended_keep i s); [done| |done|]; unfold receiver; destruct (hook_call s) as [[p [|j todo]]|];
      try done; try (by destruct (pending s)); eauto. intros c x Hx ?. exists x. by destruct (pending s).
Qed.

(** the store grows only when a session is registered *)
Lemma store_grows s o : length (store (ep (sys_step s o))) = length (store (ep s))
  \/ exists c, sys_step s o = new_push c s.
Proof.
  destruct o as [r|c failed factory|chunk factory]; cbn [sys_step]; [by left| |].
  - unfold call_step. destruct (calls s !! c) as [x|]; [|by left].
    destruct x as [k data|data|data [|j todo]|data j todo|data j todo|r| | |r|j|j|j|r|j key value|r| | | | |[|j todo]|];
      try (by left); try (left; cbn; by rewrite ?length_alter).
    + unfold send_in_gateway. left. by destruct (s_state <$> _) as [[| | |[]]|].
    + right. by eauto.
    + left. destruct (take_look_ep c j s) as [-> | ->]; [cbn; by rewrite length_alter|done].
    + left. destruct (conn_set_attribute_ep j key value (ep s)) as [E|E];
        destruct (conn_set_attribute j key value (ep s)) as [r e]; cbn in E; subst e; cbn; by rewrite ?length_alter.
  - left. unfold receiver. destruct (hook_call s) as [[p [|j todo]]|]; [done|cbn; by rewrite length_alter|].
    by destruct (pending s).
Qed.

Lemma sessions_attended s ops : (forall i, (i < length (store (ep s)))%nat -> attended i s) ->
  forall i, (i < length (store (ep (run_sys s ops))))%nat -> attended i (run_sys s ops).
Proof.
  revert s. induction ops as [|o t IH]; intros s Hs; [done|].
  change (run_sys s (o :: t)) with (run_sys (sys_step s o) t). apply IH. intros i Hi.
  destruct (decide (i < length (store (ep s)))%nat) as [Hlt|Hge]; [by apply attended_step; auto|].
  destruct (store_grows s o) as [E|[c E]]; rewrite E in Hi; [lia|]. rewrite E. left. cbn in Hi |- *.
  rewrite length_app in Hi. cbn in Hi. apply elem_of_app. right. apply list_elem_of_singleton. lia.
Qed.

(** ** Lemmas: after closing *)

(** how far the call [c] of [close] is; [n]: the sessions that were there *)
Definition close_progress (c n : nat) (s : System) : Prop :=
  let flagged := closed (ep s) = true in
  let stopped := run (inner (gateway s)) = false in
  let removed := forall i, (i < n)%nat -> i ∉ sessions (ep s) in
  match calls s !! c with
  | Some CloseFlag => True
  | Some CloseRun => flagged
  | Some CloseKill | Some CloseTake => flagged /\ stopped
  | Some (CloseEach _) | Some Finished => flagged /\ stopped /\ removed
  | _ => False
  end.

Lemma gw_step_stopped w o : (forall thread, o <> GwStart thread) -> run (inner w) = false -> run (inner (gw_step w o)) = false.
Proof.
  intros Ho Hr. assert (forall g f c, run (manage_closed_connection g f c).2 = run c) as Hm.
  { intros g f c. unfold manage_closed_connection, kill_child. destruct (negb _); [done|].
    destruct (on_closed c); [|done]. destruct (child (io c)); by destruct f. }
  destruct o as [|data|i failed factory| |j chunk factory| |]; cbn [gw_step]; try done.
  - unfold sender_step, send_check, send_write, send_manage.
    destruct (senders w !! i) as [[data [| |g err|r]]|]; try done.
    + by rewrite Hr.
    + by destruct failed as [[??]|].
    + pose proof (Hm g factory (inner w)) as Hx.
      destruct (manage_closed_connection g factory (inner w)) as [go c]. cbn in *. congruence.
  - by destruct (Ho thread).
  - unfold receiver_step, rx_take, rx_read, rx_manage.
    destruct (receivers w !! j) as [[cut [| |g|g|g|]]|]; try done.
    + by destruct (reader (io (inner w))).
    + destruct chunk as [|b chunk]; [done|]. destruct (feed_bytes cut (b :: chunk)) as [cut' packets]. cbn.
      assert (forall c, run c = false -> run (foldl (dispatch_packet j) c packets) = false) as Hd; [|by apply Hd].
      induction packets as [|p t IH]; intros c Hc; [done|]. cbn. apply IH. unfold dispatch_packet. by destruct (hook c).
    + pose proof (Hm g factory (inner w)) as Hx.
      destruct (manage_closed_connection g factory (inner w)) as [go c]. cbn in *. congruence.
  - unfold close_child, kill_child. by destruct (child (io (inner w))).
Qed.

(** nothing in the system starts the connector again *)
Lemma stopped_step s o : run (inner (gateway s)) = false -> run (inner (gateway (sys_step s o))) = false.
Proof.
  intros Hr. rewrite gateway_step. assert (forall thread, GwStart thread ∉ gw_of s o) as Hno.
  { intros thread. destruct o as [[]|c f g|chunk f]; cbn [gw_of]; try set_solver.
    - destruct (calls s !! c) as [[]|]; try set_solver. destruct (s_state <$> _) as [[]|]; set_solver.
    - destruct (hook_call s), (pending s); set_solver. }
  revert Hr Hno. generalize (gateway s). induction (gw_of s o) as [|x t IH]; intros w Hr Hno; [done|].
  apply IH; [apply gw_step_stopped; set_solver|set_solver].
Qed.

Lemma closed_flag_step s o : closed (ep s) = true -> closed (ep (sys_step s o)) = true.
Proof.
  intros Hc. destruct o as [r|c failed factory|chunk factory]; cbn [sys_step]; [done| |].
  - unfold call_step. destruct (calls s !! c) as [x|]; [|done].
    destruct x as [k data|data|data [|j todo]|data j todo|data j todo|r| | |r|j|j|j|r|j key value|r| | | | |[|j todo]|];
      try done.
    + unfold send_in_gateway. by destruct (s_state <$> _) as [[| | |[]]|].
    + by destruct (take_look_ep c j s) as [-> | ->].
    + destruct (conn_set_attribute_ep j key value (ep s)) as [E|E];
        destruct (conn_set_attribute j key value (ep s)) as [r e]; cbn in E; by subst e.
  - unfold receiver. destruct (hook_call s) as [[p [|j todo]]|]; [done|done|]. by destruct (pending s).
Qed.

Lemma close_progress_step c n s o : (n <= length (store (ep s)))%nat -> close_progress c n s ->
  close_progress c n (sys_step s o).
Proof.
  intros Hn Hs. pose proof (closed_flag_step s o) as Hflag. pose proof (stopped_step s o) as Hstop.
  assert ((forall i, (i < n)%nat -> i ∉ sessions (ep s)) -> forall i, (i < n)%nat -> i ∉ sessions (ep (sys_step s o)))
    as Hrem by (intros Hx i Hi Hin; apply (Hx i Hi); apply (later_sessions _ _ (later_step s o)); [lia|done]).
  unfold close_progress in Hs. destruct (calls s !! c) as [x|] eqn:Hc; [|done].
  assert (c < length (calls s))%nat as Hlt by by eapply lookup_lt_Some.
  destruct (own_step c o) as [(f & g & ->)|Hno].
  2: { unfold close_progress. destruct (other_step_call s o c x Hc Hno) as [-> _].
    destruct x; try done; naive_solver. }
  cbn [sys_step] in *. unfold close_progress, call_step in *. rewrite Hc in *.
  destruct x as [| | | | | | | | | | | | | | | | | | |[|j todo]|]; try done; cbn in *;
    rewrite ?list_lookup_insert_eq, ?Hc by done; try naive_solver.
  destruct Hs as [? ?]. split; [done|]. split; [done|]. intros i _ Hi. by apply elem_of_nil in Hi.
Qed.

Lemma close_progress_run c n s ops : (n <= length (store (ep s)))%nat -> close_progress c n s ->
  close_progress c n (run_sys s ops).
Proof.
  revert s. induction ops as [|o t IH]; intros s Hn Hs; [done|]. cbn. apply IH; [|by apply close_progress_step].
  pose proof (later_length _ _ (later_step s o)). lia.
Qed.

(** the steps of call [c] in a run *)
Fixpoint own_steps (c : nat) (ops : list sys_op) : nat :=
  match ops with
  | [] => 0
  | SysCall c' _ _ :: t => if Nat.eqb c' c then S (own_steps c t) else own_steps c t
  | _ :: t => own_steps c t
  end.

Lemma own_steps_other c o t : (forall f g, o <> SysCall c f g) -> own_steps c (o :: t) = own_steps c t.
Proof.
  intros Ho. destruct o as [|c' f g|]; [done| |done]. cbn. rewrite (proj2 (Nat.eqb_neq c' c)); [done|]. intros ->.
  by apply (Ho f g).
Qed.

(** a sender at a stopped connector *)
Lemma gw_step_refuse w o k d st : run (inner w) = false -> senders w !! k = Some (mkSender d st) ->
  st = SndCheck \/ st = SndDone (Err not_running) ->
  senders (gw_step w o) !! k = Some (mkSender d st) \/ senders (gw_step w o) !! k = Some (mkSender d (SndDone (Err not_running))).
Proof.
  intros Hr Hk [->|Hst]; [|left; destruct (gw_step_sender w o k d st Hk) as (st' & -> & Hd & _); by rewrite (Hd _ Hst)].
  destruct o as [|data|i failed factory| |j chunk factory| |]; cbn [gw_step]; try (by left).
  - left. cbn. by apply lookup_app_l_Some.
  - destruct (decide (i = k)) as [->|Hne].
    + right. unfold sender_step, send_check. rewrite Hk, Hr. cbn. by rewrite list_lookup_alter_eq, Hk.
    + left. unfold sender_step, send_check, send_write, send_manage.
      destruct (senders w !! i) as [[data [| |g err|r]]|]; try done.
      * rewrite Hr. cbn. by rewrite list_lookup_alter_ne.
      * destruct failed as [[??]|]; cbn; by rewrite list_lookup_alter_ne.
      * destruct (manage_closed_connection g factory (inner w)) as [go c]. cbn. by rewrite list_lookup_alter_ne.
  - left. unfold start_listen. rewrite Hr. by destruct thread.
  - left. unfold receiver_step, rx_take, rx_read, rx_manage.
    destruct (receivers w !! j) as [[cut [| |g|g|g|]]|]; try done.
    + by destruct (reader (io (inner w))).
    + destruct chunk as [|b chunk]; [done|]. by destruct (feed_bytes cut (b :: chunk)).
    + by destruct (manage_closed_connection g factory (inner w)) as [go c].
Qed.

Lemma gw_of_one s o : gw_of s o = [] \/ exists x, gw_of s o = [x].
Proof.
  destruct o as [[]|c f g|chunk f]; cbn [gw_of]; eauto.
  - destruct (calls s !! c) as [[]|]; eauto. destruct (s_state <$> _) as [[]|]; eauto.
  - destruct (hook_call s), (pending s); eauto.
Qed.

Lemma sys_step_refuse s o k d st : run (inner (gateway s)) = false -> sender_at k d st s ->
  st = SndCheck \/ st = SndDone (Err not_running) ->
  sender_at k d st (sys_step s o) \/ sender_at k d (SndDone (Err not_running)) (sys_step s o).
Proof.
  intros Hr Hk Hst. unfold sender_at in *. rewrite gateway_step.
  destruct (gw_of_one s o) as [->|[x ->]]; [by left|]. by apply gw_step_refuse.
Qed.

(** a send on a stopped connector is refused at its second step *)
Definition refusing (c k : nat) (data : list Z) (n : nat) (s : System) : Prop :=
  calls s !! c = Some (SendReturn (Err not_running))
  \/ (calls s !! c = Some (SendGateway k data)
      /\ (sender_at k data (SndDone (Err not_running)) s /\ (n <= 1)%nat \/ sender_at k data SndCheck s /\ n = 0%nat)).

Lemma refusing_run c k data n s ops : run (inner (gateway s)) = false -> refusing c k data n s ->
  refusing c k data (n + own_steps c ops) (run_sys s ops).
Proof.
  revert n s. induction ops as [|o t IH]; intros n s Hr Hs; [by rewrite Nat.add_0_r|].
  change (run_sys s (o :: t)) with (run_sys (sys_step s o) t).
  pose proof (stopped_step s o Hr) as Hr'. destruct (own_step c o) as [(f & g & ->)|Hno].
  - cbn [own_steps]. rewrite Nat.eqb_refl, Nat.add_succ_r. apply (IH (S n)); [done|]. cbn [sys_step]. unfold call_step.
    destruct Hs as [Hc|[Hc Hs]]; rewrite Hc; [by left|].
    assert (c < length (calls s))%nat as Hlt by by eapply lookup_lt_Some. unfold send_in_gateway, sender_at in *.
    destruct Hs as [[Hk _]|[Hk ->]]; rewrite Hk; cbn.
    + left. cbn. by rewrite list_lookup_insert_eq.
    + right. split; [done|]. left. split; [|lia]. unfold sender_at. cbn. unfold sender_step, send_check.
      rewrite Hk, Hr. cbn. by rewrite list_lookup_alter_eq, Hk.
  - rewrite own_steps_other by done. apply IH; [done|]. destruct Hs as [Hc|[Hc Hs]].
    { left. by destruct (other_step_call s o c _ Hc Hno) as [-> _]. }
    right. destruct (other_step_call s o c _ Hc Hno) as [-> _]. split; [done|].
    destruct Hs as [[Hk Hn]|[Hk ->]].
    + destruct (sys_step_refuse s o k data _ Hr Hk (or_intror eq_refl)); by left.
    + destruct (sys_step_refuse s o k data _ Hr Hk (or_introl eq_refl)); [by right|left]. split; [done|lia].
Qed.

Lemma finished_run c s ops : calls s !! c = Some Finished -> calls (run_sys s ops) !! c = Some Finished.
Proof.
  revert s. induction ops as [|o t IH]; intros s Hs; [done|]. cbn. apply IH.
  destruct (own_step c o) as [(f & g & ->)|Hno]; [|by apply (other_step_call s o c _ Hs Hno)].
  cbn. unfold call_step. by rewrite Hs.
Qed.

Lemma started_attended factory e on_closed echo loopback s : started factory e on_closed echo loopback = Ok s ->
  forall i, (i < length (store (ep s)))%nat -> attended i s.
Proof.
  unfold started, connector_new. destruct factory as [b| |]; [|done..]. cbn. intros [= <-] i Hi. cbn in Hi. lia.
Qed.

(** ** Properties: closing *)

(** C33: Closing the endpoint.  When a call of [close] is finished, whatever
    happens afterwards: the endpoint and its connector stay closed; no session
    that was there before the call is registered any more, each of them is closed
    or a call that is still running is about to close it; a new session is
    refused; and a later call of [send_packet] has returned an error after two of
    its own steps, whatever the others do between. *)
Theorem close_call_ends factory e on_closed echo loopback s0 ops0 ops ops'
    (s := run_sys s0 ops0) (c := length (calls s))
    (s1 := run_sys (start_call ReqClose s) ops) (s2 := run_sys s1 ops') :
  started factory e on_closed echo loopback = Ok s0 -> calls s1 !! c = Some Finished ->
  closed (ep s2) = true /\ run (inner (gateway s2)) = false
  /\ (forall i, (i < length (store (ep s)))%nat -> i ∉ sessions (ep s2)
        /\ (closed_session i s2 \/ exists c x, calls s2 !! c = Some x /\ closes i x))
  /\ new_session_check (ep s2) = Err end_of_receive
  /\ (forall data ops2, (2 <= own_steps (length (calls s2)) ops2)%nat ->
        calls (run_sys (start_call (ReqSend data) s2) ops2) !! length (calls s2)
        = Some (SendReturn (Err not_running))).
Proof.
  intros Hst Hc. set (n := length (store (ep s))).
  assert (close_progress c n s1) as H1.
  { apply close_progress_run; [done|]. unfold close_progress. cbn. unfold c. by rewrite lookup_app_r, Nat.sub_diag by lia. }
  assert (n <= length (store (ep s1)))%nat as Hn1 by apply (later_length _ _ (later_run (start_call ReqClose s) ops)).
  assert (closed (ep s2) = true /\ run (inner (gateway s2)) = false /\ forall i, (i < n)%nat -> i ∉ sessions (ep s2))
    as (Hflag & Hstop & Hrem).
  { pose proof (close_progress_run c n s1 ops' Hn1 H1) as H2. unfold close_progress in H2.
    by rewrite (finished_run c s1 ops' Hc) in H2. }
  split; [done|]. split; [done|]. split; [|split].
  - intros i Hi. split; [by apply Hrem|].
    assert (attended i s2) as [Hreg|Hatt]; [|by destruct (Hrem i Hi)|done].
    pose proof (sessions_attended (start_call ReqClose s) (ops ++ ops')) as Ha. unfold run_sys in Ha.
    rewrite foldl_app in Ha. apply Ha; clear Ha.
    + intros j Hj. apply (attended_step j s (SysStart ReqClose)); [done|].
      by apply sessions_attended; [eapply started_attended|].
    + pose proof (later_length _ _ (later_run s1 ops')). fold s2 in H. unfold s2, s1, run_sys in *. lia.
  - unfold new_session_check. by rewrite Hflag.
  - intros data ops2 Hown. destruct (refusing_run (length (calls s2)) (length (senders (gateway s2))) data 0
      (start_call (ReqSend data) s2) ops2) as [H|(_ & [[_ ?]|[_ ?]])]; [done| |done|lia|lia].
    right. split; [cbn; by rewrite lookup_app_r, Nat.sub_diag by lia|]. right. split; [|done].
    unfold sender_at. cbn. by rewrite lookup_app_r, Nat.sub_diag by lia.
Qed.

(** ** Lemmas: calls that nobody interrupts *)

Definition alone (c n : nat) (s : System) : System := run_sys s (replicate n (SysCall c None (Err []))).

Lemma alone_add c n m s : alone c (n + m) s = alone c m (alone c n s).
Proof. unfold alone, run_sys. by rewrite replicate_add, foldl_app. Qed.

Lemma alone_S c n s : alone c (S n) s = alone c n (call_step c None (Err []) s).
Proof. done. Qed.

(** a call that has returned [x] with the endpoint [e] after some steps of its own *)
Definition returns (c : nat) (s : System) (x : CallState) (e : Endpoint) : Prop :=
  exists n, calls (alone c n s) !! c = Some x /\ ep (alone c n s) = e.

Lemma returns_step c s x e : returns c (call_step c None (Err []) s) x e -> returns c s x e.
Proof. intros [n Hn]. exists (S n). by rewrite alone_S. Qed.

Lemma put_sent_flags data i s :
  with_session i (put_sent data) (ep s)
  = if flag loopback_send_packets i s || flag echo_loopback i s then with_session i (put data) (ep s) else ep s.
Proof.
  unfold flag, with_session, put_sent. destruct (store (ep s) !! i) as [x|] eqn:Hx.
  - destruct (loopback_send_packets x || echo_loopback x) eqn:Hf.
    + f_equal. apply list_alter_ext; [|done]. intros y Hy. rewrite Hx in Hy. injection Hy as <-. by rewrite Hf.
    + assert (alter (fun x => if loopback_send_packets x || echo_loopback x then put data x else x) i (store (ep s))
        = store (ep s)) as ->; [|by destruct (ep s)].
      apply list_eq. intros j. destruct (decide (i = j)) as [->|]; [|by rewrite list_lookup_alter_ne].
      rewrite list_lookup_alter_eq, Hx. cbn. by rewrite Hf.
  - cbn. assert (alter (put_sent data) i (store (ep s)) = store (ep s)) as Ha; [|unfold put_sent in Ha; rewrite Ha; by destruct (ep s)].
    apply list_eq. intros j. destruct (decide (i = j)) as [->|]; [by rewrite list_lookup_alter_eq, Hx|by rewrite list_lookup_alter_ne].
Qed.

Lemma send_each_alone c data todo s : calls s !! c = Some (SendEach data todo) ->
  returns c s (SendReturn (Ok tt)) (foldl (fun e i => with_session i (put_sent data) e) (ep s) todo).
Proof.
  revert s. induction todo as [|i todo IH]; intros s Hc; assert (c < length (calls s))%nat as Hlt by by eapply lookup_lt_Some.
  { apply returns_step. unfold call_step. rewrite Hc. exists 0%nat. cbn. by rewrite list_lookup_insert_eq. }
  cbn [foldl]. rewrite put_sent_flags.
  assert (forall s, (c < length (calls s))%nat -> calls s !! c = Some (SendPut data i todo) ->
    returns c s (SendReturn (Ok tt)) (foldl (fun e i => with_session i (put_sent data) e) (with_session i (put data) (ep s)) todo))
    as Hput.
  { clear s Hc Hlt. intros s Hlt Hc. apply returns_step. unfold call_step. rewrite Hc.
    apply (IH (set_call c (SendEach data todo) (put_session i (Some c) data s))). cbn. by rewrite list_lookup_insert_eq. }
  apply returns_step. unfold call_step. rewrite Hc. destruct (flag loopback_send_packets i s) eqn:H1.
  { apply (Hput (set_call c (SendPut data i todo) s)); cbn; [by rewrite length_insert|by rewrite list_lookup_insert_eq]. }
  apply returns_step. unfold call_step. cbn [calls set_call]. rewrite list_lookup_insert_eq by done.
  change (flag echo_loopback i (set_call c (SendEcho data i todo) s)) with (flag echo_loopback i s).
  destruct (flag echo_loopback i s) eqn:H2; cbn [orb].
  - apply (Hput (set_call c (SendPut data i todo) (set_call c (SendEcho data i todo) s))); cbn; [by rewrite !length_insert|by rewrite list_lookup_insert_eq by by rewrite length_insert].
  - apply (IH (set_call c (SendEach data todo) (set_call c (SendEcho data i todo) s))). cbn.
    by rewrite list_lookup_insert_eq by by rewrite length_insert.
Qed.

Lemma close_each_alone c todo s : calls s !! c = Some (CloseEach todo) ->
  returns c s Finished (foldl (fun e i => with_session i session_close e) (ep s) todo).
Proof.
  revert s. induction todo as [|i todo IH]; intros s Hc; assert (c < length (calls s))%nat as Hlt by by eapply lookup_lt_Some.
  all: apply returns_step; unfold call_step; rewrite Hc.
  - exists 0%nat. cbn. by rewrite list_lookup_insert_eq.
  - apply (IH (set_call c (CloseEach todo) (set_ep (with_session i session_close (ep s)) s))). cbn.
    by rewrite list_lookup_insert_eq.
Qed.

(** the steps of the hook, when nobody interrupts them *)
Lemma hook_alone p todo rest s : hook_call s = Some (p, todo) -> pending s = rest -> exists n,
  let s' := run_sys s (replicate n (SysReceiver [] (Err []))) in
  hook_call s' = None /\ pending s' = rest /\ ep s' = foldl (fun e i => with_session i (put p) e) (ep s) todo.
Proof.
  revert s. induction todo as [|i todo IH]; intros s Hh Hp.
  - exists 1%nat. cbn. unfold receiver. by rewrite Hh, Hp.
  - destruct (IH (set_hook (pending s) (Some (p, todo)) (put_session i None p s)) eq_refl Hp) as [n Hn].
    exists (S n). assert (run_sys s (replicate (S n) (SysReceiver [] (Err [])))
      = run_sys (set_hook (pending s) (Some (p, todo)) (put_session i None p s)) (replicate n (SysReceiver [] (Err [])))) as ->
      by (unfold run_sys; cbn [replicate foldl sys_step]; f_equal; unfold receiver; by rewrite Hh).
    exact Hn.
Qed.

(** the next step of the call that was just set *)
Ltac next_own_step :=
  apply returns_step; unfold call_step; cbn [calls set_call set_sessions set_ep set_gateway];
  rewrite list_lookup_insert_eq by (rewrite ?length_insert; eauto).

(** ** Properties: the operations of the endpoint *)


(** ** Witnesses *)

Lemma send_call_delivers_witness :
  let s := run_sys example_system example_start in
  let s' := run_sys (start_call (ReqSend [3]) s) [step_of 1; step_of 1; step_of 1; step_of 1; step_of 1; step_of 1; step_of 1; step_of 1] in
  calls s' !! 1%nat = Some (SendReturn (Ok tt))
  /\ exists x, ok_writes 0 (inner (gateway s')) = [x] /\ w_bytes x = [3; 255; 0].
Proof.
  split; [vm_compute; reflexivity|].
  refine (proj1 (send_call_delivers (Ok true) 255 Reconnect true false example_system example_start [3]
    [step_of 1; step_of 1; step_of 1; step_of 1; step_of 1; step_of 1; step_of 1; step_of 1] (Ok tt) _ _)).
  - reflexivity.
  - vm_compute. reflexivity.
Defined.

Lemma close_call_ends_witness :
  let s1 := run_sys (start_call ReqClose (run_sys example_system example_start)) (replicate 6 (step_of 1)) in
  calls s1 !! 1%nat = Some Finished /\ new_session_check (ep (run_sys s1 [rx; rx])) = Err end_of_receive.
Proof.
  split; [vm_compute; reflexivity|].
  refine (proj1 (proj2 (proj2 (proj2 (close_call_ends (Ok true) 255 Reconnect true false example_system example_start
    (replicate 6 (step_of 1)) [rx; rx] _ _))))).
  - reflexivity.
  - vm_compute. reflexivity.
Defined.

