(* ===== verification/Server.v ===== *)
(** * The RPC server

    Models [src/rpc/server.rs]: the requests of a client, the session that is
    created by the first request that needs it, and the pump that answers the
    [getNextPacket] calls in their order.  The endpoint is shared with the other
    clients, so what they do between two steps of this client is any sequence of
    endpoint operations.  A socket is the list of the lines written to it; a
    write that fails is a parameter of the step.  The connector is a parameter
    ([sent]: its error for a packet, if any).  Starting the pump thread does not
    fail. *)

From stdpp Require Import base list numbers option strings.
From Stdlib Require Import ZArith Lia.
From S2P Require Import Prelude RustStd Base64 Json Endpoint.

Definition NAMESPACE : str := $"uartbus".

(** ** Responses *)

Definition with_trace (response : list (str * Json)) (trace : option str) : Json :=
  JObject (match trace with
           | Some trace => map_insert $"t" (JString trace) response
           | None => response
           end).

Definition result_response (trace : option str) (result : Json) : Json :=
  with_trace (map_insert $"r" result []) trace.

Definition error_response (trace : option str) (kind message : str) : Json :=
  with_trace
    (map_insert $"e"
       (json_object [($"type", JString kind); ($"message", JString message);
                     ($"detail", JString (kind ++ $": " ++ message))]) [])
    trace.

(** ** The handler of one client *)

(** the channel to the pump thread and what the thread works on: the trace ids
    it has not answered yet; it is gone after a failed write *)
Record Pump : Type := mkPump {
  pump_session : nat;
  requests : list (option str);
  running : bool;
}.

Record ClientHandler : Type := mkHandler {
  session : option nat;
  next_packet_requests : option Pump;
}.

Definition handler_new : ClientHandler := mkHandler None None.

Section Server.
Context {SJ : SerdeJson}.

Definition trace_of (request : Json) : option str :=
  match get $"t" request with
  | None | Some JNull => None
  | Some (JString s) => Some s
  | Some other => Some (to_string other)
  end.

Definition string_param (params : list Json) (index : nat) : res str str :=
  ok_or (v ← params !! index; as_str v) $"wrong number of arguments".

(** a step of the handler: its state and the endpoint *)
Definition HM : Type -> Type := SM (ClientHandler * Endpoint) (str * str).

Definition client_session : SM (ClientHandler * Endpoint) str nat := fun '(h, e) =>
  match session h with
  | Some s => (Ok s, (h, e))
  | None =>
    match new_session e with
    | (Ok s, e) => (Ok s, (mkHandler (Some s) (next_packet_requests h), e))
    | (Err err, e) => (Err err, (h, e))
    | (Panic, e) => (Panic, (h, e))
    end
  end.

(** the pump is started by the first request; [send] fails when it is gone *)
Definition send_to_pump (s : nat) (trace : option str) : SM (ClientHandler * Endpoint) str unit :=
  fun '(h, e) =>
    let pump := default (mkPump s [] true) (next_packet_requests h) in
    if running pump then
      (Ok tt, (mkHandler (session h)
                 (Some (mkPump (pump_session pump) (requests pump ++ [trace]) true)), e))
    else (Err $"packet pump stopped", (h, e)).

Definition queue_next_packet (trace : option str) : SM (ClientHandler * Endpoint) str unit :=
  s ← client_session; send_to_pump s trace.

(** [map_err(|e| (kind, e.to_string()))] *)
Definition as_kind {A} (kind : str) (m : SM (ClientHandler * Endpoint) str A) : HM A := fun st =>
  let '(out, st) := m st in (map_err (fun e => (kind, e)) out, st).

Definition on_endpoint {A} (m : Endpoint -> res str A * Endpoint) : SM (ClientHandler * Endpoint) str A :=
  fun '(h, e) => let '(out, e) := m e in (out, (h, e)).

(** the functions except [getNextPacket] *)
Definition run_function (sent : list Z -> option str) (function : str) (params : list Json) : HM Json :=
  if bool_decide (function = $"init") then
    _ ← as_kind $"EOFException" client_session; mret JNull
  else if bool_decide (function = $"sendPacket") then
    packet ← as_kind $"IllegalArgumentException" (sm_lift (p ← string_param params 0; decode p));
    _ ← as_kind $"IOException" (on_endpoint (fun e => send_packet (sent packet) packet e));
    mret JNull
  else if bool_decide (function = $"listAttributes") then
    mret (json_object (map (fun a => (a.1, JString a.2)) list_attributes))
  else if bool_decide (function = $"getAttribute") then
    key ← as_kind $"IllegalArgumentException" (sm_lift (string_param params 0));
    s ← as_kind $"EOFException" client_session;
    value ← as_kind $"EOFException" (on_endpoint (fun e => (conn_get_attribute s key e, e)));
    mret (match value with Some v => JString v | None => JNull end)
  else if bool_decide (function = $"setAttribute") then
    key ← as_kind $"IllegalArgumentException" (sm_lift (string_param params 0));
    value ← as_kind $"IllegalArgumentException" (sm_lift (string_param params 1));
    s ← as_kind $"EOFException" client_session;
    _ ← as_kind $"RuntimeException" (on_endpoint (conn_set_attribute s key value));
    mret JNull
  else if bool_decide (function = $"close") then fun '(h, e) =>
    (Ok JNull, (h, match session h with Some s => with_session s session_close e | None => e end))
  else sm_lift (Err ($"RuntimeException", $"Method not found: " ++ function)).

Definition respond (trace : option str) (result : res (str * str) Json) : option (option Json) :=
  match result with
  | Ok value => Some (Some (result_response trace value))
  | Err (kind, message) => Some (Some (error_response trace kind message))
  | Panic => None
  end.

(** the answer to send now, [Some None] when it will be sent later; [None] is a panic *)
Definition handle (sent : list Z -> option str) (request : Json) (st : ClientHandler * Endpoint)
    : option (option Json) * (ClientHandler * Endpoint) :=
  let trace := trace_of request in
  let namespace := v ← get $"N" request; as_str v in
  if negb (bool_decide (namespace = Some NAMESPACE)) then
    (Some (Some (error_response trace $"RuntimeException"
       ($"Unknown RPC namespace: " ++ default $"null" namespace
        ++ $". The only namespace of this server is `" ++ NAMESPACE ++ $"`"))), st)
  else
    let function := default [] (v ← get $"f" request; as_str v) in
    let params := default [] (v ← get $"p" request; as_array v) in
    if bool_decide (function = $"getNextPacket") then
      match queue_next_packet trace st with
      | (Ok _, st) => (Some None, st)
      | (Err e, st) => (respond trace (Err ($"EOFException", e)), st)
      | (Panic, st) => (None, st)
      end
    else
      let '(result, st) := run_function sent function params st in
      (respond trace result, st).

(** ** The connection *)

(** one client: its handler, the shared endpoint, whether its lines are still
    read, and what was written to its socket, a [JSON] object per line *)
Record Connection : Type := mkConnection {
  handler : ClientHandler;
  endpoint : Endpoint;
  reading_lines : bool;
  written : list str;
}.

Definition connection_new (e : Endpoint) : Connection := mkConnection handler_new e true [].

Definition send_line (value : Json) (c : Connection) : Connection :=
  mkConnection (handler c) (endpoint c) (reading_lines c) (written c ++ [to_string value]).

(** the end of [serve_client] *)
Definition end_client (c : Connection) : Connection :=
  mkConnection (handler c)
    (match session (handler c) with Some s => remove_session s (endpoint c) | None => endpoint c end)
    false (written c).

(** one turn of the loop of [serve_client]; [writable]: the write succeeds *)
Definition serve_line (sent : list Z -> option str) (writable : bool) (line : str) (c : Connection)
    : option Connection :=
  match from_str line with
  | Some (JObject m) =>
    let '(response, (h, e)) := handle sent (JObject m) (handler c, endpoint c) in
    let c := mkConnection h e (reading_lines c) (written c) in
    match response with
    | None => None
    | Some None => Some c
    | Some (Some response) => Some (if writable then send_line response c else end_client c)
    end
  | _ => Some (end_client c)
  end.

(** one turn of the pump; nothing happens while it waits for a request or for a packet *)
Definition pump_turn (writable : bool) (c : Connection) : Connection :=
  match next_packet_requests (handler c) with
  | Some (mkPump s (trace :: rest) true) =>
    match conn_get_next_packet s (endpoint c) with
    | (Some result, e) =>
      let response := match result with
                      | Ok packet => result_response trace (JString (encode packet))
                      | Err err => error_response trace $"EOFException" err
                      | Panic => JNull
                      end in
      let c := mkConnection (mkHandler (session (handler c)) (Some (mkPump s rest writable))) e
                 (reading_lines c) (written c) in
      if writable then send_line response c else c
    | (None, _) => c
    end
  | _ => c
  end.

(** ** Runs *)

Inductive srv_op : Type :=
| SrvLine (line : str) (writable : bool)
| SrvPump (writable : bool)
| SrvOther (o : ep_op)
| SrvEof.

Definition srv_step (sent : list Z -> option str) (c : Connection) (o : srv_op) : option Connection :=
  match o with
  | SrvLine line writable => if reading_lines c then serve_line sent writable line c else Some c
  | SrvPump writable => Some (pump_turn writable c)
  | SrvOther o => Some (mkConnection (handler c) (ep_step (endpoint c) o) (reading_lines c) (written c))
  | SrvEof => Some (if reading_lines c then end_client c else c)
  end.

Fixpoint run_srv (sent : list Z -> option str) (c : Connection) (ops : list srv_op) : option Connection :=
  match ops with
  | [] => Some c
  | o :: t => c ← srv_step sent c o; run_srv sent c t
  end.

End Server.

(** ** Lemmas: requests are endpoint steps *)

Section Lemmas.
Context {SJ : SerdeJson}.

(** the session of the handler is in the store, and the pump works on it *)
Record handler_ok (h : ClientHandler) (e : Endpoint) : Prop := {
  handler_ep : ep_inv e;
  handler_session : forall s, session h = Some s -> (s < length (store e))%nat;
  handler_pump : forall p, next_packet_requests h = Some p -> session h = Some (pump_session p);
}.

(** what a request does to the endpoint: it takes no packet, brings none of the
    gateway and does not close *)
Definition request_op (o : ep_op) : Prop := match o with DoTake _ | DoGateway _ | DoClose => False | _ => True end.

(** the session is kept, or it is a new one of the endpoint *)
Definition session_kept (h h' : ClientHandler) (e : Endpoint) : Prop :=
  (forall s, session h = Some s -> session h' = Some s)
  /\ (forall s, session h' = Some s -> session h = Some s \/ (length (store e) <= s)%nat).

Lemma session_kept_refl h e : session_kept h h e.
Proof. split; auto. Qed.

Lemma session_kept_same h h' e : session h' = session h -> session_kept h h' e.
Proof. intros E. split; intros s; rewrite E; auto. Qed.

Lemma session_kept_trans h1 h2 h3 e e' : (length (store e) <= length (store e'))%nat ->
  session_kept h1 h2 e -> session_kept h2 h3 e' -> session_kept h1 h3 e.
Proof.
  intros Hl [H1 H2] [H3 H4]. split; [auto|]. intros s Hs. destruct (H4 s Hs) as [?|?]; [auto|]. right. lia.
Qed.

(** a result that was reached by endpoint operations that take no packet, with
    the pump and the session kept *)
Definition acts {E A} (h : ClientHandler) (e : Endpoint) (r : res E A * (ClientHandler * Endpoint))
    (Q : A -> ClientHandler -> Endpoint -> Prop) : Prop :=
  exists out h' ops, r = (out, (h', run_ep e ops)) /\ handler_ok h' (run_ep e ops) /\ Forall request_op ops
    /\ next_packet_requests h' = next_packet_requests h /\ session_kept h h' e
    /\ match out with Ok a => Q a h' (run_ep e ops) | Err _ => True | Panic => False end.

Lemma handler_ok_run h e ops : handler_ok h e -> handler_ok h (run_ep e ops).
Proof.
  intros [H1 H2 H3]. split; [by apply run_ep_inv| |done].
  intros s Hs. pose proof (run_ep_length e ops). specialize (H2 s Hs). lia.
Qed.

Lemma acts_here {E A} (out : res E A) h e (Q : A -> ClientHandler -> Endpoint -> Prop) : handler_ok h e ->
  match out with Ok a => Q a h e | Err _ => True | Panic => False end -> acts h e (out, (h, e)) Q.
Proof. intros Hok Hq. exists out, h, []. do 4 (split; [done|]). split; [apply session_kept_refl|done]. Qed.

Lemma acts_op {E A} (out : res E A) h e o (Q : A -> ClientHandler -> Endpoint -> Prop) :
  handler_ok h e -> request_op o ->
  match out with Ok a => Q a h (ep_step e o) | Err _ => True | Panic => False end ->
  acts h e (out, (h, ep_step e o)) Q.
Proof.
  intros Hok Ho Hq. exists out, h, [o]. split; [done|]. split; [by apply handler_ok_run|].
  split; [by constructor|]. split; [done|]. split; [apply session_kept_refl|done].
Qed.

Lemma acts_bind {E A B} (m : SM (ClientHandler * Endpoint) E A) (k : A -> SM (ClientHandler * Endpoint) E B)
    h e Q R :
  acts h e (m (h, e)) Q ->
  (forall a h' e', Q a h' e' -> handler_ok h' e' -> acts h' e' (k a (h', e')) R) ->
  acts h e ((m ≫= k) (h, e)) R.
Proof.
  intros (out & h' & ops & Hm & Hok & Hops & Hp & Hs & Hq) Hk. unfold mbind, SM_bind. rewrite Hm.
  destruct out as [a|err|]; [|by exists (Err err), h', ops|done].
  destruct (Hk a h' _ Hq Hok) as (out & h2 & ops2 & -> & Hok2 & Hops2 & Hp2 & Hs2 & Hr).
  exists out, h2, (ops ++ ops2). rewrite run_ep_app. split; [done|]. split; [done|].
  split; [by apply Forall_app|]. split; [congruence|]. split; [|exact Hr].
  eapply session_kept_trans; [apply (run_ep_length e ops)|exact Hs|exact Hs2].
Qed.

Lemma acts_kind {A} kind (m : SM (ClientHandler * Endpoint) str A) h e Q :
  acts h e (m (h, e)) Q -> acts h e (as_kind kind m (h, e)) Q.
Proof.
  intros (out & h' & ops & Hm & Hrest). unfold as_kind. rewrite Hm.
  exists (map_err (fun e => (kind, e)) out), h', ops. split; [done|]. by destruct out.
Qed.

Lemma acts_session h e : handler_ok h e ->
  acts h e (client_session (h, e)) (fun s h' e' => session h' = Some s /\ (s < length (store e'))%nat).
Proof.
  intros Hok. unfold client_session. destruct (session h) as [s|] eqn:Hs.
  { apply acts_here; [done|]. split; [done|]. by eapply handler_session. }
  unfold new_session, new_session_check. destruct (closed e); [by apply acts_here|].
  exists (Ok (length (store e))), (mkHandler (Some (length (store e))) (next_packet_requests h)), [DoNewPush].
  assert (length (store (run_ep e [DoNewPush])) = S (length (store e))) as Hlen
    by (cbn; rewrite length_app; cbn; lia).
  split; [done|]. split; [|split; [by constructor|]].
  - destruct Hok as [H1 H2 H3]. split; [by apply run_ep_inv| |].
    + intros s [= <-]. lia.
    + intros p Hp. cbn in Hp. specialize (H3 p Hp). congruence.
  - split; [done|]. split; [|split; [done|lia]]. split; [congruence|]. intros s [= <-]. right. lia.
Qed.

Lemma string_param_no_panic params i : string_param params i <> Panic.
Proof. unfold string_param. by destruct (params !! i ≫= as_str). Qed.

Lemma set_attribute_no_panic key value s : (set_attribute key value s).1 <> Panic.
Proof. unfold set_attribute. repeat case_bool_decide; by destruct (parse_bool value). Qed.

Lemma acts_lift {A} (m : res str A) h e : handler_ok h e -> m <> Panic ->
  acts h e (sm_lift m (h, e)) (fun _ _ _ => True).
Proof. intros Hok Hm. apply acts_here; [done|]. by destruct m. Qed.

Lemma decode_no_panic text : decode text <> Panic.
Proof.
  unfold decode. intros H. enough (forall d l, foldM decode_byte d l <> Panic) as Hf.
  { destruct (foldM decode_byte _ _) eqn:He; try done. by apply Hf in He. }
  intros d l. revert d. induction l as [|c t IH]; intros d; [done|]. cbn [foldM].
  unfold decode_byte. destruct (classify c); [destruct (8 <=? _); apply IH|apply IH|done].
Qed.

Lemma acts_function sent function params h e : handler_ok h e ->
  acts h e (run_function sent function params (h, e)) (fun _ _ _ => True).
Proof.
  intros Hok. unfold run_function. repeat case_bool_decide.
  - eapply acts_bind; [by apply acts_kind, acts_session|]. intros; by apply acts_here.
  - eapply acts_bind; [apply acts_kind, acts_lift; [done|]|].
    { pose proof (string_param_no_panic params 0). destruct (string_param params 0); try done.
      apply decode_no_panic. }
    intros packet h1 e1 _ Hok1. eapply (acts_bind _ _ _ _ (fun _ _ _ => True)); [apply acts_kind|intros; by apply acts_here].
    unfold on_endpoint. destruct (sent packet) as [err|]; [by apply acts_here|].
    by apply (acts_op (Ok tt) h1 e1 (DoSend None packet)).
  - by apply acts_here.
  - eapply acts_bind; [apply acts_kind, acts_lift; [done|apply string_param_no_panic]|].
    intros key h1 e1 _ Hok1. eapply acts_bind; [by apply acts_kind, acts_session|].
    intros s h2 e2 _ Hok2. eapply (acts_bind _ _ _ _ (fun _ _ _ => True)); [by apply acts_kind, acts_here|]. intros; by apply acts_here.
  - eapply acts_bind; [apply acts_kind, acts_lift; [done|apply string_param_no_panic]|].
    intros key h1 e1 _ Hok1.
    eapply acts_bind; [apply acts_kind, acts_lift; [done|apply string_param_no_panic]|].
    intros value h2 e2 _ Hok2. eapply acts_bind; [by apply acts_kind, acts_session|].
    intros s h3 e3 [_ Hs] Hok3. eapply (acts_bind _ _ _ _ (fun _ _ _ => True)); [apply acts_kind|intros; by apply acts_here].
    destruct (conn_steps s [] key value e3 Hs) as (_ & _ & Hset & _).
    unfold on_endpoint. destruct (lookup_lt_is_Some_2 _ _ Hs) as [x Hx].
    pose proof (set_attribute_no_panic key value x) as Hnp.
    unfold conn_set_attribute in *. rewrite Hx in *. destruct (set_attribute key value x) as [out x'].
    cbn in Hset, Hnp. rewrite Hset.
    apply (acts_op out h3 e3 (DoSet s key value)); [done..|]. by destruct out.
  - destruct (session h) as [s|] eqn:Hs; [|by apply acts_here].
    by apply (acts_op (Ok JNull) h e (DoShut s)).
  - by apply acts_here.
Qed.

(** ** Lemmas: the answers of the pump *)

(** the trace ids that wait for a packet *)
Definition pending (h : ClientHandler) : list (option str) :=
  match next_packet_requests h with Some p => requests p | None => [] end.

Lemma response_trace trace :
  (forall v, get $"t" (result_response trace v) = JString <$> trace)
  /\ (forall kind message, get $"t" (error_response trace kind message) = JString <$> trace).
Proof. by destruct trace. Qed.

Lemma respond_trace trace result response : respond trace result = Some response ->
  exists v, response = Some v /\ get $"t" v = JString <$> trace.
Proof.
  destruct (response_trace trace) as [Hr He].
  destruct result as [v|[kind message]|]; [| |done]; intros [= <-]; eauto.
Qed.

(** every request ends: it is answered under its trace id, or the trace id is queued *)
Lemma handle_acts sent request h e : handler_ok h e -> exists r h' ops,
  handle sent request (h, e) = (Some r, (h', run_ep e ops)) /\ handler_ok h' (run_ep e ops)
  /\ Forall request_op ops /\ session_kept h h' e
  /\ match r with
     | Some v => pending h' = pending h /\ get $"t" v = JString <$> trace_of request
     | None => pending h' = pending h ++ [trace_of request]
     end.
Proof.
  intros Hok. unfold handle. case_bool_decide as Hn; cbn [negb].
  2: { eexists (Some _), h, []. split; [reflexivity|]. do 2 (split; [done|]).
    split; [apply session_kept_refl|]. split; [done|]. apply response_trace. }
  case_bool_decide as Hf.
  - unfold queue_next_packet, mbind, SM_bind.
    destruct (acts_session h e Hok) as (out & h1 & ops & -> & Hok1 & Hops & Hp & Hs & Hq).
    destruct out as [s|err|]; [|eexists (Some _), h1, ops; split; [reflexivity|];
      do 3 (split; [done|]); split; [unfold pending; by rewrite Hp|apply response_trace]|done].
    destruct Hq as [Hs1 Hlt]. unfold send_to_pump.
    set (pump := default (mkPump s [] true) (next_packet_requests h1)).
    assert (pump_session pump = s) as Hps.
    { unfold pump. destruct (next_packet_requests h1) as [p|] eqn:Hp1; [|done]. cbn.
      pose proof (handler_pump _ _ Hok1 p Hp1). congruence. }
    assert (requests pump = pending h) as Hreq.
    { unfold pump, pending. rewrite Hp. by destruct (next_packet_requests h). }
    destruct (running pump).
    + exists None, (mkHandler (session h1) (Some (mkPump (pump_session pump) (requests pump ++ [trace_of request]) true))), ops.
      split; [done|]. split; [|split; [done|split; [done|]]].
      * destruct Hok1 as [H1 H2 H3]. split; [done|done|]. intros p [= <-]. cbn. congruence.
      * unfold pending at 1. cbn. by rewrite Hreq.
    + eexists (Some _), h1, ops. split; [reflexivity|]. do 3 (split; [done|]).
      split; [unfold pending; by rewrite Hp|apply response_trace].
  - match goal with |- context [run_function sent ?f ?ps (h, e)] =>
      destruct (acts_function sent f ps h e Hok) as (out & h1 & ops & -> & Hok1 & Hops & Hp & Hs & Hq) end.
    destruct (respond (trace_of request) out) as [r|] eqn:Hr; [|by destruct out as [?|[??]|]].
    destruct (respond_trace _ _ _ Hr) as (v & -> & Hv). exists (Some v), h1, ops.
    do 4 (split; [done|]). split; [unfold pending; by rewrite Hp|done].
Qed.

(** ** Lemmas: steps of the connection *)

Definition connection_ok (c : Connection) : Prop := handler_ok (handler c) (endpoint c).

(** the trace id that the step [o] queues *)
Definition accepted (sent : list Z -> option str) (c : Connection) (o : srv_op) : list (option str) :=
  match o with
  | SrvLine line _ =>
    if reading_lines c then
      match from_str line with
      | Some (JObject m) =>
        match (handle sent (JObject m) (handler c, endpoint c)).1 with
        | Some None => [trace_of (JObject m)]
        | _ => []
        end
      | _ => []
      end
    else []
  | _ => []
  end.

(** the trace id that the step [o] of the pump answers, with the packet or the error *)
Definition answered (c : Connection) (o : srv_op) : list (option str * res str (list Z)) :=
  match o with
  | SrvPump _ =>
    match next_packet_requests (handler c) with
    | Some (mkPump s (trace :: _) true) =>
      match (conn_get_next_packet s (endpoint c)).1 with
      | Some result => [(trace, result)]
      | None => []
      end
    | _ => []
    end
  | _ => []
  end.

Fixpoint accepted_run (sent : list Z -> option str) (c : Connection) (ops : list srv_op) : list (option str) :=
  match ops with
  | [] => []
  | o :: t => accepted sent c o
      ++ match srv_step sent c o with Some c => accepted_run sent c t | None => [] end
  end.

Fixpoint answered_run (sent : list Z -> option str) (c : Connection) (ops : list srv_op)
    : list (option str * res str (list Z)) :=
  match ops with
  | [] => []
  | o :: t => answered c o ++ match srv_step sent c o with Some c => answered_run sent c t | None => [] end
  end.

Definition packets_of (answers : list (option str * res str (list Z))) : list (list Z) :=
  omap (fun a => match a.2 with Ok p => Some p | _ => None end) answers.

Lemma request_taken i e ops : Forall request_op ops -> taken_run i e ops = [].
Proof.
  intros H. revert e. induction H as [|o t Ho _ IH]; intros e; [done|]. cbn. rewrite IH, app_nil_r.
  by destruct o.
Qed.

(** what one step does, seen from the session of the client *)
Definition good_srv_step (sent : list Z -> option str) (c : Connection) (o : srv_op) (c' : Connection) : Prop :=
  srv_step sent c o = Some c' /\ connection_ok c'
  /\ session_kept (handler c) (handler c') (endpoint c)
  /\ pending (handler c) ++ accepted sent c o = (answered c o).*1 ++ pending (handler c')
  /\ exists eops, endpoint c' = run_ep (endpoint c) eops
     /\ Forall (fun x => request_op x \/ o = SrvOther x \/ exists s, session (handler c) = Some s /\ x = DoTake s) eops
     /\ forall s, session (handler c) = Some s -> o <> SrvOther (DoTake s) ->
        taken_run s (endpoint c) eops = packets_of (answered c o).

Lemma request_op_weaken (P : ep_op -> Prop) eops : Forall request_op eops -> Forall (fun x => request_op x \/ P x) eops.
Proof. intros H. eapply Forall_impl; [exact H|]. auto. Qed.

Lemma end_client_step c : connection_ok c -> exists eops,
  endpoint (end_client c) = run_ep (endpoint c) eops /\ Forall request_op eops /\ connection_ok (end_client c).
Proof.
  intros Hok. unfold connection_ok, end_client in *. cbn [endpoint handler].
  destruct (session (handler c)) as [s|].
  - exists [DoRemove s]. split; [done|]. split; [by constructor|].
    by apply (handler_ok_run _ _ [DoRemove s]).
  - by exists [].
Qed.

Lemma line_step sent c line writable : connection_ok c -> reading_lines c = true ->
  exists c', good_srv_step sent c (SrvLine line writable) c'.
Proof.
  intros Hok Hread. unfold good_srv_step. cbn [srv_step accepted answered fmap list_fmap app]. rewrite Hread.
  unfold serve_line.
  assert (exists c', Some (end_client c) = Some c' /\ connection_ok c'
    /\ session_kept (handler c) (handler c') (endpoint c)
    /\ pending (handler c) ++ [] = pending (handler c')
    /\ exists eops, endpoint c' = run_ep (endpoint c) eops
       /\ Forall (fun x => request_op x \/ SrvLine line writable = SrvOther x
            \/ exists s, session (handler c) = Some s /\ x = DoTake s) eops
       /\ forall s, session (handler c) = Some s -> SrvLine line writable <> SrvOther (DoTake s) ->
          taken_run s (endpoint c) eops = packets_of []) as Hbad.
  { destruct (end_client_step c Hok) as (eops & He & Hn & Hok'). exists (end_client c). split; [done|]. split; [done|].
    split; [apply session_kept_refl|]. rewrite app_nil_r. split; [done|]. exists eops. split; [done|].
    split; [by apply request_op_weaken|]. intros. by apply request_taken. }
  destruct (from_str line) as [v|]; [|exact Hbad]. destruct v as [| | | | |m]; try exact Hbad. clear Hbad.
  destruct (handle_acts sent (JObject m) _ _ Hok) as (r & h' & ops & Hh & Hok1 & Hops & Hs & Hr). rewrite Hh.
  cbn [fst]. destruct r as [v|].
  - destruct Hr as [Hp _]. set (c1 := mkConnection h' (run_ep (endpoint c) ops) (reading_lines c) (written c)).
    destruct writable.
    + exists (send_line v c1). split; [done|]. split; [done|]. split; [done|].
      rewrite app_nil_r. split; [done|]. exists ops. split; [done|]. split; [by apply request_op_weaken|].
      intros. by apply request_taken.
    + destruct (end_client_step c1 Hok1) as (eops & He & Hn & Hok'). exists (end_client c1). split; [done|].
      split; [done|]. split; [done|]. rewrite app_nil_r. split; [done|]. exists (ops ++ eops).
      rewrite run_ep_app. split; [done|]. assert (Forall request_op (ops ++ eops)) as Hall by by apply Forall_app.
      split; [by apply request_op_weaken|]. intros. by apply request_taken.
  - exists (mkConnection h' (run_ep (endpoint c) ops) (reading_lines c) (written c)).
    split; [done|]. split; [done|]. split; [done|]. split; [done|]. exists ops. split; [done|].
    split; [by apply request_op_weaken|]. intros. by apply request_taken.
Qed.

Lemma idle_step sent c o : connection_ok c -> srv_step sent c o = Some c ->
  accepted sent c o = [] -> answered c o = [] -> (forall s, o <> SrvOther (DoTake s)) ->
  good_srv_step sent c o c.
Proof.
  intros Hok Hstep Ha Hb _. unfold good_srv_step. rewrite Ha, Hb, app_nil_r. do 2 (split; [done|]).
  split; [apply session_kept_refl|]. split; [done|]. by exists [].
Qed.

Lemma pump_step sent c writable : connection_ok c -> exists c', good_srv_step sent c (SrvPump writable) c'.
Proof.
  intros Hok. destruct (next_packet_requests (handler c)) as [[s [|trace rest] []]|] eqn:Hp;
    try (exists c; apply idle_step; [done|cbn; unfold pump_turn; by rewrite Hp|done|cbn; by rewrite Hp|done]).
  pose proof (handler_pump _ _ Hok _ Hp) as Hs. cbn in Hs.
  pose proof (handler_session _ _ Hok _ Hs) as Hlt. destruct (lookup_lt_is_Some_2 _ _ Hlt) as [x Hx].
  destruct (conn_steps s [] [] [] (endpoint c) Hlt) as (_ & Hstep & _).
  destruct (conn_get_next_packet s (endpoint c)) as [[r|] e] eqn:Hg.
  2: { exists c. apply idle_step; [done|cbn; unfold pump_turn; by rewrite Hp, Hg|done|cbn; by rewrite Hp, Hg|done]. }
  cbn in Hstep. subst e. unfold good_srv_step. cbn [srv_step]. unfold pump_turn, answered. rewrite Hp, Hg.
  eexists. split; [reflexivity|].
  assert (handler_ok (mkHandler (session (handler c)) (Some (mkPump s rest writable)))
            (ep_step (endpoint c) (DoTake s))) as Hok'.
  { destruct (handler_ok_run _ _ [DoTake s] Hok) as [H1 H2 H3]. split; [done|done|]. by intros p [= <-]. }
  split; [by destruct writable|]. split; [apply session_kept_same; by destruct writable|]. split.
  { rewrite app_nil_r. unfold pending at 1. rewrite Hp. by destruct writable. }
  exists [DoTake s]. split; [by destruct writable|].
  split; [constructor; [right; right; by exists s|constructor]|]. intros s' Hs' _. rewrite Hs in Hs'. injection Hs' as <-.
  unfold conn_get_next_packet in Hg. rewrite Hx in Hg. destruct (take_packet x) as [r' x'] eqn:Ht.
  cbn. rewrite bool_decide_true, Hx, Ht by done. injection Hg as -> _. cbn. by destruct r.
Qed.

Lemma srv_step_good sent c o : connection_ok c -> exists c', good_srv_step sent c o c'.
Proof.
  intros Hok. destruct o as [line writable|writable|o|].
  - destruct (reading_lines c) eqn:Hr; [by apply line_step|].
    exists c. apply idle_step; [done| | | |done]; cbn; by rewrite ?Hr.
  - by apply pump_step.
  - exists (mkConnection (handler c) (ep_step (endpoint c) o) (reading_lines c) (written c)).
    split; [done|]. split; [by apply (handler_ok_run _ _ [o])|]. split; [apply session_kept_refl|].
    split; [by rewrite app_nil_r|]. exists [o]. split; [done|]. split; [constructor; [by right; left|constructor]|].
    intros s Hs Ho. cbn. rewrite app_nil_r. destruct o as [| | |j| | | |]; try done.
    unfold taken. by rewrite bool_decide_false by congruence.
  - destruct (reading_lines c) eqn:Hr; [|exists c; apply idle_step; [done| | | |done]; cbn; by rewrite ?Hr].
    destruct (end_client_step c Hok) as (eops & He & Hn & Hok'). exists (end_client c).
    split; [cbn; by rewrite Hr|]. split; [done|]. split; [apply session_kept_refl|]. split; [by rewrite app_nil_r|].
    exists eops. split; [done|]. split; [by apply request_op_weaken|]. intros. by apply request_taken.
Qed.

End Lemmas.

(** ** Properties *)

Section Properties.
Context {SJ : SerdeJson}.

(** C30: Requests.  The handling of any JSON object ends without panic; it is
    answered at once with exactly one object that carries the trace id of the
    request, or, for an accepted [getNextPacket], the trace id is put to the end
    of the queue of the pump; apart from that it only runs operations of the
    endpoint, which take no packet from any session, bring none from the gateway
    and do not close the endpoint. *)
Theorem handle_total sent request h e : handler_ok h e -> exists r h' ops,
  handle sent request (h, e) = (Some r, (h', run_ep e ops)) /\ handler_ok h' (run_ep e ops)
  /\ Forall request_op ops
  /\ match r with
     | Some v => pending h' = pending h /\ get $"t" v = JString <$> trace_of request
     | None => pending h' = pending h ++ [trace_of request]
     end.
Proof.
  intros Hok. destruct (handle_acts sent request h e Hok) as (r & h' & ops & H1 & H2 & H3 & _ & H4).
  by exists r, h', ops.
Qed.

Lemma example_handler_ok : handler_ok (mkHandler (Some 1%nat) None) example_endpoint.
Proof. split; [apply run_ep_inv, endpoint_new_inv| |done]. intros s [= <-]. cbn. lia. Qed.

(** The packet stream of a client.  In every run of the server, with any
    lines from the client, failed writes and operations of other clients, nothing
    panics; the [getNextPacket] requests are answered in the order they were
    accepted, and the packets of the answers, followed by the queue of the
    session, are the queue at the beginning followed by every packet that was
    offered to the session. *)
Theorem server_stream sent c ops s : connection_ok c -> session (handler c) = Some s ->
  SrvOther (DoTake s) ∉ ops ->
  exists c' eops, run_srv sent c ops = Some c' /\ connection_ok c' /\ endpoint c' = run_ep (endpoint c) eops
    /\ pending (handler c) ++ accepted_run sent c ops = (answered_run sent c ops).*1 ++ pending (handler c')
    /\ queue_of (endpoint c) s ++ offered_run s (endpoint c) eops
       = packets_of (answered_run sent c ops) ++ queue_of (endpoint c') s.
Proof.
  intros Hok Hs Hno.
  enough (exists c' eops, run_srv sent c ops = Some c' /\ connection_ok c' /\ endpoint c' = run_ep (endpoint c) eops
    /\ pending (handler c) ++ accepted_run sent c ops = (answered_run sent c ops).*1 ++ pending (handler c')
    /\ taken_run s (endpoint c) eops = packets_of (answered_run sent c ops))
    as (c' & eops & H1 & H2 & H3 & H4 & H5).
  { exists c', eops. repeat (split; [done|]). rewrite <- H5, H3. apply fifo_run; [apply Hok|].
    by apply (handler_session _ _ Hok). }
  revert c Hok Hs. induction ops as [|o t IH]; intros c Hok Hs.
  { exists c, []. do 3 (split; [done|]). split; [by rewrite app_nil_r|done]. }
  destruct (srv_step_good sent c o Hok) as (c1 & Hstep & Hok1 & [Hs1 _] & Hp & eops1 & He1 & _ & Ht1).
  apply not_elem_of_cons in Hno as [Hno1 Hno].
  destruct (IH Hno c1 Hok1 (Hs1 s Hs)) as (c2 & eops2 & Hrun & Hok2 & He2 & Hp2 & Ht2).
  exists c2, (eops1 ++ eops2). cbn [run_srv accepted_run answered_run]. rewrite Hstep. cbn [mbind option_bind].
  split; [done|]. split; [done|]. split; [by rewrite run_ep_app, <- He1|]. split.
  - rewrite app_assoc, Hp, fmap_app, <- !app_assoc. by rewrite Hp2.
  - unfold packets_of. rewrite taken_run_app, <- He1, omap_app.
    rewrite (Ht1 s Hs) by congruence. by rewrite Ht2.
Qed.

End Properties.

Definition example_request (f : str) (t : Z) : Json :=
  json_object [($"N", JString NAMESPACE); ($"t", JNumber (PosInt t)); ($"f", JString f); ($"p", JArray [])].

Lemma handle_total_witness : exists r h' ops,
  handle (SJ := serde_ref) (fun _ => None) (example_request $"getNextPacket" 5)
    (mkHandler (Some 1%nat) None, example_endpoint) = (Some r, (h', run_ep example_endpoint ops))
  /\ r = None /\ pending h' = [Some $"5"].
Proof.
  destruct (handle_total (SJ := serde_ref) (fun _ => None) (example_request $"getNextPacket" 5)
              (mkHandler (Some 1%nat) None) example_endpoint example_handler_ok)
    as (r & h' & ops & H & _ & _ & Hr).
  exists r, h', ops. split; [exact H|].
  assert ((handle (SJ := serde_ref) (fun _ => None) (example_request $"getNextPacket" 5)
    (mkHandler (Some 1%nat) None, example_endpoint)).1 = Some None) as H1 by (vm_compute; reflexivity).
  rewrite H in H1. injection H1 as ->. split; [reflexivity|]. rewrite Hr. vm_compute. reflexivity.
Defined.

Lemma server_stream_witness :
  let c := mkConnection (mkHandler (Some 1%nat) None) example_endpoint true [] in
  let ops := [SrvLine (to_string (SerdeJson := serde_ref) (example_request $"getNextPacket" 5)) true;
              SrvOther (DoGateway [7; 8]); SrvPump true] in
  exists c', run_srv (SJ := serde_ref) (fun _ => None) c ops = Some c'
    /\ answered_run (SJ := serde_ref) (fun _ => None) c ops = [(Some $"5", Ok [7; 8])]
    /\ exists eops, queue_of example_endpoint 1 ++ offered_run 1 example_endpoint eops
       = [[7; 8]] ++ queue_of (endpoint c') 1.
Proof.
  intros c ops.
  destruct (server_stream (SJ := serde_ref) (fun _ => None) c ops 1) as (c' & eops & H1 & _ & _ & _ & H2).
  - exact example_handler_ok.
  - reflexivity.
  - unfold ops. rewrite !not_elem_of_cons. repeat split; try discriminate. apply not_elem_of_nil.
  - assert (answered_run (SJ := serde_ref) (fun _ => None) c ops = [(Some $"5", Ok [7; 8])]) as Ha
      by (vm_compute; reflexivity).
    rewrite Ha in H2. exists c'. split; [exact H1|]. split; [exact Ha|]. exists eops. exact H2.
Defined.
