(* ===== verification/ServerClients.v ===== *)
(** * The server with all its clients

    Models the accept loop of [src/rpc/server.rs] ([serve], [spawn]): each client
    that connects gets a thread with a handler of its own, and all of them share
    the endpoint.  A step of one client is a step of [Server] on the shared
    endpoint; the steps of all clients, of the accept loop and of the gateway
    come in any order.  What [accept], the start of a thread and the clone of a
    socket return are parameters of the step. *)

From stdpp Require Import base list numbers option strings sets.
From Stdlib Require Import ZArith Lia.
From S2P Require Import Prelude RustStd Base64 Json Endpoint Server.

(** ** State *)

(** what is not shared of a [Connection] *)
Record Client : Type := mkClient {
  c_handler : ClientHandler;
  c_reading : bool;
  c_written : list str;
}.

(** [serve_result]: what [serve] returned, [None] while it accepts *)
Record Listener : Type := mkListener {
  shared : Endpoint;
  clients : list Client;
  serve_result : option (res str unit);
}.

Definition listener_new (e : Endpoint) : Listener := mkListener e [] None.

(** an item of [listener.incoming()]; [cloned]: the socket could be cloned,
    [thread]: the error of starting the thread of the client, if any *)
Inductive Incoming : Type :=
| Stream (cloned : bool) (thread : option str)
| Interrupted
| AcceptError (err : str).

(** one turn of the loop of [serve] *)
Definition accept (i : Incoming) (l : Listener) : Listener :=
  match serve_result l with
  | Some _ => l
  | None =>
    match i with
    | Stream cloned None => mkListener (shared l) (clients l ++ [mkClient handler_new cloned []]) None
    | Stream _ (Some err) => mkListener (shared l) (clients l) (Some (Err err))
    | Interrupted => l
    | AcceptError err => mkListener (shared l) (clients l) (Some (Err err))
    end
  end.

(** [serve] over what was accepted so far *)
Definition serve (incoming : list Incoming) (l : Listener) : Listener := foldl (fun l i => accept i l) l incoming.

(** [spawn]: [serve] in a thread of its own, whose result is dropped *)
Definition spawn (thread : option str) (e : Endpoint) : res str Listener :=
  match thread with None => Ok (listener_new e) | Some err => Err err end.

(** ** Runs *)

Definition view (c : Client) (l : Listener) : Connection :=
  mkConnection (c_handler c) (shared l) (c_reading c) (c_written c).

Definition set_view (k : nat) (c : Connection) (l : Listener) : Listener :=
  mkListener (endpoint c) (<[k := mkClient (handler c) (reading_lines c) (written c)]> (clients l)) (serve_result l).

(** what a client's threads do; the gateway and the end of the endpoint *)
Inductive lsn_op : Type :=
| LsnAccept (i : Incoming)
| LsnLine (k : nat) (line : str) (writable : bool)
| LsnPump (k : nat) (writable : bool)
| LsnEof (k : nat)
| LsnGateway (packet : list Z)
| LsnClose.

(** the step of client [k] *)
Definition of_client (k : nat) (o : lsn_op) : option srv_op :=
  match o with
  | LsnLine j line writable => if Nat.eqb j k then Some (SrvLine line writable) else None
  | LsnPump j writable => if Nat.eqb j k then Some (SrvPump writable) else None
  | LsnEof j => if Nat.eqb j k then Some SrvEof else None
  | _ => None
  end.

(** the packet that a step brings from the gateway *)
Definition from_gateway (o : ep_op) : option (list Z) := match o with DoGateway p => Some p | _ => None end.
Definition gateway_of (o : lsn_op) : option (list Z) := match o with LsnGateway p => Some p | _ => None end.

Section Listener.
Context {SJ : SerdeJson} (sent : list Z -> option str).

Definition client_step (k : nat) (o : srv_op) (l : Listener) : option Listener :=
  match clients l !! k with
  | Some c => c ← srv_step sent (view c l) o; Some (set_view k c l)
  | None => Some l
  end.

Definition lsn_step (l : Listener) (o : lsn_op) : option Listener :=
  match o with
  | LsnAccept i => Some (accept i l)
  | LsnLine k line writable => client_step k (SrvLine line writable) l
  | LsnPump k writable => client_step k (SrvPump writable) l
  | LsnEof k => client_step k SrvEof l
  | LsnGateway packet => Some (mkListener (gateway_packet packet (shared l)) (clients l) (serve_result l))
  | LsnClose => Some (mkListener (endpoint_close (shared l)) (clients l) (serve_result l))
  end.

Fixpoint run_lsn (l : Listener) (ops : list lsn_op) : option Listener :=
  match ops with
  | [] => Some l
  | o :: t => l ← lsn_step l o; run_lsn l t
  end.

(** ** The history of a client *)

Definition at_client {A} (k : nat) (f : Connection -> srv_op -> list A) (l : Listener) (o : lsn_op) : list A :=
  match clients l !! k, of_client k o with
  | Some c, Some o => f (view c l) o
  | _, _ => []
  end.

Fixpoint history {A} (k : nat) (f : Connection -> srv_op -> list A) (l : Listener) (ops : list lsn_op) : list A :=
  match ops with
  | [] => []
  | o :: t => at_client k f l o ++ match lsn_step l o with Some l => history k f l t | None => [] end
  end.

(** the trace ids of client [k] that were queued, and the answers of its pump *)
Definition accepted_by (k : nat) := history k (accepted sent).
Definition answered_by (k : nat) := history k answered.

(** the sessions are those of the endpoint, and no two clients share one *)
Record lsn_inv (l : Listener) : Prop := {
  lsn_ok : forall k c, clients l !! k = Some c -> connection_ok (view c l);
  lsn_ep : ep_inv (shared l);
  lsn_apart : forall j k c d s, clients l !! j = Some c -> clients l !! k = Some d ->
    session (c_handler c) = Some s -> session (c_handler d) = Some s -> j = k;
}.

End Listener.

(** ** Lemmas *)

Section Lemmas.
Context {SJ : SerdeJson} (sent : list Z -> option str).

Lemma not_taken i e ops : DoTake i ∉ ops -> taken_run i e ops = [].
Proof.
  revert e. induction ops as [|o t IH]; intros e Ho; [done|]. apply not_elem_of_cons in Ho as [Ho Ht]. cbn.
  rewrite IH by done. destruct o as [| | |j| | | |]; try done. cbn. by rewrite bool_decide_false by congruence.
Qed.

(** what a step [o] does, seen from client [k], which was [c] *)
Record client_kept (l : Listener) (o : lsn_op) (l' : Listener) (eops : list ep_op) (k : nat) (c c' : Client) : Prop := {
  kept_lookup : clients l' !! k = Some c';
  kept_session : session_kept (c_handler c) (c_handler c') (shared l);
  kept_pending : pending (c_handler c) ++ at_client k (accepted sent) l o
    = (at_client k answered l o).*1 ++ pending (c_handler c');
  kept_taken : forall s, session (c_handler c) = Some s ->
    taken_run s (shared l) eops = packets_of (at_client k answered l o);
}.

Definition good_lsn_step (l : Listener) (o : lsn_op) (l' : Listener) : Prop :=
  lsn_step sent l o = Some l' /\ lsn_inv l' /\ exists eops, shared l' = run_ep (shared l) eops
    /\ omap from_gateway eops = omap gateway_of [o]
    /\ forall k c, clients l !! k = Some c -> exists c', client_kept l o l' eops k c c'.

(** a step in which no client of the list takes part *)
Lemma quiet_step l o l' eops : lsn_inv l -> lsn_step sent l o = Some l' -> lsn_inv l' ->
  (forall k, clients l !! k <> None -> of_client k o = None) -> shared l' = run_ep (shared l) eops ->
  (forall s, DoTake s ∉ eops) -> omap from_gateway eops = omap gateway_of [o] ->
  (forall k c, clients l !! k = Some c -> clients l' !! k = Some c) -> good_lsn_step l o l'.
Proof.
  intros Hl Hstep Hl' Ho He Hn Hg Hc. split; [done|]. split; [done|]. exists eops. split; [done|]. split; [done|].
  intros k c Hk. exists c.
  assert (forall A (f : Connection -> srv_op -> list A), at_client k f l o = []) as Hat.
  { intros A f. unfold at_client. by rewrite Hk, (Ho k) by by rewrite Hk. }
  split; rewrite ?Hat; [by auto|apply session_kept_refl|by rewrite app_nil_r|]. intros s _. by apply not_taken.
Qed.

Lemma handler_ok_view c l eops : connection_ok (view c l) -> handler_ok (c_handler c) (run_ep (shared l) eops).
Proof. apply handler_ok_run. Qed.

(** the other clients keep their sessions when the endpoint goes on *)
Lemma set_view_inv k c c' eops l : lsn_inv l -> clients l !! k = Some c -> connection_ok c' ->
  endpoint c' = run_ep (shared l) eops -> session_kept (c_handler c) (handler c') (shared l) -> lsn_inv (set_view k c' l).
Proof.
  intros [H1 H2 H3] Hk Hok He [Hs1 Hs2].
  assert (forall j x, clients (set_view k c' l) !! j = Some x ->
    (j = k /\ c_handler x = handler c') \/ (j <> k /\ clients l !! j = Some x)) as Hl.
  { intros j x Hj. cbn in Hj. apply list_lookup_insert_Some in Hj as [(-> & <- & _)|[? ?]]; [by left|by right]. }
  assert (forall j x s, clients l !! j = Some x -> session (c_handler x) = Some s -> (s < length (store (shared l)))%nat)
    as Hrange by (intros j x s Hj Hs; by apply (handler_session _ _ (H1 j x Hj))).
  split.
  - intros j x Hj. unfold connection_ok, view. cbn [handler endpoint shared set_view].
    destruct (Hl j x Hj) as [[-> ->]|[_ Hx]]; [done|]. rewrite He. by apply handler_ok_view, (H1 j).
  - cbn. rewrite He. by apply run_ep_inv.
  - assert (forall j x s, j <> k -> clients l !! j = Some x -> session (c_handler x) = Some s ->
      session (handler c') <> Some s) as Hne.
    { intros j x s Hjk Hj Hx Hs. destruct (Hs2 s Hs) as [Hc|Hge]; [by apply Hjk, (H3 j k x c s)|].
      pose proof (Hrange j x s Hj Hx). lia. }
    intros i j x y s Hi Hj Hx Hy. destruct (Hl i x Hi) as [[-> Ex]|[Hni Hi']], (Hl j y Hj) as [[-> Ey]|[Hnj Hj']]; try done.
    + rewrite Ex in Hx. by destruct (Hne j y s Hnj Hj' Hy).
    + rewrite Ey in Hy. by destruct (Hne i x s Hni Hi' Hx).
    + by apply (H3 i j x y s).
Qed.

(** a step of a client *)
Lemma client_step_good l o k so : lsn_inv l -> of_client k o = Some so -> lsn_step sent l o = client_step sent k so l ->
  (forall j, j <> k -> of_client j o = None) -> (forall x, so <> SrvOther x) -> exists l', good_lsn_step l o l'.
Proof.
  intros Hl Ho Hstep Hoth Hso. unfold client_step in Hstep.
  assert (omap gateway_of [o] = []) as Hg by by destruct o.
  destruct (clients l !! k) as [c|] eqn:Hk.
  2: { exists l. apply (quiet_step _ _ _ []); try done; [|set_solver]. intros j Hj. apply Hoth. by intros ->. }
  destruct (srv_step_good sent (view c l) so (lsn_ok l Hl k c Hk)) as (c' & Hs & Hok & Hkept & Hp & eops & He & Hops & Ht).
  rewrite Hs in Hstep. cbn in Hstep. exists (set_view k c' l). split; [done|].
  split; [by apply (set_view_inv k c c' eops)|]. exists eops. split; [done|]. split.
  { rewrite Hg. clear -Hops Hso. induction Hops as [|x t Hx _ IH]; [done|]. cbn. rewrite IH.
    destruct x as [| | | | | | |]; try done. destruct Hx as [?|[?|(? & _ & ?)]]; [done| |done].
    by destruct (Hso (DoGateway packet)). }
  intros j d Hj.
  destruct (decide (j = k)) as [->|Hne].
  - rewrite Hk in Hj. injection Hj as <-. exists (mkClient (handler c') (reading_lines c') (written c')).
    assert (forall A (f : Connection -> srv_op -> list A), at_client k f l o = f (view c l) so) as Hat
      by (intros A f; unfold at_client; by rewrite Hk, Ho).
    split; rewrite ?Hat; [cbn; apply list_lookup_insert_eq; by eapply lookup_lt_Some|done|done|].
    intros s Hcs. by apply (Ht s).
  - exists d. assert (forall A (f : Connection -> srv_op -> list A), at_client j f l o = []) as Hat
      by (intros A f; unfold at_client; by rewrite Hj, Hoth).
    split; rewrite ?Hat; [cbn; by rewrite list_lookup_insert_ne|apply session_kept_refl|by rewrite app_nil_r|].
    intros s Hd. apply not_taken. intros Hin. eapply Forall_forall in Hops; [|exact Hin]. cbn in Hops.
    destruct Hops as [?|[?|(s' & Hs' & [= <-])]]; [done|by destruct (Hso (DoTake s))|].
    by apply Hne, (lsn_apart l Hl j k d c s).
Qed.

Lemma run_ep_lsn_inv l eops l' : lsn_inv l -> shared l' = run_ep (shared l) eops -> clients l' = clients l -> lsn_inv l'.
Proof.
  intros [H1 H2 H3] He Hc. split; rewrite ?Hc, ?He; [|by apply run_ep_inv|done].
  intros k c Hk. unfold connection_ok, view. cbn. rewrite He. by apply handler_ok_view, (H1 k).
Qed.

Lemma accept_inv i l : lsn_inv l -> lsn_inv (accept i l).
Proof.
  intros Hl. unfold accept. destruct (serve_result l); [done|].
  destruct i as [cloned [err|]| |err]; try done; try (by apply (run_ep_lsn_inv l [])).
  destruct Hl as [H1 H2 H3]. split; [|done|].
  - intros k c Hk. cbn in Hk. apply lookup_snoc_Some in Hk as [[_ Hk]|[_ <-]]; [by apply (H1 k)|]. by split.
  - intros j k c d s Hj Hk Hc Hd. cbn in Hj, Hk.
    apply lookup_snoc_Some in Hj as [[_ Hj]|[_ <-]]; [|done]. apply lookup_snoc_Some in Hk as [[_ Hk]|[_ <-]]; [|done].
    by apply (H3 j k c d s).
Qed.

Lemma of_client_self (k j : nat) (so : srv_op) : j <> k -> (if Nat.eqb k j then Some so else None) = None.
Proof. intros Hj. by rewrite (proj2 (Nat.eqb_neq k j)) by congruence. Qed.

Lemma lsn_step_good l o : lsn_inv l -> exists l', good_lsn_step l o l'.
Proof.
  intros Hl. destruct o as [i|k line writable|k writable|k|packet|].
  - exists (accept i l). apply (quiet_step _ _ _ []); try done; [by apply accept_inv| |set_solver|].
    + unfold accept. destruct (serve_result l); [done|]. by destruct i as [cloned [err|]| |err].
    + intros k c Hk. unfold accept. destruct (serve_result l); [done|]. destruct i as [cloned [err|]| |err]; try done.
      cbn. by apply lookup_app_l_Some.
  - apply (client_step_good _ _ k (SrvLine line writable)); try done; [cbn; by rewrite Nat.eqb_refl|].
    intros j Hj. by apply of_client_self.
  - apply (client_step_good _ _ k (SrvPump writable)); try done; [cbn; by rewrite Nat.eqb_refl|].
    intros j Hj. by apply of_client_self.
  - apply (client_step_good _ _ k SrvEof); try done; [cbn; by rewrite Nat.eqb_refl|].
    intros j Hj. by apply of_client_self.
  - eexists. apply (quiet_step _ _ _ [DoGateway packet]); try done; [by eapply (run_ep_lsn_inv l [DoGateway packet])|].
    set_solver.
  - eexists. apply (quiet_step _ _ _ [DoClose]); try done; [by eapply (run_ep_lsn_inv l [DoClose])|]. set_solver.
Qed.

Lemma run_lsn_good l ops : lsn_inv l -> exists l' eops, run_lsn sent l ops = Some l' /\ lsn_inv l'
  /\ shared l' = run_ep (shared l) eops /\ omap from_gateway eops = omap gateway_of ops
  /\ forall k c, clients l !! k = Some c -> exists c', clients l' !! k = Some c'
       /\ pending (c_handler c) ++ accepted_by sent k l ops = (answered_by sent k l ops).*1 ++ pending (c_handler c')
       /\ forall s, session (c_handler c) = Some s -> session (c_handler c') = Some s
            /\ taken_run s (shared l) eops = packets_of (answered_by sent k l ops).
Proof.
  revert l. induction ops as [|o t IH]; intros l Hl.
  { exists l, []. do 4 (split; [done|]). intros k c Hk. exists c. split; [done|]. split; [by rewrite app_nil_r|done]. }
  destruct (lsn_step_good l o Hl) as (l1 & Hstep & Hl1 & eops1 & He1 & Hg1 & Hk1).
  destruct (IH l1 Hl1) as (l2 & eops2 & Hrun & Hl2 & He2 & Hg2 & Hk2).
  exists l2, (eops1 ++ eops2). cbn [run_lsn]. rewrite Hstep. cbn [mbind option_bind]. split; [done|]. split; [done|].
  rewrite run_ep_app, <- He1. split; [done|]. split.
  { change (o :: t) with ([o] ++ t). by rewrite !omap_app, Hg1, Hg2. }
  intros k c Hk. destruct (Hk1 k c Hk) as (c1 & [Hc1 [Hs1 _] Hp1 Ht1]).
  destruct (Hk2 k c1 Hc1) as (c2 & Hc2 & Hp2 & Ht2). exists c2. split; [done|].
  unfold accepted_by, answered_by in *. cbn [history]. rewrite Hstep. split.
  - by rewrite app_assoc, Hp1, fmap_app, <- !app_assoc, Hp2.
  - intros s Hs. destruct (Ht2 s (Hs1 s Hs)) as [? Ht]. split; [done|].
    rewrite taken_run_app, <- He1, (Ht1 s Hs), Ht. unfold packets_of. by rewrite omap_app.
Qed.

Lemma listener_new_inv e : ep_inv e -> lsn_inv (listener_new e).
Proof. by split. Qed.
End Lemmas.

(** ** Properties *)

Section Properties.
Context {SJ : SerdeJson} (sent : list Z -> option str).


End Properties.

(** The accept loop.  Interrupted calls of [accept] are tried again: until the
    first other error every client that connects gets a thread, in the order of
    the connections, and [serve] goes on; with that error it returns, and accepts
    nobody after it. *)
Theorem serve_accepts e clones err later :
  let up := map (fun x => match x with Some cloned => Stream cloned None | None => Interrupted end) clones in
  serve up (listener_new e)
  = mkListener e (map (fun cloned => mkClient handler_new cloned []) (omap id clones)) None
  /\ serve (up ++ AcceptError err :: later) (listener_new e)
     = mkListener e (map (fun cloned => mkClient handler_new cloned []) (omap id clones)) (Some (Err err)).
Proof.
  intros up.
  assert (forall l, serve_result l = None -> serve up l
    = mkListener (shared l) (clients l ++ map (fun cloned => mkClient handler_new cloned []) (omap id clones)) None) as Hup.
  { unfold up, serve. clear up. induction clones as [|[cloned|] t IH]; intros [e' cs r] Hr; cbn in Hr; subst r; cbn [map foldl].
    - cbn. by rewrite app_nil_r.
    - rewrite IH by done. cbn. by rewrite <- app_assoc.
    - by rewrite IH. }
  split; [by rewrite Hup|]. unfold serve in *. rewrite foldl_app, Hup by done. cbn [foldl accept serve_result].
  assert (forall l x, serve_result l = Some x -> foldl (fun l i => accept i l) l later = l) as Hend.
  { clear. induction later as [|i t IH]; intros l x Hx; [done|]. cbn.
    assert (accept i l = l) as -> by (unfold accept; by rewrite Hx). by apply (IH l x). }
  by erewrite Hend.
Qed.

(** ** Witness *)

Definition example_line (f : str) (t : Z) : str := to_string (SerdeJson := serde_ref) (example_request f t).

Definition example_begin : list lsn_op :=
  [LsnAccept (Stream true None); LsnAccept Interrupted; LsnAccept (Stream true None);
   LsnLine 0 (example_line $"init" 1) true; LsnLine 1 (example_line $"init" 1) true].

Definition example_rest : list lsn_op :=
  [LsnGateway [7]; LsnLine 1 (example_line $"getNextPacket" 2) true; LsnPump 1 true; LsnEof 0].

Definition example_listener : Listener :=
  default (listener_new new_dummy) (run_lsn (SJ := serde_ref) (fun _ => None) (listener_new new_dummy) example_begin).

