(* ===== verification/Client.v ===== *)
(** * The RPC client

    Models [src/rpc/client.rs]: the calls that wait for their responses, the
    reader thread that gives each response to the call it belongs to, and the
    methods of [UartbusConnection].  The stack frame of a running [call], with
    its channel, is an entry of [calls]; the [waiting] map holds the index of the
    entry, as it holds the sending half of the channel in the source.  Taking a
    trace id, registering and writing are separate steps, between which other
    calls and the reader run.  The last part composes the client with the server
    of [Server]. *)

From stdpp Require Import base list numbers option strings gmap.
From Stdlib Require Import ZArith Lia.
From S2P Require Import Prelude RustStd Base64 Json Endpoint Server.

(** ** Calls *)

(** where a call is: it took a trace id; it is registered; its response came;
    its sender was dropped; it returned early with an error *)
Inductive Phase : Type :=
| Issued
| Waiting
| Answered (response : Json)
| Disconnected
| Failed (err : str).

Record Call : Type := mkCall { tid : Z; phase : Phase }.

Record TcpRpcClient : Type := mkClient {
  calls : list Call;
  waiting : gmap Z nat;
  rpc_closed : bool;
  next_tid : Z;
  stream : list str;
  unhandled : list Json;
}.

Definition connect : TcpRpcClient := mkClient [] ∅ false 0 [] [].

(** [TcpRpcClient::connect]: the errors of dialing, of cloning the socket and of
    starting the thread of the reader, if any *)
Definition connect_to (dial clone thread : option str) : res str TcpRpcClient :=
  match dial, clone, thread with
  | Some err, _, _ => Err err
  | None, Some err, _ => Err err
  | None, None, Some err => Err err
  | None, None, None => Ok connect
  end.

Definition response_tid (response : Json) : option Z :=
  t ← get $"t" response;
  match t with JString s => parse_u64 s | other => as_u64 other end.

Definition connection_closed : str := $"RPC connection closed".

Definition set_phase (k : nat) (p : Phase) (l : list Call) : list Call :=
  alter (fun c => mkCall (tid c) p) k l.

Definition set_calls (l : list Call) (w : gmap Z nat) (c : TcpRpcClient) : TcpRpcClient :=
  mkClient l w (rpc_closed c) (next_tid c) (stream c) (unhandled c).

(** [next_tid.fetch_add(1) + 1]: the addition of the atomic wraps, the other one panics *)
Definition call_tid (c : TcpRpcClient) : option TcpRpcClient :=
  let old := next_tid c in
  if old + 1 <? 2 ^ 64 then
    Some (mkClient (calls c ++ [mkCall (old + 1) Issued]) (waiting c) (rpc_closed c)
            (as_u 64 (old + 1)) (stream c) (unhandled c))
  else None.

(** a sender that is dropped unused disconnects its channel *)
Definition drop_sender (k : nat) (l : list Call) : list Call := set_phase k Disconnected l.

Definition call_register (k : nat) (c : TcpRpcClient) : TcpRpcClient :=
  match calls c !! k with
  | Some (mkCall t Issued) =>
    if rpc_closed c then set_calls (set_phase k (Failed connection_closed) (calls c)) (waiting c) c
    else
      let l := match waiting c !! t with Some old => drop_sender old (calls c) | None => calls c end in
      set_calls (set_phase k Waiting l) (<[t := k]> (waiting c)) c
  | _ => c
  end.

Section Client.
Context {SJ : SerdeJson}.

Definition request (t : Z) (function : str) (params : Json) : Json :=
  json_object [($"N", JString NAMESPACE); ($"t", JNumber (PosInt t)); ($"f", JString function); ($"p", params)].

(** [failed]: the error of the write, if any *)
Definition call_write (k : nat) (function : str) (params : Json) (failed : option str) (c : TcpRpcClient)
    : TcpRpcClient :=
  match calls c !! k with
  | Some (mkCall t _) =>
    match failed with
    | None => mkClient (calls c) (waiting c) (rpc_closed c) (next_tid c)
                (stream c ++ [to_string (request t function params)]) (unhandled c)
    | Some err => set_calls (set_phase k (Failed err) (calls c)) (delete t (waiting c)) c
    end
  | None => c
  end.

(** one line of the reader; [true]: it goes on *)
Definition reader_line (line : str) (c : TcpRpcClient) : bool * TcpRpcClient :=
  match from_str line with
  | None => (false, c)
  | Some response =>
    let waiter := t ← response_tid response; k ← waiting c !! t; Some (t, k) in
    (true, match waiter with
           | Some (t, k) => set_calls (set_phase k (Answered response) (calls c)) (delete t (waiting c)) c
           | None => mkClient (calls c) (waiting c) (rpc_closed c) (next_tid c) (stream c)
                       (unhandled c ++ [response])
           end)
  end.

(** the end of the reader: the senders are dropped *)
Definition reader_end (c : TcpRpcClient) : TcpRpcClient :=
  mkClient (map_fold (fun _ k l => drop_sender k l) (calls c) (waiting c)) ∅ true (next_tid c)
    (stream c) (unhandled c).

Definition response_result (response : Json) : res str Json :=
  match get $"e" response with
  | Some error =>
    if is_null error then Ok (default JNull (get $"r" response))
    else Err (default $"Error" (v ← get $"type" error; as_str v) ++ $": "
              ++ default [] (v ← get $"message" error; as_str v))
  | None => Ok (default JNull (get $"r" response))
  end.

(** what a call returns, [None] while it is not finished *)
Definition call_result (k : nat) (c : TcpRpcClient) : option (res str Json) :=
  match calls c !! k with
  | Some (mkCall _ (Answered response)) => Some (response_result response)
  | Some (mkCall _ Disconnected) => Some (Err connection_closed)
  | Some (mkCall _ (Failed err)) => Some (Err err)
  | _ => None
  end.

(** ** Runs *)

Inductive cl_op : Type :=
| ClTid
| ClRegister (k : nat)
| ClWrite (k : nat) (function : str) (params : Json) (failed : option str)
| ClLine (line : str)
| ClEnd.

(** [ClWrite k] is a step of a call that was registered and has not returned yet *)
Definition cl_step (c : TcpRpcClient) (o : cl_op) : option TcpRpcClient :=
  match o with
  | ClTid => call_tid c
  | ClRegister k => Some (call_register k c)
  | ClWrite k f p failed =>
    Some (match phase <$> calls c !! k with
          | Some Waiting | Some (Answered _) | Some Disconnected => call_write k f p failed c
          | _ => c
          end)
  | ClLine line =>
    Some (if rpc_closed c then c
          else let '(go, c) := reader_line line c in if go then c else reader_end c)
  | ClEnd => Some (reader_end c)
  end.

Fixpoint run_cl (c : TcpRpcClient) (ops : list cl_op) : option TcpRpcClient :=
  match ops with
  | [] => Some c
  | o :: t => c ← cl_step c o; run_cl c t
  end.

(** ** The methods of the connection *)

Record Method (A : Type) : Type := mkMethod {
  m_function : str;
  m_params : list Json;
  m_result : Json -> res str A;
}.

Definition tcp_init : Method unit := mkMethod _ $"init" [] (fun _ => Ok tt).
Definition tcp_send_packet (data : list Z) : Method unit :=
  mkMethod _ $"sendPacket" [JString (encode data)] (fun _ => Ok tt).
Definition tcp_list_attributes : Method (list (str * str)) :=
  mkMethod _ $"listAttributes" []
    (fun v => Ok (match v with
                  | JObject m => map (fun e => (e.1, default [] (as_str e.2))) m
                  | _ => []
                  end)).
Definition tcp_get_attribute (key : str) : Method (option str) :=
  mkMethod _ $"getAttribute" [JString key] (fun v => Ok (as_str v)).
Definition tcp_set_attribute (key value : str) : Method unit :=
  mkMethod _ $"setAttribute" [JString key; JString value] (fun _ => Ok tt).
Definition tcp_get_next_packet : Method (list Z) :=
  mkMethod _ $"getNextPacket" []
    (fun v => match v with
              | JString packet => decode packet
              | other => Err ($"getNextPacket returned something that is not a packet: " ++ to_string other)
              end).

(** ** The client and the server together *)

Definition Link : Type := TcpRpcClient * Connection.

(** the client reads the lines after the first [n] *)
Definition read_lines (n : nat) (srv : Connection) (c : TcpRpcClient) : TcpRpcClient :=
  foldl (fun c line => (reader_line line c).2) c (drop n (written srv)).

(** a call by the only thread of the client, with the sockets working: it is
    registered, its line is served, and the pump looks for a packet; [None]: it
    goes on waiting *)
Definition call_round (sent : list Z -> option str) (function : str) (params : list Json) (l : Link)
    : option (res str Json) * Link :=
  let '(c, srv) := l in
  match call_tid c with
  | None => (Some Panic, l)
  | Some c =>
    let k := pred (length (calls c)) in
    let c := call_register k c in
    match call_result k c with
    | Some r => (Some r, (c, srv))
    | None =>
      let c := call_write k function (JArray params) None c in
      match serve_line sent true (default [] (last (stream c))) srv with
      | None => (Some Panic, (c, srv))
      | Some served =>
        let c := read_lines (length (written srv)) served c in
        let pumped := pump_turn true served in
        let c := read_lines (length (written served)) pumped c in
        (call_result k c, (c, pumped))
      end
    end
  end.

(** [close], also when the client is dropped: the socket is shut down, so the
    reader of the client and the loop of the server come to the end of their
    lines; no call that was waiting waits any more *)
Definition tcp_close (l : Link) : Link :=
  (reader_end l.1, if reading_lines l.2 then end_client l.2 else l.2).

Definition run_method {A} (sent : list Z -> option str) (m : Method A) (l : Link)
    : option (res str A) * Link :=
  let '(r, l) := call_round sent (m_function A m) (m_params A m) l in
  ((fun r => v ← r; m_result A m v) <$> r, l).

End Client.

(** ** What a connection promises *)

(** the operations of [UartbusConnection], and what other clients do to the
    endpoint between them *)
Inductive conn_op : Type :=
| OpInit
| OpSend (data : list Z)
| OpList
| OpGet (key : str)
| OpSet (key value : str)
| OpNext
| OpOther (o : ep_op).

Inductive conn_value : Type :=
| RUnit
| RAttributes (l : list (str * str))
| RAttribute (v : option str)
| RPacket (p : list Z).

(** the connection in this process *)
Definition in_process (sent : list Z -> option str) (s : nat) (o : conn_op) (e : Endpoint)
    : option (res str conn_value) * Endpoint :=
  match o with
  | OpInit => (Some (_ ← conn_init s e; Ok RUnit), e)
  | OpSend data => let '(r, e) := conn_send_packet (sent data) data e in (Some (_ ← r; Ok RUnit), e)
  | OpList => (Some (l ← conn_list_attributes; Ok (RAttributes l)), e)
  | OpGet key => (Some (v ← conn_get_attribute s key e; Ok (RAttribute v)), e)
  | OpSet key value => let '(r, e) := conn_set_attribute s key value e in (Some (_ ← r; Ok RUnit), e)
  | OpNext => let '(r, e) := conn_get_next_packet s e in ((fun r => p ← r; Ok (RPacket p)) <$> r, e)
  | OpOther o => (Some (Ok RUnit), ep_step e o)
  end.

(** the connection over TCP *)
Definition over_tcp {SJ : SerdeJson} (sent : list Z -> option str) (o : conn_op) (l : Link)
    : option (res str conn_value) * Link :=
  let value {A} (f : A -> conn_value) (m : Method A) :=
    let '(r, l) := run_method sent m l in ((fun r => v ← r; Ok (f v)) <$> r, l) in
  match o with
  | OpInit => value (fun _ => RUnit) tcp_init
  | OpSend data => value (fun _ => RUnit) (tcp_send_packet data)
  | OpList => value RAttributes tcp_list_attributes
  | OpGet key => value RAttribute (tcp_get_attribute key)
  | OpSet key v => value (fun _ => RUnit) (tcp_set_attribute key v)
  | OpNext => value RPacket tcp_get_next_packet
  | OpOther o => (Some (Ok RUnit),
      (l.1, mkConnection (handler l.2) (ep_step (endpoint l.2) o) (reading_lines l.2) (written l.2)))
  end.

(** the remote function of an operation, its parameters and the value of its result *)
Definition is_call (o : conn_op) : bool := match o with OpOther _ => false | _ => true end.

Definition op_function {SJ : SerdeJson} (o : conn_op) : str :=
  match o with
  | OpInit => m_function _ tcp_init
  | OpSend data => m_function _ (tcp_send_packet data)
  | OpList => m_function _ tcp_list_attributes
  | OpGet key => m_function _ (tcp_get_attribute key)
  | OpSet key v => m_function _ (tcp_set_attribute key v)
  | OpNext => m_function _ tcp_get_next_packet
  | OpOther _ => []
  end.

Definition op_params {SJ : SerdeJson} (o : conn_op) : list Json :=
  match o with
  | OpInit => m_params _ tcp_init
  | OpSend data => m_params _ (tcp_send_packet data)
  | OpList => m_params _ tcp_list_attributes
  | OpGet key => m_params _ (tcp_get_attribute key)
  | OpSet key v => m_params _ (tcp_set_attribute key v)
  | OpNext => m_params _ tcp_get_next_packet
  | OpOther _ => []
  end.

Definition op_value {SJ : SerdeJson} (o : conn_op) (v : Json) : res str conn_value :=
  match o with
  | OpInit => a ← m_result _ tcp_init v; Ok RUnit
  | OpSend data => a ← m_result _ (tcp_send_packet data) v; Ok RUnit
  | OpList => a ← m_result _ tcp_list_attributes v; Ok (RAttributes a)
  | OpGet key => a ← m_result _ (tcp_get_attribute key) v; Ok (RAttribute a)
  | OpSet key value => a ← m_result _ (tcp_set_attribute key value) v; Ok RUnit
  | OpNext => a ← m_result _ tcp_get_next_packet v; Ok (RPacket a)
  | OpOther _ => Ok RUnit
  end.

(** the trait [UartbusConnection]: its methods and [close]; the handle is passed
    as a state *)
Class UartbusConnection (C : Type) : Type := {
  method : conn_op -> C -> option (res str conn_value) * C;
  close_connection : C -> C;
}.

#[export] Instance session_connection (sent : list Z -> option str) (s : nat) : UartbusConnection Endpoint :=
  { method := in_process sent s; close_connection := conn_close s }.

#[export] Instance tcp_connection {SJ : SerdeJson} (sent : list Z -> option str) : UartbusConnection Link :=
  { method := over_tcp sent; close_connection := tcp_close }.

(** a program on a connection: the results, up to the first operation that goes on waiting *)
Fixpoint run_ops {C} (UC : UartbusConnection C) (ops : list conn_op) (c : C)
    : list (option (res str conn_value)) * C :=
  match ops with
  | [] => ([], c)
  | o :: t =>
    match method o c with
    | (None, c) => ([None], c)
    | (Some r, c) => let '(rs, c) := run_ops UC t c in (Some r :: rs, c)
    end
  end.

(** ** Lemmas: pairing *)

Section Lemmas.
Context {SJ : SerdeJson}.

(** the trace id of a call is its number, and the map holds exactly the waiting calls *)
Record cl_inv (c : TcpRpcClient) : Prop := {
  inv_next : next_tid c = Z.of_nat (length (calls c));
  inv_tid : forall k x, calls c !! k = Some x -> tid x = Z.of_nat k + 1;
  inv_waiting : forall t k, waiting c !! t = Some k <-> t = Z.of_nat k + 1 /\ calls c !! k = Some (mkCall t Waiting);
  inv_closed : rpc_closed c = true -> waiting c = ∅;
  inv_answered : forall k t v, calls c !! k = Some (mkCall t (Answered v)) -> response_tid v = Some t;
}.

Lemma connect_inv : cl_inv connect.
Proof. split; try done. intros t k. split; [done|]. by intros [_ ?]. Qed.

Lemma set_phase_lookup k p l j :
  set_phase k p l !! j = if bool_decide (j = k) then (fun c => mkCall (tid c) p) <$> l !! j else l !! j.
Proof.
  unfold set_phase. case_bool_decide as H; [subst; apply list_lookup_alter_eq|by rewrite list_lookup_alter_ne].
Qed.

Lemma set_phase_length k p l : length (set_phase k p l) = length l.
Proof. apply length_alter. Qed.

(** the calls after the senders in the map were dropped *)
Lemma drop_senders_lookup (w : gmap Z nat) l : (forall t k, w !! t = Some k -> t = Z.of_nat k + 1) ->
  forall k, map_fold (fun _ k l => drop_sender k l) l w !! k
    = if bool_decide (w !! (Z.of_nat k + 1) = Some k) then (fun c => mkCall (tid c) Disconnected) <$> l !! k
      else l !! k.
Proof.
  set (P := fun (r : list Call) (w : gmap Z nat) => (forall t k, w !! t = Some k -> t = Z.of_nat k + 1) ->
    forall k, r !! k = if bool_decide (w !! (Z.of_nat k + 1) = Some k)
                       then (fun c => mkCall (tid c) Disconnected) <$> l !! k else l !! k).
  change (P (map_fold (fun _ k l => drop_sender k l) l w) w). apply map_fold_weak_ind; unfold P; clear P.
  { intros _ k. by rewrite lookup_empty. }
  intros t j m r Hm IH Hw k.
  assert (t = Z.of_nat j + 1) as -> by apply (Hw _ _ (lookup_insert_eq _ _ _)).
  unfold drop_sender. rewrite set_phase_lookup, IH.
  2: { intros s i Hs. apply Hw. rewrite lookup_insert_ne; congruence. }
  case_bool_decide as Hk; subst.
  - rewrite lookup_insert_eq, Hm. by rewrite (bool_decide_true (Some j = Some j)).
  - by rewrite lookup_insert_ne by lia.
Qed.

Ltac lookup_phase H := rewrite set_phase_lookup in H; case_bool_decide; simplify_eq/=.

(** changing the phase of a call that leaves or does not touch the map *)
Lemma inv_set_phase c k x p : cl_inv c -> calls c !! k = Some x -> p <> Waiting ->
  (forall v, p = Answered v -> response_tid v = Some (tid x)) ->
  cl_inv (set_calls (set_phase k p (calls c)) (delete (tid x) (waiting c)) c).
Proof.
  intros [H1 H2 H3 H4 H5] Hk Hp Ha. pose proof (H2 _ _ Hk) as Ht.
  assert (forall j, set_phase k p (calls c) !! j
    = if bool_decide (j = k) then Some (mkCall (tid x) p) else calls c !! j) as Hl.
  { intros j. rewrite set_phase_lookup. case_bool_decide; subst; [by rewrite Hk|done]. }
  split; cbn [calls waiting next_tid rpc_closed set_calls].
  - by rewrite set_phase_length.
  - intros j y Hj. rewrite Hl in Hj. case_bool_decide; [by simplify_eq/=|by apply H2].
  - intros t j. rewrite Hl, lookup_delete_Some, H3. case_bool_decide; subst.
    + split; [intros (? & ? & ?); congruence|intros [? [=]]; congruence].
    + split; [by intros (? & ? & ?)|]. intros [-> Hj]. split; [lia|done].
  - intros Hc. rewrite H4 by done. apply delete_empty.
  - intros j t v Hj. rewrite Hl in Hj. case_bool_decide; [|by eapply H5]. simplify_eq. by apply Ha.
Qed.

(** a call that is not registered has no entry in the map *)
Lemma inv_not_waiting c k x : cl_inv c -> calls c !! k = Some x -> phase x <> Waiting ->
  waiting c !! tid x = None.
Proof.
  intros Hi Hk Hp. destruct (waiting c !! tid x) as [j|] eqn:Hw; [|done].
  apply (inv_waiting c Hi) in Hw as [Ht Hj]. pose proof (inv_tid c Hi _ _ Hk).
  assert (j = k) as -> by lia. exfalso. apply Hp. rewrite Hk in Hj. injection Hj as Hx. by rewrite Hx.
Qed.

(** the end of the reader disconnects the waiting calls and changes no other *)
Lemma reader_end_calls c k t p : cl_inv c -> calls (reader_end c) !! k = Some (mkCall t p) ->
  p <> Waiting /\ exists q, calls c !! k = Some (mkCall t q) /\ (p = q \/ p = Disconnected).
Proof.
  intros Hi Hk. cbn in Hk. rewrite drop_senders_lookup in Hk
    by (intros s j Hs; by apply (inv_waiting c Hi) in Hs as [? _]).
  case_bool_decide as Hb.
  - destruct (calls c !! k) as [[t' q]|]; [|done]. cbn in Hk. injection Hk as -> <-. eauto.
  - split; [|eauto]. intros ->. destruct Hb. apply (inv_waiting c Hi). by rewrite <- (inv_tid c Hi _ _ Hk).
Qed.

Lemma reader_end_inv c : cl_inv c -> cl_inv (reader_end c)
  /\ (forall k t, calls (reader_end c) !! k <> Some (mkCall t Waiting)).
Proof.
  intros Hi. pose proof (fun k t p => reader_end_calls c k t p Hi) as Hback.
  assert (forall k, calls (reader_end c) !! k = None <-> calls c !! k = None) as Hnone.
  { intros k. cbn. rewrite drop_senders_lookup by (intros s j Hs; by apply (inv_waiting c Hi) in Hs as [? _]).
    case_bool_decide; [|done]. by destruct (calls c !! k). }
  split; [|intros k t Hk; by destruct (Hback k t Waiting Hk)].
  destruct Hi as [H1 H2 H3 H4 H5]. split; unfold reader_end at 1; cbn [waiting next_tid rpc_closed].
  - rewrite H1. f_equal. apply dec_stable. intros Hne.
    specialize (Hnone (Nat.min (length (calls c)) (length (calls (reader_end c))))). rewrite !lookup_ge_None in Hnone. lia.
  - intros k [t p] Hk. destruct (Hback k t p Hk) as (_ & q & Hq & _). apply (H2 _ _ Hq).
  - intros t k. split; [done|]. intros [_ Hk]. by destruct (Hback k t Waiting Hk).
  - done.
  - intros k t v Hk. destruct (Hback k t _ Hk) as (_ & q & Hq & [<-|?]); [by eapply H5|done].
Qed.

Lemma call_register_inv c k : cl_inv c -> cl_inv (call_register k c).
Proof.
  intros Hi. unfold call_register. destruct (calls c !! k) as [[t [| | | |]]|] eqn:Hk; try done.
  pose proof (inv_not_waiting c k _ Hi Hk) as Hw. cbn in Hw. rewrite Hw by done.
  destruct (rpc_closed c) eqn:Hc.
  { rewrite <- (delete_id (waiting c) t) by by apply Hw. by apply (inv_set_phase c k (mkCall t Issued)). }
  pose proof (inv_tid c Hi _ _ Hk) as Ht. cbn in Ht. destruct Hi as [H1 H2 H3 H4 H5].
  assert (forall j, set_phase k Waiting (calls c) !! j
    = if bool_decide (j = k) then Some (mkCall t Waiting) else calls c !! j) as Hl.
  { intros j. rewrite set_phase_lookup. case_bool_decide; subst; [by rewrite Hk|done]. }
  split; cbn [calls waiting next_tid rpc_closed set_calls].
  - by rewrite set_phase_length.
  - intros j y Hj. rewrite Hl in Hj. case_bool_decide; [by simplify_eq/=|by apply H2].
  - intros s j. rewrite Hl, lookup_insert_Some, H3. case_bool_decide; subst.
    + split; [|intros [-> _]; by left]. intros [[<- _]|(Hne & -> & _)]; [done|]. by destruct Hne.
    + split; [|right; split; [lia|done]]. intros [[<- ?]|(_ & -> & ?)]; [congruence|done].
  - by rewrite Hc.
  - intros j s v Hj. rewrite Hl in Hj. case_bool_decide; [done|by eapply H5].
Qed.

Lemma reader_line_inv c line : cl_inv c -> cl_inv (reader_line line c).2.
Proof.
  intros Hi. unfold reader_line. destruct (from_str line) as [v|]; [|done]. cbn [snd].
  destruct (response_tid v) as [t|] eqn:Hv; cbn [mbind option_bind]; [|by destruct Hi].
  destruct (waiting c !! t) as [k|] eqn:Hw; cbn [mbind option_bind]; [|by destruct Hi].
  apply (inv_waiting c Hi) in Hw as [_ Hk]. apply (inv_set_phase c k (mkCall t Waiting)); [done..|].
  by intros ? [= <-].
Qed.

Lemma register_write_line_length c k f p failed line :
  length (calls (call_register k c)) = length (calls c)
  /\ length (calls (call_write k f p failed c)) = length (calls c)
  /\ length (calls (reader_line line c).2) = length (calls c).
Proof.
  split; [|split].
  - unfold call_register, drop_sender. destruct (calls c !! k) as [[t [| | | |]]|]; try done.
    destruct (rpc_closed c); [|destruct (waiting c !! t)]; cbn; by rewrite ?set_phase_length.
  - unfold call_write. destruct (calls c !! k) as [[t ?]|]; [|done].
    destruct failed; cbn; by rewrite ?set_phase_length.
  - unfold reader_line. destruct (from_str line) as [v|]; [|done]. cbn [snd].
    destruct (response_tid v) as [t|]; [|done]. cbn. destruct (waiting c !! t); cbn; [|done].
    by rewrite set_phase_length.
Qed.

Lemma reader_end_length c : cl_inv c -> length (calls (reader_end c)) = length (calls c).
Proof.
  intros Hi. pose proof (inv_next _ (proj1 (reader_end_inv c Hi))) as H. pose proof (inv_next c Hi) as H'.
  cbn [next_tid reader_end] in H. lia.
Qed.

Definition ids_taken (ops : list cl_op) : nat :=
  list_sum (map (fun o => match o with ClTid => 1%nat | _ => 0%nat end) ops).

Lemma cl_step_inv c o : cl_inv c -> Z.of_nat (length (calls c)) + Z.of_nat (ids_taken [o]) < 2 ^ 64 ->
  exists c', cl_step c o = Some c' /\ cl_inv c'
    /\ length (calls c') = (length (calls c) + ids_taken [o])%nat.
Proof.
  intros Hi Hn. pose proof (fun k f p failed line => register_write_line_length c k f p failed line) as Hlen.
  destruct o as [|k|k f p failed|line|]; cbn [cl_step].
  - unfold ids_taken in *. cbn in Hn |- *. unfold call_tid. rewrite (inv_next c Hi).
    rewrite (proj2 (Z.ltb_lt _ _)) by lia. eexists. split; [done|].
    destruct Hi as [H1 H2 H3 H4 H5]. split; [|cbn; rewrite length_app; done].
    split; cbn [calls waiting next_tid rpc_closed].
    + rewrite as_u_small by (unfold in_u; lia). rewrite length_app. cbn. lia.
    + intros k x [[_ Hk]|[-> <-]]%lookup_snoc_Some; [by apply H2|done].
    + intros t k. rewrite H3. split; intros [-> Hk].
      * split; [done|]. by apply lookup_app_l_Some.
      * split; [done|]. by apply lookup_snoc_Some in Hk as [[??]|[??]].
    + done.
    + intros k t v [[_ Hk]|[??]]%lookup_snoc_Some; [by eapply H5|done].
  - eexists. split; [done|]. split; [by apply call_register_inv|].
    unfold ids_taken. cbn. by rewrite (proj1 (Hlen k [] JNull None [])), Nat.add_0_r.
  - change (ids_taken _) with 0%nat. eexists. split; [done|].
    assert (cl_inv (call_write k f p failed c)) as Hw.
    { unfold call_write. destruct (calls c !! k) as [[t q]|] eqn:Hk; [|done].
      destruct failed as [err|]; [by apply (inv_set_phase c k (mkCall t q))|by destruct Hi]. }
    pose proof (proj1 (proj2 (Hlen k f p failed []))).
    destruct (phase <$> calls c !! k) as [[| | | |]|]; split; by rewrite ?Nat.add_0_r.
  - change (ids_taken _) with 0%nat. eexists. split; [done|]. rewrite Nat.add_0_r.
    destruct (rpc_closed c); [done|]. pose proof (reader_line_inv c line Hi) as Hl.
    pose proof (proj2 (proj2 (Hlen 0%nat [] JNull None line))) as He.
    destruct (reader_line line c) as [[] c1]; [done|]. cbn in Hl, He.
    split; [by apply reader_end_inv|]. by rewrite reader_end_length.
  - eexists. split; [done|]. split; [by apply reader_end_inv|].
    change (ids_taken _) with 0%nat. by rewrite reader_end_length, Nat.add_0_r.
Qed.

Lemma run_cl_inv c ops : cl_inv c -> Z.of_nat (length (calls c)) + Z.of_nat (ids_taken ops) < 2 ^ 64 ->
  exists c', run_cl c ops = Some c' /\ cl_inv c'.
Proof.
  revert c. induction ops as [|o t IH]; intros c Hi Hn; [by exists c|].
  assert (ids_taken (o :: t) = (ids_taken [o] + ids_taken t)%nat) as Hc.
  { unfold ids_taken. cbn. by rewrite Nat.add_0_r. }
  rewrite Hc in Hn. destruct (cl_step_inv c o Hi) as (c1 & Hs & Hi1 & Hl); [lia|].
  cbn [run_cl]. rewrite Hs. cbn. apply IH; [done|]. lia.
Qed.

(** ** Lemmas: one call over the wire *)

Lemma request_object t f p : request t f p
  = JObject [($"N", JString NAMESPACE); ($"f", JString f); ($"p", p); ($"t", JNumber (PosInt t))].
Proof. reflexivity. Qed.

Lemma printable_all ps : Forall printable ps ->
  (fix all l := match l with [] => True | x :: t => printable x /\ all t end) ps.
Proof. by induction 1. Qed.

Lemma request_printable t f ps : in_u 64 t -> valid_str f -> Forall printable ps ->
  printable (request t f (JArray ps)).
Proof.
  intros Ht Hf Hp. rewrite request_object. cbn [printable]. split.
  { repeat constructor; done. }
  apply printable_all in Hp. do 4 (split; [apply lit_valid|]; split; [first [done|apply lit_valid]|]). done.
Qed.

Lemma result_printable trace v : valid_str trace -> printable v -> printable (result_response (Some trace) v).
Proof.
  intros Ht Hv. cbn. split; [repeat constructor; done|].
  split; [apply (lit_valid "r")|]. split; [done|]. split; [apply (lit_valid "t")|done].
Qed.

Lemma error_printable trace kind message : valid_str trace -> valid_str kind -> valid_str message ->
  printable (error_response (Some trace) kind message).
Proof.
  intros Ht Hk Hm.
  change (error_response (Some trace) kind message) with
    (JObject [($"e", JObject [($"detail", JString (kind ++ $": " ++ message)); ($"message", JString message);
                              ($"type", JString kind)]); ($"t", JString trace)]).
  pose proof (valid_app _ _ Hk (valid_app _ _ (lit_valid ": ") Hm)) as Hd.
  cbn [printable]. split; [repeat constructor; done|].
  split; [apply lit_valid|]. split; [|split; [apply lit_valid|done]].
  split; [repeat constructor; done|]. do 3 (split; [apply lit_valid|]; split; [done|]). done.
Qed.

Lemma start_call c f ps (k := length (calls c)) : cl_inv c -> rpc_closed c = false -> Z.of_nat k + 1 < 2 ^ 64 ->
  exists c1, call_tid c = Some c1 /\ pred (length (calls c1)) = k
    /\ call_result k (call_register k c1) = None
    /\ let c2 := call_write k f (JArray ps) None (call_register k c1) in
       last (stream c2) = Some (to_string (request (Z.of_nat k + 1) f (JArray ps)))
       /\ cl_inv c2 /\ rpc_closed c2 = false /\ length (calls c2) = S k
       /\ calls c2 !! k = Some (mkCall (Z.of_nat k + 1) Waiting).
Proof.
  intros Hi Hc Hn. destruct (cl_step_inv c ClTid Hi) as (c1 & H1 & Hi1 & Hlen).
  { change (ids_taken [ClTid]) with 1%nat. unfold k in Hn. lia. }
  change (ids_taken [ClTid]) with 1%nat in Hlen. cbn [cl_step] in H1.
  exists c1. split; [done|]. split; [unfold k; lia|].
  assert (calls c1 !! k = Some (mkCall (Z.of_nat k + 1) Issued) /\ rpc_closed c1 = false) as [Hk Hc1].
  { unfold call_tid in H1. rewrite (inv_next c Hi), (proj2 (Z.ltb_lt _ _)) in H1 by done.
    injection H1 as <-. split; [|done]. cbn. by apply list_lookup_middle. }
  pose proof (call_register_inv c1 k Hi1) as Hi2.
  assert (call_register k c1
    = set_calls (set_phase k Waiting (calls c1)) (<[Z.of_nat k + 1 := k]> (waiting c1)) c1) as Hreg.
  { unfold call_register. rewrite Hk, Hc1.
    pose proof (inv_not_waiting c1 k _ Hi1 Hk) as Hw. cbn in Hw. by rewrite Hw. }
  rewrite Hreg in *. set (c2 := set_calls _ _ _) in *.
  assert (calls c2 !! k = Some (mkCall (Z.of_nat k + 1) Waiting)) as Hk2.
  { cbn. rewrite set_phase_lookup, bool_decide_true by done. by rewrite Hk. }
  split; [unfold call_result; by rewrite Hk2|].
  unfold call_write. rewrite Hk2. cbn [stream calls rpc_closed]. rewrite last_snoc. split; [done|].
  split; [by destruct Hi2|]. split; [done|]. split; [cbn; rewrite set_phase_length; unfold k; lia|done].
Qed.

Lemma reader_answers c k t v (c' := (reader_line (to_string v) c).2) :
  cl_inv c -> calls c !! k = Some (mkCall t Waiting) -> printable v -> response_tid v = Some t ->
  call_result k c' = Some (response_result v) /\ cl_inv c' /\ rpc_closed c' = rpc_closed c
  /\ length (calls c') = length (calls c).
Proof.
  intros Hi Hk Hv Ht. pose proof (reader_line_inv c (to_string v) Hi) as Hi'.
  pose proof (proj2 (proj2 (register_write_line_length c 0 [] JNull None (to_string v)))) as Hl.
  assert (c' = set_calls (set_phase k (Answered v) (calls c)) (delete t (waiting c)) c) as Hc.
  { unfold c', reader_line. rewrite from_str_to_string, Ht by done. cbn [mbind option_bind].
    rewrite (proj2 (inv_waiting c Hi t k)); [done|]. split; [by apply (inv_tid c Hi _ _ Hk)|done]. }
  split; [|split; [done|split; [by rewrite Hc|done]]].
  unfold call_result. rewrite Hc. cbn. rewrite set_phase_lookup, bool_decide_true by done. by rewrite Hk.
Qed.

Lemma parse_u64_show t : in_u 64 t -> parse_u64 (show_nat t) = Some t.
Proof.
  intros Ht. unfold parse_u64, in_u in *. pose proof (parse_show_int 0 (2 ^ 64 - 1) t ltac:(lia) ltac:(lia)) as Hp.
  unfold show_int in Hp. by rewrite (proj2 (Z.ltb_ge _ _)) in Hp by lia.
Qed.

(** a response carries the id of its call *)
Lemma response_tid_trace t v : in_u 64 t -> get $"t" v = JString <$> Some (show_nat t) -> response_tid v = Some t.
Proof. intros Ht Hv. unfold response_tid. rewrite Hv. by apply parse_u64_show. Qed.

Lemma handle_request sent t f ps st : in_u 64 t -> handle sent (request t f (JArray ps)) st
  = if bool_decide (f = $"getNextPacket") then
      match queue_next_packet (Some (show_nat t)) st with
      | (Ok _, st) => (Some None, st)
      | (Err e, st) => (respond (Some (show_nat t)) (Err ($"EOFException", e)), st)
      | (Panic, st) => (None, st)
      end
    else let '(result, st) := run_function sent f ps st in (respond (Some (show_nat t)) result, st).
Proof.
  intros Ht. assert (trace_of (request t f (JArray ps)) = Some (show_nat t)) as Htr.
  { unfold trace_of.
    assert (get $"t" (request t f (JArray ps)) = Some (JNumber (PosInt t))) as -> by reflexivity.
    by rewrite to_string_number. }
  unfold handle. rewrite Htr, request_object. reflexivity.
Qed.

(** no request waits at the pump *)
Definition idle (h : ClientHandler) : Prop :=
  match next_packet_requests h with None => True | Some p => running p = true /\ requests p = [] end.

(** the two ends of an open connection with session [s]; [n] more calls can be numbered *)
Record linked (s n : nat) (l : Link) : Prop := {
  l_inv : cl_inv l.1;
  l_open : rpc_closed l.1 = false;
  l_room : Z.of_nat (length (calls l.1)) + Z.of_nat n < 2 ^ 64;
  l_conn : connection_ok l.2;
  l_reading : reading_lines l.2 = true;
  l_session : session (handler l.2) = Some s;
  l_idle : idle (handler l.2);
}.

(** a connection of session [s] that may wait for a packet *)
Definition connected (s : nat) (l : Link) : Prop :=
  reading_lines l.2 = true /\ session (handler l.2) = Some s.

Lemma linked_connected s n l : linked s n l -> connected s l.
Proof. by intros []. Qed.

Lemma tcp_close_endpoint s l : connected s l -> endpoint (tcp_close l).2 = conn_close s (endpoint l.2).
Proof. intros [Hr Hs]. unfold tcp_close, end_client. cbn. by rewrite Hr, Hs. Qed.

Lemma pump_turn_idle srv : idle (handler srv) -> pump_turn true srv = srv.
Proof.
  unfold idle, pump_turn. destruct (next_packet_requests (handler srv)) as [[s [|] []]|]; try done.
  by intros [_ ?].
Qed.

Lemma read_lines_one n srv v c : n = length (written srv) ->
  read_lines n (send_line v srv) c = (reader_line (to_string v) c).2.
Proof. intros ->. unfold read_lines. cbn [written send_line]. by rewrite drop_app_length. Qed.

Lemma read_lines_none srv c : read_lines (length (written srv)) srv c = c.
Proof. unfold read_lines. by rewrite drop_all. Qed.

(** how an error of the handler reads at the client *)
Definition wire_error (e : str * str) : str := e.1 ++ $": " ++ e.2.

Definition sendable (r : res (str * str) Json) : Prop :=
  match r with Ok v => printable v | Err (k, m) => valid_str k /\ valid_str m | Panic => False end.

Lemma respond_sendable t r : in_u 64 t -> sendable r -> exists v, respond (Some (show_nat t)) r = Some (Some v)
  /\ printable v /\ response_tid v = Some t /\ response_result v = map_err wire_error r.
Proof.
  intros Ht Hr. pose proof (response_trace (Some (show_nat t))) as [H1 H2].
  assert (valid_str (show_nat t)) as Hs.
  { apply ascii_valid. eapply Forall_impl; [apply show_nat_digits; unfold in_u in Ht; lia|]. cbn. lia. }
  destruct r as [v|[kind m]|]; [| |done]; eexists; (split; [reflexivity|]).
  - split; [by apply result_printable|]. split; [by apply response_tid_trace|]. reflexivity.
  - destruct Hr. split; [by apply error_printable|]. split; [by apply response_tid_trace|]. reflexivity.
Qed.

Lemma serve_request sent writable t f ps srv : printable (request t f (JArray ps)) ->
  serve_line sent writable (to_string (request t f (JArray ps))) srv
  = let '(response, (h, e)) := handle sent (request t f (JArray ps)) (handler srv, endpoint srv) in
    let srv := mkConnection h e (reading_lines srv) (written srv) in
    match response with
    | None => None
    | Some None => Some srv
    | Some (Some v) => Some (if writable then send_line v srv else end_client srv)
    end.
Proof. intros Hp. unfold serve_line. by rewrite from_str_to_string. Qed.

Lemma call_round_now sent s n f ps c srv r e' : linked s (S n) (c, srv) -> f <> $"getNextPacket" ->
  valid_str f -> Forall printable ps ->
  run_function sent f ps (handler srv, endpoint srv) = (r, (handler srv, e')) -> sendable r ->
  exists l', call_round sent f ps (c, srv) = (Some (map_err wire_error r), l') /\ linked s n l' /\ endpoint l'.2 = e'.
Proof.
  intros [H1 H2 H3 H4 H5 H6 H7] Hf Hvf Hps Hrun Hr. cbn [fst snd] in *.
  destruct (start_call c f ps H1 H2 ltac:(lia)) as (c1 & Htid & Hlen & Hnone & Hlast & Hi2 & Hc2 & Hl2 & Hk2).
  set (k := length (calls c)) in *. assert (in_u 64 (Z.of_nat k + 1)) as Ht by (unfold in_u; lia).
  assert (handler_ok (handler srv) e') as Hok.
  { destruct (acts_function sent f ps _ _ H4) as (out & h' & ops & Ha & Hb & _).
    rewrite Hrun in Ha. injection Ha as -> <- ->. done. }
  destruct (respond_sendable _ r Ht Hr) as (v & Hv & Hp & Hvt & Hvr).
  unfold call_round. rewrite Htid, Hlen, Hnone, Hlast. cbn [from_option]. unfold id.
  rewrite serve_request, handle_request, bool_decide_false, Hrun, Hv by (done || by apply request_printable).
  cbv beta iota zeta. rewrite read_lines_one by done. rewrite pump_turn_idle, read_lines_none by done.
  destruct (reader_answers _ k _ v Hi2 Hk2 Hp Hvt) as (Ha & Hb & Hc & Hd). rewrite Ha, Hvr.
  eexists. split; [reflexivity|]. split; [|done]. split; cbn [fst snd]; try done.
  - by rewrite Hc.
  - rewrite Hd, Hl2. lia.
Qed.

(** the answer of the pump for what the session gave *)
Definition next_answer (r : res str (list Z)) : res (str * str) Json :=
  match r with Ok p => Ok (JString (encode p)) | Err m => Err ($"EOFException", m) | Panic => Panic end.

Lemma next_result_cases s e r e' : (s < length (store e))%nat -> conn_get_next_packet s e = (r, e') ->
  (r = None /\ e' = e) \/ (exists p, r = Some (Ok p)) \/ r = Some (Err end_of_receive).
Proof.
  intros Hs. destruct (lookup_lt_is_Some_2 _ _ Hs) as [x Hx]. unfold conn_get_next_packet. rewrite Hx.
  unfold take_packet. destruct (packets x) as [|p t]; [|intros [= <- <-]; eauto].
  destruct (session_closed x); intros [= <- <-]; [by eauto|]. left. split; [done|].
  assert (alter (fun _ => x) s (store e) = store e) as Ha.
  { apply list_eq. intros j. destruct (decide (s = j)) as [->|Hne];
      [by rewrite list_lookup_alter_eq, Hx|by rewrite list_lookup_alter_ne]. }
  unfold with_session. rewrite Ha. by destruct e.
Qed.

Lemma next_sendable s e r e' : (s < length (store e))%nat -> conn_get_next_packet s e = (Some r, e') ->
  sendable (next_answer r).
Proof.
  intros Hs Hr. destruct (next_result_cases s e _ _ Hs Hr) as [[? _]|[[p [= ->]]|[= ->]]]; [done| |].
  - apply ascii_valid, encode_ascii.
  - split; apply lit_valid.
Qed.

Lemma call_round_next sent s n c srv r e' : linked s (S n) (c, srv) ->
  conn_get_next_packet s (endpoint srv) = (r, e') ->
  exists l', call_round sent $"getNextPacket" [] (c, srv) = ((fun r => map_err wire_error (next_answer r)) <$> r, l')
    /\ endpoint l'.2 = e' /\ connected s l' /\ (r <> None -> linked s n l').
Proof.
  intros [H1 H2 H3 H4 H5 H6 H7] Hr. cbn [fst snd] in *.
  destruct (start_call c $"getNextPacket" [] H1 H2 ltac:(lia))
    as (c1 & Htid & Hlen & Hnone & Hlast & Hi2 & Hc2 & Hl2 & Hk2).
  set (k := length (calls c)) in *. assert (in_u 64 (Z.of_nat k + 1)) as Ht by (unfold in_u; lia).
  set (tr := Some (show_nat (Z.of_nat k + 1))). set (h1 := mkHandler (Some s) (Some (mkPump s [tr] true))).
  assert (queue_next_packet tr (handler srv, endpoint srv) = (Ok tt, (h1, endpoint srv))) as Hq.
  { unfold queue_next_packet, mbind, SM_bind, client_session. rewrite H6. unfold send_to_pump, h1.
    unfold idle in H7. rewrite H6. pose proof (handler_pump _ _ H4) as Hps.
    destruct (next_packet_requests (handler srv)) as [[s' q b]|]; cbn in *; [|done].
    destruct H7 as [-> ->]. specialize (Hps _ eq_refl). cbn in Hps. by replace s' with s by congruence. }
  unfold call_round. rewrite Htid, Hlen, Hnone, Hlast. cbn [from_option]. unfold id.
  rewrite serve_request, handle_request, bool_decide_true by (done || by apply request_printable; [done|apply lit_valid|]).
  fold tr. rewrite Hq. cbv beta iota zeta.
  set (srv1 := mkConnection h1 (endpoint srv) (reading_lines srv) (written srv)).
  change (length (written srv)) with (length (written srv1)). rewrite read_lines_none.
  pose proof (handler_session _ _ H4 _ H6) as Hlt.
  destruct r as [x|].
  2: { destruct (next_result_cases s _ _ _ Hlt Hr) as [[_ ->]|[[p ?]|?]]; [|done..].
    assert (pump_turn true srv1 = srv1) as -> by (unfold pump_turn; cbn; by rewrite Hr).
    rewrite read_lines_none. unfold call_result at 1. rewrite Hk2. eexists. split; [done|]. by split. }
  pose proof (next_sendable s _ _ _ Hlt Hr) as Hx.
  destruct (respond_sendable _ _ Ht Hx) as (v & Hv & Hp & Hvt & Hvr).
  set (h2 := mkHandler (Some s) (Some (mkPump s [] true))).
  assert (pump_turn true srv1 = send_line v (mkConnection h2 e' (reading_lines srv) (written srv))) as ->.
  { unfold pump_turn. cbn [next_packet_requests handler srv1 h1 endpoint]. rewrite Hr.
    destruct x as [p|m|]; [| |done]; cbn in Hv; by injection Hv as <-. }
  rewrite read_lines_one by done.
  destruct (reader_answers _ k _ v Hi2 Hk2 Hp Hvt) as (Ha & Hb & Hc & Hd). rewrite Ha, Hvr.
  eexists. split; [reflexivity|]. split; [done|]. split; [done|]. intros _.
  destruct (conn_steps s [] [] [] (endpoint srv) Hlt) as (_ & Hstep & _). rewrite Hr in Hstep. cbn in Hstep.
  split; cbn [fst snd]; try done.
  - by rewrite Hc.
  - rewrite Hd, Hl2. lia.
  - destruct (handler_ok_run _ _ [DoTake s] H4) as [G1 G2 G3]. unfold connection_ok.
    cbn [handler endpoint send_line]. rewrite Hstep. split; [done| |by intros p [= <-]].
    intros s' [= <-]. by apply G2.
Qed.

(** ** Lemmas: the operations over the wire *)

(** the arguments are values of their types, and so is the error of the connector *)
Definition wf_op (sent : list Z -> option str) (o : conn_op) : Prop :=
  match o with
  | OpSend data => bytes data /\ (forall err, sent data = Some err -> valid_str err)
  | OpGet key => valid_str key
  | OpSet key value => valid_str key /\ valid_str value
  | OpOther (DoGateway p) | OpOther (DoSend _ p) => bytes p
  | _ => True
  end.

(** the exception type under which the server reports an error of the operation *)
Definition op_kind (o : conn_op) : str :=
  match o with
  | OpSend _ => $"IOException"
  | OpSet _ _ => $"RuntimeException"
  | _ => $"EOFException"
  end.

Definition op_error (o : conn_op) (err : str) : str := wire_error (op_kind o, err).

(** [l'] answers [o] as the session in this process does *)
Definition simulates (sent : list Z -> option str) (s n : nat) (o : conn_op) (l : Link) : Prop :=
  let '(r, e') := in_process sent s o (endpoint l.2) in
  exists l', over_tcp sent o l = (map_err (op_error o) <$> r, l') /\ endpoint l'.2 = e' /\ connected s l'
    /\ (r <> None -> linked s n l').

Lemma show_bool_valid b : valid_str (show_bool b).
Proof. destruct b; apply lit_valid. Qed.

Lemma get_attribute_valid key x v : get_attribute key x = Some v -> valid_str v.
Proof. unfold get_attribute. repeat case_bool_decide; intros [= <-]; apply show_bool_valid. Qed.

Lemma set_attribute_err_valid key value x : valid_str value ->
  match (set_attribute key value x).1 with Err err => valid_str err | _ => True end.
Proof.
  intros Hv. unfold set_attribute. repeat case_bool_decide; destruct (parse_bool value); cbn -[lit]; auto with ub.
Qed.

(** what the functions of the server do for a client that has a session *)
Lemma run_function_session sent s h e : session h = Some s ->
  run_function sent $"init" [] (h, e) = (Ok JNull, (h, e))
  /\ (forall text data, decode text = Ok data -> run_function sent $"sendPacket" [JString text] (h, e)
       = (map_err (fun m => ($"IOException", m)) (_ ← (send_packet (sent data) data e).1; Ok JNull),
          (h, (send_packet (sent data) data e).2)))
  /\ run_function sent $"listAttributes" [] (h, e)
     = (Ok (json_object (map (fun a => (a.1, JString a.2)) list_attributes)), (h, e))
  /\ (forall key, run_function sent $"getAttribute" [JString key] (h, e)
       = (map_err (fun m => ($"EOFException", m))
            (v ← conn_get_attribute s key e; Ok (match v with Some v => JString v | None => JNull end)), (h, e)))
  /\ (forall key value, run_function sent $"setAttribute" [JString key; JString value] (h, e)
       = (map_err (fun m => ($"RuntimeException", m)) (_ ← (conn_set_attribute s key value e).1; Ok JNull),
          (h, (conn_set_attribute s key value e).2))).
Proof.
  intros Hs. assert (client_session (h, e) = (Ok s, (h, e))) as Hcs by (unfold client_session; by rewrite Hs).
  split; [|split; [|split; [|split]]].
  - change (run_function sent $"init" []) with (_ ← as_kind $"EOFException" client_session; mret JNull : HM Json).
    unfold mbind, SM_bind, as_kind. by rewrite Hcs.
  - intros text data Hd. change (run_function sent $"sendPacket" [JString text]) with
      (packet ← as_kind $"IllegalArgumentException" (sm_lift (decode text));
       _ ← as_kind $"IOException" (on_endpoint (fun e => send_packet (sent packet) packet e)); mret JNull : HM Json).
    unfold mbind, SM_bind, as_kind, sm_lift, on_endpoint. rewrite Hd. cbn [map_err].
    by destruct (send_packet (sent data) data e) as [[] ?].
  - reflexivity.
  - intros key. change (run_function sent $"getAttribute" [JString key]) with
      (s ← as_kind $"EOFException" client_session;
       value ← as_kind $"EOFException" (on_endpoint (fun e => (conn_get_attribute s key e, e)));
       mret (match value with Some v => JString v | None => JNull end) : HM Json).
    unfold mbind, SM_bind, as_kind, on_endpoint. rewrite Hcs. cbn [map_err].
    by destruct (conn_get_attribute s key e).
  - intros key value. change (run_function sent $"setAttribute" [JString key; JString value]) with
      (s ← as_kind $"EOFException" client_session;
       _ ← as_kind $"RuntimeException" (on_endpoint (conn_set_attribute s key value)); mret JNull : HM Json).
    unfold mbind, SM_bind, as_kind, on_endpoint. rewrite Hcs. cbn [map_err].
    by destruct (conn_set_attribute s key value e) as [[] ?].
Qed.

(** an operation that is answered at once: the server runs the function of the
    operation, and the value of its response is the result of the session *)
Lemma op_served sent s o h e : session h = Some s -> (s < length (store e))%nat -> wf_op sent o -> o <> OpNext ->
  is_call o = true ->
  exists r x e', run_function sent (op_function o) (op_params o) (h, e) = (r, (h, e')) /\ sendable r /\ in_process sent s o e = (Some x, e')
    /\ (v ← map_err wire_error r; op_value o v) = map_err (op_error o) x.
Proof.
  intros Hs Hlt Hwf Hnext Hcall. destruct (lookup_lt_is_Some_2 _ _ Hlt) as [x Hx].
  destruct (run_function_session sent s h e Hs) as (R1 & R2 & R3 & R4 & R5).
  destruct o as [|data| |key|key value| |o].
  - do 3 eexists. split; [exact R1|]. by split.
  - destruct Hwf as [Hb Herr]. exists (map_err (fun m => ($"IOException", m)) (_ ← (send_packet (sent data) data e).1; Ok JNull)),
      (_ ← (send_packet (sent data) data e).1; Ok RUnit), (send_packet (sent data) data e).2.
    split; [exact (R2 (encode data) data (decode_encode _ Hb))|]. split; [destruct (sent data) as [err|] eqn:Hsd; [|done]; split; [apply lit_valid|by apply Herr]|].
    split; [cbn; unfold conn_send_packet; by destruct (send_packet (sent data) data e)|]. by destruct (sent data).
  - do 3 eexists. split; [exact R3|]. split; [|by split].
    cbn. split; [repeat constructor|]. split; [apply (lit_valid "loopback_send_packets")|].
    split; [|done]. apply ascii_valid. repeat (constructor; [vm_compute; by split|]). constructor.
  - specialize (R4 key). unfold conn_get_attribute in R4. rewrite Hx in R4. exists (Ok (match get_attribute key x with Some v => JString v | None => JNull end)),
      (Ok (RAttribute (get_attribute key x))), e. split; [exact R4|].
    split; [cbn; destruct (get_attribute key x) eqn:Hg; [by eapply get_attribute_valid|done]|].
    split; [cbn; by rewrite Hx|]. cbn. by destruct (get_attribute key x).
  - destruct Hwf as [Hk Hv]. exists (map_err (fun m => ($"RuntimeException", m)) (_ ← (conn_set_attribute s key value e).1; Ok JNull)),
      (_ ← (conn_set_attribute s key value e).1; Ok RUnit), (conn_set_attribute s key value e).2.
    split; [exact (R5 key value)|]. split.
    { unfold conn_set_attribute. rewrite Hx. pose proof (set_attribute_no_panic key value x) as Hnp.
      pose proof (set_attribute_err_valid key value x Hv) as He.
      destruct (set_attribute key value x) as [[u|err|] x']; [done| |done]. split; [apply lit_valid|by apply He]. }
    split; [cbn; by destruct (conn_set_attribute s key value e)|].
    by destruct (conn_set_attribute s key value e) as [[] ?].
  - done.
  - done.
Qed.

(** the text of a request of the client *)
Lemma op_call_printable o sent : wf_op sent o -> is_call o = true ->
  valid_str (op_function o) /\ Forall printable (op_params o) /\ (op_function o = $"getNextPacket" -> o = OpNext).
Proof.
  destruct o as [|data| |key|key value| |o]; intros Hwf Hcall; try done;
    (split; [apply lit_valid|]); (split; [|done]); cbn; repeat constructor; cbn;
    first [apply ascii_valid, encode_ascii|apply Hwf].
Qed.

Lemma over_tcp_call sent o l : is_call o = true ->
  over_tcp sent o l
  = (let '(r, l) := call_round sent (op_function o) (op_params o) l in ((fun r => v ← r; op_value o v) <$> r, l)).
Proof.
  destruct o as [|data| |key|key value| |o]; intros Hcall; try done; cbn [over_tcp op_function op_params]; unfold run_method;
    destruct (call_round sent _ _ l) as [[[v|err|]|] l']; done.
Qed.

(** the value of the answer of the pump *)
Lemma next_value s e r e' : Forall bytes (queue_of e s) -> conn_get_next_packet s e = (Some r, e') -> r <> Panic ->
  (v ← map_err wire_error (next_answer r); op_value OpNext v)
  = map_err (op_error OpNext) (p ← r; Ok (RPacket p)).
Proof.
  intros Hq Hr Hp. destruct r as [p|err|]; [| |done]; [|done]. cbn. rewrite decode_encode; [done|].
  unfold conn_get_next_packet, queue_of in *. destruct (store e !! s) as [x|]; [|done].
  unfold take_packet in Hr. destruct (packets x) as [|p' t]; [by destruct (session_closed x)|].
  injection Hr as <- _. by apply Forall_cons_1 in Hq as [? _].
Qed.

(** [getNextPacket], which waits at the pump *)
Lemma next_simulated sent s n c srv : linked s (S n) (c, srv) -> Forall bytes (queue_of (endpoint srv) s) ->
  simulates sent s n OpNext (c, srv).
Proof.
  intros Hl Hq. pose proof (l_session _ _ _ Hl) as Hs. cbn in Hs.
  pose proof (handler_session _ _ (l_conn _ _ _ Hl) _ Hs) as Hlt. cbn in Hlt.
  unfold simulates. cbn [in_process snd].
  destruct (conn_get_next_packet s (endpoint srv)) as [r e'] eqn:Hr.
  destruct (call_round_next sent s n c srv r e' Hl Hr) as (l' & Hc & He & Hcon & Hl').
  exists l'. rewrite over_tcp_call by done. change (op_function OpNext) with $"getNextPacket".
  change (op_params OpNext) with (@nil Json). rewrite Hc. split; [|split; [done|split; [done|]]].
  - destruct r as [r|]; [|done]. cbn [fmap option_fmap option_map]. f_equal. f_equal. apply (next_value s (endpoint srv) r e' Hq Hr).
    destruct (next_result_cases s _ _ _ Hlt Hr) as [[? _]|[[p [= ->]]|[= ->]]]; done.
  - intros Hne. apply Hl'. intros ->. by apply Hne.
Qed.

Lemma in_process_simulated sent s n o c srv : linked s (S n) (c, srv) -> wf_op sent o ->
  Forall bytes (queue_of (endpoint srv) s) ->
  simulates sent s n o (c, srv).
Proof.
  intros Hl Hwf Hq. pose proof (l_session _ _ _ Hl) as Hs. cbn in Hs.
  pose proof (handler_session _ _ (l_conn _ _ _ Hl) _ Hs) as Hlt. cbn in Hlt.
  destruct (is_call o) eqn:Hop.
  2: { destruct o as [| | | | | |o]; try done. unfold simulates. cbn. eexists. split; [done|]. split; [done|].
    split; [by destruct Hl|]. intros _. destruct Hl as [H1 H2 H3 H4 H5 H6 H7]. cbn in *. split; cbn; try done; [lia|].
    by apply (handler_ok_run _ _ [o]). }
  destruct (op_call_printable o sent Hwf Hop) as (Hf & Hps & Hnext).
  assert (o = OpNext \/ o <> OpNext) as [->|Hne]; [destruct o; (by left) || by right|by apply next_simulated|].
  destruct (op_served sent s o _ _ Hs Hlt Hwf Hne Hop) as (r & x & e' & Hrun & Hr & Hx & Heq).
  destruct (call_round_now sent s n (op_function o) (op_params o) c srv r e' Hl) as (l' & Hc & Hl' & He); [by auto|done..|].
  unfold simulates. cbn [snd]. rewrite Hx. exists l'. rewrite over_tcp_call, Hc by done.
  split; [cbn; by rewrite Heq|]. split; [done|]. split; [by apply (linked_connected s n)|done].
Qed.

Lemma queue_step_bytes e o s : ep_inv e -> (s < length (store e))%nat -> Forall bytes (queue_of e s) ->
  Forall bytes (offered s e o) -> Forall bytes (queue_of (ep_step e o) s).
Proof.
  intros He Hs Hq Ho. destruct (lookup_lt_is_Some_2 _ _ Hs) as [x Hx].
  unfold queue_of in *. rewrite (ep_step_lookup e o s x He Hx). rewrite Hx in Hq.
  pose proof (fifo_step e o s x He Hx) as Hf.
  assert (Forall bytes (packets x ++ offered s e o)) as Ha by by apply Forall_app.
  rewrite Hf in Ha. by apply Forall_app in Ha as [_ ?].
Qed.

Lemma in_process_bytes sent s o e : ep_inv e -> (s < length (store e))%nat -> wf_op sent o ->
  Forall bytes (queue_of e s) -> Forall bytes (queue_of (in_process sent s o e).2 s).
Proof.
  intros He Hs Hwf Hq.
  assert (forall p, (match p with DoGateway d | DoSend _ d => bytes d | _ => True end) ->
    Forall bytes (queue_of (ep_step e p) s)) as Hstep.
  { intros p Hp. apply queue_step_bytes; [done..|]. unfold offered. destruct (store e !! s) as [x|]; [|done].
    destruct (_ || _); [done|]. destruct p as [|d|[err|] d|?|?|? ? ?| |?]; try done; [by constructor|].
    destruct (_ || _); by repeat constructor. }
  destruct o as [|data| |key|key value| |o]; try done; cbn [in_process].
  - destruct Hwf as [Hb _]. specialize (Hstep (DoSend (sent data) data) Hb). cbn in Hstep.
    unfold conn_send_packet. by destruct (send_packet (sent data) data e).
  - specialize (Hstep (DoSet s key value) I). destruct (conn_steps s [] key value e Hs) as (_ & _ & <- & _) in Hstep.
    by destruct (conn_set_attribute s key value e).
  - specialize (Hstep (DoTake s) I). destruct (conn_steps s [] [] [] e Hs) as (_ & <- & _) in Hstep.
    by destruct (conn_get_next_packet s e).
  - apply Hstep. by destruct o.
Qed.

Lemma ids_taken_app ops1 ops2 : ids_taken (ops1 ++ ops2) = (ids_taken ops1 + ids_taken ops2)%nat.
Proof. unfold ids_taken. by rewrite map_app, list_sum_app. Qed.

Lemma run_cl_app c ops1 ops2 : run_cl c (ops1 ++ ops2) = (c1 ← run_cl c ops1; run_cl c1 ops2).
Proof.
  revert c. induction ops1 as [|o t IH]; intros c; [done|]. cbn. destruct (cl_step c o); [|done]. apply IH.
Qed.

Lemma run_cl_closed c ops c' : rpc_closed c = true -> run_cl c ops = Some c' -> rpc_closed c' = true.
Proof.
  revert c. induction ops as [|o t IH]; intros c Hc; cbn [run_cl]; [by intros [= <-]|].
  destruct (cl_step c o) as [c1|] eqn:Ho; [|done]. apply IH. clear IH.
  destruct o as [|k|k f p failed|line|]; cbn [cl_step] in Ho; [|injection Ho as <-..].
  - unfold call_tid in Ho. case_match; [|done]. by injection Ho as <-.
  - unfold call_register. destruct (calls c !! k) as [[? []]|]; try done. by rewrite Hc.
  - destruct (phase <$> calls c !! k) as [[]|]; try done; unfold call_write;
      destruct (calls c !! k) as [[? ?]|]; try done; by destruct failed.
  - by rewrite Hc.
  - done.
Qed.

End Lemmas.

(** ** Properties *)

Section Properties.
Context {SJ : SerdeJson}.

(** Responses.  In every interleaving of calls, failed writes and lines from
    the server (with fewer than 2^64 calls) no step panics, the ids of the calls
    are distinct, and the next response of the server goes to the one call that
    waits for its id and to nobody else, or, when no call waits for it, it is
    reported and changes no call. *)
Theorem responses_paired ops line v : Z.of_nat (ids_taken ops) < 2 ^ 64 -> from_str line = Some v ->
  exists c, run_cl connect ops = Some c
    /\ NoDup (map tid (calls c))
    /\ let c' := (reader_line line c).2 in
       (exists k t, calls c !! k = Some (mkCall t Waiting) /\ response_tid v = Some t
          /\ calls c' = <[k := mkCall t (Answered v)]> (calls c) /\ unhandled c' = unhandled c)
       \/ ((forall k t, calls c !! k = Some (mkCall t Waiting) -> response_tid v <> Some t)
          /\ calls c' = calls c /\ unhandled c' = unhandled c ++ [v]).
Proof.
  intros Hn Hv. destruct (run_cl_inv connect ops connect_inv) as (c & Hc & Hi); [done|].
  exists c. split; [done|]. split.
  { apply NoDup_alt. intros i j t Hti Htj. rewrite list_lookup_fmap in Hti, Htj.
    apply fmap_Some in Hti as (x & Hx & ->). apply fmap_Some in Htj as (y & Hy & Hxy).
    pose proof (inv_tid c Hi _ _ Hx). pose proof (inv_tid c Hi _ _ Hy). lia. }
  unfold reader_line. rewrite Hv. cbn [snd].
  assert (forall k t, calls c !! k = Some (mkCall t Waiting) -> waiting c !! t = Some k) as Hin.
  { intros k t Hk. apply (inv_waiting c Hi). split; [by apply (inv_tid c Hi _ _ Hk)|done]. }
  destruct (response_tid v) as [t|] eqn:Ht; cbn [mbind option_bind]; [|by right].
  destruct (waiting c !! t) as [k|] eqn:Hw; cbn [mbind option_bind].
  - left. apply (inv_waiting c Hi) in Hw as [_ Hk]. exists k, t. split; [done|]. split; [done|]. split; [|done].
    cbn. apply list_eq. intros j. rewrite set_phase_lookup. case_bool_decide; subst.
    + rewrite list_lookup_insert_eq by by eapply lookup_lt_Some. by rewrite Hk.
    + by rewrite list_lookup_insert_ne by done.
  - right. split; [|done]. intros k t' Hk [= <-]. specialize (Hin k t Hk). congruence.
Qed.

(** The end of the connection.  When the reader has ended, every call that was
    waiting has returned or returns the error "RPC connection closed" at once, in
    every later state no call waits for a response, and a call that is registered
    later fails the same way. *)
Theorem closed_wakes_calls ops1 ops2 k t p : Z.of_nat (ids_taken (ops1 ++ ClEnd :: ops2)) < 2 ^ 64 ->
  exists c1 c2, run_cl connect ops1 = Some c1 /\ run_cl connect (ops1 ++ ClEnd :: ops2) = Some c2
    /\ (calls c1 !! k = Some (mkCall t Waiting) -> call_result k (reader_end c1) = Some (Err connection_closed))
    /\ (calls c2 !! k = Some (mkCall t p) -> p <> Waiting
        /\ (p = Issued -> call_result k (call_register k c2) = Some (Err connection_closed))).
Proof.
  rewrite ids_taken_app. intros Hn.
  destruct (run_cl_inv connect ops1 connect_inv) as (c1 & Hc1 & Hi1);
    [change (length (calls connect)) with 0%nat; lia|].
  destruct (run_cl_inv connect (ops1 ++ ClEnd :: ops2) connect_inv) as (c2 & Hc2 & Hi2);
    [rewrite ids_taken_app; change (length (calls connect)) with 0%nat; lia|].
  exists c1, c2. split; [done|]. split; [done|]. rewrite run_cl_app, Hc1 in Hc2. cbn in Hc2.
  pose proof (run_cl_closed _ _ _ (eq_refl : rpc_closed (reader_end c1) = true) Hc2) as Hclosed. split.
  - intros Hk. pose proof (drop_senders_lookup (waiting c1) (calls c1)) as Hl.
    unfold call_result. cbn [calls reader_end].
    rewrite Hl by (intros s j Hj; by apply (inv_waiting c1 Hi1) in Hj as [? _]).
    rewrite bool_decide_true, Hk; [done|]. pose proof (inv_tid c1 Hi1 _ _ Hk) as Ht. cbn in Ht.
    apply (inv_waiting c1 Hi1). by rewrite <- Ht.
  - intros Hk. split.
    + intros ->. pose proof (inv_tid c2 Hi2 _ _ Hk) as Ht. cbn in Ht.
      pose proof (proj2 (inv_waiting c2 Hi2 t k) (conj Ht Hk)) as Hw. by rewrite (inv_closed c2 Hi2 Hclosed) in Hw.
    + intros ->. unfold call_register, call_result. rewrite Hk, Hclosed. cbn.
      rewrite set_phase_lookup, bool_decide_true by done. by rewrite Hk.
Qed.

(** C15: The connection over TCP is the connection in this process.  For every
    program of calls on an open connection, with the other clients acting on the
    endpoint between the calls, the client gets over TCP exactly the results that
    the session gives in this process, errors under the exception type of the
    operation included, it waits exactly when the session would make it wait, and
    the endpoint ends in the same state, also after the connection is closed. *)
Theorem tcp_refines_in_process sent s ops l : linked s (length ops) l -> Forall (wf_op sent) ops ->
  Forall bytes (queue_of (endpoint l.2) s) ->
  let '(rs, e') := run_ops (session_connection sent s) ops (endpoint l.2) in
  exists l', run_ops (tcp_connection sent) ops l = (zip_with (fun o r => map_err (op_error o) <$> r) ops rs, l')
    /\ endpoint l'.2 = e'
    /\ endpoint (close_connection (UartbusConnection := tcp_connection sent) l').2
       = close_connection (UartbusConnection := session_connection sent s) e'.
Proof.
  intros Hl Hwf Hq. enough (let '(rs, e') := run_ops (session_connection sent s) ops (endpoint l.2) in
    exists l', run_ops (tcp_connection sent) ops l = (zip_with (fun o r => map_err (op_error o) <$> r) ops rs, l')
      /\ endpoint l'.2 = e' /\ connected s l') as Hx.
  { destruct (run_ops (session_connection sent s) ops (endpoint l.2)) as [rs e']. destruct Hx as (l' & H1 & <- & H3).
    exists l'. do 2 (split; [done|]). by apply tcp_close_endpoint. }
  revert l Hl Hq. induction Hwf as [|o t Ho Ht IH]; intros l Hl Hq; [exists l; do 2 (split; [done|]); by eapply linked_connected|].
  destruct l as [c srv]. cbn [length] in Hl. pose proof (in_process_simulated sent s _ o c srv Hl Ho Hq) as Hsim.
  pose proof (l_session _ _ _ Hl) as Hs. cbn in Hs. pose proof (l_conn _ _ _ Hl) as Hok.
  pose proof (in_process_bytes sent s o (endpoint srv) (handler_ep _ _ Hok) (handler_session _ _ Hok _ Hs) Ho Hq) as Hq'.
  unfold simulates in Hsim. cbn [run_ops method session_connection tcp_connection snd] in *.
  destruct (in_process sent s o (endpoint srv)) as [r e']. destruct Hsim as (l' & Hstep & He & Hcon & Hl').
  rewrite Hstep. cbn in Hq'. subst e'. destruct r as [r|]; cbn [fmap option_fmap option_map]; [|exists l'; by destruct t].
  specialize (IH l' (Hl' ltac:(done)) Hq'). destruct (run_ops (session_connection sent s) t (endpoint l'.2)) as [rs e2].
  destruct IH as (l2 & Hrun & He2). rewrite Hrun. by exists l2.
Qed.

End Properties.

Definition example_line : str := to_string (SerdeJson := serde_ref) (result_response (Some $"2") JNull).

Lemma responses_paired_witness :
  let ops := [ClTid; ClTid; ClRegister 1; ClRegister 0] in
  exists c, run_cl (SJ := serde_ref) connect ops = Some c
    /\ calls c = [mkCall 1 Waiting; mkCall 2 Waiting]
    /\ ((exists k t, calls c !! k = Some (mkCall t Waiting)
          /\ response_tid (result_response (Some $"2") JNull) = Some t)
        \/ unhandled (reader_line (SJ := serde_ref) example_line c).2 = [result_response (Some $"2") JNull]).
Proof.
  intros ops.
  destruct (responses_paired (SJ := serde_ref) ops example_line (result_response (Some $"2") JNull))
    as (c & Hc & _ & Hcase).
  - vm_compute. reflexivity.
  - apply (from_str_to_string (SerdeJson := serde_ref)). apply result_printable; [apply lit_valid|done].
  - exists c. split; [exact Hc|]. vm_compute in Hc. injection Hc as <-. split; [reflexivity|].
    destruct Hcase as [(k & t & H1 & H2 & _)|(_ & _ & H)]; [left; exists k, t; by split|right; exact H].
Defined.

Lemma closed_wakes_calls_witness :
  exists c1 c2, run_cl (SJ := serde_ref) connect [ClTid; ClRegister 0] = Some c1
    /\ run_cl (SJ := serde_ref) connect [ClTid; ClRegister 0; ClEnd; ClTid] = Some c2
    /\ calls c1 !! 0%nat = Some (mkCall 1 Waiting)
    /\ call_result 0 (reader_end c1) = Some (Err connection_closed).
Proof.
  destruct (closed_wakes_calls (SJ := serde_ref) [ClTid; ClRegister 0] [ClTid] 0 1 Waiting)
    as (c1 & c2 & H1 & H2 & H3 & _).
  - vm_compute. reflexivity.
  - exists c1, c2. split; [exact H1|]. split; [exact H2|].
    assert (calls c1 !! 0%nat = Some (mkCall 1 Waiting)) as Hk by (vm_compute in H1; injection H1 as <-; reflexivity).
    split; [exact Hk|]. apply H3, Hk.
Defined.

Lemma tcp_refines_in_process_witness :
  let ops := [OpSend [1; 2]; OpNext; OpOther (DoGateway [9]); OpNext; OpSet ATTR_ECHO_LOOPBACK $"maybe"; OpNext] in
  let l := (connect, mkConnection (mkHandler (Some 1%nat) None) example_endpoint true []) in
  exists l', run_ops (tcp_connection (SJ := serde_ref) (fun _ => None)) ops l
    = ([Some (Ok RUnit); Some (Ok (RPacket [1; 2])); Some (Ok RUnit); Some (Ok (RPacket [9]));
        Some (Err $"RuntimeException: The given value `maybe` can not be casted to boolean."); None], l').
Proof.
  intros ops l.
  assert (linked 1 (length ops) l) as Hl.
  { split; try done; [apply connect_inv|]. exact example_handler_ok. }
  pose proof (tcp_refines_in_process (SJ := serde_ref) (fun _ => None) 1 ops l Hl) as H.
  assert (run_ops (session_connection (fun _ => None) 1) ops (endpoint l.2)
    = ([Some (Ok RUnit); Some (Ok (RPacket [1; 2])); Some (Ok RUnit); Some (Ok (RPacket [9]));
        Some (Err $"The given value `maybe` can not be casted to boolean."); None],
       (run_ops (session_connection (fun _ => None) 1) ops (endpoint l.2)).2)) as Hr by (vm_compute; reflexivity).
  rewrite Hr in H. destruct H as (l' & H & _).
  - unfold ops, bytes, is_u8. repeat constructor; cbn; try apply lit_valid; try discriminate; try lia;
      repeat constructor; lia.
  - constructor.
  - exists l'. exact H.
Defined.
