(* ===== verification/TcpLink.v ===== *)
(** * Concurrent calls over TCP

    Composes [TcpRpcClient::call] of [src/rpc/client.rs] with [serve_client] and
    [packet_pump] of [src/rpc/server.rs] for any number of threads that call at the same
    time: taking the id, registering and writing are steps of the calling thread,
    each line of a socket is read in a step of its own, and the reader of the
    client, the loop of the server, its pump and the other clients run between
    any two steps.  A write that fails leaves nothing for the other end to read.
    The specification is the session in this process
    ([in_process] of [Client]), each call of which is one step: the theorem says
    that the calls over TCP are linearizable, at the step in which the server
    runs the function or the pump takes the packet. *)

From stdpp Require Import base list numbers option strings gmap.
From Stdlib Require Import ZArith Lia.
From S2P Require Import Prelude RustStd Base64 Json Endpoint Server Client.

(** ** The two ends *)

(** how far the thread of a call is: its request is not written yet; it is; the
    write failed *)
Inductive Progress : Type :=
| Unwritten
| Written
| WriteFailed (err : str).

Definition write_progress (failed : option str) : Progress :=
  match failed with None => Written | Some err => WriteFailed err end.

(** the stack frame of a call: the method that called and how far it is *)
Record Frame : Type := mkFrame { f_op : conn_op; f_progress : Progress }.

(** the frames by the number of the call, how many lines the server and the
    reader of the client have read, and whether the writes of the server fail *)
Record Tcp : Type := mkTcp {
  near : TcpRpcClient;
  far : Connection;
  frames : gmap nat Frame;
  lines_served : nat;
  lines_received : nat;
  broken : bool;
}.

(** the threads start to call when the connection is open; the frames of earlier
    calls are gone *)
Definition tcp_open (l : Link) : Tcp :=
  mkTcp l.1 l.2 ∅ (length (stream l.1)) (length (written l.2)) false.

Inductive tcp_act : Type :=
| TcpCall (o : conn_op)
| TcpRegister (k : nat)
| TcpWrite (k : nat) (failed : option str)
| TcpServe
| TcpPump
| TcpRead
| TcpOther (o : ep_op)
| TcpBreak
| TcpEof
| TcpEnd.

Definition with_near (c : TcpRpcClient) (w : Tcp) : Tcp :=
  mkTcp c (far w) (frames w) (lines_served w) (lines_received w) (broken w).
Definition with_far (c : Connection) (w : Tcp) : Tcp :=
  mkTcp (near w) c (frames w) (lines_served w) (lines_received w) (broken w).
Definition with_frame (k : nat) (f : Frame) (w : Tcp) : Tcp :=
  mkTcp (near w) (far w) (<[k := f]> (frames w)) (lines_served w) (lines_received w) (broken w).

Section Tcp.
Context {SJ : SerdeJson}.

(** the calling thread writes the line of its request *)
Definition tcp_write (k : nat) (failed : option str) (w : Tcp) : Tcp :=
  match frames w !! k, phase <$> calls (near w) !! k with
  | Some (mkFrame o Unwritten), Some (Waiting | Answered _ | Disconnected) =>
    with_frame k (mkFrame o (write_progress failed))
      (with_near (call_write k (op_function o) (JArray (op_params o)) failed (near w)) w)
  | _, _ => w
  end.

(** the loop of the server takes the next line of the client *)
Definition tcp_serve (sent : list Z -> option str) (w : Tcp) : option Tcp :=
  match stream (near w) !! lines_served w with
  | Some line =>
    if reading_lines (far w) then
      c ← srv_step sent (far w) (SrvLine line (negb (broken w)));
      Some (mkTcp (near w) c (frames w) (S (lines_served w)) (lines_received w) (broken w))
    else Some w
  | None => Some w
  end.

(** the reader of the client takes the next line of the server *)
Definition tcp_read (w : Tcp) : option Tcp :=
  match written (far w) !! lines_received w with
  | Some line =>
    c ← cl_step (near w) (ClLine line);
    Some (mkTcp c (far w) (frames w) (lines_served w) (S (lines_received w)) (broken w))
  | None => Some w
  end.

(** [None]: a panic *)
Definition tcp_step (sent : list Z -> option str) (w : Tcp) (a : tcp_act) : option Tcp :=
  match a with
  | TcpCall o =>
    c ← cl_step (near w) ClTid;
    Some (with_frame (length (calls (near w))) (mkFrame o Unwritten) (with_near c w))
  | TcpRegister k => c ← cl_step (near w) (ClRegister k); Some (with_near c w)
  | TcpWrite k failed => Some (tcp_write k failed w)
  | TcpServe => tcp_serve sent w
  | TcpPump => c ← srv_step sent (far w) (SrvPump (negb (broken w))); Some (with_far c w)
  | TcpRead => tcp_read w
  | TcpOther o => c ← srv_step sent (far w) (SrvOther o); Some (with_far c w)
  | TcpBreak => Some (mkTcp (near w) (far w) (frames w) (lines_served w) (lines_received w) true)
  | TcpEof => c ← srv_step sent (far w) SrvEof; Some (with_far c w)
  | TcpEnd => c ← cl_step (near w) ClEnd; Some (with_near c w)
  end.

(** what a call has returned, if it has *)
Definition returned (k : nat) (w : Tcp) : option (res str conn_value) :=
  match frames w !! k, calls (near w) !! k with
  | Some (mkFrame _ Unwritten), Some (mkCall _ (Failed err)) => Some (Err err)
  | Some (mkFrame _ Unwritten), _ => None
  | Some (mkFrame o _), _ => (fun r => v ← r; op_value o v) <$> call_result k (near w)
  | None, _ => None
  end.

(** ** The specification *)

(** call [k] takes effect; something else happens to the endpoint *)
Inductive event : Type :=
| Executed (k : nat) (o : conn_op)
| Env (o : ep_op).

Definition numbered (t : Z) : nat := Z.to_nat (t - 1).

(** the call whose request this line is *)
Definition line_call (line : str) : option nat :=
  v ← from_str line; t ← response_tid v; Some (numbered t).

(** the call that takes effect in a step *)
Definition executes (w : Tcp) (a : tcp_act) : list event :=
  match a with
  | TcpServe =>
    if reading_lines (far w) then
      match line ← stream (near w) !! lines_served w; k ← line_call line; f ← frames w !! k; Some (k, f_op f) with
      | None | Some (_, OpNext) => []
      | Some (k, o) => [Executed k o]
      end
    else []
  | TcpPump =>
    match answered (far w) (SrvPump (negb (broken w))) with
    | [(Some trace, _)] => match parse_u64 trace with Some t => [Executed (numbered t) OpNext] | None => [] end
    | _ => []
    end
  | TcpOther o => [Env o]
  | _ => []
  end.

(** the session is removed when the loop of the server ends *)
Definition removes (w w' : Tcp) : list event :=
  if reading_lines (far w) && negb (reading_lines (far w')) then
    match session (handler (far w)) with Some s => [Env (DoRemove s)] | None => [] end
  else [].

Fixpoint run_tcp (sent : list Z -> option str) (w : Tcp) (acts : list tcp_act) : option (Tcp * list event) :=
  match acts with
  | [] => Some (w, [])
  | a :: t =>
    w' ← tcp_step sent w a;
    '(w2, evs) ← run_tcp sent w' t;
    Some (w2, executes w a ++ removes w w' ++ evs)
  end.

End Tcp.

Abbreviation Results := (gmap nat (res str conn_value)).

(** the calls one after the other on the session in this process: each at most
    once, and only when the session does not make it wait *)
Fixpoint replay (sent : list Z -> option str) (s : nat) (e : Endpoint) (rs : Results) (evs : list event)
    : option (Endpoint * Results) :=
  match evs with
  | [] => Some (e, rs)
  | Env o :: t => replay sent s (ep_step e o) rs t
  | Executed k o :: t =>
    match rs !! k, in_process sent s o e with
    | None, (Some r, e) => replay sent s e (<[k := r]> rs) t
    | _, _ => None
    end
  end.

(** the number of calls that are made *)
Definition calls_made (acts : list tcp_act) : nat :=
  list_sum (map (fun a => match a with TcpCall _ => 1%nat | _ => 0%nat end) acts).

(** the arguments are values of their types *)
Definition wf_act (sent : list Z -> option str) (a : tcp_act) : Prop :=
  match a with
  | TcpCall o => is_call o = true /\ wf_op sent o
  | TcpOther o => wf_op sent (OpOther o)
  | _ => True
  end.

(** every line was read and the pump has nothing that it could answer *)
Definition quiet (w : Tcp) : Prop :=
  lines_served w = length (stream (near w)) /\ lines_received w = length (written (far w)) /\ broken w = false
  /\ answered (far w) (SrvPump true) = [].

(** the results [rs] of the calls that took effect account for the calls: such a
    call was made; a call that returned has its result, or an error that says that
    the client lost it; a call that waits when all is quiet waits for a packet that
    the session does not have *)
Definition explains {SJ : SerdeJson} (s : nat) (rs : Results) (w : Tcp) : Prop :=
  (forall k x, rs !! k = Some x -> exists o, frames w !! k = Some (mkFrame o Written))
  /\ (forall k r, returned k w = Some r -> exists o p, frames w !! k = Some (mkFrame o p)
       /\ ((exists x, rs !! k = Some x /\ r = map_err (op_error o) x) \/ (r = Err connection_closed /\ rpc_closed (near w) = true)
           \/ exists err, p = WriteFailed err /\ r = Err err))
  /\ (quiet w -> forall k t o, calls (near w) !! k = Some (mkCall t Waiting) -> frames w !! k = Some (mkFrame o Written) ->
       o = OpNext /\ (conn_get_next_packet s (endpoint (far w))).1 = None).

(** ** Lemmas: the invariant *)

Section Lemmas.
Context {SJ : SerdeJson}.
Variable sent : list Z -> option str.
Variable s : nat.

Definition request_line (k : nat) (o : conn_op) : str :=
  to_string (request (Z.of_nat k + 1) (op_function o) (JArray (op_params o))).

(** the line is the request of call [k] *)
Definition asks (F : gmap nat Frame) (line : str) (k : nat) : Prop :=
  exists o, F !! k = Some (mkFrame o Written) /\ line = request_line k o.

(** the trace id is that of call [k], which waits for a packet *)
Definition awaits (F : gmap nat Frame) (trace : option str) (k : nat) : Prop :=
  F !! k = Some (mkFrame OpNext Written) /\ trace = Some (show_nat (Z.of_nat k + 1)).

(** the response gives the result [x] of the session to the method *)
Definition tells_result (o : conn_op) (v : Json) (x : res str conn_value) : Prop :=
  (r ← response_result v; op_value o r) = map_err (op_error o) x.

(** the line is the response to call [k] *)
Definition tells (F : gmap nat Frame) (rs : Results) (line : str) (k : nat) : Prop :=
  exists o v x, F !! k = Some (mkFrame o Written) /\ line = to_string v /\ printable v
    /\ response_tid v = Some (Z.of_nat k + 1) /\ rs !! k = Some x /\ tells_result o v x.

(** the trace ids that the pump will answer *)
Definition live_requests (h : ClientHandler) : list (option str) :=
  match next_packet_requests h with Some p => if running p then requests p else [] | None => [] end.

(** the client: [U] are the calls whose lines the server has not read; [n] more calls can be numbered *)
Record near_ok (n : nat) (F : gmap nat Frame) (rs : Results) (c : TcpRpcClient) (served : nat) (U : list nat)
    : Prop := {
  n_inv : cl_inv c;
  n_room : Z.of_nat (length (calls c)) + Z.of_nat n < 2 ^ 64;
  n_frames : forall k f, F !! k = Some f ->
    (k < length (calls c))%nat /\ is_call (f_op f) = true /\ wf_op sent (f_op f);
  n_served : (served <= length (stream c))%nat;
  n_lines : Forall2 (asks F) (drop served (stream c)) U;
  n_answered : forall k t v f, calls c !! k = Some (mkCall t (Answered v)) -> F !! k = Some f ->
    exists x, rs !! k = Some x /\ tells_result (f_op f) v x;
  n_failed : forall k t err f, calls c !! k = Some (mkCall t (Failed err)) -> F !! k = Some f ->
    (err = connection_closed /\ rpc_closed c = true) \/ f_progress f = WriteFailed err;
  n_issued : forall k t f, calls c !! k = Some (mkCall t Issued) -> F !! k = Some f -> f_progress f = Unwritten;
  n_lost : forall k t f, calls c !! k = Some (mkCall t Disconnected) -> F !! k = Some f -> rpc_closed c = true;
}.

(** the server: [Q] are the calls that wait at the pump, [R] those whose response the client has not read *)
Record far_ok (F : gmap nat Frame) (rs : Results) (srv : Connection) (received : nat) (brk : bool) (Q R : list nat)
    : Prop := {
  f_conn : connection_ok srv;
  f_session : session (handler srv) = Some s;
  f_bytes : Forall bytes (queue_of (endpoint srv) s);
  f_queue : Forall2 (awaits F) (live_requests (handler srv)) Q;
  f_pump : forall p, next_packet_requests (handler srv) = Some p -> running p = false -> brk = true;
  f_received : (received <= length (written srv))%nat;
  f_lines : Forall2 (tells F rs) (drop received (written srv)) R;
}.

(** a call that has not taken effect yet is unread or at the pump, once; a written call
    that waits is unread, at the pump or has a response on the way *)
Record books (F : gmap nat Frame) (rs : Results) (c : TcpRpcClient) (brk : bool) (U Q R : list nat) : Prop := {
  b_once : NoDup (U ++ Q);
  b_fresh : forall k, k ∈ U ++ Q -> rs !! k = None;
  b_done : forall k x, rs !! k = Some x -> exists o, F !! k = Some (mkFrame o Written);
  b_waiting : forall k t o, calls c !! k = Some (mkCall t Waiting) -> F !! k = Some (mkFrame o Written) ->
    k ∈ U ++ Q ++ R \/ brk = true;
}.

Definition tcp_ok (n : nat) (w : Tcp) (rs : Results) : Prop :=
  exists U Q R, near_ok n (frames w) rs (near w) (lines_served w) U
    /\ far_ok (frames w) rs (far w) (lines_received w) (broken w) Q R
    /\ books (frames w) rs (near w) (broken w) U Q R.

(** a step takes the calls that it executes on the session in this process, and keeps the invariant *)
Definition good_act (n : nat) (w : Tcp) (a : tcp_act) (rs : Results) : Prop :=
  exists w' rs', tcp_step sent w a = Some w'
    /\ replay sent s (endpoint (far w)) rs (executes w a ++ removes w w') = Some (endpoint (far w'), rs')
    /\ tcp_ok n w' rs'.

Lemma removes_same w w' : far w' = far w -> removes w w' = [].
Proof. intros E. unfold removes. rewrite E. by destruct (reading_lines (far w)). Qed.

(** a step of the client *)
Lemma good_near n w a rs w' : tcp_step sent w a = Some w' -> executes w a = [] -> far w' = far w ->
  tcp_ok n w' rs -> good_act n w a rs.
Proof. intros H1 H2 H3 H4. exists w', rs. rewrite H2, removes_same, H3 by done. done. Qed.

Lemma Forall2_elem_r {A B} (P : A -> B -> Prop) l k b : Forall2 P l k -> b ∈ k -> exists a, a ∈ l /\ P a b.
Proof.
  intros H [i Hi]%list_elem_of_lookup. destruct (Forall2_lookup_r _ _ _ _ _ H Hi) as (a & Ha & Hp).
  exists a. split; [by eapply list_elem_of_lookup_2|done].
Qed.

(** the frames of written calls are kept *)
Definition frames_kept (F F' : gmap nat Frame) : Prop :=
  forall k o, F !! k = Some (mkFrame o Written) -> F' !! k = Some (mkFrame o Written).

Lemma asks_kept F F' l U : frames_kept F F' -> Forall2 (asks F) l U -> Forall2 (asks F') l U.
Proof. intros HF H. eapply Forall2_impl; [exact H|]. intros line k (o & Ho & ->). exists o. auto. Qed.

Lemma far_kept F F' rs rs' srv rcvd brk Q R : frames_kept F F' -> (forall k x, rs !! k = Some x -> rs' !! k = Some x) ->
  far_ok F rs srv rcvd brk Q R -> far_ok F' rs' srv rcvd brk Q R.
Proof.
  intros HF Hrs [H1 H2 H3 H4 H5 H6 H7]. split; try done.
  - eapply Forall2_impl; [exact H4|]. intros tr k [Hk ->]. split; auto.
  - eapply Forall2_impl; [exact H7|]. intros line k (o & v & x & Hk & Hl & Hp & Ht & Hx & Hm).
    exists o, v, x. auto 10.
Qed.

(** a call that waits at the server was written *)
Lemma unserved_written F l U reqs Q k : Forall2 (asks F) l U -> Forall2 (awaits F) reqs Q -> k ∈ U ++ Q ->
  exists o, F !! k = Some (mkFrame o Written).
Proof.
  intros HU HQ [Hk|Hk]%elem_of_app.
  - destruct (Forall2_elem_r _ _ _ _ HU Hk) as (line & _ & o & Ho & _). eauto.
  - destruct (Forall2_elem_r _ _ _ _ HQ Hk) as (tr & _ & Ho & _). eauto.
Qed.

(** ** Lemmas: the steps of the client *)

Lemma call_tid_calls c : cl_inv c -> Z.of_nat (length (calls c)) + 1 < 2 ^ 64 -> exists c', call_tid c = Some c'
  /\ calls c' = calls c ++ [mkCall (Z.of_nat (length (calls c)) + 1) Issued] /\ stream c' = stream c /\ cl_inv c'
  /\ rpc_closed c' = rpc_closed c.
Proof.
  intros Hi Hn. destruct (cl_step_inv c ClTid Hi) as (c' & H1 & H2 & _); [done|]. cbn in H1.
  exists c'. split; [done|]. unfold call_tid in H1. rewrite (inv_next c Hi), (proj2 (Z.ltb_lt _ _)) in H1 by done.
  by injection H1 as <-.
Qed.

Lemma good_call n w rs o : tcp_ok (S n) w rs -> is_call o = true -> wf_op sent o -> good_act n w (TcpCall o) rs.
Proof.
  intros (U & Q & R & Hn & Hf & Hb) Ho Hwf. pose proof Hn as [H1 H2 H3 H4 H5 H6 H7 H8 H9].
  destruct (call_tid_calls (near w) H1 ltac:(lia)) as (c & Hc & Hcalls & Hstream & Hi & Hcl).
  set (m := length (calls (near w))) in *. set (F := <[m := mkFrame o Unwritten]> (frames w)).
  assert (forall j, j <> m -> F !! j = frames w !! j) as HF by (intros j Hj; by apply lookup_insert_ne).
  assert (frames_kept (frames w) F) as Hkept.
  { intros j o' Hj. rewrite HF; [done|]. intros ->. apply H3 in Hj as [? _]. lia. }
  assert (forall j t p f, calls c !! j = Some (mkCall t p) -> F !! j = Some f -> p <> Issued ->
    calls (near w) !! j = Some (mkCall t p) /\ frames w !! j = Some f) as Hold.
  { intros j t p f Hj Hjf Hp. rewrite Hcalls in Hj. apply lookup_snoc_Some in Hj as [[Hlt Hj]|[-> [=]]]; [|congruence].
    split; [done|]. by rewrite <- HF by lia. }
  apply (good_near _ _ _ _ (with_frame m (mkFrame o Unwritten) (with_near c w))); [cbn; by rewrite Hc|done..|].
  exists U, Q, R. split; [|split].
  - split; cbn [with_frame with_near frames near lines_served]; fold F; try done.
    + rewrite Hcalls, length_app. cbn. lia.
    + intros k f Hk. rewrite Hcalls, length_app. cbn. destruct (decide (k = m)) as [->|Hne].
      * unfold F in Hk. rewrite lookup_insert_eq in Hk. injection Hk as <-. split; [lia|done].
      * rewrite HF in Hk by done. destruct (H3 k f Hk) as (? & ? & ?). split; [lia|done].
    + by rewrite Hstream.
    + rewrite Hstream. by eapply asks_kept.
    + intros k t v f Hk Hkf. destruct (Hold _ _ _ _ Hk Hkf) as [??]; [done|]. by eapply H6.
    + intros k t err f Hk Hkf. destruct (Hold _ _ _ _ Hk Hkf) as [??]; [done|]. rewrite Hcl. by eapply H7.
    + intros k t f Hk Hkf. rewrite Hcalls in Hk. apply lookup_snoc_Some in Hk as [[Hlt Hk]|[-> _]].
      * rewrite HF in Hkf by lia. by eapply H8.
      * unfold F in Hkf. rewrite lookup_insert_eq in Hkf. by injection Hkf as <-.
    + intros k t f Hk Hkf. destruct (Hold _ _ _ _ Hk Hkf) as [??]; [done|]. rewrite Hcl. by eapply H9.
  - by eapply far_kept.
  - destruct Hb as [G1 G2 G3 G4]. split; cbn [with_frame with_near frames near broken]; fold F; try done.
    + intros k x Hk. destruct (G3 k x Hk) as (o' & Ho'). eauto.
    + intros k t o' Hk Hkf. destruct (Hold _ _ _ _ Hk Hkf) as [??]; [done|]. by eapply G4.
Qed.

(** a step of the client that changes the calls: the changes give no result *)
Lemma good_calls n w a rs c : tcp_ok n w rs -> tcp_step sent w a = Some (with_near c w) -> executes w a = [] ->
  cl_inv c -> length (calls c) = length (calls (near w)) -> stream c = stream (near w) ->
  (forall k t p f, frames w !! k = Some f -> calls c !! k = Some (mkCall t p) -> calls (near w) !! k = Some (mkCall t p)
     \/ ((p = Disconnected \/ p = Failed connection_closed) /\ rpc_closed c = true)
     \/ (p = Waiting /\ f_progress f = Unwritten)) ->
  (rpc_closed (near w) = true -> rpc_closed c = true) ->
  good_act n w a rs.
Proof.
  intros (U & Q & R & [H1 H2 H3 H4 H5 H6 H7 H8 H9] & Hf & [G1 G2 G3 G4]) Hstep Hex Hi Hlen Hstr Hold Hmon.
  apply (good_near _ _ _ _ _ Hstep Hex); [done|]. exists U, Q, R. split; [|split; [done|]].
  - split; cbn [with_near frames near lines_served]; rewrite ?Hlen, ?Hstr; try done.
    + intros k t v f Hk Hkf. destruct (Hold _ _ _ _ Hkf Hk) as [?|[[[?|?] _]|[? _]]]; [by eapply H6|done..].
    + intros k t err f Hk Hkf. destruct (Hold _ _ _ _ Hkf Hk) as [Hk'|[[[?|[= <-]] ?]|[? _]]]; [|done|by left|done].
      destruct (H7 _ _ _ _ Hk' Hkf) as [[? ?]|?]; auto.
    + intros k t f Hk Hkf. destruct (Hold _ _ _ _ Hkf Hk) as [?|[[[?|?] _]|[? _]]]; [by eapply H8|done..].
    + intros k t f Hk Hkf. destruct (Hold _ _ _ _ Hkf Hk) as [?|[[_ ?]|[? _]]]; [|done..]. by eapply Hmon, H9.
  - split; cbn [with_near frames near broken]; try done.
    intros k t o Hk Hkf. destruct (Hold _ _ _ _ Hkf Hk) as [?|[[[?|?] _]|[_ ?]]]; [by eapply G4|done..].
Qed.

Lemma register_keeps k c : stream (call_register k c) = stream c /\ rpc_closed (call_register k c) = rpc_closed c.
Proof.
  unfold call_register. destruct (calls c !! k) as [[t []]|]; try done. destruct (rpc_closed c) eqn:E; cbn; by rewrite E.
Qed.

Lemma good_register n w rs k : tcp_ok n w rs -> good_act n w (TcpRegister k) rs.
Proof.
  intros Hok. pose proof Hok as (U & Q & R & Hn & _). pose proof (n_inv _ _ _ _ _ _ Hn) as Hi.
  pose proof (register_write_line_length (near w) k [] JNull None []) as [Hlen _].
  apply (good_calls n w _ rs (call_register k (near w)) Hok); [done|done|by apply call_register_inv|done| | |].
  1,3: by rewrite ?(proj1 (register_keeps k (near w))), ?(proj2 (register_keeps k (near w))).
  intros j t p f Hf Hj. unfold call_register in Hj. destruct (calls (near w) !! k) as [[t' []]|] eqn:Hk; try by left.
  pose proof (inv_not_waiting _ k _ Hi Hk) as Hw. cbn in Hw. rewrite Hw in Hj by done.
  assert (calls (near w) !! j = Some (mkCall t p)
    \/ (j = k /\ ((p = Failed connection_closed /\ rpc_closed (call_register k (near w)) = true) \/ p = Waiting)))
    as [?|[-> [[-> ?]| ->]]]; [|by left|by auto|].
  { rewrite (proj2 (register_keeps k (near w))). destruct (rpc_closed (near w)) eqn:Hcl; cbn in Hj; rewrite set_phase_lookup in Hj; case_bool_decide; auto; subst;
      rewrite Hk in Hj; cbn in Hj; injection Hj as <- <-; auto. }
  right. right. split; [done|]. by apply (n_issued _ _ _ _ _ _ Hn k t' f).
Qed.

Lemma good_end n w rs : tcp_ok n w rs -> good_act n w TcpEnd rs.
Proof.
  intros Hok. pose proof Hok as (U & Q & R & Hn & _). pose proof (n_inv _ _ _ _ _ _ Hn) as Hi.
  apply (good_calls n w _ rs (reader_end (near w)) Hok); [done|done|by apply reader_end_inv|by apply reader_end_length|done| |done].
  intros j t p f Hf Hj. destruct (reader_end_calls _ _ _ _ Hi Hj) as (_ & q & Hq & [->| ->]); auto 6.
Qed.

(** what a write does to the calls, in the phases in which a call writes *)
Lemma write_calls c k t p g ps failed (c' := call_write k g ps failed c) : cl_inv c ->
  Z.of_nat (length (calls c)) < 2 ^ 64 -> calls c !! k = Some (mkCall t p) -> p <> Issued -> (forall err, p <> Failed err) ->
  cl_inv c' /\ length (calls c') = length (calls c) /\ rpc_closed c' = rpc_closed c
  /\ stream c' = stream c ++ (match failed with None => [to_string (request t g ps)] | Some _ => [] end)
  /\ forall j t q, calls c' !! j = Some (mkCall t q) ->
       calls c !! j = Some (mkCall t q) \/ (j = k /\ exists err, failed = Some err /\ q = Failed err).
Proof.
  intros Hi Hn Hk Hp Hnf. destruct (cl_step_inv c (ClWrite k g ps failed) Hi) as (c2 & Hc2 & Hi2 & Hl).
  { change (ids_taken _) with 0%nat. lia. }
  cbn [cl_step] in Hc2. rewrite Hk in Hc2. change (ids_taken _) with 0%nat in Hl. rewrite Nat.add_0_r in Hl.
  assert (c2 = c') as -> by (destruct p; cbn in Hc2; try done; [| | |by destruct (Hnf err)]; by injection Hc2 as <-).
  do 2 (split; [done|]). unfold c', call_write. rewrite Hk. destruct failed as [err|]; cbn; (split; [done|]).
  - rewrite app_nil_r. split; [done|]. intros j t' q Hj. rewrite set_phase_lookup in Hj.
    case_bool_decide; [|by left]. subst. rewrite Hk in Hj. injection Hj as _ <-. right. eauto.
  - split; [done|]. auto.
Qed.

Lemma write_near n F rs c served U k o t p failed : near_ok n F rs c served U ->
  F !! k = Some (mkFrame o Unwritten) -> calls c !! k = Some (mkCall t p) -> p <> Issued -> (forall err, p <> Failed err) ->
  near_ok n (<[k := mkFrame o (write_progress failed)]> F) rs (call_write k (op_function o) (JArray (op_params o)) failed c) served
    (U ++ match failed with None => [k] | Some _ => [] end).
Proof.
  intros [H1 H2 H3 H4 H5 H6 H7 H8 H9] Ho Hk Hp Hnf. pose proof (inv_tid _ H1 _ _ Hk) as Ht. cbn in Ht.
  destruct (write_calls c k t p (op_function o) (JArray (op_params o)) failed H1 ltac:(lia) Hk Hp Hnf)
    as (Hi & Hlen & Hcl & Hstr & Hold).
  set (c' := call_write _ _ _ _ _) in *. set (f := mkFrame o (write_progress failed)).
  assert (forall j f', <[k := f]> F !! j = Some f' -> (j = k /\ f' = f) \/ (j <> k /\ F !! j = Some f')) as HF.
  { intros j f' [[<- <-]|[? ?]]%lookup_insert_Some; auto. }
  split; try done.
  - by rewrite Hlen.
  - intros j f' [[-> ->]|[_ ?]]%HF; rewrite Hlen; [apply (H3 k _ Ho)|by apply H3].
  - rewrite Hstr, length_app. lia.
  - rewrite Hstr, drop_app_le by done. apply Forall2_app.
    + eapply asks_kept; [|exact H5]. intros j o' Hj. rewrite lookup_insert_ne; [done|]. congruence.
    + destruct failed; constructor; [|constructor]. exists o. split; [apply lookup_insert_eq|]. by rewrite Ht.
  - intros j t' v f' Hj Hjf. destruct (Hold _ _ _ Hj) as [Hj'|[_ (? & _ & ?)]]; [|done].
    destruct (HF _ _ Hjf) as [[-> ->]|[_ ?]]; [apply (H6 k t' v _ Hj' Ho)|by eapply H6].
  - intros j t' err f' Hj [[-> ->]|[Hne ?]]%HF; destruct (Hold _ _ _ Hj) as [Hj'|[? (? & -> & [= <-])]]; try done.
    + rewrite Hk in Hj'. injection Hj' as _ ->. by destruct (Hnf err).
    + by right.
    + rewrite Hcl. by eapply H7.
  - intros j t' f' Hj [[-> ->]|[Hne ?]]%HF; destruct (Hold _ _ _ Hj) as [Hj'|[? (? & -> & ?)]]; try done; [congruence|].
    by eapply H8.
  - intros j t' f' Hj [[-> ->]|[Hne ?]]%HF; destruct (Hold _ _ _ Hj) as [Hj'|[? (? & -> & ?)]]; try done; rewrite Hcl;
      [apply (H9 k t' _ Hj' Ho)|by eapply H9].
Qed.

(** the call is written, or its write fails *)
Lemma good_write n w rs k failed : tcp_ok n w rs -> good_act n w (TcpWrite k failed) rs.
Proof.
  intros (U & Q & R & Hn & Hf & Hb).
  assert (tcp_write k failed w = w \/ exists o t p, frames w !! k = Some (mkFrame o Unwritten)
    /\ calls (near w) !! k = Some (mkCall t p) /\ p <> Issued /\ (forall err, p <> Failed err)
    /\ tcp_write k failed w = with_frame k (mkFrame o (write_progress failed))
           (with_near (call_write k (op_function o) (JArray (op_params o)) failed (near w)) w))
    as [Hid|(o & t & p & Ho & Hk & Hp & Hnf & Hw)].
  { unfold tcp_write. destruct (frames w !! k) as [[o []]|]; auto.
    destruct (calls (near w) !! k) as [[t []]|]; auto; right; do 3 eexists; done. }
  { apply (good_near _ _ _ _ w); [cbn; by rewrite Hid|done..|by exists U, Q, R]. }
  pose proof (write_near _ _ _ _ _ _ _ _ _ _ failed Hn Ho Hk Hp Hnf) as Hn'.
  destruct (write_calls (near w) k t p (op_function o) (JArray (op_params o)) failed (n_inv _ _ _ _ _ _ Hn)
    ltac:(pose proof (n_room _ _ _ _ _ _ Hn); lia) Hk Hp Hnf) as (_ & _ & _ & _ & Hold).
  eapply good_near; [exact (f_equal Some Hw)|done..|]. destruct Hb as [G1 G2 G3 G4].
  assert (k ∉ U ++ Q) as HkUQ.
  { intros Hin. destruct (unserved_written _ _ _ _ _ _ (n_lines _ _ _ _ _ _ Hn) (f_queue _ _ _ _ _ _ _ Hf) Hin).
    congruence. }
  assert (rs !! k = None) as Hrk by (destruct (rs !! k) eqn:Hx; [destruct (G3 _ _ Hx); congruence|done]).
  assert (frames_kept (frames w) (<[k := mkFrame o (write_progress failed)]> (frames w))) as Hkept.
  { intros j o' Hj. rewrite lookup_insert_ne; [done|]. congruence. }
  exists (U ++ match failed with None => [k] | Some _ => [] end), Q, R. split; [done|]. split; [by eapply far_kept|].
  split; cbn [with_frame with_near frames near broken].
  - destruct failed; [by rewrite app_nil_r|]. rewrite <- app_assoc. cbn. rewrite <- Permutation_middle. by constructor.
  - intros j Hj. destruct (decide (j = k)) as [->|Hne]; [done|]. apply G2.
    rewrite <- app_assoc, !elem_of_app in Hj. rewrite elem_of_app. destruct Hj as [?|[Hj|?]]; auto.
    destruct failed; [by apply elem_of_nil in Hj|by apply list_elem_of_singleton in Hj].
  - intros j x Hj. destruct (G3 j x Hj) as (o' & Ho'). eauto.
  - intros j t' o' Hj [[<- Hjf]|[Hne Hjf]]%lookup_insert_Some.
    + left. destruct failed; [done|]. rewrite <- app_assoc, elem_of_app. right. by left.
    + destruct (Hold _ _ _ Hj) as [Hj'|[? _]]; [|congruence].
      destruct (G4 _ _ _ Hj' Hjf) as [Hx|?]; [left|by right]. rewrite !elem_of_app in *. tauto.
Qed.

(** the response to call [k] goes to call [k], if that still waits *)
Lemma read_calls c k v : cl_inv c -> Z.of_nat (length (calls c)) < 2 ^ 64 -> printable v ->
  response_tid v = Some (Z.of_nat k + 1) ->
  exists c', cl_step c (ClLine (to_string v)) = Some c' /\ cl_inv c' /\ length (calls c') = length (calls c)
    /\ stream c' = stream c /\ rpc_closed c' = rpc_closed c
    /\ forall j t p, calls c' !! j = Some (mkCall t p) ->
         (calls c !! j = Some (mkCall t p) /\ (p = Waiting -> j <> k)) \/ (j = k /\ p = Answered v).
Proof.
  intros Hi Hn Hv Ht. destruct (cl_step_inv c (ClLine (to_string v)) Hi) as (c' & Hc' & Hi' & Hl).
  { change (ids_taken _) with 0%nat. lia. }
  change (ids_taken _) with 0%nat in Hl. rewrite Nat.add_0_r in Hl.
  exists c'. do 3 (split; [done|]). cbn [cl_step] in Hc'.
  assert (forall j t, calls c !! j = Some (mkCall t Waiting) -> waiting c !! (Z.of_nat j + 1) = Some j) as Hw.
  { intros j t Hj. pose proof (inv_tid c Hi _ _ Hj) as Hjt. cbn in Hjt. apply (inv_waiting c Hi). by rewrite <- Hjt. }
  destruct (rpc_closed c) eqn:Hcl.
  { injection Hc' as <-. do 2 (split; [done|]). intros j t p Hj. left. split; [done|]. intros ->.
    specialize (Hw j t Hj). by rewrite (inv_closed c Hi Hcl) in Hw. }
  unfold reader_line in Hc'. rewrite from_str_to_string, Ht in Hc' by done. cbn [mbind option_bind] in Hc'.
  destruct (waiting c !! (Z.of_nat k + 1)) as [k'|] eqn:Hk; cbn in Hc'; injection Hc' as <-; do 2 (split; [done|]).
  - apply (inv_waiting c Hi) in Hk as [Hkk Hk]. assert (k' = k) as -> by lia. intros j t p Hj. cbn in Hj.
    rewrite set_phase_lookup in Hj. case_bool_decide; subst; [|by left].
    rewrite Hk in Hj. injection Hj as _ <-. by right.
  - intros j t p Hj. left. split; [done|]. intros -> ->. specialize (Hw k t Hj). congruence.
Qed.

Lemma good_read n w rs : tcp_ok n w rs -> good_act n w TcpRead rs.
Proof.
  intros (U & Q & R & Hn & Hf & Hb). pose proof Hn as [H1 H2 H3 H4 H5 H6 H7 H8 H9].
  destruct (written (far w) !! lines_received w) as [line|] eqn:Hline.
  2: { apply (good_near _ _ _ _ w); [cbn; unfold tcp_read; by rewrite Hline|done..|by exists U, Q, R]. }
  destruct Hf as [F1 F2 F3 F4 F5 F6 F7]. rewrite (drop_S _ _ _ Hline) in F7.
  apply Forall2_cons_inv_l in F7 as (k & R' & (o & v & x & Ho & -> & Hp & Ht & Hx & Hm) & F7 & ->).
  destruct (read_calls (near w) k v H1 ltac:(lia) Hp Ht) as (c & Hc & Hi & Hlen & Hstr & Hcl & Hold).
  eapply good_near; [cbn; unfold tcp_read; by rewrite Hline, Hc|done..|].
  exists U, Q, R'. split; [|split].
  - split; cbn [frames near lines_served]; rewrite ?Hlen, ?Hstr, ?Hcl; try done.
    + intros j t v' f Hj Hjf. destruct (Hold _ _ _ Hj) as [[? _]|[-> [= ->]]]; [by eapply H6|].
      rewrite Ho in Hjf. injection Hjf as <-. eauto.
    + intros j t err f Hj Hjf. destruct (Hold _ _ _ Hj) as [[? _]|[_ ?]]; [by eapply H7|done].
    + intros j t f Hj Hjf. destruct (Hold _ _ _ Hj) as [[? _]|[_ ?]]; [by eapply H8|done].
    + intros j t f Hj Hjf. destruct (Hold _ _ _ Hj) as [[? _]|[_ ?]]; [by eapply H9|done].
  - split; cbn [frames far lines_received broken]; try done. by apply lookup_lt_Some in Hline.
  - destruct Hb as [G1 G2 G3 G4]. split; cbn [frames near broken]; try done.
    intros j t o' Hj Hjf. destruct (Hold _ _ _ Hj) as [[Hj' Hne]|[_ ?]]; [|done]. specialize (Hne eq_refl).
    destruct (G4 _ _ _ Hj' Hjf) as [Hin|?]; [left|by right]. rewrite !elem_of_app, ?elem_of_cons in *. tauto.
Qed.

(** ** Lemmas: the steps of the server *)

Lemma in_process_env o e : in_process sent s (OpOther o) e = (Some (Ok RUnit), ep_step e o).
Proof. done. Qed.

(** what another client does to the endpoint keeps the server *)
Lemma far_env F rs srv rcvd brk Q R o reading : far_ok F rs srv rcvd brk Q R -> wf_op sent (OpOther o) ->
  far_ok F rs (mkConnection (handler srv) (ep_step (endpoint srv) o) reading (written srv)) rcvd brk Q R.
Proof.
  intros [F1 F2 F3 F4 F5 F6 F7] Hwf. split; try done.
  - by apply (handler_ok_run _ _ [o]).
  - pose proof (in_process_bytes sent s (OpOther o) (endpoint srv) (handler_ep _ _ F1) (handler_session _ _ F1 _ F2) Hwf F3).
    by rewrite in_process_env in H.
Qed.

Lemma end_client_env srv : session (handler srv) = Some s ->
  end_client srv = mkConnection (handler srv) (ep_step (endpoint srv) (DoRemove s)) false (written srv).
Proof. intros Hs. unfold end_client. by rewrite Hs. Qed.

Lemma good_other n w rs o : tcp_ok n w rs -> wf_op sent (OpOther o) -> good_act n w (TcpOther o) rs.
Proof.
  intros (U & Q & R & Hn & Hf & Hb) Hwf. eexists _, rs. split; [done|]. split.
  - unfold removes. cbn. by destruct (reading_lines (far w)).
  - exists U, Q, R. split; [done|]. split; [|done]. by apply far_env.
Qed.

Lemma good_eof n w rs : tcp_ok n w rs -> good_act n w TcpEof rs.
Proof.
  intros (U & Q & R & Hn & Hf & Hb). eexists _, rs. split; [done|]. unfold removes. cbn [executes with_far far].
  destruct (reading_lines (far w)) eqn:Hr; cbn [andb].
  - rewrite (f_session _ _ _ _ _ _ _ Hf), end_client_env by apply Hf. split; [done|].
    exists U, Q, R. split; [done|]. split; [|done]. by apply far_env.
  - split; [done|]. by exists U, Q, R.
Qed.

Lemma good_break n w rs : tcp_ok n w rs -> good_act n w TcpBreak rs.
Proof.
  intros (U & Q & R & Hn & [F1 F2 F3 F4 F5 F6 F7] & [G1 G2 G3 G4]). eapply good_near; [done..|].
  exists U, Q, R. split; [done|]. split; split; try done. by right.
Qed.

Ltac in_lists := rewrite ?elem_of_app, ?elem_of_cons, ?elem_of_nil; tauto.

(** calls move on *)
Lemma books_change F rs c brk U Q R U' Q' R' : books F rs c brk U Q R -> NoDup (U' ++ Q') ->
  (forall j, j ∈ U' ++ Q' -> j ∈ U ++ Q) -> brk = true \/ (forall j, j ∈ U ++ Q ++ R -> j ∈ U' ++ Q' ++ R') ->
  books F rs c brk U' Q' R'.
Proof.
  intros [G1 G2 G3 G4] Hnd Hsub Hall. split; auto. intros k t o Hk Hkf.
  destruct Hall as [?|Hall]; [by right|]. destruct (G4 k t o Hk Hkf); auto.
Qed.

(** a call takes effect *)
Lemma books_execute F rs c brk U Q R k o x : books F rs c brk U Q R -> F !! k = Some (mkFrame o Written) ->
  k ∉ U ++ Q -> books F (<[k := x]> rs) c brk U Q R.
Proof.
  intros [G1 G2 G3 G4] Hk Hnot. split; try done.
  - intros j Hj. rewrite lookup_insert_ne; [by apply G2|]. congruence.
  - intros j y [[<- _]|[_ Hj]]%lookup_insert_Some; eauto.
Qed.

Lemma near_execute n F rs c served U k x : near_ok n F rs c served U -> rs !! k = None ->
  near_ok n F (<[k := x]> rs) c served U.
Proof.
  intros [H1 H2 H3 H4 H5 H6 H7 H8 H9] Hk. split; try done.
  intros j t v f Hj Hjf. destruct (H6 j t v f Hj Hjf) as (y & Hy & Hm). exists y.
  rewrite lookup_insert_ne; [done|]. congruence.
Qed.

Lemma far_execute F rs srv rcvd brk Q R k x : far_ok F rs srv rcvd brk Q R -> rs !! k = None ->
  far_ok F (<[k := x]> rs) srv rcvd brk Q R.
Proof.
  intros Hf Hk. apply (far_kept F F rs); [by intros ? ?| |done]. intros j y Hj. rewrite lookup_insert_ne; [done|]. congruence.
Qed.

(** the response to call [k] is written *)
Lemma far_send F rs srv rcvd brk Q R k o v x : far_ok F rs srv rcvd brk Q R -> F !! k = Some (mkFrame o Written) ->
  printable v -> response_tid v = Some (Z.of_nat k + 1) -> rs !! k = Some x -> tells_result o v x ->
  far_ok F rs (send_line v srv) rcvd brk Q (R ++ [k]).
Proof.
  intros [F1 F2 F3 F4 F5 F6 F7] Hk Hp Ht Hx Hm. split; try done; cbn [send_line written].
  - rewrite length_app. lia.
  - rewrite drop_app_le by done. apply Forall2_app; [done|]. constructor; [|constructor]. by exists o, v, x.
Qed.

(** ** Lemmas: the calls that take effect *)

Lemma call_in_u n F rs c served U k f : near_ok n F rs c served U -> F !! k = Some f -> in_u 64 (Z.of_nat k + 1).
Proof. intros Hn Hk. destruct (n_frames _ _ _ _ _ _ Hn k f Hk) as [? _]. pose proof (n_room _ _ _ _ _ _ Hn). unfold in_u. lia. Qed.

Lemma numbered_call k : numbered (Z.of_nat k + 1) = k.
Proof. unfold numbered. lia. Qed.

(** the server after the pump took a packet *)
Lemma far_pumped F rs srv rcvd brk Q R trace rest k y e' : far_ok F rs srv rcvd brk (k :: Q) R ->
  next_packet_requests (handler srv) = Some (mkPump s (trace :: rest) true) ->
  conn_get_next_packet s (endpoint srv) = (Some y, e') ->
  far_ok F rs (mkConnection (mkHandler (session (handler srv)) (Some (mkPump s rest (negb brk)))) e'
                 (reading_lines srv) (written srv)) rcvd brk (if brk then [] else Q) R.
Proof.
  intros [F1 F2 F3 F4 F5 F6 F7] Hp Hr. pose proof (handler_session _ _ F1 _ F2) as Hlt.
  destruct (conn_steps s [] [] [] (endpoint srv) Hlt) as (_ & Hstep & _). rewrite Hr in Hstep. cbn in Hstep.
  pose proof (in_process_bytes sent s OpNext (endpoint srv) (handler_ep _ _ F1) Hlt I F3) as Hb.
  cbn in Hb. rewrite Hr in Hb. split; try done.
  - destruct (handler_ok_run _ _ [DoTake s] F1) as [G1 G2 G3]. unfold connection_ok. cbn [handler endpoint].
    rewrite Hstep. split; [done|by apply G2|]. by intros p [= <-].
  - unfold live_requests in *. rewrite Hp in F4. cbn in *. apply Forall2_cons_1 in F4 as [_ F4]. by destruct brk.
  - intros p [= <-] Hb'. by destruct brk.
Qed.

(** the pump takes a packet for the call that waits longest *)
Lemma good_pump n w rs : tcp_ok n w rs -> good_act n w TcpPump rs.
Proof.
  intros (U & Q & R & Hn & Hf & Hb). pose proof Hf as [F1 F2 F3 F4 F5 F6 F7].
  assert (answered (far w) (SrvPump (negb (broken w))) = [] -> pump_turn (negb (broken w)) (far w) = far w ->
    good_act n w TcpPump rs) as Hidle.
  { intros Ha Hp. apply (good_near _ _ _ _ (with_far (far w) w)); [cbn [tcp_step srv_step]; by rewrite Hp| |done|by exists U, Q, R].
    cbn [executes]. by rewrite Ha. }
  unfold answered, pump_turn in Hidle. unfold live_requests in F4.
  destruct (next_packet_requests (handler (far w))) as [[s' [|trace rest] []]|] eqn:Hpump; try by apply Hidle.
  pose proof (handler_pump _ _ F1 _ Hpump) as Hs. rewrite F2 in Hs. cbn in Hs. injection Hs as <-. cbn in F4.
  apply Forall2_cons_inv_l in F4 as (k & Q' & [Hk ->] & F4 & ->).
  pose proof (handler_session _ _ F1 _ F2) as Hlt.
  destruct (conn_get_next_packet s (endpoint (far w))) as [[y|] e'] eqn:Hr; [|by apply Hidle]. clear Hidle.
  pose proof (call_in_u _ _ _ _ _ _ _ _ Hn Hk) as Ht. pose proof (next_sendable s _ _ _ Hlt Hr) as Hy.
  destruct (respond_sendable _ _ Ht Hy) as (v & Hv & Hp & Hvt & Hvr).
  set (x := (p ← y; Ok (RPacket p)) : res str conn_value).
  assert (tells_result OpNext v x) as Hm.
  { unfold tells_result. rewrite Hvr. apply (next_value s (endpoint (far w)) y e' F3 Hr). by intros ->. }
  set (c1 := mkConnection (mkHandler (session (handler (far w))) (Some (mkPump s rest (negb (broken w))))) e'
               (reading_lines (far w)) (written (far w))).
  assert (pump_turn (negb (broken w)) (far w) = if broken w then c1 else send_line v c1) as Hturn.
  { unfold pump_turn. rewrite Hpump, Hr. fold c1. destruct y as [p|m|]; cbn [respond next_answer] in Hv; [..|done]; injection Hv as <-;
      by destruct (broken w). }
  assert (k ∉ U ++ Q' /\ NoDup (U ++ Q')) as [Hnot Hnd].
  { apply NoDup_cons. rewrite Permutation_middle. apply Hb. }
  assert (rs !! k = None) as Hrk by (apply Hb, elem_of_app; right; by left).
  exists (with_far (pump_turn (negb (broken w)) (far w)) w), (<[k := x]> rs). split; [done|]. split.
  - cbn [executes answered]. rewrite Hpump, Hr. cbn [fst]. rewrite parse_u64_show, numbered_call by done.
    unfold removes. cbn [with_far far]. rewrite Hturn. cbn [app replay]. rewrite Hrk. cbn [in_process]. rewrite Hr.
    cbn [fmap option_fmap option_map]. fold x. by destruct (broken w), (reading_lines (far w)).
  - pose proof (far_execute _ _ _ _ _ _ _ k x (far_pumped _ _ _ _ _ _ _ _ _ _ _ _ Hf Hpump Hr) Hrk) as Hf'. fold c1 in Hf'.
    rewrite Hturn. exists U, (if broken w then [] else Q'), (if broken w then R else R ++ [k]).
    split; [by apply near_execute|]. split.
    + cbn [with_far far frames lines_received broken]. destruct (broken w); [done|].
      eapply far_send; [done..|apply lookup_insert_eq|done].
    + eapply books_execute; [eapply books_change; [exact Hb|..]|exact Hk|]; cbn [with_far broken]; destruct (broken w).
      * rewrite app_nil_r. by apply NoDup_app in Hnd as [? _].
      * done.
      * intros j. rewrite app_nil_r, !elem_of_app. auto.
      * intros j; in_lists.
      * by left.
      * right. intros j; in_lists.
      * rewrite app_nil_r. intros ?. apply Hnot, elem_of_app. by left.
      * done.
Qed.

(** the line of a request names its call *)
Lemma line_call_request k o : in_u 64 (Z.of_nat k + 1) -> is_call o = true -> wf_op sent o ->
  printable (request (Z.of_nat k + 1) (op_function o) (JArray (op_params o)))
  /\ line_call (request_line k o) = Some k.
Proof.
  intros Ht Hc Hwf. destruct (op_call_printable o sent Hwf Hc) as (Hf & Hps & _).
  pose proof (request_printable _ _ _ Ht Hf Hps) as Hp. split; [done|].
  unfold line_call, request_line. rewrite from_str_to_string by done. cbn [mbind option_bind].
  replace (response_tid _) with (Some (Z.of_nat k + 1)); [cbn [mbind option_bind]; by rewrite numbered_call|].
  rewrite request_object. reflexivity.
Qed.

(** the client after the server read the line of call [k] *)
Lemma near_served n F rs c served k U : near_ok n F rs c served (k :: U) -> (served < length (stream c))%nat ->
  near_ok n F rs c (S served) U.
Proof.
  intros [H1 H2 H3 H4 H5 H6 H7 H8 H9] Hlt. split; try done.
  destruct (lookup_lt_is_Some_2 _ _ Hlt) as [line Hline]. rewrite (drop_S _ _ _ Hline) in H5.
  by apply Forall2_cons_1 in H5 as [_ ?].
Qed.

(** the server runs the function of a call and writes its response, or ends when it cannot *)
Lemma serve_now F rs srv rcvd brk Q R k o : far_ok F rs srv rcvd brk Q R -> F !! k = Some (mkFrame o Written) ->
  rs !! k = None -> in_u 64 (Z.of_nat k + 1) -> is_call o = true -> wf_op sent o -> o <> OpNext ->
  exists x e' srv' R', serve_line sent (negb brk) (request_line k o) srv = Some srv'
    /\ in_process sent s o (endpoint srv) = (Some x, e')
    /\ far_ok F (<[k := x]> rs) srv' rcvd brk Q R' /\ (brk = true \/ R' = R ++ [k])
    /\ reading_lines srv' = reading_lines srv && negb brk
    /\ endpoint srv' = if brk then ep_step e' (DoRemove s) else e'.
Proof.
  intros Hf Hk Hrk Ht Hc Hwf Hne. pose proof Hf as [F1 F2 F3 F4 F5 F6 F7].
  pose proof (handler_session _ _ F1 _ F2) as Hlt.
  destruct (op_call_printable o sent Hwf Hc) as (_ & _ & Hnx). destruct (line_call_request k o Ht Hc Hwf) as [Hp _].
  destruct (op_served sent s o _ _ F2 Hlt Hwf Hne Hc) as (r & x & e' & Hrun & Hr & Hx & Heq).
  destruct (respond_sendable _ r Ht Hr) as (v & Hv & Hpv & Hvt & Hvr).
  set (c1 := mkConnection (handler srv) e' (reading_lines srv) (written srv)).
  assert (far_ok F (<[k := x]> rs) c1 rcvd brk Q R) as Hf1.
  { apply far_execute; [|done]. split; try done.
    - destruct (acts_function sent (op_function o) (op_params o) _ _ F1) as (out & h' & ops & Ha & Hb & _).
      rewrite Hrun in Ha. injection Ha as _ <- ->. done.
    - pose proof (in_process_bytes sent s o (endpoint srv) (handler_ep _ _ F1) Hlt Hwf F3) as Hb. by rewrite Hx in Hb. }
  exists x, e', (if brk then end_client c1 else send_line v c1), (if brk then R else R ++ [k]).
  split; [|split; [done|]].
  { unfold request_line. rewrite serve_request, handle_request, bool_decide_false, Hrun, Hv by (done || by auto).
    by destruct brk. }
  rewrite end_client_env by done. destruct brk.
  - split; [by apply (far_env _ _ c1)|]. rewrite andb_false_r. by split; [left|].
  - split; [|rewrite andb_true_r; by split; [right|]]. eapply far_send; [done..|apply lookup_insert_eq|].
    unfold tells_result. by rewrite Hvr.
Qed.

(** the server gives a [getNextPacket] to the pump, or ends when the pump is gone *)
Lemma serve_next F rs srv rcvd brk Q R k : far_ok F rs srv rcvd brk Q R -> F !! k = Some (mkFrame OpNext Written) ->
  in_u 64 (Z.of_nat k + 1) -> reading_lines srv = true ->
  exists srv' Q', serve_line sent (negb brk) (request_line k OpNext) srv = Some srv'
    /\ far_ok F rs srv' rcvd brk Q' R /\ (Q' = Q ++ [k] /\ reading_lines srv' = true /\ endpoint srv' = endpoint srv
      \/ Q' = Q /\ brk = true /\ reading_lines srv' = false /\ endpoint srv' = ep_step (endpoint srv) (DoRemove s)).
Proof.
  intros Hf Hk Ht Hread. pose proof Hf as [F1 F2 F3 F4 F5 F6 F7].
  destruct (line_call_request k OpNext Ht eq_refl I) as [Hp _].
  change (op_function OpNext) with $"getNextPacket" in Hp. change (op_params OpNext) with (@nil Json) in Hp.
  unfold request_line. change (op_function OpNext) with $"getNextPacket". change (op_params OpNext) with (@nil Json).
  rewrite serve_request, handle_request, bool_decide_true by done.
  unfold queue_next_packet, mbind, SM_bind, client_session. rewrite F2. unfold send_to_pump.
  set (pump := default (mkPump s [] true) (next_packet_requests (handler srv))).
  assert (pump_session pump = s) as Hps.
  { unfold pump. destruct (next_packet_requests (handler srv)) as [p|] eqn:Hn; [|done].
    pose proof (handler_pump _ _ F1 p Hn) as Hx. rewrite F2 in Hx. by injection Hx. }
  destruct (running pump) eqn:Hrun.
  - eexists _, (Q ++ [k]). split; [reflexivity|]. split; [|by left]. split; try done.
    + destruct F1 as [G1 G2 G3]. split; [done|exact G2|]. intros p [= <-]. cbn. by rewrite Hps.
    + assert (live_requests (handler srv) = requests pump) as Hlive.
      { unfold live_requests, pump in *. destruct (next_packet_requests (handler srv)); [|done]. cbn in *. by rewrite Hrun. }
      cbn. rewrite <- Hlive. apply Forall2_app; [done|]. constructor; [by split|constructor].
    + by intros p [= <-].
  - assert (brk = true) as ->.
    { unfold pump in Hrun. destruct (next_packet_requests (handler srv)) as [p|] eqn:Hn; [by apply (F5 p)|done]. }
    eexists _, Q. split; [reflexivity|]. rewrite end_client_env by done. split; [|by right].
    by apply (far_env _ _ (mkConnection (handler srv) (endpoint srv) (reading_lines srv) (written srv))).
Qed.

Lemma good_serve n w rs : tcp_ok n w rs -> good_act n w TcpServe rs.
Proof.
  intros (U & Q & R & Hn & Hf & Hb).
  assert (tcp_serve sent w = Some w -> executes w TcpServe = [] -> good_act n w TcpServe rs) as Hidle.
  { intros Hs Hx. apply (good_near _ _ _ _ w); [done..|by exists U, Q, R]. }
  unfold tcp_serve in Hidle. cbn [executes] in Hidle.
  destruct (reading_lines (far w)) eqn:Hread; [|apply Hidle; [by destruct (stream (near w) !! lines_served w)|done]].
  destruct (stream (near w) !! lines_served w) as [line|] eqn:Hline; [|by apply Hidle]. clear Hidle.
  pose proof (n_lines _ _ _ _ _ _ Hn) as HU. rewrite (drop_S _ _ _ Hline) in HU.
  apply Forall2_cons_inv_l in HU as (k & U' & (o & Hk & ->) & _ & ->).
  destruct (n_frames _ _ _ _ _ _ Hn k _ Hk) as (_ & Hc & Hwf). cbn in Hc, Hwf.
  pose proof (call_in_u _ _ _ _ _ _ _ _ Hn Hk) as Ht. destruct (line_call_request k o Ht Hc Hwf) as [_ Hlc].
  pose proof (near_served _ _ _ _ _ _ _ Hn (lookup_lt_Some _ _ _ Hline)) as Hn'.
  assert (k ∉ U' ++ Q /\ NoDup (U' ++ Q)) as [Hnot Hnd] by (apply NoDup_cons, Hb).
  assert (rs !! k = None) as Hrk by (apply Hb; by left).
  assert (o = OpNext \/ o <> OpNext) as [->|Hne] by (destruct o; (by left) || by right).
  - destruct (serve_next _ _ _ _ _ _ _ k Hf Hk Ht Hread) as (srv' & Q' & Hserve & Hf' & Hcase).
    eexists _, rs. split; [cbn [tcp_step srv_step]; unfold tcp_serve; cbn [srv_step]; by rewrite Hline, Hread, Hserve|].
    split.
    + cbn [executes]. rewrite Hread, Hline. cbn [mbind option_bind]. rewrite Hlc. cbn [mbind option_bind]. rewrite Hk.
      cbn [mbind option_bind f_op app]. unfold removes. cbn [far]. rewrite Hread, (f_session _ _ _ _ _ _ _ Hf).
      destruct Hcase as [(_ & -> & ->)|(_ & _ & -> & ->)]; done.
    + exists U', Q', R. split; [done|]. split; [done|]. eapply books_change; [exact Hb|..]; cbn [broken].
      * destruct Hcase as [(-> & _)|(-> & _)]; [|done]. rewrite app_assoc, <- Permutation_cons_append. by constructor.
      * destruct Hcase as [(-> & _)|(-> & _)]; intros j; in_lists.
      * destruct Hcase as [(-> & _)|(-> & -> & _)]; [right|by left].
        intros j; in_lists.
  - destruct (serve_now _ _ _ _ _ _ _ k o Hf Hk Hrk Ht Hc Hwf Hne) as (x & e' & srv' & R' & Hserve & Hx & Hf' & HR & Hr' & He').
    eexists _, (<[k := x]> rs).
    split; [cbn [tcp_step srv_step]; unfold tcp_serve; cbn [srv_step]; by rewrite Hline, Hread, Hserve|]. split.
    + cbn [executes]. rewrite Hread, Hline. cbn [mbind option_bind]. rewrite Hlc. cbn [mbind option_bind]. rewrite Hk.
      cbn [mbind option_bind f_op]. unfold removes. cbn [far]. rewrite Hr', He', Hread, (f_session _ _ _ _ _ _ _ Hf).
      replace (match o with OpNext => [] | _ => [Executed k o] end) with [Executed k o] by by destruct o.
      cbn [app replay]. rewrite Hrk, Hx. by destruct (broken w).
    + exists U', Q, R'. split; [by apply near_execute|]. split; [done|].
      eapply books_execute; [eapply books_change; [exact Hb|done|..]|exact Hk|done]; cbn [broken].
      * intros j; in_lists.
      * destruct HR as [->| ->]; [by left|right]. intros j; in_lists.
Qed.

(** ** Lemmas: runs *)

Lemma good_step n w a rs : tcp_ok (calls_made [a] + n) w rs -> wf_act sent a -> good_act n w a rs.
Proof.
  intros Hok Hwf. destruct a; try (change (calls_made _) with 0%nat in Hok; cbn in Hok).
  - destruct Hwf. by apply good_call.
  - by apply good_register.
  - by apply good_write.
  - by apply good_serve.
  - by apply good_pump.
  - by apply good_read.
  - by apply good_other.
  - by apply good_break.
  - by apply good_eof.
  - by apply good_end.
Qed.

Lemma replay_app e rs evs1 evs2 : replay sent s e rs (evs1 ++ evs2)
  = ('(e, rs) ← replay sent s e rs evs1; replay sent s e rs evs2).
Proof.
  revert e rs. induction evs1 as [|[k o|o] t IH]; intros e rs; cbn [app replay]; [done| |done].
  destruct (rs !! k); [done|]. by destruct (in_process sent s o e) as [[r|] e'].
Qed.

Lemma run_tcp_good n acts w rs : tcp_ok (calls_made acts + n) w rs -> Forall (wf_act sent) acts ->
  exists w' evs rs', run_tcp sent w acts = Some (w', evs)
    /\ replay sent s (endpoint (far w)) rs evs = Some (endpoint (far w'), rs') /\ tcp_ok n w' rs'.
Proof.
  intros Hok Hwf. revert w rs Hok. induction Hwf as [|a t Ha Ht IH]; intros w rs Hok.
  { exists w, [], rs. done. }
  destruct (good_step (calls_made t + n) w a rs) as (w1 & rs1 & Hstep & Hrep & Hok1); [|done|].
  { unfold calls_made in *. cbn in *. by rewrite Nat.add_0_r, Nat.add_assoc. }
  destruct (IH w1 rs1 Hok1) as (w2 & evs & rs2 & Hrun & Hrep2 & Hok2).
  exists w2, (executes w a ++ removes w w1 ++ evs), rs2. cbn [run_tcp]. rewrite Hstep. cbn [mbind option_bind].
  rewrite Hrun. split; [done|]. split; [|done]. rewrite app_assoc, replay_app, Hrep. done.
Qed.

Lemma tcp_open_ok n l : linked s n l -> Forall bytes (queue_of (endpoint l.2) s) -> tcp_ok n (tcp_open l) ∅.
Proof.
  intros [H1 H2 H3 H4 H5 H6 H7] Hq. exists [], [], []. split; [|split].
  - split; cbn; try done; try lia. by rewrite drop_all.
  - unfold idle in H7. split; cbn; try done; try lia; try (by rewrite drop_all).
    + unfold live_requests. destruct (next_packet_requests (handler l.2)) as [p|]; [|done]. destruct H7 as [-> ->]. done.
    + intros p Hp. rewrite Hp in H7. destruct H7. congruence.
  - split; cbn; try done; try constructor.
Qed.

(** what the invariant says of a call that returned *)
Lemma returned_ok n w rs k r : tcp_ok n w rs -> returned k w = Some r -> exists o p, frames w !! k = Some (mkFrame o p)
  /\ ((exists x, rs !! k = Some x /\ r = map_err (op_error o) x) \/ (r = Err connection_closed /\ rpc_closed (near w) = true)
      \/ exists err, p = WriteFailed err /\ r = Err err).
Proof.
  intros (U & Q & R & Hn & _) Hr. unfold returned in Hr.
  destruct (frames w !! k) as [[o p]|] eqn:Hk; [|done]. exists o, p. split; [done|].
  assert (forall t err, calls (near w) !! k = Some (mkCall t (Failed err)) ->
    (err = connection_closed /\ rpc_closed (near w) = true) \/ p = WriteFailed err) as Hfail by (intros t err Hc; apply (n_failed _ _ _ _ _ _ Hn k t err _ Hc Hk)).
  assert (p = Unwritten \/ ((fun r => v ← r; op_value o v) <$> call_result k (near w)) = Some r) as [->|Hval].
  { destruct p; auto. }
  { destruct (calls (near w) !! k) as [[t []]|] eqn:Hc; try done. injection Hr as <-.
    destruct (Hfail _ _ eq_refl) as [[-> ?]|?]; [auto|done]. }
  unfold call_result in Hval. destruct (calls (near w) !! k) as [[t []]|] eqn:Hc; try done; injection Hval as <-.
  - left. destruct (n_answered _ _ _ _ _ _ Hn k t _ _ Hc Hk) as (x & Hx & Hm). eauto.
  - right. left. split; [done|]. apply (n_lost _ _ _ _ _ _ Hn k t _ Hc Hk).
  - destruct (Hfail _ _ eq_refl) as [[-> ?]| ->]; eauto.
Qed.

(** when nothing is left to do, the calls that wait are those that the session makes wait *)
Lemma quiet_waits n w rs k t o : tcp_ok n w rs -> quiet w -> calls (near w) !! k = Some (mkCall t Waiting) ->
  frames w !! k = Some (mkFrame o Written) -> o = OpNext /\ (conn_get_next_packet s (endpoint (far w))).1 = None.
Proof.
  intros (U & Q & R & Hn & Hf & Hb) (Hq1 & Hq2 & Hq3 & Hq4) Hk Ho.
  pose proof (n_lines _ _ _ _ _ _ Hn) as HU. pose proof Hf as [F1 F2 F3 F4 F5 F6 F7].
  rewrite Hq1, drop_all in HU. apply Forall2_nil_inv_l in HU as ->.
  rewrite Hq2, drop_all in F7. apply Forall2_nil_inv_l in F7 as ->.
  destruct (b_waiting _ _ _ _ _ _ _ Hb k t o Hk Ho) as [Hin|?]; [|congruence].
  rewrite app_nil_r in Hin. cbn in Hin. destruct (Forall2_elem_r _ _ _ _ F4 Hin) as (tr & Htr & Hnx & _).
  split; [congruence|]. cbn in Hq4. unfold live_requests in Htr.
  destruct (next_packet_requests (handler (far w))) as [[s' reqs []]|] eqn:Hp; cbn in Htr; try by apply elem_of_nil in Htr.
  pose proof (handler_pump _ _ F1 _ Hp) as Hs. rewrite F2 in Hs. cbn in Hs. injection Hs as <-.
  destruct reqs as [|tr' rest]; [by apply elem_of_nil in Htr|].
  by destruct (conn_get_next_packet s (endpoint (far w))) as [[]].
Qed.

Lemma tcp_ok_explains n w rs : tcp_ok n w rs -> explains s rs w.
Proof.
  intros Hok. split; [|split].
  - destruct Hok as (U & Q & R & _ & _ & Hb). apply Hb.
  - intros k r. by apply (returned_ok n).
  - intros Hq k t o. by apply (quiet_waits n w rs).
Qed.

End Lemmas.

(** ** Properties *)

Section Properties.
Context {SJ : SerdeJson}.

(** C13: Concurrent calls over TCP.  In every interleaving of threads that call the
    methods of an open connection, of the reader of the client, the loop and the
    pump of the server and the other clients, with failing writes and with the
    connection lost at any time, nothing panics, and the calls that took effect
    did so one after the other, each at most once and while it was running: the
    endpoint is that of the same calls on the session in this process, a call that
    returned has the result of the session, or the error of its write, or, when the
    reader of the client has ended, the error that says so, and when every line was
    read and the pump cannot go on, the only written calls that wait are
    [getNextPacket] calls and the session has no packet for them.  All this holds
    in the middle of the run too, so a call that returned before another one was
    made took effect before it. *)
Theorem tcp_linearizable sent s l acts1 acts2 : linked s (calls_made acts1 + calls_made acts2) l ->
  Forall bytes (queue_of (endpoint l.2) s) -> Forall (wf_act sent) (acts1 ++ acts2) ->
  exists w1 evs1 rs1 w2 evs2 rs2,
    run_tcp sent (tcp_open l) acts1 = Some (w1, evs1)
    /\ replay sent s (endpoint l.2) ∅ evs1 = Some (endpoint (far w1), rs1) /\ explains s rs1 w1
    /\ run_tcp sent w1 acts2 = Some (w2, evs2)
    /\ replay sent s (endpoint (far w1)) rs1 evs2 = Some (endpoint (far w2), rs2) /\ explains s rs2 w2.
Proof.
  intros Hl Hq [Hw1 Hw2]%Forall_app.
  destruct (run_tcp_good sent s (calls_made acts2) acts1 (tcp_open l) ∅) as (w1 & evs1 & rs1 & H1 & H2 & H3);
    [by apply tcp_open_ok|done|].
  destruct (run_tcp_good sent s 0 acts2 w1 rs1) as (w2 & evs2 & rs2 & H4 & H5 & H6); [by rewrite Nat.add_0_r|done|].
  exists w1, evs1, rs1, w2, evs2, rs2. do 2 (split; [done|]). split; [by eapply tcp_ok_explains|].
  do 2 (split; [done|]). by eapply tcp_ok_explains.
Qed.

End Properties.

(** a thread waits for a packet while another one sends; the packet comes back to the first *)
Definition example_acts1 : list tcp_act :=
  [TcpCall OpNext; TcpCall (OpSend [1; 2]); TcpRegister 0; TcpWrite 0 None; TcpServe; TcpPump;
   TcpRegister 1; TcpWrite 1 None; TcpServe; TcpRead].
Definition example_acts2 : list tcp_act := [TcpPump; TcpRead].

Lemma tcp_linearizable_witness :
  let l := (connect, mkConnection (mkHandler (Some 1%nat) None) example_endpoint true []) in
  let sent := fun _ : list Z => None in
  exists w1 w2 rs2, run_tcp (SJ := serde_ref) sent (tcp_open l) example_acts1 = Some (w1, [Executed 1 (OpSend [1; 2])])
    /\ run_tcp (SJ := serde_ref) sent w1 example_acts2 = Some (w2, [Executed 0 OpNext])
    /\ returned (SJ := serde_ref) 1 w1 = Some (Ok RUnit) /\ returned (SJ := serde_ref) 0 w1 = None
    /\ returned (SJ := serde_ref) 0 w2 = Some (Ok (RPacket [1; 2])) /\ explains (SJ := serde_ref) 1 rs2 w2.
Proof.
  intros l sent.
  destruct (tcp_linearizable (SJ := serde_ref) sent 1 l example_acts1 example_acts2)
    as (w1 & evs1 & rs1 & w2 & evs2 & rs2 & H1 & _ & _ & H2 & _ & H3).
  - split; try done; [apply connect_inv|]. exact example_handler_ok.
  - constructor.
  - repeat constructor; cbn; try done; lia.
  - assert (match run_tcp (SJ := serde_ref) sent (tcp_open l) example_acts1 with
      | Some (w1, evs1) => evs1 = [Executed 1 (OpSend [1; 2])]
        /\ returned (SJ := serde_ref) 1 w1 = Some (Ok RUnit) /\ returned (SJ := serde_ref) 0 w1 = None
        /\ match run_tcp (SJ := serde_ref) sent w1 example_acts2 with
           | Some (w2, evs2) => evs2 = [Executed 0 OpNext] /\ returned (SJ := serde_ref) 0 w2 = Some (Ok (RPacket [1; 2]))
           | None => False
           end
      | None => False
      end) as Hc by (vm_compute; repeat split; reflexivity).
    rewrite H1 in Hc. destruct Hc as (-> & Hr1 & Hr2 & Hc). rewrite H2 in Hc. destruct Hc as (-> & Hr3).
    exists w1, w2, rs2. by repeat (split; [assumption|]).
Defined.
