(* ===== verification/TcpProgress.v ===== *)
(** * Calls over TCP return

    [TcpLink] says what a call over TCP may return; this file says that it
    returns: how many turns of the server and of the reader of the client are
    enough, whatever the other threads do between them. *)

From stdpp Require Import base list numbers option strings gmap.
From Stdlib Require Import ZArith Lia.
From S2P Require Import Prelude RustStd Base64 Json Endpoint Server Client TcpLink.

(** the lines that the server and the reader of the client have not read *)
Definition unserved (w : Tcp) : list str := drop (lines_served w) (stream (near w)).
Definition unread (w : Tcp) : list str := drop (lines_received w) (written (far w)).

(** the turns of the server and of the reader of the client in a run *)
Definition serves (acts : list tcp_act) : nat :=
  list_sum (map (fun a => match a with TcpServe => 1%nat | _ => 0%nat end) acts).
Definition reads (acts : list tcp_act) : nat :=
  list_sum (map (fun a => match a with TcpRead => 1%nat | _ => 0%nat end) acts).

(** the connection stays up: no write of the server fails and its loop does not end *)
Definition stays_up (a : tcp_act) : Prop := match a with TcpBreak | TcpEof => False | _ => True end.

(** call [k] waits for its response *)
Definition waits (k : nat) (w : Tcp) : Prop := exists t, calls (near w) !! k = Some (mkCall t Waiting).

Section Lemmas.
Context {SJ : SerdeJson}.
Variable sent : list Z -> option str.
Variable s : nat.

(** ** Lemmas: lines *)

Lemma cl_step_stream c o c' : cl_step c o = Some c' -> (forall k f p failed, o <> ClWrite k f p failed) ->
  stream c' = stream c.
Proof.
  intros Hs Hno. destruct o as [|k|k f p failed|line|]; cbn in Hs; [|injection Hs as <-..]; try done.
  - unfold call_tid in Hs. case_match; [|done]. by injection Hs as <-.
  - apply register_keeps.
  - by destruct (Hno k f p failed).
  - destruct (rpc_closed c); [done|]. unfold reader_line. destruct (from_str line) as [v|]; [|done]. cbn.
    destruct (response_tid v) as [t|]; cbn; [|done]. by destruct (waiting c !! t).
Qed.

Lemma srv_step_written c o c' : srv_step sent c o = Some c' -> exists new, written c' = written c ++ new.
Proof.
  assert (forall x, written x = written c -> exists new, written x = written c ++ new) as Hid.
  { intros x ->. exists []. by rewrite app_nil_r. }
  intros Hs. destruct o as [line writable|writable|o|]; cbn in Hs; [|injection Hs as <-..].
  - destruct (reading_lines c); [|injection Hs as <-; by apply Hid]. unfold serve_line in Hs.
    destruct (from_str line) as [[| | | | |m]|]; try (injection Hs as <-; by apply Hid).
    destruct (handle sent (JObject m) (handler c, endpoint c)) as [[[v|]|] [h e]]; try done;
      [|injection Hs as <-; by apply Hid].
    destruct writable; injection Hs as <-; [eauto|by apply Hid].
  - unfold pump_turn. destruct (next_packet_requests (handler c)) as [[i [|tr rest] []]|]; try by apply Hid.
    destruct (conn_get_next_packet i (endpoint c)) as [[r|] e]; [|by apply Hid].
    destruct writable; [eexists; done|by apply Hid].
  - by apply Hid.
  - destruct (reading_lines c); by apply Hid.
Qed.

Lemma drop_grows (n : nat) (l l' : list str) : (n <= length l)%nat -> (exists new, l' = l ++ new) ->
  exists new, drop n l' = drop n l ++ new.
Proof. intros Hn [new ->]. exists new. by rewrite drop_app_le. Qed.

(** what a step does to the lines on their way *)
Lemma step_lines n w rs a w' : tcp_ok sent s n w rs -> tcp_step sent w a = Some w' -> reading_lines (far w) = true ->
  (exists new, unserved w' = (match a with TcpServe => tail (unserved w) | _ => unserved w end) ++ new)
  /\ (exists new, unread w' = (match a with TcpRead => tail (unread w) | _ => unread w end) ++ new).
Proof.
  intros (U & Q & R & Hn & Hf & _) Hs Hr.
  pose proof (n_served _ _ _ _ _ _ _ Hn) as H1. pose proof (f_received _ _ _ _ _ _ _ _ Hf) as H2.
  assert (forall l : list str, exists new, l = l ++ new) as Hid by (intros l; exists []; by rewrite app_nil_r).
  assert (forall c, stream c = stream (near w) -> exists new, drop (lines_served w) (stream c) = drop (lines_served w) (stream (near w)) ++ new)
    as Hsame by (intros c ->; apply Hid).
  assert (forall c o, srv_step sent (far w) o = Some c ->
    exists new, drop (lines_received w) (written c) = drop (lines_received w) (written (far w)) ++ new) as Hgrow.
  { intros c o Ho. apply drop_grows; [done|]. by eapply srv_step_written. }
  unfold unserved, unread. destruct a as [o|k|k failed| | | |o| | |]; cbn [tcp_step] in Hs.
  - destruct (cl_step (near w) ClTid) as [c|] eqn:Hc; [|done]. injection Hs as <-.
    split; [|apply Hid]. apply Hsame. by eapply cl_step_stream.
  - injection Hs as <-. split; [|apply Hid]. apply Hsame, register_keeps.
  - injection Hs as <-. unfold tcp_write. destruct (frames w !! k) as [[o []]|]; [|by split; apply Hid..].
    destruct (phase <$> calls (near w) !! k) as [[]|]; try (by split; apply Hid);
      (split; [cbn; apply drop_grows; [done|]|apply Hid]); unfold call_write;
      (destruct (calls (near w) !! k) as [[t q]|]; [destruct failed|]; cbn; first [by eauto|apply Hid]).
  - unfold tcp_serve in Hs. rewrite Hr in Hs. destruct (stream (near w) !! lines_served w) as [line|] eqn:Hl.
    + destruct (srv_step sent (far w) _) as [c|] eqn:Hc; [|done]. injection Hs as <-.
      cbn [near far lines_served lines_received]. rewrite (drop_S _ _ _ Hl). split; [apply Hid|by eapply Hgrow].
    + injection Hs as <-. apply lookup_ge_None in Hl. rewrite drop_ge by done. split; apply Hid.
  - destruct (srv_step sent (far w) _) as [c|] eqn:Hc; [|done]. injection Hs as <-. split; [apply Hid|by eapply Hgrow].
  - unfold tcp_read in Hs. destruct (written (far w) !! lines_received w) as [line|] eqn:Hl.
    + destruct (cl_step (near w) (ClLine line)) as [c|] eqn:Hc; [|done]. injection Hs as <-.
      cbn [near far lines_served lines_received]. rewrite (drop_S _ _ _ Hl).
      split; [|apply Hid]. apply Hsame. by eapply cl_step_stream.
    + injection Hs as <-. apply lookup_ge_None in Hl. rewrite (drop_ge (written _)) by done. split; apply Hid.
  - destruct (srv_step sent (far w) _) as [c|] eqn:Hc; [|done]. injection Hs as <-. split; [apply Hid|by eapply Hgrow].
  - injection Hs as <-. split; apply Hid.
  - destruct (srv_step sent (far w) _) as [c|] eqn:Hc; [|done]. injection Hs as <-. split; [apply Hid|by eapply Hgrow].
  - injection Hs as <-. split; apply Hid.
Qed.

(** ** Lemmas: calls that wait *)

(** a call waits only if it waited or was just registered *)
Lemma cl_step_waiting c o c' k t : cl_inv c -> cl_step c o = Some c' -> calls c' !! k = Some (mkCall t Waiting) ->
  calls c !! k = Some (mkCall t Waiting) \/ calls c !! k = Some (mkCall t Issued).
Proof.
  intros Hi Hs Hk.
  assert (forall j p, set_phase j p (calls c) !! k = Some (mkCall t Waiting) -> p <> Waiting ->
    calls c !! k = Some (mkCall t Waiting)) as Hset.
  { intros j p Hj Hp. rewrite set_phase_lookup in Hj. case_bool_decide; [|done]. subst.
    destruct (calls c !! j) as [[]|]; [|done]. by injection Hj as _ ?. }
  destruct o as [|j|j f p failed|line|]; cbn [cl_step] in Hs; [|injection Hs as <-..].
  - unfold call_tid in Hs. case_match; [|done]. injection Hs as <-. apply lookup_snoc_Some in Hk as [[_ ?]|[_ ?]]; [by left|done].
  - unfold call_register in Hk. destruct (calls c !! j) as [[t' []]|] eqn:Hj; try (by left).
    pose proof (inv_not_waiting c j _ Hi Hj) as Hw. cbn in Hw. rewrite Hw in Hk by done.
    destruct (rpc_closed c); cbn in Hk; [left; by eapply Hset|].
    rewrite set_phase_lookup in Hk. case_bool_decide; [|by left]. subst. rewrite Hj in Hk. injection Hk as <-. by right.
  - left. destruct (phase <$> calls c !! j) as [[]|]; try done; unfold call_write in Hk;
      (destruct (calls c !! j) as [[? ?]|]; [destruct failed|]; cbn in Hk; first [done|by eapply Hset]).
  - left. destruct (rpc_closed c); [done|]. unfold reader_line in Hk. destruct (from_str line) as [v|].
    + destruct (response_tid v) as [t'|]; cbn in Hk; [|done].
      destruct (waiting c !! t'); cbn in Hk; [by eapply Hset|done].
    + by destruct (reader_end_calls c k t Waiting Hi Hk).
  - by destruct (reader_end_calls c k t Waiting Hi Hk).
Qed.

(** the client of a step is the same or took a step *)
Lemma step_near w a w' : tcp_step sent w a = Some w' -> near w' = near w \/ exists o, cl_step (near w) o = Some (near w').
Proof.
  intros Hs. destruct a as [o|k|k failed| | | |o| | |]; cbn [tcp_step] in Hs.
  - destruct (cl_step (near w) ClTid) as [c|] eqn:Hc; [|done]. injection Hs as <-. eauto.
  - injection Hs as <-. right. by exists (ClRegister k).
  - injection Hs as <-. unfold tcp_write. destruct (frames w !! k) as [[o []]|]; auto.
    destruct (phase <$> calls (near w) !! k) as [[]|] eqn:Hp; auto; right;
      exists (ClWrite k (op_function o) (JArray (op_params o)) failed); cbn [cl_step]; by rewrite Hp.
  - unfold tcp_serve in Hs. destruct (stream (near w) !! lines_served w) as [line|]; [|injection Hs as <-; by left].
    destruct (reading_lines (far w)); [|injection Hs as <-; by left].
    destruct (srv_step sent (far w) _); [|done]. injection Hs as <-. by left.
  - destruct (srv_step sent (far w) _); [|done]. injection Hs as <-. by left.
  - unfold tcp_read in Hs. destruct (written (far w) !! lines_received w) as [line|]; [|injection Hs as <-; by left].
    destruct (cl_step (near w) (ClLine line)) as [c|] eqn:Hc; [|done]. injection Hs as <-. eauto.
  - injection Hs as <-. by left.
  - injection Hs as <-. by left.
  - injection Hs as <-. by left.
  - injection Hs as <-. right. by exists ClEnd.
Qed.

Lemma step_waits n w rs a w' k o : tcp_ok sent s n w rs -> tcp_step sent w a = Some w' ->
  frames w !! k = Some (mkFrame o Written) -> waits k w' -> waits k w.
Proof.
  intros (U & Q & R & Hn & _) Hs Hk [t Ht]. destruct (step_near w a w' Hs) as [E|[x Hx]].
  { exists t. by rewrite <- E. }
  destruct (cl_step_waiting _ _ _ _ _ (n_inv _ _ _ _ _ _ _ Hn) Hx Ht) as [?|Hi]; [by exists t|].
  by pose proof (n_issued _ _ _ _ _ _ _ Hn k t _ Hi Hk).
Qed.

Lemma step_frame n w rs a w' k o : tcp_ok sent s n w rs -> tcp_step sent w a = Some w' ->
  frames w !! k = Some (mkFrame o Written) -> frames w' !! k = Some (mkFrame o Written).
Proof.
  intros (U & Q & R & Hn & _) Hs Hk. destruct a as [x|j|j failed| | | |x| | |]; cbn [tcp_step] in Hs.
  - destruct (cl_step (near w) ClTid) as [c|]; [|done]. injection Hs as <-. cbn. rewrite lookup_insert_ne; [done|].
    destruct (n_frames _ _ _ _ _ _ _ Hn k _ Hk) as [? _]. lia.
  - by injection Hs as <-.
  - injection Hs as <-. unfold tcp_write. destruct (frames w !! j) as [[x []]|] eqn:Hj; [|done..].
    assert (k <> j) by congruence. destruct (phase <$> calls (near w) !! j) as [[]|]; try done; cbn;
      by rewrite lookup_insert_ne by congruence.
  - unfold tcp_serve in Hs. destruct (stream (near w) !! lines_served w); [|by injection Hs as <-].
    destruct (reading_lines (far w)); [|by injection Hs as <-].
    destruct (srv_step sent (far w) _); [|done]. by injection Hs as <-.
  - destruct (srv_step sent (far w) _); [|done]. by injection Hs as <-.
  - unfold tcp_read in Hs. destruct (written (far w) !! lines_received w); [|by injection Hs as <-].
    destruct (cl_step (near w) _); [|done]. by injection Hs as <-.
  - by injection Hs as <-.
  - by injection Hs as <-.
  - by injection Hs as <-.
  - by injection Hs as <-.
Qed.

(** a line that waits at the server is a request of a written call, and names it *)
Lemma asks_request n w rs U line k : near_ok sent n (frames w) rs (near w) (lines_served w) U ->
  asks (frames w) line k -> line_call line = Some k /\ exists m, from_str line = Some (JObject m).
Proof.
  intros Hn (o & Ho & ->). destruct (n_frames _ _ _ _ _ _ _ Hn k _ Ho) as (_ & Hc & Hwf).
  pose proof (call_in_u _ _ _ _ _ _ _ _ _ Hn Ho) as Ht.
  destruct (line_call_request sent k o Ht Hc Hwf) as [Hp Hlc]. split; [done|].
  unfold request_line. rewrite from_str_to_string by done. rewrite request_object. eauto.
Qed.

Lemma step_up n w rs a w' : tcp_ok sent s n w rs -> tcp_step sent w a = Some w' -> stays_up a ->
  broken w = false -> reading_lines (far w) = true -> broken w' = false /\ reading_lines (far w') = true.
Proof.
  intros (U & Q & R & Hn & _) Hs Hup Hb Hr. destruct a as [x|j|j failed| | | |x| | |]; try done; cbn [tcp_step] in Hs.
  - destruct (cl_step (near w) ClTid) as [c|]; [|done]. by injection Hs as <-.
  - by injection Hs as <-.
  - injection Hs as <-. unfold tcp_write. destruct (frames w !! j) as [[x []]|]; [|done..].
    by destruct (phase <$> calls (near w) !! j) as [[]|].
  - unfold tcp_serve in Hs. rewrite Hr in Hs. destruct (stream (near w) !! lines_served w) as [line|] eqn:Hl; [|by injection Hs as <-].
    pose proof (n_lines _ _ _ _ _ _ _ Hn) as HU. rewrite (drop_S _ _ _ Hl) in HU.
    apply Forall2_cons_inv_l in HU as (k & U' & Hk & _ & _).
    destruct (asks_request _ _ _ _ _ _ Hn Hk) as (_ & m & Hm). rewrite Hb in Hs. cbn in Hs. rewrite Hr in Hs. unfold serve_line in Hs.
    rewrite Hm in Hs. destruct (handle sent (JObject m) (handler (far w), endpoint (far w))) as [[[v|]|] [h e]]; try done;
      cbn in Hs; by injection Hs as <-.
  - injection Hs as <-. split; [done|]. cbn. unfold pump_turn.
    destruct (next_packet_requests (handler (far w))) as [[i [|tr rest] []]|]; try done.
    destruct (conn_get_next_packet i (endpoint (far w))) as [[r|] e]; [|done]. by rewrite Hb.
  - unfold tcp_read in Hs. destruct (written (far w) !! lines_received w); [|by injection Hs as <-].
    destruct (cl_step (near w) _); [|done]. by injection Hs as <-.
  - by injection Hs as <-.
  - by injection Hs as <-.
Qed.

(** ** Lemmas: progress *)

(** the line is a response to call [k] *)
Definition responds (k : nat) (line : str) : Prop :=
  exists v, line = to_string v /\ printable v /\ response_tid v = Some (Z.of_nat k + 1).

(** a call that waits has its request or its response on the way *)
Lemma waits_on_way n w rs k o : tcp_ok sent s n w rs -> frames w !! k = Some (mkFrame o Written) -> o <> OpNext ->
  broken w = false -> waits k w ->
  (exists p line, unread w !! p = Some line /\ responds k line)
  \/ exists p line, unserved w !! p = Some line /\ line_call line = Some k.
Proof.
  intros (U & Q & R & Hn & Hf & Hb) Hk Hne Hbr [t Ht].
  destruct (b_waiting _ _ _ _ _ _ _ Hb k t o Ht Hk) as [Hin|?]; [|congruence].
  rewrite !elem_of_app in Hin. destruct Hin as [Hin|[Hin|Hin]].
  - right. apply list_elem_of_lookup in Hin as [p Hp].
    destruct (Forall2_lookup_r _ _ _ _ _ (n_lines _ _ _ _ _ _ _ Hn) Hp) as (line & Hl & Ha).
    exists p, line. split; [done|]. by apply (asks_request _ _ _ _ _ _ Hn Ha).
  - destruct (Forall2_elem_r _ _ _ _ (f_queue _ _ _ _ _ _ _ _ Hf) Hin) as (tr & _ & Hx & _). congruence.
  - left. apply list_elem_of_lookup in Hin as [p Hp].
    destruct (Forall2_lookup_r _ _ _ _ _ (f_lines _ _ _ _ _ _ _ _ Hf) Hp) as (line & Hl & (o' & v & x & _ & -> & Hv & Htid & _)).
    exists p, (to_string v). split; [done|]. by exists v.
Qed.

(** the lines at the server name different calls *)
Lemma unserved_once n w rs p q line line' k : tcp_ok sent s n w rs -> unserved w !! p = Some line ->
  unserved w !! q = Some line' -> line_call line = Some k -> line_call line' = Some k -> p = q.
Proof.
  intros (U & Q & R & Hn & _ & Hb) Hp Hq Hl Hl'. pose proof (n_lines _ _ _ _ _ _ _ Hn) as HU.
  destruct (Forall2_lookup_l _ _ _ _ _ HU Hp) as (j & Hj & Ha). destruct (Forall2_lookup_l _ _ _ _ _ HU Hq) as (j' & Hj' & Ha').
  apply (asks_request _ _ _ _ _ _ Hn) in Ha as [Ha _]. apply (asks_request _ _ _ _ _ _ Hn) in Ha' as [Ha' _].
  assert (j = k) as -> by congruence. assert (j' = k) as -> by congruence.
  pose proof (b_once _ _ _ _ _ _ _ Hb) as Hnd. apply NoDup_app in Hnd as [Hnd _]. by eapply NoDup_lookup.
Qed.

(** the invariant of a connection that is up, with a written call [k] *)
Definition up_with (k : nat) (o : conn_op) (n : nat) (w : Tcp) (rs : Results) : Prop :=
  tcp_ok sent s n w rs /\ frames w !! k = Some (mkFrame o Written) /\ broken w = false /\ reading_lines (far w) = true.

Lemma up_step k o n w rs a : up_with k o (calls_made [a] + n) w rs -> wf_act sent a -> stays_up a ->
  exists w' rs', tcp_step sent w a = Some w' /\ up_with k o n w' rs'.
Proof.
  intros (Hok & Hk & Hb & Hr) Hwf Hup. destruct (good_step sent s n w a rs Hok Hwf) as (w' & rs' & Hs & _ & Hok').
  exists w', rs'. split; [done|]. split; [done|]. split; [exact (step_frame _ _ _ _ _ _ _ Hok Hs Hk)|].
  exact (step_up _ _ _ _ _ Hok Hs Hup Hb Hr).
Qed.

(** a response on the way is read *)
Lemma read_response n w rs w' k line : tcp_ok sent s n w rs -> tcp_step sent w TcpRead = Some w' ->
  unread w !! 0%nat = Some line -> responds k line -> ~ waits k w'.
Proof.
  intros (U & Q & R & Hn & _) Hs Hl (v & -> & Hv & Ht) [t Hw].
  unfold unread in Hl. rewrite lookup_drop, Nat.add_0_r in Hl. cbn in Hs. unfold tcp_read in Hs. rewrite Hl in Hs.
  destruct (read_calls (near w) k v (n_inv _ _ _ _ _ _ _ Hn) ltac:(pose proof (n_room _ _ _ _ _ _ _ Hn); lia) Hv Ht)
    as (c & Hc & _ & _ & _ & _ & Hold).
  rewrite Hc in Hs. injection Hs as <-. cbn in Hw. destruct (Hold _ _ _ Hw) as [[_ Hne]|[_ ?]]; [by apply Hne|done].
Qed.

Lemma tail_lookup {A} (l : list A) p x : l !! S p = Some x -> tail l !! p = Some x.
Proof. by destruct l. Qed.

(** a response at place [p] is read in [p + 1] turns of the reader *)
Lemma response_arrives k o n acts w rs p line : up_with k o (calls_made acts + n) w rs -> Forall (wf_act sent) acts ->
  Forall stays_up acts -> (~ waits k w \/ (unread w !! p = Some line /\ responds k line /\ (p < reads acts)%nat)) ->
  exists w' evs rs', run_tcp sent w acts = Some (w', evs) /\ up_with k o n w' rs' /\ ~ waits k w'.
Proof.
  intros Hup Hwf. revert w rs p Hup. induction Hwf as [|a t Ha Ht IH]; intros w rs p Hup Hst Hcase.
  { exists w, [], rs. split; [done|]. split; [done|]. destruct Hcase as [?|(_ & _ & Hp)]; [done|]. cbn in Hp. lia. }
  apply Forall_cons_1 in Hst as [Hst1 Hst]. pose proof Hup as (Hok & Hk & Hb & Hr).
  destruct (up_step k o (calls_made t + n) w rs a) as (w1 & rs1 & Hs & Hup1); [|done..|].
  { unfold calls_made in *. cbn in *. by rewrite Nat.add_0_r, Nat.add_assoc. }
  destruct (step_lines _ _ _ _ _ Hok Hs Hr) as [_ [new Hnew]].
  assert (~ waits k w1 \/ exists q, unread w1 !! q = Some line /\ responds k line /\ (q < reads t)%nat) as Hnext.
  { destruct Hcase as [Hno|(Hl & Hresp & Hp)].
    { left. intros Hw. apply Hno. exact (step_waits _ _ _ _ _ _ _ Hok Hs Hk Hw). }
    assert (reads (a :: t) = (reads [a] + reads t)%nat) as Hc by (unfold reads; cbn; by rewrite Nat.add_0_r).
    assert (a = TcpRead \/ a <> TcpRead) as [->|Hne] by (destruct a; (by left) || by right).
    - destruct p as [|p]; [left; exact (read_response _ _ _ _ _ _ Hok Hs Hl Hresp)|]. right. exists p. split; [|split; [done|]].
      + rewrite Hnew. apply lookup_app_l_Some. by apply tail_lookup.
      + rewrite Hc in Hp. cbn in Hp. lia.
    - right. exists p. split; [|split; [done|]].
      + rewrite Hnew. apply lookup_app_l_Some. by destruct a.
      + rewrite Hc in Hp. by destruct a. }
  assert (exists q, ~ waits k w1 \/ unread w1 !! q = Some line /\ responds k line /\ (q < reads t)%nat) as [q Hq].
  { destruct Hnext as [?|[q ?]]; [exists 0%nat; by left|exists q; by right]. }
  destruct (IH w1 rs1 q Hup1 Hst Hq) as (w2 & evs & rs2 & Hrun & Hup2 & Hno).
  eexists w2, _, rs2. cbn [run_tcp]. rewrite Hs. cbn [mbind option_bind]. rewrite Hrun. done.
Qed.

Lemma waits_dec k w : waits k w \/ ~ waits k w.
Proof.
  unfold waits. destruct (calls (near w) !! k) as [[t []]|]; first [left; by exists t|right; by intros [? ?]].
Qed.

Lemma serve_takes w w' : tcp_step sent w TcpServe = Some w' -> reading_lines (far w) = true ->
  unserved w' = tail (unserved w).
Proof.
  intros Hs Hr. cbn in Hs. unfold tcp_serve in Hs. rewrite Hr in Hs. unfold unserved.
  destruct (stream (near w) !! lines_served w) as [line|] eqn:Hl.
  - destruct (srv_step sent (far w) _); [|done]. injection Hs as <-. cbn. by rewrite (drop_S _ _ _ Hl).
  - injection Hs as <-. apply lookup_ge_None in Hl. by rewrite drop_ge.
Qed.

(** a call has its response, or a response is on the way, or its request is at place [p] *)
Definition call_stage (k : nat) (w : Tcp) (turns : nat) : Prop :=
  ~ waits k w \/ (exists p line, unread w !! p = Some line /\ responds k line)
  \/ exists p line, unserved w !! p = Some line /\ line_call line = Some k /\ (p < turns)%nat.

Lemma stage_step k o n w rs a w' n' rs' turns : up_with k o n w rs -> o <> OpNext -> tcp_step sent w a = Some w' ->
  up_with k o n' w' rs' -> call_stage k w (serves [a] + turns) -> call_stage k w' turns.
Proof.
  intros (Hok & Hk & Hb & Hr) Hne Hs (Hok' & Hk' & Hb' & Hr') Hst.
  destruct (step_lines _ _ _ _ _ Hok Hs Hr) as [[new1 Hnew1] [new2 Hnew2]].
  destruct Hst as [Hno|[(p & line & Hl & Hresp)|(p & line & Hl & Hc & Hp)]].
  - left. intros Hw. apply Hno. exact (step_waits _ _ _ _ _ _ _ Hok Hs Hk Hw).
  - assert (a = TcpRead \/ a <> TcpRead) as [->|Ha] by (destruct a; (by left) || by right).
    + destruct p as [|p]; [left; exact (read_response _ _ _ _ _ _ Hok Hs Hl Hresp)|].
      right. left. exists p, line. split; [|done]. rewrite Hnew2. apply lookup_app_l_Some. by apply tail_lookup.
    + right. left. exists p, line. split; [|done]. rewrite Hnew2. apply lookup_app_l_Some. by destruct a.
  - assert (a = TcpServe \/ a <> TcpServe) as [->|Ha] by (destruct a; (by left) || by right).
    + cbn in Hp. pose proof (serve_takes _ _ Hs Hr) as Htail. destruct p as [|p].
      * destruct (waits_dec k w') as [Hw|?]; [|by left]. right. left.
        destruct (waits_on_way _ _ _ _ _ Hok' Hk' Hne Hb' Hw) as [?|(q & line' & Hq & Hc')]; [done|]. exfalso.
        rewrite Htail in Hq. assert (unserved w !! S q = Some line') as Hq' by (by destruct (unserved w)).
        pose proof (unserved_once _ _ _ _ _ _ _ _ Hok Hl Hq' Hc Hc'). lia.
      * right. right. exists p, line. rewrite Htail. split; [by apply tail_lookup|]. split; [done|lia].
    + right. right. exists p, line. split; [|split; [done|by destruct a]].
      rewrite Hnew1. apply lookup_app_l_Some. by destruct a.
Qed.

(** a request at place [p] is answered in [p + 1] turns of the server *)
Lemma request_served k o n acts w rs : up_with k o (calls_made acts + n) w rs -> o <> OpNext ->
  Forall (wf_act sent) acts -> Forall stays_up acts -> call_stage k w (serves acts) ->
  exists w' evs rs', run_tcp sent w acts = Some (w', evs) /\ up_with k o n w' rs' /\ call_stage k w' 0.
Proof.
  intros Hup Hne Hwf. revert w rs Hup. induction Hwf as [|a t Ha Ht IH]; intros w rs Hup Hst Hstage.
  { by exists w, [], rs. }
  apply Forall_cons_1 in Hst as [Hst1 Hst].
  destruct (up_step k o (calls_made t + n) w rs a) as (w1 & rs1 & Hs & Hup1); [|done..|].
  { unfold calls_made in *. cbn in *. by rewrite Nat.add_0_r, Nat.add_assoc. }
  destruct (IH w1 rs1 Hup1 Hst) as (w2 & evs & rs2 & Hrun & Hup2 & Hstage2).
  { eapply (stage_step k o _ w rs a w1); [exact Hup|done|exact Hs|exact Hup1|].
    unfold serves in *. cbn in *. by rewrite Nat.add_0_r. }
  eexists w2, _, rs2. cbn [run_tcp]. rewrite Hs. cbn [mbind option_bind]. rewrite Hrun. done.
Qed.

(** a written call that does not wait has returned *)
Lemma not_waiting_returned n w rs k o : tcp_ok sent s n w rs -> frames w !! k = Some (mkFrame o Written) -> ~ waits k w ->
  exists r, returned k w = Some r.
Proof.
  intros (U & Q & R & Hn & _) Hk Hno. unfold returned. rewrite Hk. unfold call_result.
  destruct (n_frames _ _ _ _ _ _ _ Hn k _ Hk) as [Hlt _]. destruct (lookup_lt_is_Some_2 _ _ Hlt) as [[t ph] Hc].
  rewrite Hc. destruct ph as [| |v| |err]; [..|eexists; done|eexists; done|eexists; done].
  - by pose proof (n_issued _ _ _ _ _ _ _ Hn k t _ Hc Hk).
  - destruct Hno. by exists t.
Qed.

(** the place of a request is one of the lines at the server *)
Lemma written_stage k o n w rs : up_with k o n w rs -> o <> OpNext -> call_stage k w (length (unserved w)).
Proof.
  intros (Hok & Hk & Hb & _) Hne. destruct (waits_dec k w) as [Hw|?]; [|by left]. right.
  destruct (waits_on_way _ _ _ _ _ Hok Hk Hne Hb Hw) as [?|(p & line & Hl & Hc)]; [by left|].
  right. exists p, line. split; [done|]. split; [done|]. by eapply lookup_lt_Some.
Qed.

Lemma stage_mono k w m m' : call_stage k w m -> (m <= m')%nat -> call_stage k w m'.
Proof.
  intros [?|[?|(p & line & ? & ? & ?)]] Hm; [by left|by right; left|]. right. right. exists p, line. split; [done|].
  split; [done|lia].
Qed.

End Lemmas.

(** ** Properties *)

Section Properties.
Context {SJ : SerdeJson}.


End Properties.

(** two calls are written; others wait and call while the server answers them *)
Definition example_before : list tcp_act :=
  [TcpCall (OpSend [1; 2]); TcpCall (OpGet ATTR_ECHO_LOOPBACK); TcpRegister 0; TcpRegister 1; TcpWrite 1 None; TcpWrite 0 None].
Definition example_serving : list tcp_act := [TcpCall OpNext; TcpServe; TcpRegister 2; TcpOther (DoGateway [7]); TcpServe].
Definition example_reading : list tcp_act := [TcpRead; TcpWrite 2 None; TcpRead].

