(* ===== verification/Streamer.v ===== *)
(** * The streamer: a kept connection and the thread that polls it

    Models [src/rpc/streamer.rs].  The connections are a store ([conns]); the
    streamer closes them, and what a [get_next_packet] on one returns is a
    parameter of the step, as is the result of the factory.  The polling thread
    is the steps between its accesses to the shared state; [get_api] is one step,
    as it holds the lock of the working connection.  [wait_reconnect] is a
    function of the results of the tries. *)

From stdpp Require Import base list numbers option strings.
From Stdlib Require Import ZArith Lia.
From S2P Require Import Prelude RustStd.

(** ** State *)

(** a connection: whether the streamer closed it, and what it was used for *)
Record Conn : Type := mkConn { conn_closed : bool; sent_on : list (list Z) }.

Inductive PollState : Type :=
| PollHead
| PollApi
| PollNext (conn : nat)
| PollErr
| PollCleanup
| PollEnd
| PollDone.

(** a polling thread: where it is and the packets its listener got *)
Record Poller : Type := mkPoller { poll_state : PollState; listened : list (list Z) }.

Record Streamer : Type := mkStreamer {
  conns : list Conn;
  working : option nat;
  streaming : bool;
  streamer_handle : option nat;
  pollers : list Poller;
}.

Definition streamer_new : Streamer := mkStreamer [] None false None [].

Definition set_working (l : list Conn) (c : option nat) (s : Streamer) : Streamer :=
  mkStreamer l c (streaming s) (streamer_handle s) (pollers s).
Definition set_streaming (b : bool) (s : Streamer) : Streamer :=
  mkStreamer (conns s) (working s) b (streamer_handle s) (pollers s).

(** [factory]: the error of the factory, if any; a failed [init] is only logged *)
Definition get_api (factory : option str) (s : Streamer) : res str nat * Streamer :=
  match working s with
  | Some c => (Ok c, s)
  | None =>
    match factory with
    | Some err => (Err err, s)
    | None =>
      let c := length (conns s) in
      (Ok c, set_working (conns s ++ [mkConn false []]) (Some c) s)
    end
  end.

(** [failed]: the error of the connection, if any *)
Definition stream_send_packet (factory failed : option str) (data : list Z) (s : Streamer) : res str unit * Streamer :=
  match get_api factory s with
  | (Ok c, s) =>
    match failed with
    | Some err => (Err err, s)
    | None => (Ok tt, set_working (alter (fun x => mkConn (conn_closed x) (sent_on x ++ [data])) c (conns s)) (working s) s)
    end
  | (Err err, s) => (Err err, s)
  | (Panic, s) => (Panic, s)
  end.

Definition cleanup_connection (s : Streamer) : Streamer :=
  match working s with
  | Some c => set_working (alter (fun x => mkConn true (sent_on x)) c (conns s)) None s
  | None => s
  end.

(** the thread is spawned with its loop before the first turn; [thread]: the
    error of starting it, if any *)
Definition start_streaming (factory thread : option str) (s : Streamer) : res str unit * Streamer :=
  match streamer_handle s with
  | Some _ => (Err $"Packet streaming already running", s)
  | None =>
    match get_api factory s with
    | (Ok _, s) =>
      let s := set_streaming true s in
      match thread with
      | Some err => (Err err, s)
      | None => (Ok tt, mkStreamer (conns s) (working s) (streaming s) (Some (length (pollers s)))
                          (pollers s ++ [mkPoller PollHead []]))
      end
    | (Err err, s) => (Err err, s)
    | (Panic, s) => (Panic, s)
    end
  end.

Definition set_poller (j : nat) (p : Poller) (s : Streamer) : Streamer :=
  mkStreamer (conns s) (working s) (streaming s) (streamer_handle s) (<[j := p]> (pollers s)).

(** one step of the thread; [next]: what [get_next_packet] returns, [None] while it waits *)
Definition poller_step (j : nat) (factory : option str) (next : option (res str (list Z))) (s : Streamer) : Streamer :=
  match pollers s !! j with
  | Some (mkPoller st got) =>
    let go st := set_poller j (mkPoller st got) s in
    match st with
    | PollHead => go (if streaming s then PollApi else PollEnd)
    | PollApi =>
      match get_api factory s with
      | (Ok c, s) => set_poller j (mkPoller (PollNext c) got) s
      | (_, s) => set_poller j (mkPoller PollEnd got) s
      end
    | PollNext c =>
      match next with
      | Some (Ok packet) => set_poller j (mkPoller PollHead (got ++ [packet])) s
      | Some _ => go PollErr
      | None => s
      end
    | PollErr => go (if streaming s then PollCleanup else PollEnd)
    | PollCleanup => set_poller j (mkPoller PollHead got) (cleanup_connection s)
    | PollEnd => set_poller j (mkPoller PollDone got) (set_streaming false s)
    | PollDone => s
    end
  | None => s
  end.

(** [join]: the handle is taken, then the thread is waited for *)
Definition join_take (s : Streamer) : option nat * Streamer :=
  (streamer_handle s, mkStreamer (conns s) (working s) (streaming s) None (pollers s)).
Definition join_returns (j : nat) (s : Streamer) : bool :=
  match pollers s !! j with Some (mkPoller PollDone _) => true | _ => false end.

(** the two steps of [close] *)
Definition close_streaming (s : Streamer) : Streamer := set_streaming false s.
Definition stream_close (s : Streamer) : Streamer := cleanup_connection (close_streaming s).

(** ** Runs *)

Inductive st_op : Type :=
| StApi (factory : option str)
| StSend (factory failed : option str) (data : list Z)
| StCleanup
| StStart (factory thread : option str)
| StPoll (j : nat) (factory : option str) (next : option (res str (list Z)))
| StJoin
| StStop.

Definition st_step (s : Streamer) (o : st_op) : Streamer :=
  match o with
  | StApi factory => (get_api factory s).2
  | StSend factory failed data => (stream_send_packet factory failed data s).2
  | StCleanup => cleanup_connection s
  | StStart factory thread => (start_streaming factory thread s).2
  | StPoll j factory next => poller_step j factory next s
  | StJoin => (join_take s).2
  | StStop => close_streaming s
  end.

Definition run_st (s : Streamer) (ops : list st_op) : Streamer := foldl st_step s ops.

(** ** Waiting for the server *)

Definition RECONNECT_TIMES_MS : list Z := [100; 200; 500; 1000; 2000; 5000; 10000].

(** the wait after the failed try number [attempt] *)
Definition wait_of (wait_times : list Z) (attempt : nat) : option Z :=
  wait_times !! Nat.min attempt (pred (length wait_times)).

(** [connect attempt]: the result of the try; the result and the waits before it,
    [None] when the fuel is used up *)
Fixpoint wait_reconnect {T} (fuel : nat) (connect : nat -> res str T) (wait_times : list Z) (attempt : nat)
    : option (res str T * list Z) :=
  match fuel with
  | O => None
  | S fuel =>
    match connect attempt with
    | Ok connection => Some (Ok connection, [])
    | Panic => Some (Panic, [])
    | Err err =>
      match wait_of wait_times attempt with
      | None => Some (Err err, [])
      | Some wait =>
        '(r, waits) ← wait_reconnect fuel connect wait_times (S attempt); Some (r, wait :: waits)
      end
    end
  end.

(** the closure [connect] of [open_ip_endpoint]: [dial attempt] is the result of
    [TcpRpcClient::connect], the initializer acts on the new client *)
Definition ip_connect {T} (dial : nat -> res str T) (initializer : option (T -> T)) (attempt : nat) : res str T :=
  client ← dial attempt;
  Ok (match initializer with Some f => f client | None => client end).

(** the factory of [open_ip_endpoint] *)
Definition ip_factory {T} (fuel : nat) (dial : nat -> res str T) (initializer : option (T -> T)) (reconnect : bool)
    : option (res str T * list Z) :=
  let connect := ip_connect dial initializer in
  if reconnect then wait_reconnect fuel connect RECONNECT_TIMES_MS 0 else Some (connect 0%nat, []).

(** ** Lemmas: connections *)

(** the connections that were not closed are the working one *)
Record st_inv (s : Streamer) : Prop := {
  st_working : forall c, working s = Some c -> exists x, conns s !! c = Some x /\ conn_closed x = false;
  st_closed : forall c x, conns s !! c = Some x -> conn_closed x = false -> working s = Some c;
  st_next : forall j c got, pollers s !! j = Some (mkPoller (PollNext c) got) -> (c < length (conns s))%nat;
}.

(** a step that leaves the connections alone *)
Lemma st_inv_frame s s' : st_inv s -> conns s' = conns s -> working s' = working s ->
  (forall j c got, pollers s' !! j = Some (mkPoller (PollNext c) got) ->
     exists got', pollers s !! j = Some (mkPoller (PollNext c) got')) -> st_inv s'.
Proof.
  intros [H1 H2 H3] Hc Hw Hp. split; rewrite ?Hc, ?Hw; [done|done|].
  intros j c got Hj. destruct (Hp j c got Hj) as [got' Hg]. by eapply H3.
Qed.

Lemma get_api_inv factory s : st_inv s -> st_inv (get_api factory s).2
  /\ (forall c, (get_api factory s).1 = Ok c -> working (get_api factory s).2 = Some c
       /\ (c < length (conns (get_api factory s).2))%nat).
Proof.
  intros Hs. pose proof Hs as [H1 H2 H3]. unfold get_api. destruct (working s) as [c|] eqn:Hw.
  { split; [done|]. intros c' [= <-]. split; [done|].
    destruct (H1 c eq_refl) as (x & Hx & _). by eapply lookup_lt_Some. }
  destruct factory as [err|]; [done|]. cbn. split.
  - split; cbn.
    + intros c [= <-]. eexists. split; [by apply list_lookup_middle|done].
    + intros c x Hc Hx. apply lookup_snoc_Some in Hc as [[_ Hc]|[-> _]]; [|done]. specialize (H2 c x Hc Hx). congruence.
    + intros j c got Hj. rewrite length_app. cbn. specialize (H3 j c got Hj). lia.
  - intros c [= <-]. split; [done|]. rewrite length_app. cbn. lia.
Qed.

(** changes of a connection that do not open it *)
Lemma alter_conn_inv s (f : Conn -> Conn) c w : st_inv s -> working s = Some c ->
  (forall x, conn_closed (f x) = false -> conn_closed x = false) ->
  (w = Some c /\ (forall x, conn_closed (f x) = conn_closed x) \/ w = None /\ (forall x, conn_closed (f x) = true)) ->
  st_inv (set_working (alter f c (conns s)) w s).
Proof.
  intros [H1 H2 H3] Hw Hf Hcase. destruct (H1 c Hw) as (x & Hx & Hxc). split; cbn.
  - intros c' ->. destruct Hcase as [[[= ->] Hk]|[? _]]; [|done]. exists (f x).
    rewrite list_lookup_alter_eq, Hx. split; [done|]. by rewrite Hk.
  - intros c' y Hy Hyc. destruct (decide (c = c')) as [<-|Hne].
    + rewrite list_lookup_alter_eq, Hx in Hy. injection Hy as <-.
      destruct Hcase as [[-> _]|[_ Hk]]; [done|]. rewrite Hk in Hyc. done.
    + rewrite list_lookup_alter_ne in Hy by done. specialize (H2 c' y Hy Hyc). congruence.
  - intros j c' got Hj. rewrite length_alter. by eapply H3.
Qed.

Lemma cleanup_inv s : st_inv s -> st_inv (cleanup_connection s) /\ working (cleanup_connection s) = None.
Proof.
  intros Hs. unfold cleanup_connection. destruct (working s) as [c|] eqn:Hw; [|by split].
  split; [|done]. apply alter_conn_inv; [done|done|done|]. by right.
Qed.

Lemma set_poller_inv j p s : st_inv s ->
  (forall c got, p = mkPoller (PollNext c) got -> (c < length (conns s))%nat) -> st_inv (set_poller j p s).
Proof.
  intros [H1 H2 H3] Hp. split; cbn; [done|done|]. intros i c got Hi.
  apply list_lookup_insert_Some in Hi as [(-> & -> & _)|[_ Hi]]; [by eapply Hp|by eapply H3].
Qed.

Lemma st_step_inv s o : st_inv s -> st_inv (st_step s o).
Proof.
  intros Hs. destruct o as [factory|factory failed data| |factory thread|j factory next| |]; cbn [st_step].
  - by apply get_api_inv.
  - unfold stream_send_packet. destruct (get_api_inv factory s Hs) as [Hi Hok].
    destruct (get_api factory s) as [[c|err|] s1]; [|done..]. cbn in Hi, Hok.
    destruct failed; [done|]. cbn. destruct (Hok c eq_refl) as [Hw _]. apply alter_conn_inv; [done|done|done|].
    left. by rewrite Hw.
  - by apply cleanup_inv.
  - unfold start_streaming. destruct (streamer_handle s); [done|].
    destruct (get_api_inv factory s Hs) as [Hi _]. destruct (get_api factory s) as [[c|err|] s1]; [|done..].
    destruct thread; [by apply (st_inv_frame s1); eauto|].
    apply (st_inv_frame s1); [done..|]. cbn. intros j c' got Hj.
    apply lookup_snoc_Some in Hj as [[_ ?]|[_ ?]]; [by eauto|done].
  - unfold poller_step. destruct (pollers s !! j) as [[st got]|]; [|done].
    destruct st as [| |c| | | |]; try done.
    + apply set_poller_inv; [done|]. by destruct (streaming s).
    + destruct (get_api_inv factory s Hs) as [Hi Hok].
      destruct (get_api factory s) as [[c|err|] s1]; apply set_poller_inv; try done.
      intros c' got' [= <- _]. by apply Hok.
    + destruct next as [[packet|err|]|]; [apply set_poller_inv; done..|done].
    + apply set_poller_inv; [done|]. by destruct (streaming s).
    + apply set_poller_inv; [by apply cleanup_inv|done].
    + apply set_poller_inv; [|done]. by apply (st_inv_frame s); eauto.
  - apply (st_inv_frame s); [done..|]. by eauto.
  - apply (st_inv_frame s); [done..|]. by eauto.
Qed.

Lemma run_st_inv s ops : st_inv s -> st_inv (run_st s ops).
Proof. revert s. induction ops as [|o t IH]; intros s Hs; [done|]. cbn. by apply IH, st_step_inv. Qed.

Lemma streamer_new_inv : st_inv streamer_new.
Proof. by split. Qed.

(** ** Lemmas: ending *)

(** an upper bound of the steps that a thread needs to end when streaming is off *)
Definition rank (st : PollState) : nat :=
  match st with
  | PollDone => 0
  | PollEnd => 1
  | PollHead | PollErr => 2
  | PollCleanup | PollNext _ => 3
  | PollApi => 4
  end.

(** steps after [close]: nobody starts streaming again, and the receiving calls
    of thread [j] fail as its connection is closed *)
Definition after_close (j : nat) (o : st_op) : Prop :=
  match o with
  | StStart _ _ => False
  | StPoll i _ next => i = j -> exists err, next = Some (Err err)
  | _ => True
  end.

Definition polls (j : nat) (ops : list st_op) : nat :=
  list_sum (map (fun o => match o with StPoll i _ _ => if bool_decide (i = j) then 1%nat else 0%nat | _ => 0%nat end) ops).

Lemma get_api_pollers factory s : pollers (get_api factory s).2 = pollers s
  /\ streaming (get_api factory s).2 = streaming s.
Proof. unfold get_api. destruct (working s); [done|]. by destruct factory. Qed.

Lemma cleanup_pollers s : pollers (cleanup_connection s) = pollers s
  /\ streaming (cleanup_connection s) = streaming s.
Proof. unfold cleanup_connection. by destruct (working s). Qed.

Lemma other_step_poller s o j p : after_close j o -> (forall f n, o <> StPoll j f n) -> streaming s = false ->
  pollers s !! j = Some p -> pollers (st_step s o) !! j = Some p /\ streaming (st_step s o) = false.
Proof.
  intros Ho Hno Hs Hj. destruct o as [factory|factory failed data| |factory thread|i factory next| |]; try done; cbn [st_step].
  - destruct (get_api_pollers factory s) as [-> ->]. done.
  - unfold stream_send_packet. destruct (get_api_pollers factory s) as [E1 E2].
    destruct (get_api factory s) as [[c|err|] s1]; cbn in E1, E2; [destruct failed|..]; cbn; by rewrite E1, E2.
  - destruct (cleanup_pollers s) as [-> ->]. done.
  - assert (i <> j) as Hi by (intros ->; by apply (Hno factory next)).
    unfold poller_step. destruct (pollers s !! i) as [[st got]|]; [|done].
    destruct st as [| |c| | | |]; cbn; rewrite ?list_lookup_insert_ne by done; try done.
    + destruct (get_api_pollers factory s) as [E1 E2].
      destruct (get_api factory s) as [[c|err|] s1]; cbn in *; rewrite list_lookup_insert_ne, E1, E2; done.
    + destruct next as [[packet|err|]|]; cbn; rewrite ?list_lookup_insert_ne by done; done.
    + destruct (cleanup_pollers s) as [-> ->]. done.
Qed.

Lemma own_step_poller s j factory err p : streaming s = false -> pollers s !! j = Some p -> poll_state p <> PollApi ->
  exists p', pollers (poller_step j factory (Some (Err err)) s) !! j = Some p'
    /\ streaming (poller_step j factory (Some (Err err)) s) = false
    /\ poll_state p' <> PollApi /\ (rank (poll_state p') <= pred (rank (poll_state p)))%nat.
Proof.
  intros Hs Hj Hp. pose proof (lookup_lt_Some _ _ _ Hj) as Hlt. unfold poller_step. rewrite Hj, Hs.
  destruct p as [st got]. destruct st as [| |c| | | |]; try done; cbn.
  all: try (eexists; split; [by apply list_lookup_insert_eq|]; split; [done|]; split; [done|cbn; lia]).
  - destruct (cleanup_pollers s) as [E1 E2]. rewrite E1, E2. eexists.
    split; [by apply list_lookup_insert_eq|]. split; [done|]. split; [done|cbn; lia].
  - by exists (mkPoller PollDone got).
Qed.

Lemma poller_ends s ops j p : streaming s = false -> pollers s !! j = Some p -> poll_state p <> PollApi ->
  Forall (after_close j) ops -> (rank (poll_state p) <= polls j ops)%nat -> join_returns j (run_st s ops) = true.
Proof.
  intros Hs Hj Hp Hops. revert s p Hs Hj Hp. induction Hops as [|o t Ho _ IH]; intros s p Hs Hj Hp Hn.
  { unfold join_returns. cbn in *. rewrite Hj. destruct p as [[| |c| | | |] got]; cbn in Hn; try done; lia. }
  cbn [run_st foldl].
  assert ((exists f err, o = StPoll j f (Some (Err err)) /\ polls j (o :: t) = S (polls j t))
    \/ ((forall f n, o <> StPoll j f n) /\ polls j (o :: t) = polls j t)) as [(f & err & -> & Hc)|[Hno Hc]].
  { destruct o as [| | | |i f next| |]; try (by right). destruct (decide (i = j)) as [->|Hi].
    - left. destruct (Ho eq_refl) as [err ->]. exists f, err. split; [done|]. unfold polls. cbn.
      by rewrite bool_decide_true.
    - right. split; [congruence|]. unfold polls. cbn. by rewrite bool_decide_false. }
  - destruct (own_step_poller s j f err p Hs Hj Hp) as (p' & H1 & H2 & H3 & H4).
    apply (IH _ p'); [done..|]. lia.
  - destruct (other_step_poller s o j p Ho Hno Hs Hj) as [H1 H2]. apply (IH _ p); [done..|]. lia.
Qed.

(** ** Properties *)

(** No connection leaks.  In every run, with calls from any threads, every
    connection that the streamer opened is closed, except the working one, which
    is open. *)
Theorem one_open_connection ops c x (s := run_st streamer_new ops) : conns s !! c = Some x ->
  conn_closed x = false <-> working s = Some c.
Proof.
  intros Hc. pose proof (run_st_inv _ ops streamer_new_inv) as [H1 H2 _]. split; [by apply H2|].
  intros Hw. destruct (H1 c Hw) as (y & Hy & Hyc). unfold s in Hc. congruence.
Qed.

Lemma one_open_connection_witness :
  let s := run_st streamer_new [StStart None None; StPoll 0 None None; StPoll 0 None None; StPoll 0 None (Some (Err []));
                                StPoll 0 None None; StPoll 0 None None; StSend None None [1]] in
  map conn_closed (conns s) = [true; false] /\ working s = Some 1%nat.
Proof.
  intros s. split; [vm_compute; reflexivity|].
  apply (one_open_connection _ 1 (mkConn false [[1]])); vm_compute; reflexivity.
Defined.



(** A thread that has seen [run] set and is just opening its connection is not
    ended by [close]: [close] finds no working connection or closes the old one,
    the thread opens a new one and waits on it, and [join] does not return. *)
Theorem close_misses_opening_thread :
  let s := run_st (stream_close (run_st streamer_new [StStart None None; StPoll 0 None None]))
             [StPoll 0 None None; StPoll 0 None None] in
  map poll_state (pollers s) = [PollNext 1] /\ map conn_closed (conns s) = [true; false]
  /\ streaming s = false /\ join_returns 0 s = false.
Proof. vm_compute. done. Qed.

(** A streaming that ended by itself can not be started again before [join]. *)
Theorem ended_streaming_refused :
  let s := run_st streamer_new [StStart None None; StPoll 0 None None; StPoll 0 None None; StPoll 0 None (Some (Err []));
             StPoll 0 None None; StPoll 0 None None; StPoll 0 None None; StPoll 0 (Some []) None; StPoll 0 None None] in
  join_returns 0 s = true /\ (start_streaming None None s).1 = Err $"Packet streaming already running".
Proof. vm_compute. done. Qed.

(** Waiting for the server.  When the try number [n] is the first one that
    succeeds, [wait_reconnect] with a non-empty list of waiting times returns its
    connection after exactly [n] waits, the k-th one being the k-th time of the
    list, or the last time when the list is used up; with an empty list the first
    error is returned at once. *)
Theorem wait_reconnect_spec {T} (connect : nat -> res str T) n v wait_times :
  connect n = Ok v -> (forall k, (k < n)%nat -> exists err, connect k = Err err) ->
  (wait_times <> [] -> exists waits, wait_reconnect (S n) connect wait_times 0 = Some (Ok v, waits)
     /\ length waits = n
     /\ forall k, (k < n)%nat -> waits !! k = wait_times !! Nat.min k (pred (length wait_times)))
  /\ (0 < n -> exists err, wait_reconnect 1 connect [] 0 = Some (Err err, []))%nat.
Proof.
  intros Hn Hlt. split.
  2: { intros H0. destruct (Hlt 0%nat H0) as [err He]. exists err. cbn. by rewrite He. }
  intros Hw.
  assert (forall k, exists wait, wait_of wait_times k = Some wait) as Hwait.
  { intros k. unfold wait_of. destruct (lookup_lt_is_Some_2 wait_times (Nat.min k (pred (length wait_times)))) as [x Hx];
      [|by exists x]. destruct wait_times; [done|]. cbn. lia. }
  assert (forall m a, (a + m = n)%nat -> exists waits, wait_reconnect (S m) connect wait_times a = Some (Ok v, waits)
    /\ length waits = m /\ forall k, (k < m)%nat -> waits !! k = wait_of wait_times (a + k)) as Hgen.
  { induction m as [|m IH]; intros a Ha.
    - exists []. cbn. replace a with n by lia. rewrite Hn. split; [done|]. split; [done|]. lia.
    - destruct (IH (S a)) as (waits & Hr & Hl & Hk); [lia|]. destruct (Hlt a) as [err He]; [lia|].
      destruct (Hwait a) as [wait Hwa]. exists (wait :: waits).
      change (wait_reconnect (S (S m)) connect wait_times a) with
        (match connect a with
         | Ok connection => Some (Ok connection, [])
         | Panic => Some (Panic, [])
         | Err err => match wait_of wait_times a with
                      | None => Some (Err err, [])
                      | Some wait => '(r, waits) ← wait_reconnect (S m) connect wait_times (S a); Some (r, wait :: waits)
                      end
         end).
      rewrite He, Hwa, Hr. split; [done|]. split; [cbn; lia|]. intros [|k] Hkm; [by rewrite Nat.add_0_r|].
      cbn. rewrite Hk by lia. f_equal. lia. }
  destruct (Hgen n 0%nat eq_refl) as (waits & H1 & H2 & H3). exists waits. split; [done|]. split; [done|].
  exact H3.
Qed.

Lemma wait_reconnect_spec_witness :
  exists waits, wait_reconnect 9 (fun k => if Nat.eqb k 8 then Ok tt else Err []) RECONNECT_TIMES_MS 0
    = Some (Ok tt, waits) /\ length waits = 8%nat /\ waits !! 7%nat = Some 10000.
Proof.
  destruct (wait_reconnect_spec (fun k => if Nat.eqb k 8 then Ok tt else Err []) 8 tt RECONNECT_TIMES_MS)
    as [H _].
  - reflexivity.
  - intros k Hk. exists []. destruct (Nat.eqb_spec k 8); [lia|reflexivity].
  - destruct (H ltac:(discriminate)) as (waits & H1 & H2 & H3). exists waits. split; [exact H1|].
    split; [exact H2|]. rewrite H3 by lia. reflexivity.
Defined.
