(* ===== verification/Servers.v ===== *)
(** * The server commands

    Models [src/apps/rpc_server.rs] (the RPC server and how it opens the gateway)
    and [src/apps/service.rs] (the file service).  Starting a process, looking
    whether it still runs, binding a port and canonicalising a directory are
    parameters; a try to open the gateway is a function of its number. *)

From stdpp Require Import base list numbers option strings.
From Stdlib Require Import ZArith Lia.
From S2P Require Import Prelude RustStd Cli Tools Apps Framing Connector Endpoint Streamer.

(** ** The RPC server *)

Definition SERVER_PORT : CliEntry := mkEntry [$"p"; $"-port"] $"Rpc listen port".
Definition SERIAL_DEV : CliEntry := mkEntry [$"s"; $"-serial-device"] $"Serial device path".
Definition DIRECT_SERIAL_DEVICE : CliEntry := mkEntry [$"i"; $"-direct-serial-device"] $"Direct serial driver".
Definition MODE : CliEntry := mkEntry [$"m"; $"-mode"] $"Rpc backend mode (serial, dummy)".
Definition SERVER_ENTRIES : list CliEntry :=
  [WORK_DIR; SERVER_PORT; SERIAL_DEV; SERIAL_BAUD; RECONNECT; DIRECT_SERIAL_DEVICE; MODE].

Definition GATEWAY_PACKET_ESCAPE : Z := 0xff.
Definition ARDUINO_BOOTLOADER_WAIT : Z := 2000.

(** [try_wait]: the exit status of the process if it ended, or the error of asking *)
Definition ensure_running (try_wait : res str (option str)) (io : bool) : Opened :=
  if io then
    match try_wait with
    | Ok (Some status) => Err ($"Communication process is dead. Exit status: " ++ status)
    | Ok None => Ok io
    | Err err => Err err
    | Panic => Panic
    end
  else Ok io.

(** the operating system at one try to open the gateway *)
Record gateway_try : Type := mkTry {
  try_spawn : Command -> option str;
  try_status : res str (option str);
}.

(** one try: the stream, and the time that was slept for the bootloader *)
Definition open_try (direct : option str) (serial : str) (baud : Z) (os : gateway_try) : Opened * list Z :=
  match direct with
  | Some command =>
    (io ← open_direct_serial (try_spawn os) command serial baud; ensure_running (try_status os) io, [])
  | None =>
    match open_serial (try_spawn os) serial baud with
    | Ok io => (ensure_running (try_status os) io, [ARDUINO_BOOTLOADER_WAIT])
    | Err err => (Err err, [])
    | Panic => (Panic, [])
    end
  end.

(** the factory of the connector: tries until a stream is open *)
Definition open_gateway (fuel : nat) (direct : option str) (serial : str) (baud : Z) (os : nat -> gateway_try)
    : option (Opened * list Z) :=
  wait_reconnect fuel (fun k => (open_try direct serial baud (os k)).1) RECONNECT_TIMES_MS 0.

(** the options of the serial connection; what is missing is printed *)
Definition serial_options (args : CliArgs) : res str (option (str * Z * option str) * list output) :=
  let serial := get_simple SERIAL_DEV args in
  baud ← parse parse_u32 SERIAL_BAUD args;
  let direct_command := get_simple DIRECT_SERIAL_DEVICE args in
  let missing := match serial with None => [Stderr $"No Serial port specified."] | _ => [] end
                 ++ match baud with None => [Stderr $"No Serial baud rate specified."] | _ => [] end in
  match serial, baud with
  | Some serial, Some baud => Ok (Some (serial, baud, direct_command), missing)
  | _, _ => Ok (None, missing)
  end.

Definition closed_handler (args : CliArgs) : OnStreamClosed :=
  if has_option RECONNECT args then Reconnect else CallHandler.

(** [create_serial_packet_connector]; the outer [None] when the fuel is used up *)
Definition create_serial_packet_connector (fuel : nat) (os : nat -> gateway_try) (args : CliArgs)
    : option (res str (option Inner) * list output) :=
  match serial_options args with
  | Ok (None, printed) => Some (Ok None, printed)
  | Ok (Some (serial, baud, direct), printed) =>
    '(opened, _) ← open_gateway fuel direct serial baud os;
    Some (match connector_new opened GATEWAY_PACKET_ESCAPE (closed_handler args) with
          | Ok c => Ok (Some c)
          | Err err => Err err
          | Panic => Panic
          end, printed)
  | Err err => Some (Err err, [])
  | Panic => Some (Panic, [])
  end.

(** [bind]: every interface, IPv6 where it is available; [listen]: the error of a bind *)
Definition bind (listen : str -> Z -> option str) (port : Z) : res str str :=
  match listen $"::" port with
  | None => Ok $"::"
  | Some _ => match listen $"0.0.0.0" port with None => Ok $"0.0.0.0" | Some err => Err err end
  end.

(** how the server starts; the connector is [None] in the dummy mode *)
Inductive server_start : Type :=
| ServerHelp (code : Z)
| ServerFailed (err : str)
| ServerRuns (connector : option Inner) (endpoint : Endpoint) (address : str) (port : Z).

(** after the connector: the endpoint and the port; [listen_error]: the error of
    [start_listen] of the connector, if any *)
Definition serve_on (listen : str -> Z -> option str) (listen_error : option str) (dummy : bool) (port : Z) (connector : option Inner)
    : option server_start :=
  match listen_error with
  | Some err => Some (ServerFailed err)
  | None =>
    let endpoint := endpoint_new (negb dummy) dummy in
    match bind listen port with
    | Ok address => Some (ServerRuns connector endpoint address port)
    | Err err => Some (ServerFailed ($"Can't listen on the RPC port " ++ show_int port ++ $": " ++ err))
    | Panic => None
    end
  end.

Definition server_main (fuel : nat) (os : nat -> gateway_try) (listen : str -> Z -> option str) (listen_error : option str)
    (args : list str) : option server_start :=
  match parse_or_help args SERVER_ENTRIES with
  | None => None
  | Some (ExitWithHelp code) => Some (ServerHelp code)
  | Some (Parsed pa) =>
    match parse_or parse_u16 SERVER_PORT pa DEFAULT_RPC_PORT with
    | Panic => None
    | Err err => Some (ServerFailed err)
    | Ok port =>
      let mode := default $"serial" (get_simple MODE pa) in
      if bool_decide (mode = $"serial") then
        '(r, _) ← create_serial_packet_connector fuel os pa;
        match r with
        | Ok (Some c) => serve_on listen listen_error false port (Some c)
        | Ok None => Some (ServerHelp 2)
        | Err err => Some (ServerFailed err)
        | Panic => None
        end
      else if bool_decide (mode = $"dummy") then serve_on listen None true port None
      else Some (ServerHelp 2)
    end
  end.

(** ** The file service *)

Definition RPC_PATH : CliEntry := mkEntry [$"P"; $"-path"] $"Rpc prefix path to service".
Definition FTP_DIRECTORY : CliEntry := mkEntry [$"d"; $"-directory"] $"FTP directory root in the local filesystem".
Definition FTP_ENTRIES : list CliEntry := [RPC_HOST; RPC_PORT; FROM; RPC_PATH; FTP_DIRECTORY].
Definition USAGE : str :=
  $"Usage: ub service <service>" ++ [10; 10] ++ $"Services:" ++ [10; 9] ++ $"ftp" ++ [9; 9]
  ++ $"Serves the files of a directory on the bus" ++ [10].

Inductive service_start : Type :=
| ServiceHelp (code : Z)
| ServiceFailed (err : str)
| ServiceRuns (root : str) (server : str * Z) (address : Z) (path : list Z).

Section Service.
(** [FtpBusService::new], and the text of a [ParseIntError] *)
Variables (ftp_new : str -> res str str) (colon_error : str -> str).

Definition ftp (args : list str) : option service_start :=
  match parse_or_help args FTP_ENTRIES with
  | None => None
  | Some (ExitWithHelp code) => Some (ServiceHelp code)
  | Some (Parsed pa) =>
    match get_simple FTP_DIRECTORY pa with
    | None => Some (ServiceHelp 1)
    | Some dir =>
      let path := match get_simple RPC_PATH pa with
                  | Some path => ok_or (parse_colon_data path) ($"Invalid path `" ++ path ++ $"`: " ++ colon_error path)
                  | None => Ok []
                  end in
      match (path ← path;
             root ← map_err (fun err => $"Can't serve the directory `" ++ dir ++ $"`: " ++ err) (ftp_new dir);
             '(host, port, from) ← cli_bus_connect pa;
             Ok (ServiceRuns root (host, port) from path)) with
      | Ok s => Some s
      | Err err => Some (ServiceFailed err)
      | Panic => None
      end
    end
  end.

Definition service_main (args : list str) : option service_start :=
  match args with
  | service :: rest => if bool_decide (service = $"ftp") then ftp rest else Some (ServiceHelp 1)
  | [] => Some (ServiceHelp 1)
  end.

End Service.

(** ** Lemmas *)

(** the program that is started for the gateway *)
Definition gateway_command (direct : option str) (serial : str) (baud : Z) : Command :=
  match direct with
  | Some command => mkCommand command [serial; show_nat baud]
  | None => mkCommand $"socat" (serial_socat_args serial baud)
  end.

(** the process was started and still runs *)
Definition try_works (direct : option str) (serial : str) (baud : Z) (os : gateway_try) : Prop :=
  try_spawn os (gateway_command direct serial baud) = None /\ try_status os = Ok None.

Lemma open_try_spec direct serial baud os : try_status os <> Panic ->
  match (open_try direct serial baud os).1 with
  | Ok io => io = true /\ try_works direct serial baud os
  | Err _ => ~ try_works direct serial baud os
  | Panic => False
  end.
Proof.
  intros Hnp. unfold open_try, open_direct_serial, open_serial, open_communicator_process, try_works, gateway_command.
  destruct direct as [command|]; (destruct (try_spawn os _) as [err|]; [cbn; naive_solver|]);
    cbn; destruct (try_status os) as [[status|]|err|]; naive_solver.
Qed.

Lemma wait_of_some attempt : exists wait, wait_of RECONNECT_TIMES_MS attempt = Some wait.
Proof. unfold wait_of. apply lookup_lt_is_Some_2. cbn. lia. Qed.

(** a retried connection that was had, came from the first try that worked *)
Lemma wait_reconnect_inv {T} fuel (connect : nat -> res str T) times attempt v waits :
  wait_reconnect fuel connect times attempt = Some (Ok v, waits) ->
  connect (attempt + length waits)%nat = Ok v /\ forall j, (j < length waits)%nat -> exists err, connect (attempt + j)%nat = Err err.
Proof.
  revert attempt waits. induction fuel as [|fuel IH]; intros attempt waits; [done|]. cbn [wait_reconnect].
  destruct (connect attempt) as [a|err|] eqn:Hc; [| |done].
  - intros [= -> <-]. cbn. rewrite Nat.add_0_r. split; [done|]. lia.
  - destruct (wait_of times attempt) as [wait|]; [|done].
    destruct (wait_reconnect fuel connect times (S attempt)) as [[r rest]|] eqn:Hr; [|done]. cbn. intros [= -> <-].
    destruct (IH (S attempt) rest Hr) as [H1 H2]. cbn [length]. rewrite <- Nat.add_succ_comm. split; [done|].
    intros [|j] Hj; [rewrite Nat.add_0_r; eauto|]. rewrite <- Nat.add_succ_comm. apply H2. lia.
Qed.

(** and when a try works, the connection is had *)
Lemma wait_reconnect_ends {T} n (connect : nat -> res str T) attempt v :
  (forall k, connect k <> Panic) -> connect (attempt + n)%nat = Ok v ->
  exists v' waits, wait_reconnect (S n) connect RECONNECT_TIMES_MS attempt = Some (Ok v', waits).
Proof.
  intros Hnp. revert attempt. induction n as [|n IH]; intros attempt Hv.
  - rewrite Nat.add_0_r in Hv. cbn. rewrite Hv. eauto.
  - cbn [wait_reconnect]. destruct (connect attempt) as [a|err|] eqn:Hc; [eauto| |by destruct (Hnp attempt)].
    destruct (wait_of_some attempt) as [wait ->]. rewrite <- Nat.add_succ_comm in Hv.
    destruct (IH (S attempt) Hv) as (v' & waits & Hw). cbn [wait_reconnect] in Hw. rewrite Hw. cbn. eauto.
Qed.

(** ** Properties *)

(** C31: Opening the gateway.  The server uses only a stream whose process was
    started with the configured program and still ran afterwards; it is the
    first such try, with one wait before each further try, and if any try works
    the server gets its connector: a fresh stream with its process, the escape
    byte of the gateway and the reaction to a broken stream that was asked for. *)
Theorem gateway_opened fuel n os pa serial baud direct printed :
  serial_options pa = Ok (Some (serial, baud, direct), printed) -> (forall k, try_status (os k) <> Panic) ->
  (forall c printed', create_serial_packet_connector fuel os pa = Some (Ok (Some c), printed') ->
     connector_new (Ok true) GATEWAY_PACKET_ESCAPE (closed_handler pa) = Ok c
     /\ exists k waits, open_gateway fuel direct serial baud os = Some (Ok true, waits) /\ length waits = k
        /\ try_works direct serial baud (os k) /\ forall j, (j < k)%nat -> ~ try_works direct serial baud (os j))
  /\ (try_works direct serial baud (os n) ->
      exists c, create_serial_packet_connector (S n) os pa = Some (Ok (Some c), printed)).
Proof.
  intros Ho Hnp. unfold create_serial_packet_connector, open_gateway. rewrite Ho.
  assert (forall k, match (open_try direct serial baud (os k)).1 with
    | Ok io => io = true /\ try_works direct serial baud (os k)
    | Err _ => ~ try_works direct serial baud (os k) | Panic => False end) as Htry
    by (intros k; by apply open_try_spec).
  split.
  - intros c printed'.
    destruct (wait_reconnect fuel _ RECONNECT_TIMES_MS 0) as [[[io|err|] waits]|] eqn:Hw; cbn; try done.
    intros [= <- <-]. apply wait_reconnect_inv in Hw as Hi. destruct Hi as [H1 H2]. cbn [Nat.add] in H1, H2.
    pose proof (Htry (length waits)) as Hl. rewrite H1 in Hl. destruct Hl as [-> Hworks]. split; [done|].
    exists (length waits), waits. split; [done|]. split; [done|]. split; [done|]. intros j Hj.
    destruct (H2 j Hj) as [err He]. specialize (Htry j). by rewrite He in Htry.
  - intros Hworks. destruct ((open_try direct serial baud (os n)).1) as [io|err|] eqn:Hn.
    + destruct (wait_reconnect_ends n (fun k => (open_try direct serial baud (os k)).1) 0 io) as (v' & waits & ->); [|done|].
      * intros k Hk. specialize (Htry k). by rewrite Hk in Htry.
      * cbn. eauto.
    + specialize (Htry n). by rewrite Hn in Htry.
    + specialize (Htry n). by rewrite Hn in Htry.
Qed.

(** the first process can not be started, the second one dies, the third one runs *)
Definition example_os (k : nat) : gateway_try :=
  match k with
  | O => mkTry (fun _ => Some $"No such file") (Ok None)
  | 1%nat => mkTry (fun _ => None) (Ok (Some $"1"))
  | _ => mkTry (fun _ => None) (Ok None)
  end.
Definition example_args : CliArgs :=
  match parse_cli_opts [$"-s"; $"/dev/ttyUSB0"; $"-b"; $"115200"; $"-r"] with Ok pa => pa | _ => ∅ end.

Lemma gateway_opened_witness :
  (exists c, create_serial_packet_connector 3 example_os example_args = Some (Ok (Some c), []))
  /\ forall c printed, create_serial_packet_connector 3 example_os example_args = Some (Ok (Some c), printed) ->
       connector_new (Ok true) 255 Reconnect = Ok c.
Proof.
  destruct (gateway_opened 3 2 example_os example_args $"/dev/ttyUSB0" 115200 None []) as [H1 H2].
  - vm_compute. reflexivity.
  - intros [|[|k]]; discriminate.
  - split; [apply H2; by split|]. intros c printed Hc. by apply (H1 c printed).
Defined.

Example server_dummy :
  server_main 1 example_os (fun host _ => if bool_decide (host = $"::") then Some $"no IPv6" else None) None
    [$"-m"; $"dummy"; $"-p"; $"2113"]
  = Some (ServerRuns None new_dummy $"0.0.0.0" 2113).
Proof. vm_compute. reflexivity. Qed.

Example service_ftp :
  service_main (fun dir => Ok dir) (fun _ => []) [$"ftp"; $"-d"; $"/srv"; $"-f"; $"16"; $"-P"; $"32:1"]
  = Some (ServiceRuns $"/srv" ($"127.0.0.1", 2112) 16 [32; 1]).
Proof. vm_compute. reflexivity. Qed.
