(* ===== verification/Service.v ===== *)
(** * Services: serving RPC functions on the bus

    Models [src/rpc/service.rs].  A [UbService] is its [call] function; a
    selected sub namespace is a service again.  What a service does besides its
    answer is not part of the model: the answer is a function of the index and
    of the reader with the rest of the request.  Responses that the bridge sends
    and its log lines are its outputs. *)

From stdpp Require Import base list numbers option strings.
From Stdlib Require Import ZArith Lia.
From S2P Require Import Prelude RustStd Tools VarInt Packet RpcTools.

Inductive ServiceError : Type :=
| ErrPosix (errno : Z)
| Internal (message : str).

Inductive UbService : Type :=
| MkService (call : Z -> PacketReader -> option ServiceCall * PacketReader)
with ServiceReply : Type :=
| ReplyNoReturn
| ReplyVoid
| ReplyValue (value : RpcValue)
| ReplyNamespace (next : UbService)
with ServiceCall : Type :=
| MkCall (posix : bool) (result : ServiceReply + ServiceError).

Definition service_call (s : UbService) (index : Z) (params : PacketReader)
    : option ServiceCall * PacketReader :=
  match s with MkService call => call index params end.

Definition call_plain (result : ServiceReply + ServiceError) : ServiceCall := MkCall false result.
Definition call_posix (result : ServiceReply + ServiceError) : ServiceCall := MkCall true result.

(** ** The bridge *)

Record UartbusServiceBridge : Type := bridge_new {
  service : UbService;
  target_address : option Z;
  bridge_path : list Z;
}.

Inductive bridge_output : Type :=
| Response (packet : list Z)
| LogWarning (text : str).

Section Bridge.
Context {NB : NumBigint}.

Definition response_packet (request : ParsedUartBusPacket) (path_end : nat) (values : list RpcValue)
    : res never (list bridge_output) :=
  let '(r, assembler) := write_addressing (to request) (from request) assembler_new in
  match r with
  | Ok _ =>
    path ← slice (payload request) 0 path_end;
    let assembler := write_blob path (write_u8 0 assembler) in
    let '(r, assembler) := append_elements values assembler in
    match r with
    | Ok _ => Ok [Response (fst (done (append_crc8 assembler)))]
    | Err err => Ok [LogWarning ($"Can't build response: " ++ PackError_fmt err)]
    | Panic => Panic
    end
  | Err err => Ok [LogWarning ($"Can't build response: " ++ PackError_fmt err)]
  | Panic => Panic
  end.

Definition warn (request : ParsedUartBusPacket) (what : str) : list bridge_output :=
  [LogWarning ($"Exception occured while servicing uartbus request `"
               ++ to_short_user_text request ++ $"`: " ++ what)].

(** The loop of [feed_packet]: [ep] grows in every round, so [length payload + 1]
    rounds are enough; [None] when the fuel is used up. *)
Fixpoint serve (fuel : nat) (request : ParsedUartBusPacket) (ep : nat) (current : UbService)
    : option (res never (list bridge_output)) :=
  match fuel with
  | O => None
  | S fuel =>
    match payload request !! ep with
    | None => Some (Ok (warn request $"request ends before the function index"))
    | Some index =>
      let ep := (ep + 1)%nat in
      let path_end := ep in
      match slice (E := never) (payload request) ep (length (payload request)) with
      | Ok rest =>
        let '(call, reader) := service_call current index (from_slice rest) in
        match call with
        | None => Some (Ok [])
        | Some (MkCall posix result) =>
          let ep := (ep + get_parse_state_index reader)%nat in
          match result with
          | inl ReplyNoReturn => Some (Ok [])
          | inl ReplyVoid =>
            let errno := if posix then [VU8 0] else [] in
            Some (response_packet request path_end errno)
          | inl (ReplyValue value) =>
            if posix then Some (response_packet request path_end [VU8 0; value])
            else Some (response_packet request path_end [value])
          | inl (ReplyNamespace next) => serve fuel request ep next
          | inr (ErrPosix errno) =>
            if posix then Some (response_packet request path_end [VU8 errno])
            else Some (Ok (warn request ($"errno " ++ show_nat errno
                                         ++ $" from a function that can't report it")))
          | inr (Internal message) => Some (Ok (warn request message))
          end
        end
      | _ => Some (@Panic never _)
      end
    end
  end.

(** [starts_with] *)
Definition starts_with (l p : list Z) : bool := bool_decide (take (length p) l = p).

Definition feed_packet (b : UartbusServiceBridge) (raw : list Z)
    : option (res never (list bridge_output)) :=
  match parsed_new raw with
  | Ok request =>
    if match target_address b with Some addr => negb (addr =? to request) | None => false end
    then Some (Ok [])
    else if negb (starts_with (payload request) (bridge_path b)) then Some (Ok [])
    else serve (length (payload request) + 1) request (length (bridge_path b)) (service b)
  | Err _ => Some (Ok [])
  | Panic => Some Panic
  end.

End Bridge.

(** reads one parameter; [n] is the fuel of [read_type] *)
Definition read_param (n : nat) (ty : RpcType) (params : PacketReader)
    : option (res ServiceError RpcValue * PacketReader) :=
  match read_type n ty params with
  | Some (r, params) =>
      Some (map_err (fun err => Internal ($"can't read parameter: " ++ RpcReadError_fmt err)) r, params)
  | None => None
  end.

(** ** A string as a namespace *)

Record UbString : Type := mkUbString { ub_bytes : list Z }.

Definition ub_string_new (string : str) : UbString := mkUbString (as_bytes string).

Definition usize_MAX : Z := 2 ^ 64 - 1.

(** the indices are clamped to the length; [usize] values are integers *)
Definition get_string_part (s : UbString) (from length' : Z) : list Z :=
  let len := Z.of_nat (length (ub_bytes s)) in
  let from := Z.min from len in
  let to := Z.min (Z.min (from + length') usize_MAX) len in
  take (Z.to_nat (to - from)) (drop (Z.to_nat from) (ub_bytes s)).

Definition value_as_usize (value : RpcValue) : Z :=
  match value with
  | VVUnsigned v => default usize_MAX (try_u 64 (VUnsigned_value v))
  | _ => 0
  end.

(** [(from, length)] of a request.  Reading a [VUnsigned] has no loop and does
    not panic: the last case of each match does not occur
    ([read_param_vunsigned]). *)
Definition ub_string_part (s : UbString) (params : PacketReader)
    : (ServiceReply + ServiceError) * PacketReader :=
  match read_param 1 TVUnsigned params with
  | Some (Ok from, params) =>
    match read_param 1 TVUnsigned params with
    | Some (Ok length', params) =>
      (inl (ReplyValue (VBytes (get_string_part s (value_as_usize from) (value_as_usize length')))), params)
    | Some (Err e, params) => (inr e, params)
    | _ => (inr (Internal []), params)
    end
  | Some (Err e, params) => (inr e, params)
  | _ => (inr (Internal []), params)
  end.

Definition ub_string_service (s : UbString) : UbService := MkService (fun index params =>
  if index =? 1 then
    (Some (call_plain (inl (ReplyValue (VVSigned (VSigned_new (Z.of_nat (length (ub_bytes s)))))))), params)
  else if index =? 2 then
    let '(r, params) := ub_string_part s params in (Some (call_plain r), params)
  else (None, params)).

(** ** Lemmas: writing any values *)

Section WriteAny.
Context {NB : NumBigint}.

(** writing appends bytes, or fails with the same error on every assembler *)
Definition writes (m : SM PacketAssembler PackError unit) : Prop :=
  (exists enc, forall a, m a = (Ok tt, mkAssembler (buffer a ++ enc)))
  \/ (exists e, forall a, exists a', m a = (Err e, a')).

Lemma writes_packed signed v : writes (write_packed_value signed v).
Proof.
  destruct (decide (signed = false /\ v < 0)) as [[-> Hv]|Hp].
  - right. exists NegativeUnsignedValue. intros a. exists a. by apply write_packed_value_err.
  - left. destruct (pack_value_ok signed v) as (p & Hpv & _).
    { destruct signed; [by left|right; lia]. }
    exists p. intros a. by apply write_packed_value_ok.
Qed.

Lemma writes_all l : Forall (fun v => writes (append_value v)) l -> writes (append_all append_value l).
Proof.
  induction 1 as [|v t [[e1 H1]|[e H1]] _ IH].
  - left. exists []. apply append_all_nil.
  - destruct IH as [[e2 H2]|[e H2]].
    + left. exists (e1 ++ e2). by apply append_all_cons.
    + right. exists e. intros a. cbn [append_all]. unfold mbind, SM_bind. rewrite H1. apply H2.
  - right. exists e. intros a. cbn [append_all]. unfold mbind, SM_bind.
    destruct (H1 a) as [a' ->]. by exists a'.
Qed.

Lemma writes_value v : writes (append_value v).
Proof.
  revert v. apply (RpcValue_ind' (fun v => writes (append_value v))).
  - intros v. destruct v; try done; try (by apply writes_packed); left; cbn [append_value];
      unfold infallible, write_i8, write_i16_be, write_u8, write_u16_be, write_blob, write_string; eauto.
    exists (as_bytes s ++ [0]). intros a. unfold write_u8, write_blob. cbn [buffer]. by rewrite app_assoc.
  - intros vs. apply writes_all.
  - intros vs. apply writes_all.
Qed.

Lemma writes_elements l : writes (append_elements l).
Proof. apply writes_all, Forall_forall. intros v _. apply writes_value. Qed.

(** ** Lemmas: the response *)

(** [wire] answers [req]: it goes back, and its payload is 0, the request up to
    its function index, and values *)
Definition answers (req : ParsedUartBusPacket) (path_end : nat) (enc wire : list Z) : Prop :=
  exists raw, get_valid_packet wire = Some raw
    /\ parsed_new raw = Ok (mkPacket raw (to req) (from req)
                              (0 :: take path_end (payload req) ++ enc) None None).

Lemma response_packet_ok req path_end values enc :
  in_i 32 (from req) -> in_i 32 (to req) -> (path_end <= length (payload req))%nat ->
  (forall a, append_elements values a = (Ok tt, mkAssembler (buffer a ++ enc))) ->
  exists wire, response_packet req path_end values = Ok [Response wire]
    /\ answers req path_end enc wire.
Proof.
  intros Hf Ht Hp Hw. unfold response_packet.
  destruct (write_addressing_ok (to req) (from req) assembler_new) as (pt & pf & H1 & H2 & ->).
  rewrite slice_ok by lia. cbn [mbind res_bind]. rewrite Hw.
  eexists. split; [reflexivity|]. unfold append_crc8, write_blob, write_u8, done. cbn [buffer fst].
  eexists. split; [apply get_valid_packet_append|]. cbn [assembler_new buffer app].
  rewrite Nat.sub_0_r, drop_0, <- !app_assoc, (parsed_new_packed _ _ _ _ _ H1 H2).
  by rewrite !try_i_Some.
Qed.

Lemma response_packet_cases req path_end values :
  in_i 32 (from req) -> in_i 32 (to req) -> (path_end <= length (payload req))%nat ->
  (exists wire enc, response_packet req path_end values = Ok [Response wire]
     /\ answers req path_end enc wire)
  \/ exists text, response_packet req path_end values = Ok [LogWarning text].
Proof.
  intros Hf Ht Hp. destruct (writes_elements values) as [[enc Hw]|[e He]].
  - left. destruct (response_packet_ok req path_end values enc Hf Ht Hp Hw) as (wire & H1 & H2). eauto.
  - right. unfold response_packet.
    destruct (write_addressing_ok (to req) (from req) assembler_new) as (pt & pf & _ & _ & ->).
    rewrite slice_ok by lia. cbn [mbind res_bind].
    destruct (He (write_blob (take (path_end - 0) (drop 0 (payload req)))
      (write_u8 0 (mkAssembler (buffer assembler_new ++ pt ++ pf))))) as [a' ->]. eauto.
Qed.

(** what a run of the bridge puts out *)
Definition bridge_outputs_ok (req : ParsedUartBusPacket) (lo : nat) (outs : list bridge_output) : Prop :=
  outs = [] \/ (exists text, outs = [LogWarning text])
  \/ (exists wire n enc, outs = [Response wire] /\ (lo < n <= length (payload req))%nat
      /\ answers req n enc wire).

Lemma serve_total fuel req ep s : in_i 32 (from req) -> in_i 32 (to req) ->
  (length (payload req) - ep < fuel)%nat ->
  exists outs, serve fuel req ep s = Some (Ok outs) /\ bridge_outputs_ok req ep outs.
Proof.
  intros Hf Ht. revert ep s. induction fuel as [|fuel IH]; intros ep s Hfuel; [lia|].
  cbn [serve]. destruct (payload req !! ep) as [index|] eqn:Hi.
  2: { eexists. split; [reflexivity|]. right. left. unfold warn. eauto. }
  apply lookup_lt_Some in Hi. rewrite slice_full by lia.
  assert (forall n values, (ep < n <= length (payload req))%nat ->
    exists outs, Some (response_packet req n values) = Some (Ok outs) /\ bridge_outputs_ok req ep outs)
    as Hresp.
  { intros n values Hn. destruct (response_packet_cases req n values Hf Ht ltac:(lia))
      as [(wire & enc & -> & Ha)|[text ->]]; eexists; (split; [reflexivity|]); right.
    - right. by exists wire, n, enc.
    - left. eauto. }
  destruct (service_call _ _ _) as [[[posix result]|] reader]; [|by eexists; split; [|left]].
  destruct result as [[| |value|next]|[errno|message]].
  - eexists. split; [reflexivity|by left].
  - apply Hresp. lia.
  - destruct posix; apply Hresp; lia.
  - destruct (IH (ep + 1 + get_parse_state_index reader)%nat next) as (outs & Ho & Hok); [lia|].
    exists outs. split; [done|]. destruct Hok as [?|[?|(wire & n & enc & ? & ? & ?)]]; [by left|by right; left|].
    right. right. exists wire, n, enc. split; [done|]. split; [lia|done].
  - destruct posix; [apply Hresp; lia|]. eexists. split; [reflexivity|]. right. left. unfold warn. eauto.
  - eexists. split; [reflexivity|]. right. left. unfold warn. eauto.
Qed.

End WriteAny.

(** ** Lemmas: string services *)

Lemma read_param_vunsigned params :
  (exists v used, unpack_value false (data params) (ep params) = Ok (v, used)
     /\ read_param 1 TVUnsigned params
        = Some (Ok (VVUnsigned (VUnsigned_new v)), mkReader (data params) (ep params + used)))
  \/ (unpack_value false (data params) (ep params) = Err IncompleteValue
      /\ read_param 1 TVUnsigned params
         = Some (Err (Internal $"can't read parameter: packet read error: incomplete variable-length value"),
                 params)).
Proof.
  unfold read_param. cbn [read_type]. unfold reading, read_vuint, read_int, mbind, SM_bind.
  destruct (unpack_value_cases false (data params) (ep params)) as [(v & used & -> & _)| ->];
    [left; by exists v, used|by right].
Qed.

(** ** Properties *)

Section Properties.
Context {NB : NumBigint}.

(** the bridge ends, and what it puts out *)
Lemma feed_packet_cases b raw :
  exists outs, feed_packet b raw = Some (Ok outs)
    /\ (outs = []
        \/ exists req, parsed_new raw = Ok req
           /\ (target_address b = None \/ target_address b = Some (to req))
           /\ take (length (bridge_path b)) (payload req) = bridge_path b
           /\ bridge_outputs_ok req (length (bridge_path b)) outs).
Proof.
  unfold feed_packet.
  destruct (parsed_new_cases raw) as [->|(req & _ & -> & _ & _ & _ & Hf & Ht & _)]; [eauto|].
  destruct (match target_address b with Some addr => negb (addr =? to req) | None => false end) eqn:Htg;
    [eauto|].
  unfold starts_with. case_bool_decide as Hp; cbn [negb]; [|eauto].
  destruct (serve_total (length (payload req) + 1) req (length (bridge_path b)) (service b) Hf Ht)
    as (outs & Ho & Hok); [lia|].
  exists outs. split; [done|]. right. exists req. split; [done|]. split; [|done].
  destruct (target_address b) as [addr|]; [|by left]. breflect. right. by subst.
Qed.


End Properties.


(** A string can be fetched piece by piece.  The parts of a served string
    at the positions 0, [k], [2k], ... up to its length are, one after the other,
    the bytes of the string, for any piece length [k]. *)
Theorem ub_string_pieces s k :
  0 < k -> k < 2 ^ 32 -> Z.of_nat (length (ub_bytes s)) < 2 ^ 32 ->
  concat (map (fun i => get_string_part s (Z.of_nat i * k) k) (seq 0 (length (ub_bytes s))))
  = ub_bytes s.
Proof.
  intros Hk Hk' Hlen. set (l := ub_bytes s) in *.
  assert (forall n m, (m + n = length l)%nat ->
    concat (map (fun i => get_string_part s (Z.of_nat i * k) k) (seq m n))
    = drop (Z.to_nat (Z.min (Z.of_nat m * k) (Z.of_nat (length l)))) l) as H.
  { induction n as [|n IH]; intros m Hm.
    - cbn. rewrite drop_ge; [done|]. nia.
    - cbn [seq map concat]. rewrite (IH (S m)) by lia. unfold get_string_part. fold l. cbv zeta.
      set (a := Z.min (Z.of_nat m * k) (Z.of_nat (length l))).
      assert (Z.min (Z.of_nat (S m) * k) (Z.of_nat (length l)) = Z.min (a + k) (Z.of_nat (length l)))
        as -> by lia.
      replace (Z.min (Z.min (a + k) usize_MAX) (Z.of_nat (length l)))
        with (Z.min (a + k) (Z.of_nat (length l)))
        by (unfold usize_MAX; change (2 ^ 64 - 1) with 18446744073709551615;
            change (2 ^ 32) with 4294967296 in *; lia).
      set (e := Z.min (a + k) (Z.of_nat (length l))).
      rewrite <- (take_drop (Z.to_nat (e - a)) (drop (Z.to_nat a) l)) at 2. f_equal.
      rewrite drop_drop. f_equal. lia. }
  rewrite (H (length l) 0%nat) by lia. by rewrite Z.min_l by lia.
Qed.

Lemma ub_string_pieces_witness :
  concat (map (fun i => get_string_part (ub_string_new $"uartbus") (Z.of_nat i * 3) 3) (seq 0 7)) = $"uartbus".
Proof. apply (ub_string_pieces (ub_string_new $"uartbus") 3); vm_compute; done. Defined.
