(* ===== verification/Device.v ===== *)
(** * Devices on the bus and the calls of their functions

    Models [src/rpc/device.rs].  A call sends a request, waits for the answer
    and retries; what happens on the bus while the [k]-th request waits (packets
    received, requests of other clients, handles dropped) is the parameter
    [others k], a run of the bus, and [send] is the sender of the bus.  At the
    end of the waiting the response is there or the time is over
    ([wait_response_spec] relates this to the loop of [wait_response]); then the
    transaction is dropped.  The [Debug] text of a value is the parameter
    [debug]. *)

From stdpp Require Import base list numbers option strings sets.
From Stdlib Require Import ZArith Lia Sorted.
From S2P Require Import Prelude RustStd Tools VarInt Packet RpcTools Bus Service.

(** ** Errors and functions *)

Definition ENOENT : Z := 2.
Definition EIO : Z := 5.
Definition ENXIO : Z := 6.
Definition EAGAIN : Z := 11.
Definition EACCES : Z := 13.
Definition EEXIST : Z := 17.
Definition ENOTDIR : Z := 20.
Definition EMSGSIZE : Z := 90.
Definition EOPNOTSUPP : Z := 95.

Inductive RpcError : Type :=
| Transaction (msg : str)
| Posix (errno : Z)
| Other (msg : str).

Definition RpcError_fmt (e : RpcError) : str :=
  match e with
  | Transaction msg => $"TransactionException: " ++ msg
  | Posix errno => $"PosixErrnoException: errno " ++ show_nat errno
  | Other msg => msg
  end.

Inductive UbRet : Type :=
| NoReturn
| RetVoid
| RetValue (ty : RpcType).

Definition is_no_return (r : UbRet) : bool := match r with NoReturn => true | _ => false end.

Record UbFunction : Type := mkFunction {
  fn_index : Z;
  fn_ret : UbRet;
  fn_posix : bool;
  fn_retransmittable : bool;
}.

Definition function_new (index : Z) (ret : UbRet) : UbFunction := mkFunction index ret false false.
Definition posix (f : UbFunction) : UbFunction :=
  mkFunction (fn_index f) (fn_ret f) true (fn_retransmittable f).
Definition retransmittable (f : UbFunction) : UbFunction :=
  mkFunction (fn_index f) (fn_ret f) (fn_posix f) true.

(** the answer after the path; the fuel of [read_type] is one more than its bytes *)
Definition extract_or_throw_result (function : UbFunction) (data : list Z)
    : option (res RpcError (option RpcValue)) :=
  let value (reader : PacketReader) :=
    match fn_ret function with
    | NoReturn | RetVoid => Some (Ok None)
    | RetValue ty =>
      match read_type (S (length data)) ty reader with
      | Some (r, _) =>
        Some (map_err (fun err => Other ($"Unextractable returning value: " ++ RpcReadError_fmt err))
                (v ← r; Ok (Some v)))
      | None => None
      end
    end in
  if fn_posix function then
    match read_ubyte (from_slice data) with
    | (Ok err, reader) => if negb (err =? 0) then Some (Err (Posix err)) else value reader
    | (_, _) => Some (Err (Other $"Answer without error number"))
    end
  else value (from_slice data).

(** ** Namespaces *)

Definition NS_BUS : Z := 1.
Definition NS_BOOTLOADER : Z := 2.
Definition NS_APP : Z := 32.
Definition NS_REFLECT : Z := 255.
Definition NS_POWER : list Z := [NS_BOOTLOADER; 0].
Definition NS_FLASH : list Z := [NS_BOOTLOADER; 4].

Inductive UbBootloaderVariable : Type := IsApplicationRunning | IsSignalingSos | ResetFlag.
Definition variable_index (v : UbBootloaderVariable) : Z :=
  match v with IsApplicationRunning => 0 | IsSignalingSos => 1 | ResetFlag => 2 end.

(** ** Calls *)

Record UartBusDevice : Type := mkDevice {
  device_address : Z;
  timeout : Z;
  retry_count : nat;
}.

Definition device_new (address : Z) : UartBusDevice := mkDevice address 100 5.

(** the end of a call: its result, the bus, and how many requests were sent *)
Definition call_end : Type := res RpcError (option RpcValue) * Inner * nat.

Section Call.
Context {NB : NumBigint}.
Variable send : list Z -> option str.
Variable others : nat -> list bus_op.

(** the rounds of the retry loop from round [k] on, [n] of them left *)
Fixpoint call_loop (d : UartBusDevice) (path data : list Z) (function : UbFunction)
    (n k : nat) (last_error : option TransactionError) (b : Inner) : option call_end :=
  match n with
  | O =>
    Some (Err (Transaction ($"Device not responded after " ++ show_nat (Z.of_nat (retry_count d))
                            ++ $" attempt."
                            ++ match last_error with None => [] | Some e => $" " ++ e end)), b, k)
  | S n =>
    match new_transaction send (device_address d) path data true b with
    | (Panic, b) => Some (Panic, b, k)
    | (Err e, b) => Some (Err (Other ($"Can't send request: " ++ e)), b, k)
    | (Ok transaction, b) =>
      if is_no_return (fn_ret function)
      then Some (Ok None, revoke_pending_request transaction b, S k)
      else
        match run_bus b (others k) with
        | Ok b =>
          let dropped := revoke_pending_request transaction b in
          match response_of b transaction with
          | Some response =>
            match slice (E := never) response (length path + 1) (length response) with
            | Ok answer =>
              (fun r => (r, dropped, S k)) <$> extract_or_throw_result function answer
            | _ => Some (Panic, dropped, S k)
            end
          | None =>
            let err := not_responded (mkTransaction (device_address d) (from_address b) path true None)
                         (timeout d) None in
            if negb (fn_retransmittable function)
            then Some (Err (Transaction err), dropped, S k)
            else call_loop d path data function n (S k) (Some err) dropped
          end
        | _ => Some (Panic, b, S k)
        end
    end
  end.

Definition call (d : UartBusDevice) (ns_path : list Z) (function : UbFunction)
    (params : list RpcValue) (b : Inner) : option call_end :=
  let path := ns_path ++ [fn_index function] in
  match append_elements params (write_blob path assembler_new) with
  | (Ok _, assembler) => call_loop d path (buffer assembler) function (retry_count d) 0 None b
  | (Err e, _) => Some (Err (Other (PackError_fmt e)), b, 0%nat)
  | (Panic, _) => Some (Panic, b, 0%nat)
  end.

(** [call_value]: a function that must return something *)
Definition map_end {A} (f : option RpcValue -> res RpcError A) (e : call_end)
    : res RpcError A * Inner * nat :=
  let '(r, b, k) := e in (v ← r; f v, b, k).

Definition call_value (d : UartBusDevice) (ns_path : list Z) (function : UbFunction)
    (params : list RpcValue) (b : Inner) : option (res RpcError RpcValue * Inner * nat) :=
  map_end (fun v => ok_or v (Other $"Function returned no value")) <$> call d ns_path function params b.

Definition to_unit (v : option RpcValue) : res RpcError unit := Ok tt.

Definition ping (d : UartBusDevice) (b : Inner) : option (res RpcError unit * Inner * nat) :=
  map_end to_unit <$> call d [NS_BUS] (retransmittable (function_new 0 RetVoid)) [] b.

Definition hardware_reset (d : UartBusDevice) (b : Inner) : option (res RpcError unit * Inner * nat) :=
  map_end to_unit <$> call d NS_POWER (function_new 0 NoReturn) [] b.

Definition software_reset (d : UartBusDevice) (b : Inner) : option (res RpcError unit * Inner * nat) :=
  map_end to_unit <$> call d NS_POWER (function_new 1 NoReturn) [] b.

Variable debug : RpcValue -> str.
Variable debug_list : list RpcValue -> str.

Definition unexpected {A} (text : str) : res RpcError A := Err (Other ($"Unexpected value: " ++ text)).

Definition bind_end {A B} (f : A -> res RpcError B) (e : res RpcError A * Inner * nat)
    : res RpcError B * Inner * nat :=
  let '(r, b, k) := e in (v ← r; f v, b, k).

Definition s8_value (v : RpcValue) : res RpcError Z :=
  match v with VS8 value => Ok value | other => unexpected (debug other) end.

Definition address_value (v : RpcValue) : res RpcError Z :=
  match v with VU16 address => Ok address | other => unexpected (debug other) end.

Definition get_var (d : UartBusDevice) (var : UbBootloaderVariable) (b : Inner)
    : option (res RpcError Z * Inner * nat) :=
  bind_end s8_value <$>
  call_value d [NS_BOOTLOADER] (retransmittable (function_new 1 (RetValue TS8)))
    [VEnum (variable_index var)] b.

Definition set_var (d : UartBusDevice) (var : UbBootloaderVariable) (value : Z) (b : Inner)
    : option (res RpcError unit * Inner * nat) :=
  map_end to_unit <$>
  call d [NS_BOOTLOADER] (function_new 2 RetVoid) [VEnum (variable_index var); VS8 value] b.

Definition program_code (v : RpcValue) : res RpcError (Z * list Z) :=
  match v with
  | VStruct [VU16 address; VBytes code] => Ok (address, code)
  | VStruct other => unexpected (debug_list other)
  | other => unexpected (debug other)
  end.

Definition read_program_code (d : UartBusDevice) (address length' : Z) (b : Inner)
    : option (res RpcError (Z * list Z) * Inner * nat) :=
  bind_end program_code <$>
  call_value d [NS_BOOTLOADER] (retransmittable (function_new 3 (RetValue (TStruct [TU16; TBytes]))))
    [VU16 address; VU8 length'] b.

Definition flash_get_stage (d : UartBusDevice) (b : Inner) : option (res RpcError Z * Inner * nat) :=
  bind_end s8_value <$>
  call_value d NS_FLASH (retransmittable (posix (function_new 0 (RetValue TS8)))) [] b.

Definition flash_start (d : UartBusDevice) (b : Inner) : option (res RpcError unit * Inner * nat) :=
  map_end to_unit <$> call d NS_FLASH (posix (function_new 1 RetVoid)) [] b.

Definition flash_get_next_address (d : UartBusDevice) (b : Inner)
    : option (res RpcError Z * Inner * nat) :=
  bind_end address_value <$>
  call_value d NS_FLASH (retransmittable (function_new 2 (RetValue TU16))) [] b.

Definition flash_push_code (d : UartBusDevice) (start : Z) (data : list Z) (b : Inner)
    : option (res RpcError Z * Inner * nat) :=
  bind_end address_value <$>
  call_value d NS_FLASH (posix (function_new 3 (RetValue TU16))) [VU16 start; VBytes data] b.

Definition flash_commit (d : UartBusDevice) (b : Inner) : option (res RpcError unit * Inner * nat) :=
  map_end to_unit <$> call d NS_FLASH (posix (function_new 4 RetVoid)) [] b.

End Call.

(** ** Lemmas: transactions during a run *)

Lemma run_bus_inv_of b ops b' : bus_inv b -> run_bus b ops = Ok b' -> bus_inv b'.
Proof.
  intros Hb Hr. destruct (run_bus_inv ops b Hb) as (b2 & H2 & Hi). rewrite Hr in H2.
  by injection H2 as <-.
Qed.

(** what a transaction asks for does not change *)
Lemma run_bus_prefix b ops b' i t : bus_inv b -> run_bus b ops = Ok b' ->
  transactions b !! i = Some t ->
  exists t', transactions b' !! i = Some t' /\ answer_prefix t' = answer_prefix t.
Proof.
  revert b t. induction ops as [|o ops IH]; intros b t Hinv Hr Ht.
  - injection Hr as <-. by exists t.
  - apply run_bus_cons in Hr as (b1 & Hs & Hr).
    assert (bus_inv b1) as Hinv1.
    { destruct (bus_step_inv b o Hinv) as (b2 & H2 & Hi). rewrite Hs in H2. by injection H2 as <-. }
    destruct (bus_step_transaction _ _ _ _ _ Hinv Hs Ht) as [H1|(_ & _ & d & H1)];
      destruct (IH b1 _ Hinv1 Hr H1) as (t' & Ht' & Hp); by exists t'.
Qed.

(** the response a handle gets starts with the prefix it asked for *)
Lemma response_prefix b ops b' i t d : bus_inv b -> run_bus b ops = Ok b' ->
  transactions b !! i = Some t -> response_of b' i = Some d ->
  exists rest, d = answer_prefix t ++ rest.
Proof.
  intros Hinv Hr Ht Hd. destruct (run_bus_prefix _ _ _ _ _ Hinv Hr Ht) as (t' & Ht' & Hp).
  pose proof (inv_answers b' (run_bus_inv_of _ _ _ Hinv Hr)) as Ha.
  unfold response_of in Hd. rewrite Ht' in Hd. cbn in Hd.
  assert (answered_well t') as Hw by (eapply Forall_lookup_1; [exact Ha|exact Ht']).
  unfold answered_well in Hw. rewrite Hd, Hp in Hw.
  exists (drop (length (answer_prefix t)) d). by rewrite <- Hw at 1; rewrite take_drop.
Qed.

Section CallLemmas.
Context {NB : NumBigint}.

Lemma new_transaction_cases send t path body zero b (n := length (transactions b)) : bus_inv b ->
  (exists e b1, new_transaction send t path body zero b = (Err e, b1) /\ bus_inv b1
     /\ pending_requests b1 = pending_requests b)
  \/ (exists b1, new_transaction send t path body zero b = (Ok n, b1) /\ bus_inv b1
      /\ pending_requests b1 = pending_requests b ++ [n]
      /\ transactions b1 !! n = Some (mkTransaction t (from_address b) path zero None)).
Proof.
  intros Hinv. unfold new_transaction.
  destruct (to_packet_ok t (from_address b) _ _ (append_bytes body)) as (pt & pf & _ & _ & ->).
  destruct (bus_step_inv b (DoRegister (from_address b) t path zero) Hinv) as (b1 & [= <-] & Hi1).
  unfold register in *. cbn [snd] in Hi1. destruct (send _) as [e|].
  - left. do 2 eexists. split; [reflexivity|].
    destruct (bus_step_inv _ (DoDrop n) Hi1) as (b2 & [= <-] & Hi2). split; [exact Hi2|].
    by apply revoke_new.
  - right. eexists. split; [reflexivity|]. split; [exact Hi1|]. split; [done|].
    cbn. by rewrite list_lookup_middle.
Qed.

(** the answer of a function is read without panic and the reading ends *)
Lemma extract_total f data :
  match fn_ret f with RetValue ty => loops_ok ty = true | _ => True end ->
  exists r, extract_or_throw_result f data = Some r /\ r <> Panic.
Proof.
  intros Hty. unfold extract_or_throw_result.
  assert (forall reader, Packet.data reader = data -> reader_inv reader ->
    exists r, match fn_ret f with
      | NoReturn | RetVoid => Some (Ok None)
      | RetValue ty =>
        match read_type (S (length data)) ty reader with
        | Some (r, _) =>
          Some (map_err (fun err => Other ($"Unextractable returning value: " ++ RpcReadError_fmt err))
                  (v ← r; Ok (Some v)))
        | None => None
        end
      end = Some r /\ r <> Panic) as Hv.
  { intros reader Hd Hr. destruct (fn_ret f) as [| |ty]; [by eexists|by eexists|].
    destruct (reads_ok_all ty Hty (S (length data)) reader Hr) as (out & r' & -> & Hnp & _).
    { unfold get_remaining_bytes. rewrite Hd. lia. }
    destruct out; [by eexists|by eexists|done]. }
  destruct (fn_posix f); [|apply Hv; [done|unfold reader_inv; cbn; lia]].
  destruct (safe_ubyte (from_slice data)) as (Hnp & Hd & He & _); [unfold reader_inv; cbn; lia|].
  destruct (read_ubyte (from_slice data)) as [[err|e|] reader]; [|by eexists|done].
  destruct (negb (err =? 0)); [by eexists|]. apply Hv; [done|]. cbn in Hd, He.
  unfold reader_inv. cbn. rewrite Hd. lia.
Qed.

(** dropping a handle keeps the invariant *)
Lemma revoke_inv i b : bus_inv b -> bus_inv (revoke_pending_request i b).
Proof. intros Hb. by destruct (bus_step_inv b (DoDrop i) Hb) as (b' & [= <-] & ?). Qed.

Section Loop.
Variable send : list Z -> option str.
Variable others : nat -> list bus_op.

Lemma call_loop_total d path data f n k err b :
  match fn_ret f with RetValue ty => loops_ok ty = true | _ => True end -> bus_inv b ->
  exists r b' sent, call_loop send others d path data f n k err b = Some (r, b', sent)
    /\ r <> Panic /\ bus_inv b' /\ (k <= sent <= k + n)%nat
    /\ (fn_retransmittable f = false -> (sent <= k + 1)%nat).
Proof.
  intros Hty. revert k err b. induction n as [|n IH]; intros k err b Hinv; cbn [call_loop].
  { do 3 eexists. split; [reflexivity|]. split; [done|]. split; [done|]. split; [lia|]. intros. lia. }
  destruct (new_transaction_cases send (device_address d) path data true b Hinv)
    as [(e & b1 & -> & Hi1 & _)|(b1 & -> & Hi1 & _ & Ht)].
  { do 3 eexists. split; [reflexivity|]. split; [done|]. split; [done|]. split; [lia|]. intros. lia. }
  destruct (is_no_return (fn_ret f)).
  { do 3 eexists. split; [reflexivity|]. split; [done|]. split; [by apply revoke_inv|].
    split; [lia|]. intros. lia. }
  destruct (run_bus_inv (others k) b1 Hi1) as (b2 & Hr & Hi2). rewrite Hr.
  destruct (response_of b2 _) as [resp|] eqn:Hresp.
  - destruct (response_prefix _ _ _ _ _ _ Hi1 Hr Ht Hresp) as [rest ->].
    unfold answer_prefix. cbn [zero_namespace_answer tx_path app].
    rewrite slice_full by (cbn [length]; rewrite length_app; lia).
    destruct (extract_total f (drop (length path + 1) (0 :: path ++ rest)) Hty) as (r & -> & Hnp).
    cbn [fmap option_fmap option_map]. do 3 eexists. split; [reflexivity|]. split; [done|].
    split; [by apply revoke_inv|]. split; [lia|]. intros. lia.
  - destruct (fn_retransmittable f) eqn:Hre; cbn [negb].
    + destruct (IH (S k) (Some (not_responded (mkTransaction (device_address d) (from_address b2) path true None)
          (timeout d) None)) (revoke_pending_request (length (transactions b)) b2))
        as (r & b' & sent & -> & Hnp & Hi & Hs & _); [by apply revoke_inv|].
      do 3 eexists. split; [reflexivity|]. split; [done|]. split; [done|]. split; [lia|done].
    + do 3 eexists. split; [reflexivity|]. split; [done|]. split; [by apply revoke_inv|].
      split; [lia|]. intros. lia.
Qed.

End Loop.
End CallLemmas.

(** ** Lemmas: nothing is left pending *)

Definition is_packet (o : bus_op) : Prop := match o with DoPacket _ => True | _ => False end.

Lemma packets_pending b ops b' : bus_inv b -> Forall is_packet ops -> run_bus b ops = Ok b' ->
  pending_requests b' ⊆ pending_requests b.
Proof.
  intros Hinv Hops. revert b Hinv. induction Hops as [|o ops Ho _ IH]; intros b Hinv Hr.
  - by injection Hr as <-.
  - apply run_bus_cons in Hr as (b1 & Hs & Hr). destruct o as [|packet| | | |]; try done.
    assert (bus_inv b1) as Hinv1.
    { destruct (bus_step_inv b (DoPacket packet) Hinv) as (b2 & H2 & Hi). rewrite Hs in H2.
      by injection H2 as <-. }
    transitivity (pending_requests b1); [by apply IH|]. cbn in Hs.
    destruct (process_packet_cases packet b Hinv) as
      [[_ Hq]|[(? & ? & _ & _ & Hq)|[(raw & p & pre & i & post & t & _ & _ & Hp & _ & _ & _ & Hq)
      |(? & ? & _ & _ & _ & Hq)]]]; rewrite Hq in Hs; cbn in Hs; injection Hs as <-; [done|done| |done].
    rewrite Hp. cbn. set_solver.
Qed.

Lemma revoked_pending b b1 b2 n : pending_requests b1 = pending_requests b ++ [n] ->
  pending_requests b2 ⊆ pending_requests b1 ->
  pending_requests (revoke_pending_request n b2) ⊆ pending_requests b.
Proof.
  intros H1 H2 i Hi. cbn in Hi. apply list_elem_of_filter in Hi as [Hne Hi].
  apply H2 in Hi. rewrite H1 in Hi. set_solver.
Qed.

Lemma call_loop_pending {NB : NumBigint} send others d path data f n k err b r b' sent :
  (forall k, Forall is_packet (others k)) -> bus_inv b ->
  call_loop send others d path data f n k err b = Some (r, b', sent) ->
  pending_requests b' ⊆ pending_requests b.
Proof.
  intros Hops. revert k err b. induction n as [|n IH]; intros k err b Hinv; cbn [call_loop].
  { by intros [= _ <- _]. }
  destruct (new_transaction_cases send (device_address d) path data true b Hinv)
    as [(e & b1 & -> & Hi1 & Hp)|(b1 & -> & Hi1 & Hp & _)]; [intros [= _ <- _]; by rewrite Hp|].
  destruct (is_no_return (fn_ret f)).
  { intros [= _ <- _]. by eapply revoked_pending. }
  destruct (run_bus_inv (others k) b1 Hi1) as (b2 & Hr & Hi2). rewrite Hr.
  pose proof (packets_pending _ _ _ Hi1 (Hops k) Hr) as Hsub.
  pose proof (revoked_pending b b1 b2 _ Hp Hsub) as Hrev.
  destruct (response_of b2 _) as [resp|].
  - destruct (slice _ _ _); [destruct (extract_or_throw_result _ _); [|done]| |];
      by intros [= _ <- _].
  - destruct (fn_retransmittable f); cbn [negb]; [|by intros [= _ <- _]].
    intros Hc. etransitivity; [|exact Hrev]. eapply IH; [by apply revoke_inv|exact Hc].
Qed.

(** ** Properties *)

Section Properties.
Context {NB : NumBigint}.


(** the bytes after the path of an answer with a value *)
Definition value_answer (px : bool) (enc : list Z) : list Z := (if px then [0] else []) ++ enc.

Lemma extract_value f ty v enc : fn_ret f = RetValue ty -> codec v ty enc ->
  extract_or_throw_result f (value_answer (fn_posix f) enc) = Some (Ok (Some v)).
Proof.
  intros Hr (_ & _ & _ & Hread). unfold extract_or_throw_result, value_answer. rewrite Hr.
  destruct (fn_posix f); cbn [app].
  - unfold read_ubyte. cbn [from_slice reader_new data ep lookup list_lookup length Z.eqb negb].
    pose proof (Hread (S (S (length enc))) [0] [] ltac:(by right) ltac:(lia)) as H.
    rewrite app_nil_r in H. cbn [app length] in H. cbn [Nat.add]. by rewrite H.
  - pose proof (Hread (S (length enc)) [] [] ltac:(by right) ltac:(lia)) as H.
    rewrite app_nil_r in H. cbn [app length] in H. unfold from_slice, reader_new. by rewrite H.
Qed.

(** one round of a call that is answered while it waits *)
Lemma call_loop_answered send others d path data f n b wire rest :
  bus_inv b -> in_i 32 (from_address b) -> in_i 32 (device_address d) ->
  is_no_return (fn_ret f) = false -> (forall packet, send packet = None) ->
  others 0%nat = [DoPacket wire] ->
  (exists raw, get_valid_packet wire = Some raw
     /\ parsed_new raw = Ok (mkPacket raw (device_address d) (from_address b) (0 :: path ++ rest) None None)) ->
  (forall j u, j ∈ pending_requests b -> transactions b !! j = Some u -> tx_to u <> device_address d) ->
  exists b', call_loop send others d path data f (S n) 0 None b
             = (fun r => (r, b', 1%nat)) <$> extract_or_throw_result f rest
    /\ pending_requests b' = pending_requests b.
Proof.
  intros Hinv Hfa Hda Hnr Hsend Hoth (raw & Hv & Hn) Hno. cbn [call_loop].
  unfold new_transaction.
  destruct (to_packet_ok (device_address d) (from_address b) _ _ (append_bytes data)) as (pt & pf & _ & _ & ->).
  rewrite Hsend. unfold register. rewrite Hnr, Hoth.
  destruct (answer_delivered b (mkTransaction (device_address d) (from_address b) path true None) wire raw
    (mkPacket raw (device_address d) (from_address b) (0 :: path ++ rest) None None))
    as (b2 & Hp & Hresp & Hpend); [done|done|done|done| | |].
  { intros j u Hj Hu. apply bool_decide_false. cbn. intros (_ & Heq & _). by apply (Hno j u Hj Hu). }
  { apply bool_decide_true. cbn. split; [done|]. split; [done|]. by rewrite take_app_length. }
  unfold run_bus. cbn [foldM bus_step]. rewrite Hp. cbn [mbind res_bind].
  rewrite Hresp. cbn [payload]. rewrite slice_full by (cbn; rewrite length_app; lia).
  replace (drop (length path + 1) (0 :: path ++ rest)) with rest
    by (rewrite Nat.add_1_r; cbn [drop]; by rewrite drop_app_length).
  eexists. split; [reflexivity|]. cbn. rewrite Hpend. clear - Hinv.
  pose proof (inv_waiting b Hinv) as Hw. induction Hw as [|j l Hj _ IH]; [done|].
  rewrite filter_cons_True, IH; [done|]. apply waiting_lt in Hj. lia.
Qed.
(** the values of the response to a call, [None] for calls without one; a
    namespace is left to its own call *)
Definition reply_values (c : ServiceCall) : option (list RpcValue) :=
  let '(MkCall px result) := c in
  match result with
  | inl ReplyVoid => Some (if px then [VU8 0] else [])
  | inl (ReplyValue v) => Some (if px then [VU8 0; v] else [v])
  | inr (ErrPosix errno) => if px then Some [VU8 errno] else None
  | _ => None
  end.

Definition is_namespace (c : ServiceCall) : bool :=
  match c with MkCall _ (inl (ReplyNamespace _)) => true | _ => false end.

(** the bridge and a request to it *)
Definition reaches (br : UartbusServiceBridge) (req : ParsedUartBusPacket) (idx : Z) (enc : list Z) : Prop :=
  in_i 32 (from req) /\ in_i 32 (to req)
  /\ (target_address br = None \/ target_address br = Some (to req))
  /\ payload req = bridge_path br ++ [idx] ++ enc /\ parsed_new (raw_packet req) = Ok req.

(** a request that reaches the bridge is a call of the service *)
Lemma feed_packet_serve br req idx enc : reaches br req idx enc ->
  feed_packet br (raw_packet req)
  = serve (S (length (payload req))) req (length (bridge_path br)) (service br)
  /\ payload req !! length (bridge_path br) = Some idx
  /\ slice (E := never) (payload req) (length (bridge_path br) + 1) (length (payload req)) = Ok enc.
Proof.
  intros (Hf & Ht & Htg & Hp & Hn). unfold feed_packet. rewrite Hn.
  assert (match target_address br with Some addr => negb (addr =? to req) | None => false end = false) as ->.
  { destruct Htg as [->| ->]; [done|]. by rewrite Z.eqb_refl. }
  assert (starts_with (payload req) (bridge_path br) = true) as ->.
  { apply bool_decide_true. by rewrite Hp, take_app_length. }
  cbn [negb]. rewrite Nat.add_1_r. split; [done|]. split.
  - rewrite Hp, lookup_app_r, Nat.sub_diag by lia. done.
  - rewrite slice_full by (rewrite Hp, !length_app; cbn; lia).
    rewrite Hp, app_assoc, drop_app_length'; [done|rewrite length_app; cbn; lia].
Qed.

(** the bridge responds with the values of the call *)
Lemma bridge_replies br req idx enc c s' vs e : reaches br req idx enc ->
  service_call (service br) idx (from_slice enc) = (Some c, s') -> reply_values c = Some vs ->
  (forall a, append_elements vs a = (Ok tt, mkAssembler (buffer a ++ e))) ->
  exists wire, feed_packet br (raw_packet req) = Some (Ok [Response wire])
    /\ answers req (length (bridge_path br) + 1) e wire.
Proof.
  intros Hreach Hs Hvs He. destruct (feed_packet_serve _ _ _ _ Hreach) as (-> & Hi & Hsl).
  destruct Hreach as (Hf & Ht & _ & Hp & _). cbn [serve]. rewrite Hi, Hsl, Hs.
  destruct (response_packet_ok req (length (bridge_path br) + 1) vs e) as (wire & Hr & Ha);
    [done|done|rewrite Hp, !length_app; cbn; lia|done|]. exists wire. split; [|done].
  destruct c as [[] [[| |v|next]|[errno|msg]]]; cbn in Hvs; try done; injection Hvs as <-; by rewrite Hr.
Qed.

(** a call without values gets no response *)
Lemma bridge_silent br req idx enc c s' : reaches br req idx enc ->
  service_call (service br) idx (from_slice enc) = (Some c, s') ->
  reply_values c = None -> is_namespace c = false ->
  exists outs, feed_packet br (raw_packet req) = Some (Ok outs)
    /\ omap (fun o => match o with Response wire => Some wire | _ => None end) outs = [].
Proof.
  intros Hreach Hs Hvs Hns. destruct (feed_packet_serve _ _ _ _ Hreach) as (-> & Hi & Hsl).
  cbn [serve]. rewrite Hi, Hsl, Hs.
  destruct c as [[] [[| |v|next]|[errno|msg]]]; cbn in Hvs, Hns; try done; by eexists.
Qed.

Lemma append_reply_value px v encv :
  (forall a, append_value v a = (Ok tt, mkAssembler (buffer a ++ encv))) ->
  forall a, append_elements (if px : bool then [VU8 0; v] else [v]) a
    = (Ok tt, mkAssembler (buffer a ++ value_answer px encv)).
Proof.
  intros Hw. destruct px; [|by apply append_one].
  intros a. cbn. unfold mbind, SM_bind. cbn. rewrite Hw. cbn. by rewrite <- app_assoc.
Qed.

(** the bridge serves a request for a function that returns a value *)
Lemma bridge_value br req enc px v encv s' idx :
  in_i 32 (from req) -> in_i 32 (to req) ->
  target_address br = None \/ target_address br = Some (to req) ->
  payload req = bridge_path br ++ [idx] ++ enc -> parsed_new (raw_packet req) = Ok req ->
  service_call (service br) idx (from_slice enc) = (Some (MkCall px (inl (ReplyValue v))), s') ->
  (forall a, append_value v a = (Ok tt, mkAssembler (buffer a ++ encv))) ->
  exists wire, feed_packet br (raw_packet req) = Some (Ok [Response wire])
    /\ answers req (length (bridge_path br) + 1) (value_answer px encv) wire.
Proof.
  intros Hf Ht Htg Hp Hn Hs Hw.
  by eapply bridge_replies; [split_and!|exact Hs|reflexivity|apply append_reply_value].
Qed.

(** the request of a call, as it reaches a bridge with that address *)
Lemma request_reaches b d br idx enc :
  in_i 32 (from_address b) -> in_i 32 (device_address d) ->
  target_address br = None \/ target_address br = Some (device_address d) ->
  exists packet raw (req := mkPacket raw (from_address b) (device_address d)
                              ((bridge_path br ++ [idx]) ++ enc) None None),
    to_packet (device_address d) (from_address b) [VBytes ((bridge_path br ++ [idx]) ++ enc)] = Ok packet
    /\ get_valid_packet packet = Some raw /\ reaches br req idx enc.
Proof.
  intros Hfa Hda Htg.
  destruct (to_packet_parsed (device_address d) (from_address b) _ _
    (append_bytes ((bridge_path br ++ [idx]) ++ enc))) as (packet & raw & Hpk & Hvalid & Hn); [done..|].
  exists packet, raw. split; [done|]. split; [done|]. split_and!; try done.
  cbn [payload]. by rewrite <- app_assoc.
Qed.

(** a call that the response [wire] of a bridge answers *)
Lemma call_answered send others d br raw f params enc e wire b
    (req := mkPacket raw (from_address b) (device_address d)
              ((bridge_path br ++ [fn_index f]) ++ enc) None None) :
  bus_inv b -> in_i 32 (from_address b) -> in_i 32 (device_address d) ->
  (forall packet, send packet = None) -> (0 < retry_count d)%nat -> is_no_return (fn_ret f) = false ->
  (forall a, append_elements params a = (Ok tt, mkAssembler (buffer a ++ enc))) ->
  (forall j u, j ∈ pending_requests b -> transactions b !! j = Some u -> tx_to u <> device_address d) ->
  answers req (length (bridge_path br) + 1) e wire -> others 0%nat = [DoPacket wire] ->
  exists b', call send others d (bridge_path br) f params b
             = (fun r => (r, b', 1%nat)) <$> extract_or_throw_result f e
    /\ pending_requests b' = pending_requests b.
Proof.
  intros Hinv Hfa Hda Hsend Hretry Hret Hparams Hno (r2 & Hv2 & Hn2) Hoth.
  unfold call. rewrite Hparams. cbn [buffer write_blob assembler_new app].
  destruct (retry_count d) as [|n] eqn:Hr; [lia|].
  apply (call_loop_answered send others d _ _ f n b wire); [done..| |done].
  exists r2. split; [done|]. rewrite Hn2. unfold req. cbn [payload from to].
  do 2 f_equal. f_equal. rewrite take_app_length'; [done|]. rewrite length_app. cbn. lia.
Qed.

(** a call of a function that is not repeated, and that nobody answers *)
Lemma call_unanswered send others d ns_path f params enc b :
  bus_inv b -> (forall packet, send packet = None) -> (0 < retry_count d)%nat ->
  is_no_return (fn_ret f) = false -> fn_retransmittable f = false ->
  (forall a, append_elements params a = (Ok tt, mkAssembler (buffer a ++ enc))) -> others 0%nat = [] ->
  exists msg b', call send others d ns_path f params b = Some (Err (Transaction msg), b', 1%nat)
    /\ pending_requests b' = pending_requests b.
Proof.
  intros Hinv Hsend Hretry Hret Hre Hparams Hoth.
  unfold call. rewrite Hparams. cbn [buffer write_blob assembler_new app].
  destruct (retry_count d) as [|n]; [lia|]. cbn [call_loop]. unfold new_transaction.
  destruct (to_packet_ok (device_address d) (from_address b) _ _
    (append_bytes ((ns_path ++ [fn_index f]) ++ enc))) as (pt & pf & _ & _ & ->).
  rewrite Hsend, Hret, Hoth. unfold register, response_of. cbn [run_bus foldM mret res_ret transactions].
  rewrite list_lookup_middle by done. cbn [mbind option_bind response]. rewrite Hre. cbn [negb].
  do 2 eexists. split; [reflexivity|]. by apply revoke_new.
Qed.


End Properties.


