(* ===== verification/Ping.v ===== *)
(** * The commands that ping and blink

    Models [src/apps/ping.rs], [src/apps/blink.rs] and [src/apps/packetloss.rs]:
    the options, the packets, the loops with their counters and what they print.
    The loops have fuel, [None] when it is used up; how a send or a call of the
    device ends is a function of the number of the turn. *)

From stdpp Require Import base list numbers option strings gmap.
From Stdlib Require Import ZArith Lia.
From S2P Require Import Prelude RustStd Cli Tools VarInt Packet Apps Device.

Definition INTERVAL : CliEntry := mkEntry [$"i"; $"-interval"] $"Ping repeat delay".
Definition COUNT_OF_PACKETS : CliEntry :=
  mkEntry [$"c"; $"-c"]
    ($"Number of packets to send. (default: 0 aka no " ++ [34] ++ $"limit" ++ [34] ++ $")").
Definition PING_ENTRIES : list CliEntry := [RPC_HOST; RPC_PORT; FROM; TO; INTERVAL; COUNT_OF_PACKETS].

Definition BLINK_INTERVAL : CliEntry := mkEntry [$"i"; $"-interval"] $"Blink interval".
Definition BLINK_ENTRIES : list CliEntry := [RPC_HOST; RPC_PORT; FROM; TO; BLINK_INTERVAL].

Definition TIMEOUT : CliEntry := mkEntry [$"l"; $"-loss-time"] $"Packet response timeout in milisec".
Definition PACKETLOSS_ENTRIES : list CliEntry :=
  [RPC_HOST; RPC_PORT; FROM; TO; INTERVAL; COUNT_OF_PACKETS; TIMEOUT].

(** what the loops do *)
Inductive act : Type :=
| Send (packet : list Z)
| Print (line : str)
| Sleep (ms : Z).

Section Ping.
Context {NB : NumBigint}.

(** addressing, then the call of a bus function, then the crc8 *)
Definition call_packet (from to : Z) (call : list Z) : res PackError (list Z) :=
  let '(out, asm) := write_addressing from to assembler_new in
  _ ← out; Ok (fst (done (append_crc8 (write_blob call asm)))).

(** bus functions (1), ping (0) *)
Definition ping_packet (from to : Z) : res PackError (list Z) := call_packet from to [1; 0].
(** bus functions (1), user led (2), toggle (2) *)
Definition blink_packet (from to : Z) : res PackError (list Z) := call_packet from to [1; 2; 2].

(** ** Options *)

Record ping_options : Type := mkPing {
  ping_from : Z; ping_to : Z; ping_interval : Z; ping_count : Z; ping_server : str * Z }.

Definition ping_parse (pa : CliArgs) : res str ping_options :=
  from ← parse_from pa;
  to ← parse_or parse_i32 TO pa (-1);
  interval ← parse_or parse_u64 INTERVAL pa 1000;
  count ← parse_or parse_i64 COUNT_OF_PACKETS pa 0;
  server ← open_cli_endpoint pa;
  Ok (mkPing from to interval count server).

Definition blink_parse (pa : CliArgs) : res str ping_options :=
  from ← parse_from pa;
  to ← parse_or parse_i32 TO pa (-1);
  interval ← parse_or parse_u64 BLINK_INTERVAL pa 500;
  server ← open_cli_endpoint pa;
  Ok (mkPing from to interval 0 server).

Definition packetloss_parse (pa : CliArgs) : res str (Z * Z * Z * Z * (str * Z * Z)) :=
  to ← parse_or parse_i32 TO pa (-1);
  interval ← parse_or parse_u64 INTERVAL pa 1000;
  count ← parse_or parse_i64 COUNT_OF_PACKETS pa 0;
  timeout ← parse_or parse_u64 TIMEOUT pa 3000;
  bus ← cli_bus_connect pa;
  Ok (to, interval, count, timeout, bus).

(** ** Loops *)

(** [i < count || count <= 0] *)
Definition goes_on (i count : Z) : bool := (i <? count) || (count <=? 0).

Fixpoint ping_loop (fuel : nat) (send : Z -> option str) (packet : list Z) (line : str) (interval count i : Z)
    : option (list act * res str unit) :=
  match fuel with
  | O => None
  | S fuel =>
    if goes_on i count then
      match send i with
      | Some err => Some ([Send packet], Err err)
      | None =>
        '(acts, r) ← ping_loop fuel send packet line interval count (i + 1);
        Some (Send packet :: Print line :: Sleep interval :: acts, r)
      end
    else Some ([], Ok tt)
  end.

(** the part of [main] after the connection was opened *)
Definition ping_run (fuel : nat) (send : Z -> option str) (o : ping_options) : option (list act * res str unit) :=
  match ping_packet (ping_from o) (ping_to o) with
  | Ok packet =>
    ping_loop fuel send packet
      ($"ping " ++ show_int (ping_from o) ++ $" > " ++ show_int (ping_to o)) (ping_interval o) (ping_count o) 0
  | Err e => Some ([], Err (PackError_fmt e))
  | Panic => Some ([], Panic)
  end.

(** [loop]: the blinking never ends by itself *)
Definition blink_run (fuel : nat) (send : Z -> option str) (o : ping_options) : option (list act * res str unit) :=
  match blink_packet (ping_from o) (ping_to o) with
  | Ok packet =>
    ping_loop fuel send packet
      ($"blink " ++ show_int (ping_from o) ++ $" > " ++ show_int (ping_to o)) (ping_interval o) 0 0
  | Err e => Some ([], Err (PackError_fmt e))
  | Panic => Some ([], Panic)
  end.

(** ** Packet loss *)

Definition render_statistic (pass loss : Z) : str :=
  $"Statistic:" ++ [10; 9] ++ $"Sent packets: " ++ show_nat (pass + loss) ++ [10; 9]
  ++ $"Received packets: " ++ show_nat pass ++ [10; 9] ++ $"Lost packets: " ++ show_nat loss ++ [10; 9]
  ++ $"Packet loss ratio: " ++ format_double (percent loss (loss + pass)) ++ $" %".

Definition is_transaction (e : RpcError) : bool := match e with Transaction _ => true | _ => false end.

Fixpoint packetloss_loop (fuel : nat) (ping : Z -> res RpcError unit) (interval count i pass loss : Z)
    : option (list act * (Z * Z)) :=
  match fuel with
  | O => None
  | S fuel =>
    if goes_on i count then
      match ping i with
      | Ok _ =>
        '(acts, r) ← packetloss_loop fuel ping interval count (i + 1) (pass + 1) loss;
        Some (Print (show_int i ++ $". pong") :: (if 0 <? interval then [Sleep interval] else []) ++ acts, r)
      | Err e =>
        if is_transaction e then
          '(acts, r) ← packetloss_loop fuel ping interval count (i + 1) pass (loss + 1);
          Some (Print (show_int i ++ $". -- loss --") :: acts, r)
        else Some ([], (pass, loss))
      | Panic => None
      end
    else Some ([], (pass, loss))
  end.

Definition packetloss_run (fuel : nat) (ping : Z -> res RpcError unit) (interval count : Z) : option (list act) :=
  '(acts, (pass, loss)) ← packetloss_loop fuel ping interval count 0 0 0;
  Some (acts ++ (if (pass =? 0) && (loss =? 0) then [] else [Print (render_statistic pass loss)])).

End Ping.

Example render_statistic_test : render_statistic 3 1
  = $"Statistic:" ++ [10; 9] ++ $"Sent packets: 4" ++ [10; 9] ++ $"Received packets: 3" ++ [10; 9]
    ++ $"Lost packets: 1" ++ [10; 9] ++ $"Packet loss ratio: 25 %".
Proof. vm_compute. reflexivity. Qed.

(** ** Lemmas *)

Section Lemmas.
Context {NB : NumBigint}.

Lemma call_packet_ok from to call : in_i 32 from -> in_i 32 to -> bytes call ->
  exists packet p, call_packet from to call = Ok packet /\ from_raw_packet_with_crc packet = Ok p
    /\ Packet.from p = from /\ Packet.to p = to /\ payload p = call /\ fst (is_valid p) = true.
Proof.
  intros Hf Ht Hc. destruct (assembled_packet from to call Hf Ht Hc) as (a & Ha & _ & _ & p & Hp & H).
  exists (fst (done (append_crc8 (write_blob call a)))), p. unfold call_packet. rewrite Ha. done.
Qed.

(** one turn of the loop, and [n] turns *)
Definition turn (packet : list Z) (line : str) (interval : Z) : list act := [Send packet; Print line; Sleep interval].
Definition turns (n : nat) (packet : list Z) (line : str) (interval : Z) : list act :=
  mjoin (replicate n (turn packet line interval)).

Lemma ping_loop_turns fuel send packet line interval count n i :
  (forall k, i <= k < i + Z.of_nat n -> send k = None) -> (0 < count -> i + Z.of_nat n <= count) ->
  ping_loop (n + fuel) send packet line interval count i
  = ('(acts, r) ← ping_loop fuel send packet line interval count (i + Z.of_nat n);
     Some (turns n packet line interval ++ acts, r)).
Proof.
  revert i. induction n as [|n IH]; intros i Hs Hc.
  { cbn [Nat.add]. replace (i + Z.of_nat 0) with i by lia.
    by destruct (ping_loop fuel send packet line interval count i) as [[? ?]|]. }
  cbn [Nat.add ping_loop].
  assert (goes_on i count = true) as ->.
  { unfold goes_on. destruct (Z.ltb_spec i count); [done|]. destruct (Z.leb_spec count 0); [done|]. lia. }
  rewrite (Hs i ltac:(lia)), IH; [|intros k Hk; apply Hs; lia|intros; lia].
  replace (i + 1 + Z.of_nat n) with (i + Z.of_nat (S n)) by lia.
  by destruct (ping_loop fuel send packet line interval count (i + Z.of_nat (S n))) as [[? ?]|].
Qed.

(** the answered and the lost pings of the turns [i], ..., [i + n - 1] *)
Fixpoint answered (ping : Z -> res RpcError unit) (i : Z) (n : nat) : Z :=
  match n with O => 0 | S n => (if is_ok (ping i) then 1 else 0) + answered ping (i + 1) n end.
Fixpoint lost (ping : Z -> res RpcError unit) (i : Z) (n : nat) : Z :=
  match n with O => 0 | S n => (if is_ok (ping i) then 0 else 1) + lost ping (i + 1) n end.

Lemma answered_lost ping i n : answered ping i n + lost ping i n = Z.of_nat n.
Proof.
  revert i. induction n as [|n IH]; intros i; [done|]. cbn [answered lost]. specialize (IH (i + 1)).
  destruct (is_ok (ping i)); lia.
Qed.

Lemma packetloss_loop_counts ping interval count n i pass loss : 0 < count -> i + Z.of_nat n = count ->
  (forall k, i <= k < count -> ping k = Ok tt \/ exists msg, ping k = Err (Transaction msg)) ->
  exists acts, packetloss_loop (S n) ping interval count i pass loss
    = Some (acts, (pass + answered ping i n, loss + lost ping i n)).
Proof.
  intros Hc. revert i pass loss. induction n as [|n IH]; intros i pass loss Hi Hp.
  - exists []. cbn [packetloss_loop answered lost]. unfold goes_on.
    rewrite (proj2 (Z.ltb_ge _ _)), (proj2 (Z.leb_gt _ _)) by lia. cbn. by rewrite !Z.add_0_r.
  - change (packetloss_loop (S (S n)) ping interval count i pass loss) with
      (if goes_on i count then
         match ping i with
         | Ok _ => '(acts, r) ← packetloss_loop (S n) ping interval count (i + 1) (pass + 1) loss;
           Some (Print (show_int i ++ $". pong") :: (if 0 <? interval then [Sleep interval] else []) ++ acts, r)
         | Err e => if is_transaction e then
             '(acts, r) ← packetloss_loop (S n) ping interval count (i + 1) pass (loss + 1);
             Some (Print (show_int i ++ $". -- loss --") :: acts, r) else Some ([], (pass, loss))
         | Panic => None
         end
       else Some ([], (pass, loss))).
    unfold goes_on. rewrite (proj2 (Z.ltb_lt i count)) by lia. cbn [orb answered lost].
    destruct (Hp i ltac:(lia)) as [->|[msg ->]]; cbn [is_ok is_transaction].
    + destruct (IH (i + 1) (pass + 1) loss) as (acts & ->); [lia|intros k Hk; apply Hp; lia|].
      eexists. cbn. do 3 f_equal; lia.
    + destruct (IH (i + 1) pass (loss + 1)) as (acts & ->); [lia|intros k Hk; apply Hp; lia|].
      eexists. cbn. do 3 f_equal; lia.
Qed.

End Lemmas.

(** ** Properties *)

Section Properties.
Context {NB : NumBigint}.

(** Pings.  The command sends a valid ping request from its address to the
    device and nothing else; with a count [c] exactly [c] times and then it ends,
    without a count it goes on for ever, and when a send fails it ends with the
    error after the turns before. *)
Theorem ping_sends o send : in_i 32 (ping_from o) -> in_i 32 (ping_to o) ->
  exists packet p line, ping_packet (ping_from o) (ping_to o) = Ok packet
    /\ from_raw_packet_with_crc packet = Ok p /\ Packet.from p = ping_from o /\ Packet.to p = ping_to o
    /\ payload p = [1; 0] /\ fst (is_valid p) = true
    /\ ((forall i, send i = None) -> 0 < ping_count o ->
        ping_run (S (Z.to_nat (ping_count o))) send o
        = Some (turns (Z.to_nat (ping_count o)) packet line (ping_interval o), Ok tt))
    /\ ((forall i, send i = None) -> ping_count o <= 0 -> forall fuel, ping_run fuel send o = None)
    /\ (forall n err, (forall i, 0 <= i < Z.of_nat n -> send i = None) -> send (Z.of_nat n) = Some err ->
        (0 < ping_count o -> Z.of_nat n < ping_count o) ->
        ping_run (S n) send o = Some (turns n packet line (ping_interval o) ++ [Send packet], Err err)).
Proof.
  intros Hf Ht. destruct (call_packet_ok _ _ [1; 0] Hf Ht) as (packet & p & Hp & H1 & H2 & H3 & H4 & H5).
  { repeat constructor; unfold is_u8; lia. }
  exists packet, p, ($"ping " ++ show_int (ping_from o) ++ $" > " ++ show_int (ping_to o)).
  fold (ping_packet (ping_from o) (ping_to o)) in Hp. do 6 (split; [done|]).
  unfold ping_run. rewrite Hp. split; [|split].
  - intros Hs Hc. rewrite <- Nat.add_1_r, ping_loop_turns; [|by intros|rewrite Z2Nat.id; lia].
    rewrite Z2Nat.id, Z.add_0_l by lia. cbn [ping_loop]. unfold goes_on.
    rewrite Z.ltb_irrefl, (proj2 (Z.leb_gt _ _)) by lia. cbn. by rewrite app_nil_r.
  - intros Hs Hc fuel. pose proof (ping_loop_turns 0 send packet
      ($"ping " ++ show_int (ping_from o) ++ $" > " ++ show_int (ping_to o)) (ping_interval o) (ping_count o) fuel 0) as Hl.
    rewrite Nat.add_0_r in Hl. apply Hl; [by intros|lia].
  - intros n err Hs Hn Hc. rewrite <- Nat.add_1_r, ping_loop_turns; [|intros k Hk; apply Hs; lia|lia].
    rewrite Z.add_0_l. cbn [ping_loop]. rewrite Hn.
    assert (goes_on (Z.of_nat n) (ping_count o) = true) as ->; [|done].
    unfold goes_on. destruct (Z.ltb_spec (Z.of_nat n) (ping_count o)); [done|].
    destruct (Z.leb_spec (ping_count o) 0); [done|]. lia.
Qed.

(** Packet loss.  When every ping is answered or lost, a measurement of [n]
    pings ends, its numbers are exactly the answered and the lost pings, which add
    up to [n], and the statistic with these numbers is the last line printed. *)
Theorem packetloss_counts (ping : Z -> res RpcError unit) interval n :
  (forall i, 0 <= i < Z.of_nat n -> ping i = Ok tt \/ exists msg, ping i = Err (Transaction msg)) -> (0 < n)%nat ->
  let pass := answered ping 0 n in
  let loss := lost ping 0 n in
  pass + loss = Z.of_nat n
  /\ exists acts, packetloss_run (S n) ping interval (Z.of_nat n) = Some (acts ++ [Print (render_statistic pass loss)]).
Proof.
  intros Hp Hn pass loss. pose proof (answered_lost ping 0 n) as Hsum. fold pass loss in Hsum. split; [done|].
  destruct (packetloss_loop_counts ping interval (Z.of_nat n) n 0 0 0) as (acts & Ha); [lia|lia|exact Hp|].
  exists acts. unfold packetloss_run. rewrite Ha. rewrite !Z.add_0_l. fold pass loss. cbn.
  destruct (Z.eqb_spec pass 0), (Z.eqb_spec loss 0); try done. lia.
Qed.

End Properties.

Lemma ping_sends_witness :
  let o := mkPing 63 5 1000 2 ($"127.0.0.1", 2112) in
  exists packet line, ping_packet (NB := num_bigint_ref) 63 5 = Ok packet /\ packet = [5; 63; 1; 0; 196]
    /\ ping_run (NB := num_bigint_ref) 3 (fun _ => None) o = Some (turns 2 packet line 1000, Ok tt).
Proof.
  intros o. destruct (ping_sends (NB := num_bigint_ref) o (fun _ => None)) as (packet & p & line & H1 & _ & _ & _ & _ & _ & H2 & _).
  - unfold in_i. cbn. lia.
  - unfold in_i. cbn. lia.
  - exists packet, line. split; [exact H1|]. split; [vm_compute in H1; injection H1 as <-; reflexivity|].
    apply H2; [done|cbn; lia].
Defined.

Lemma packetloss_counts_witness :
  let ping i := if i =? 1 then Err (Transaction []) else Ok tt in
  exists acts, packetloss_run 4 ping 0 3 = Some (acts ++ [Print (render_statistic 2 1)]).
Proof.
  intros ping. destruct (packetloss_counts ping 0 3) as [_ H].
  - intros i Hi. unfold ping. destruct (i =? 1); [right; by exists []|by left].
  - lia.
  - exact H.
Defined.
