(* ===== verification/Collision.v ===== *)
(** * The collision test

    Models [src/apps/collision_packetloss.rs]: the broadcast that every device
    answers, the statistic of the answers and of the damaged packets, its text,
    and the sending loop.  The [BTreeMap]s are maps that are shown in the order of
    their keys.  The counters panic when they leave [u32]. *)

From stdpp Require Import base list numbers option strings gmap sorting.
From Stdlib Require Import ZArith Lia.
From S2P Require Import Prelude RustStd Cli Tools VarInt Packet Apps Ping.

Definition COLLISION_ENTRIES : list CliEntry := [RPC_HOST; RPC_PORT; FROM; INTERVAL; COUNT_OF_PACKETS].

Definition generate_packet_sequence {NB : NumBigint} (from seq : Z) : res PackError (list Z) :=
  let '(out, asm) := write_addressing from 0 assembler_new in
  _ ← out;
  let '(out, asm) := write_packed_value false seq (write_blob [1; 1] asm) in
  _ ← out;
  Ok (fst (done (append_crc8 asm))).

(** ** The statistic *)

Record Statistic : Type := mkStatistic {
  replies : gmap Z (gmap Z Z);
  collision_lengths : gmap Z Z;
}.

Definition statistic_default : Statistic := mkStatistic ∅ ∅.

(** [*map.entry(key).or_insert(0) += 1] of a [u32] *)
Definition increment (key : Z) (m : gmap Z Z) : res never (gmap Z Z) :=
  let n := default 0 (m !! key) + 1 in
  if n <? 2 ^ 32 then Ok (<[key := n]> m) else Panic.

Definition count_reply (device seq : Z) (st : Statistic) : res never Statistic :=
  m ← increment seq (default ∅ (replies st !! device));
  Ok (mkStatistic (<[device := m]> (replies st)) (collision_lengths st)).

Definition feed (from : Z) (packet : list Z) (st : Statistic) : res never Statistic :=
  if (1 <? length packet)%nat && is_packet_crc8_valid packet then
    match parsed_new packet with
    | Ok parsed =>
      if negb (to parsed =? from) then Ok st
      else
        match unpack_value false (payload parsed) 3 with
        | Ok (seq, _) => count_reply (Packet.from parsed) (default (-1) (try_i 64 seq)) st
        | Err _ => Ok st
        | Panic => Panic
        end
    | Err _ => Ok st
    | Panic => Panic
    end
  else
    st ← count_reply 0 0 st;
    lengths ← increment (Z.of_nat (length packet)) (collision_lengths st);
    Ok (mkStatistic (replies st) lengths).

Definition feed_all (from : Z) (packets : list (list Z)) (st : Statistic) : res never Statistic :=
  foldM (fun st packet => feed from packet st) st packets.

(** ** Its text *)

(** the answers beyond the first one of each sequence number *)
Definition duplicates (responses : gmap Z Z) : Z :=
  map_fold (fun _ v acc => (if 1 <? v then v - 1 else 0) + acc) 0 responses.

Definition render_device (device : Z) (responses : gmap Z Z) (sent : Z) : str :=
  if sent =? 0 then []
  else if device =? 0 then
    let collided := default (as_u 32 (Z.of_nat (size responses))) (responses !! 0) in
    $"Statistic of collisions:" ++ [9] ++ $"Sent packets: " ++ show_nat sent ++ [9] ++ $"Collided packets: "
    ++ show_nat collided ++ [9] ++ $"Collision ratio: " ++ format_double (percent collided sent) ++ $" %"
  else
    let received := Z.of_nat (size responses) in
    let loss := sent - received in
    $"Statistic for bus device " ++ show_int device ++ $": " ++ [9] ++ $"Sent packets: " ++ show_nat sent ++ [9]
    ++ $"Received packets: " ++ show_nat received ++ [9] ++ $"Lost packets: " ++ show_int loss ++ [9]
    ++ $"Packet loss ratio: " ++ format_double (percent loss sent) ++ $" %"
    ++ (if 0 <? duplicates responses then
          $" Duplication (" ++ show_nat (duplicates responses) ++ $") ratio: "
          ++ format_double (percent (duplicates responses) sent) ++ $" %"
        else []).

(** the entries of a [BTreeMap] in the order of the keys *)
Definition key_le {A} (a b : Z * A) : Prop := a.1 <= b.1.
#[global] Instance key_le_dec {A} : RelDecision (key_le (A := A)).
Proof. intros a b. unfold key_le. apply _. Defined.
Definition in_order {A} (m : gmap Z A) : list (Z * A) := merge_sort key_le (map_to_list m).

Definition render_statistics (st : Statistic) (sent : Z) : str :=
  if sent =? 0 then $"No broadcast packet sent."
  else if bool_decide (replies st = ∅) then $"No broadcast response packet received."
  else
    (in_order (replies st) ≫= fun '(device, responses) => render_device device responses sent ++ [10])
    ++ $"Collisions: "
    ++ (if bool_decide (collision_lengths st = ∅) then $"{}"
        else $"{" ++ [10]
             ++ (in_order (collision_lengths st) ≫= fun '(length, count) =>
                   [9; 34] ++ show_nat length ++ [34; 58; 34] ++ show_nat count ++ [34; 10])
             ++ $"}").

(** ** The command *)

Section Command.
Context {NB : NumBigint}.

Definition collision_parse (pa : CliArgs) : res str (Z * Z * Z * (str * Z)) :=
  from ← parse_from pa;
  interval ← parse_or parse_u64 INTERVAL pa 1000;
  count ← parse_or parse_i64 COUNT_OF_PACKETS pa 0;
  server ← open_cli_endpoint pa;
  Ok (from, interval, count, server).

(** [interrupted i]: the flag at the beginning of turn [i]; the number of the sent
    packets ends the result, [Err] ends [main] without the statistic *)
Fixpoint collision_loop (fuel : nat) (send : Z -> option str) (interrupted : Z -> bool) (from interval count i : Z)
    : option (list act * res str (Z * res str unit)) :=
  match fuel with
  | O => None
  | S fuel =>
    if goes_on i count && negb (interrupted i) then
      match generate_packet_sequence from (as_u 32 i) with
      | Ok packet =>
        match send i with
        | Some err => Some ([Send packet], Ok (0, Err err))
        | None =>
          '(acts, r) ← collision_loop fuel send interrupted from interval count (i + 1);
          Some (Send packet :: Print (show_int i ++ $". broadcast ping ") :: Sleep interval :: acts,
                '(sent, result) ← r;
                if sent + 1 <? 2 ^ 32 then Ok (sent + 1, result) else Panic)
        end
      | Err e => Some ([], Err (PackError_fmt e))
      | Panic => Some ([], Panic)
      end
    else Some ([], Ok (0, Ok tt))
  end.

(** the end of [main]: what is printed after the loop *)
Definition collision_summary (st : Statistic) (sent : Z) (result : res str unit) (interrupted : bool) : list act :=
  (if is_ok result && negb interrupted
   then [Print $"Last turn, waiting a bit for the last packets."; Sleep 2000] else [])
  ++ [Print (render_statistics st sent)].

End Command.

(** ** Lemmas *)

(** what a packet is to the statistic *)
Inductive reply : Type :=
| Damaged
| Answer (device seq : Z)
| Ignored.

Definition reply_of (from : Z) (packet : list Z) : reply :=
  if (1 <? length packet)%nat && is_packet_crc8_valid packet then
    match parsed_new packet with
    | Ok parsed =>
      if negb (to parsed =? from) then Ignored
      else match unpack_value false (payload parsed) 3 with
           | Ok (seq, _) => Answer (Packet.from parsed) (default (-1) (try_i 64 seq))
           | _ => Ignored
           end
    | _ => Ignored
    end
  else Damaged.

Definition counted (st : Statistic) (device seq : Z) : Z := default 0 (default ∅ (replies st !! device) !! seq).

Lemma feed_reply from packet st : feed from packet st
  = match reply_of from packet with
    | Damaged =>
      st ← count_reply 0 0 st;
      lengths ← increment (Z.of_nat (length packet)) (collision_lengths st);
      Ok (mkStatistic (replies st) lengths)
    | Answer device seq => count_reply device seq st
    | Ignored => Ok st
    end.
Proof.
  unfold feed, reply_of. destruct (_ && _); [|done].
  destruct (parsed_new_cases packet) as [->|(p & _ & -> & _)]; [done|].
  destruct (negb _); [done|].
  destruct (unpack_value_cases false (payload p) 3) as [(v & used & -> & _)| ->]; done.
Qed.

Lemma increment_ok key m : default 0 (m !! key) + 1 < 2 ^ 32 -> exists m', increment key m = Ok m'
  /\ forall k, default 0 (m' !! k) = default 0 (m !! k) + (if bool_decide (k = key) then 1 else 0).
Proof.
  intros Hm. unfold increment. rewrite (proj2 (Z.ltb_lt _ _)) by done. eexists. split; [done|].
  intros k. case_bool_decide; subst; [by rewrite lookup_insert_eq|]. rewrite lookup_insert_ne by done. lia.
Qed.

Lemma count_reply_ok device seq st : counted st device seq + 1 < 2 ^ 32 -> exists st', count_reply device seq st = Ok st'
  /\ (forall d q, counted st' d q
        = counted st d q + (if bool_decide (d = device /\ q = seq) then 1 else 0))
  /\ collision_lengths st' = collision_lengths st.
Proof.
  intros Hc. unfold count_reply. destruct (increment_ok seq _ Hc) as (m' & -> & Hm). cbn. eexists.
  split; [done|]. split; [|done]. intros d q. unfold counted. cbn.
  destruct (decide (d = device)) as [->|Hd].
  - rewrite lookup_insert_eq. cbn. rewrite Hm. f_equal.
    by rewrite (bool_decide_ext (device = device /\ q = seq) (q = seq)) by naive_solver.
  - rewrite lookup_insert_ne by done. rewrite bool_decide_false by naive_solver. lia.
Qed.

#[global] Instance reply_eq_dec : EqDecision reply.
Proof. solve_decision. Defined.

(** the packets that are counted for a device and a sequence number *)
Definition counts_for (from device seq : Z) (packet : list Z) : bool :=
  bool_decide (reply_of from packet = Answer device seq)
  || (bool_decide (reply_of from packet = Damaged) && bool_decide (device = 0 /\ seq = 0)).

Definition damaged_of_length (from n : Z) (packet : list Z) : bool :=
  bool_decide (reply_of from packet = Damaged) && bool_decide (n = Z.of_nat (length packet)).

Definition how_many (P : list Z -> bool) (packets : list (list Z)) : Z :=
  Z.of_nat (length (List.filter P packets)).

Lemma how_many_cons P p t : how_many P (p :: t) = (if P p then 1 else 0) + how_many P t.
Proof. unfold how_many. cbn. destruct (P p); cbn; lia. Qed.

Lemma feed_all_counts from packets st n : 
  (forall d q, 0 <= counted st d q <= n) -> (forall l, 0 <= default 0 (collision_lengths st !! l) <= n) ->
  n + Z.of_nat (length packets) < 2 ^ 32 ->
  exists st', feed_all from packets st = Ok st'
    /\ (forall d q, counted st' d q = counted st d q + how_many (counts_for from d q) packets)
    /\ (forall l, default 0 (collision_lengths st' !! l)
          = default 0 (collision_lengths st !! l) + how_many (damaged_of_length from l) packets).
Proof.
  revert st n. induction packets as [|p t IH]; intros st n Hc Hl Hn.
  { exists st. split; [done|]. split; intros; unfold how_many; cbn; lia. }
  cbn [length] in Hn. unfold feed_all. cbn [foldM]. rewrite feed_reply. fold (feed_all from t).
  assert (exists st1, match reply_of from p with
      | Damaged => st ← count_reply 0 0 st;
          lengths ← increment (Z.of_nat (length p)) (collision_lengths st); Ok (mkStatistic (replies st) lengths)
      | Answer device seq => count_reply device seq st
      | Ignored => Ok st end = Ok st1
    /\ (forall d q, counted st1 d q = counted st d q + (if counts_for from d q p then 1 else 0))
    /\ (forall l, default 0 (collision_lengths st1 !! l)
          = default 0 (collision_lengths st !! l) + (if damaged_of_length from l p then 1 else 0))) as (st1 & H1 & H2 & H3).
  { unfold counts_for, damaged_of_length. destruct (reply_of from p) as [|device seq|] eqn:Hr.
    - destruct (count_reply_ok 0 0 st) as (s1 & Hs1 & Hcount & Hlen); [specialize (Hc 0 0); lia|].
      destruct (increment_ok (Z.of_nat (length p)) (collision_lengths s1)) as (m & Hm & Hinc).
      { rewrite Hlen. specialize (Hl (Z.of_nat (length p))). lia. }
      rewrite Hs1. cbn [mbind res_bind]. rewrite Hm. cbn [mbind res_bind]. eexists. split; [reflexivity|]. split.
      + intros d q. change (counted (mkStatistic (replies s1) m) d q) with (counted s1 d q). by rewrite Hcount.
      + intros l. cbn [collision_lengths]. by rewrite Hinc, Hlen.
    - destruct (count_reply_ok device seq st) as (s1 & Hs1 & Hcount & Hlen); [specialize (Hc device seq); lia|].
      exists s1. rewrite (bool_decide_false (Answer device seq = Damaged)) by done. cbn [andb].
      split; [done|]. split; [|intros l; rewrite Hlen; lia].
      intros d q. rewrite Hcount, orb_false_r. f_equal.
      by rewrite (bool_decide_ext (Answer device seq = Answer d q) (d = device /\ q = seq)) by naive_solver.
    - exists st. split; [done|]. rewrite (bool_decide_false (Ignored = Damaged)) by done. cbn [andb].
      split; intros; [rewrite bool_decide_false by done; cbn [orb]|]; lia. }
  rewrite H1. cbn [mbind res_bind].
  destruct (IH st1 (n + 1)) as (st' & H4 & H5 & H6).
  - intros d q. rewrite H2. specialize (Hc d q). destruct (counts_for from d q p); lia.
  - intros l. rewrite H3. specialize (Hl l). destruct (damaged_of_length from l p); lia.
  - lia.
  - exists st'. split; [exact H4|]. split; intros; rewrite how_many_cons.
    + rewrite H5, H2. lia.
    + rewrite H6, H3. lia.
Qed.

(** the answers of a device: one for each sequence number, and the repeated ones *)
Lemma duplicates_size (m : gmap Z Z) : (forall k v, m !! k = Some v -> 1 <= v) ->
  map_fold (fun _ v acc => v + acc) 0 m = Z.of_nat (size m) + duplicates m.
Proof.
  unfold duplicates. induction m as [|k v m Hk IH] using map_ind; intros Hpos; [done|].
  rewrite !map_fold_insert_L by (done || (intros; lia)). rewrite map_size_insert_None by done.
  rewrite IH; [|intros j w Hj; apply (Hpos j w); rewrite lookup_insert_ne by congruence; done].
  pose proof (Hpos k v (lookup_insert_eq _ _ _)) as Hv.
  destruct (Z.ltb_spec 1 v); lia.
Qed.

(** The broadcast is a valid packet to every device that asks for the sequence number. *)
Theorem generate_ok {NB : NumBigint} from seq : in_i 32 from -> 0 <= seq ->
  exists packed packet p, generate_packet_sequence from seq = Ok packet
    /\ from_raw_packet_with_crc packet = Ok p /\ Packet.from p = from /\ to p = 0
    /\ payload p = [1; 1] ++ packed /\ fst (is_valid p) = true
    /\ unpack_value false (payload p) 2 = Ok (seq, length packed).
Proof.
  intros Hf Hs. destruct (write_addressing_ok from 0 assembler_new) as (pt & pf & H1 & H2 & H3).
  destruct (pack_value_ok false seq ltac:(by right)) as (ps & Hps & _).
  exists ps, (((pt ++ pf) ++ [1; 1] ++ ps) ++ [crc8 ((pt ++ pf) ++ [1; 1] ++ ps)]).
  exists (set_crc8 (Some (crc8 ((pt ++ pf) ++ [1; 1] ++ ps)))
    (mkPacket (pt ++ pf ++ [1; 1] ++ ps) from 0 ([1; 1] ++ ps) None None)).
  split.
  { unfold generate_packet_sequence. rewrite H3. cbn [mbind res_bind].
    rewrite (write_packed_value_ok _ _ _ _ Hps). cbn [mbind res_bind].
    unfold append_crc8, write_blob, write_u8, done. cbn [buffer fst assembler_new app]. by rewrite <- !app_assoc. }
  split.
  { rewrite from_raw_snoc, <- app_assoc, (parsed_new_packed _ _ _ _ _ H1 H2). cbn [mbind res_bind].
    rewrite !try_i_Some by (done || unfold in_i; lia). done. }
  split; [done|]. split; [done|]. split; [done|]. split; [rewrite <- app_assoc; apply Z.eqb_refl|].
  cbn [payload set_crc8]. apply pack_value_packed in Hps as [_ Hps].
  pose proof (packed_unpack_unsigned _ _ _ [1; 1] [] Hps Hs) as Hu. by rewrite app_nil_r in Hu.
Qed.

(** ** Properties *)

(** The statistic.  For any packets from the bus (fewer than 2^32) nothing
    panics, and the statistic holds for every device and sequence number exactly
    the number of its valid answers that are addressed to us (for the device 0
    and the number 0 the damaged packets too), and for every length the number of
    damaged packets of this length. *)
Theorem statistic_counts from packets : Z.of_nat (length packets) < 2 ^ 32 ->
  exists st, feed_all from packets statistic_default = Ok st
    /\ (forall d q, counted st d q = how_many (counts_for from d q) packets)
    /\ (forall n, default 0 (collision_lengths st !! n) = how_many (damaged_of_length from n) packets).
Proof.
  intros Hn. destruct (feed_all_counts from packets statistic_default 0) as (st & H1 & H2 & H3).
  - intros d q. unfold counted. cbn. rewrite lookup_empty. cbn. rewrite lookup_empty. cbn. lia.
  - intros l. cbn. rewrite lookup_empty. cbn. lia.
  - lia.
  - exists st. split; [done|]. split; intros.
    + rewrite H2. unfold counted. cbn. rewrite lookup_empty. cbn. by rewrite lookup_empty.
    + rewrite H3. cbn. by rewrite lookup_empty.
Qed.

(** An answer is recognised.  The packet with which a device answers the
    broadcast of the sequence number [seq] (the path 0, 1, 1 and the number) is
    counted for exactly this device and number, whatever address and number
    these are. *)
Theorem answer_counted {NB : NumBigint} me device seq a a' :
  in_i 32 me -> in_i 32 device -> 0 <= seq < 2 ^ 63 ->
  write_addressing device me assembler_new = (Ok tt, a) ->
  write_packed_value false seq (write_blob [0; 1; 1] a) = (Ok tt, a') ->
  reply_of me (fst (done (append_crc8 a'))) = Answer device seq.
Proof.
  intros Hm Hd Hs Ha Ha'.
  destruct (write_addressing_ok device me assembler_new) as (pt & pf & H1 & H2 & H3).
  rewrite Ha in H3. injection H3 as ->.
  destruct (pack_value_ok false seq ltac:(right; lia)) as (ps & Hps & _).
  rewrite (write_packed_value_ok _ _ _ _ Hps) in Ha'. injection Ha' as <-.
  unfold append_crc8, write_blob, write_u8, done. cbn [buffer fst assembler_new app].
  set (body := ((pt ++ pf) ++ [0; 1; 1]) ++ ps). unfold reply_of.
  assert ((1 <? length (body ++ [crc8 body]))%nat = true) as ->.
  { apply Nat.ltb_lt. unfold body. rewrite !length_app. cbn. lia. }
  unfold is_packet_crc8_valid. rewrite last_is_crc8_append. cbn [andb].
  replace (body ++ [crc8 body]) with (pt ++ pf ++ ([0; 1; 1] ++ ps ++ [crc8 body]))
    by (unfold body; by rewrite <- !app_assoc).
  rewrite (parsed_new_packed _ _ _ _ _ H1 H2). cbn [to Packet.from payload].
  rewrite !try_i_Some by done. cbn [from_option]. unfold id. rewrite Z.eqb_refl. cbn [negb].
  apply pack_value_packed in Hps as [_ Hps].
  pose proof (packed_unpack_unsigned _ _ _ [0; 1; 1] [crc8 body] Hps ltac:(lia)) as Hu.
  change (length [0; 1; 1]) with 3%nat in Hu. rewrite Hu.
  by rewrite try_i_Some by (unfold in_i; lia).
Qed.

Lemma statistic_counts_witness :
  let packets := [[63; 4; 0; 1; 1; 9; crc8 [63; 4; 0; 1; 1; 9]]; [63; 4; 0; 1; 1; 9; crc8 [63; 4; 0; 1; 1; 9]]; [1]] in
  exists st, feed_all 63 packets statistic_default = Ok st
    /\ counted st 4 9 = how_many (counts_for 63 4 9) packets /\ how_many (counts_for 63 4 9) packets = 2.
Proof.
  intros packets. destruct (statistic_counts 63 packets) as (st & H1 & H2 & _).
  - vm_compute. reflexivity.
  - exists st. split; [exact H1|]. split; [apply H2|vm_compute; reflexivity].
Defined.

Lemma answer_counted_witness :
  reply_of 63 [63; 4; 0; 1; 1; 9; crc8 [63; 4; 0; 1; 1; 9]] = Answer 4 9.
Proof.
  apply (answer_counted (NB := num_bigint_ref) 63 4 9 (mkAssembler [63; 4]) (mkAssembler [63; 4; 0; 1; 1; 9])).
  - unfold in_i. lia.
  - unfold in_i. lia.
  - lia.
  - vm_compute. reflexivity.
  - vm_compute. reflexivity.
Defined.
