(* ===== verification/VirtualBus.v ===== *)
(** * A bus in this process

    Models [src/rpc/virtual_bus.rs] and the constructors of [src/rpc/bus.rs]
    that start a stream: participants of a bus whose packets only go through an
    endpoint of this process.  A participant is a [Bus] with a [Streamer] whose
    connections are sessions of the shared [Endpoint], and the services that are
    attached to it.  The steps of the threads are those of [Streamer]; a listener
    runs on the polling thread, so the packets it still has to send ([vp_todo])
    come before the next step of the thread. *)

From stdpp Require Import base list numbers option strings sets.
From Stdlib Require Import ZArith Lia.
From S2P Require Import Prelude RustStd Tools VarInt Packet RpcTools Bus Endpoint Streamer Service Device.

(** ** Participants *)

(** [vp_sessions]: the session of each connection of the streamer *)
Record Participant : Type := mkParticipant {
  vp_bus : Inner;
  vp_stream : Streamer;
  vp_sessions : list nat;
  vp_bridges : list UartbusServiceBridge;
  vp_todo : list (list Z);
}.

Definition with_bus (b : Inner) (p : Participant) : Participant :=
  mkParticipant b (vp_stream p) (vp_sessions p) (vp_bridges p) (vp_todo p).
Definition with_stream (s : Streamer) (sessions : list nat) (p : Participant) : Participant :=
  mkParticipant (vp_bus p) s sessions (vp_bridges p) (vp_todo p).
Definition with_todo (todo : list (list Z)) (p : Participant) : Participant :=
  mkParticipant (vp_bus p) (vp_stream p) (vp_sessions p) (vp_bridges p) todo.

(** [DummyConnector::send_packet] *)
Definition dummy_send_packet (data : list Z) : option str := None.

(** the connection factory, when the streamer needs a connection *)
Definition open_connection (p : Participant) (e : Endpoint) : option str * list nat * Endpoint :=
  match working (vp_stream p) with
  | Some _ => (None, vp_sessions p, e)
  | None =>
    match create_new_connection e with
    | (Ok session, e) => (None, vp_sessions p ++ [session], e)
    | (Err err, e) => (Some err, vp_sessions p, e)
    | (Panic, e) => (Some [], vp_sessions p, e)
    end
  end.

(** [send_raw_packet] of a bus that was made from a stream *)
Definition send_raw_packet (data : list Z) (p : Participant) (e : Endpoint) : res str unit * Participant * Endpoint :=
  let '(factory, sessions, e) := open_connection p e in
  let '(failed, e) :=
    match factory with
    | Some _ => (None, e)
    | None =>
      match conn_send_packet (dummy_send_packet data) data e with
      | (Err err, e) => (Some err, e)
      | (_, e) => (None, e)
      end
    end in
  let '(r, s) := stream_send_packet factory failed data (vp_stream p) in
  (r, with_stream s sessions p, e).

(** [UartBus::from_connection]: a bus, its stream and the thread of the stream *)
Definition from_connection (bus_from : Z) (e : Endpoint) : res str Participant * Endpoint :=
  let p := mkParticipant (build bus_from) streamer_new [] [] [] in
  let '(factory, sessions, e) := open_connection p e in
  match start_streaming factory None (vp_stream p) with
  | (Ok _, s) => (Ok (with_stream s sessions p), e)
  | (Err err, _) => (Err err, e)
  | (Panic, _) => (Panic, e)
  end.

(** [attach_service_to]: the bridge listens to the unrelated packets *)
Definition attach_service_to (br : UartbusServiceBridge) (p : Participant) : Participant :=
  mkParticipant (add_unrelated_packet_listener (length (vp_bridges p)) (vp_bus p)).2 (vp_stream p)
    (vp_sessions p) (vp_bridges p ++ [br]) (vp_todo p).

(** the streamer closes its working connection *)
Definition close_working (p : Participant) (e : Endpoint) : Endpoint :=
  match working (vp_stream p) with
  | Some c => match vp_sessions p !! c with Some session => conn_close session e | None => e end
  | None => e
  end.

(** [UartBus::close] *)
Definition bus_close (p : Participant) (e : Endpoint) : Participant * Endpoint :=
  (with_stream (stream_close (vp_stream p)) (vp_sessions p) p, close_working p e).

Section Participants.
Context {NB : NumBigint}.

(** what the bridges answer to the packets that the listeners get *)
Fixpoint bridge_answers (bridges : list UartbusServiceBridge) (outs : list bus_output) : res never (list (list Z)) :=
  match outs with
  | [] => Ok []
  | Listener l packet :: t =>
    mine ← match bridges !! l with
           | Some br =>
             match feed_packet br packet with
             | Some (Ok outs) => Ok (omap (fun o => match o with Response w => Some w | _ => None end) outs)
             | _ => Panic
             end
           | None => Ok []
           end;
    rest ← bridge_answers bridges t;
    Ok (mine ++ rest)
  | LogNotice _ :: t => bridge_answers bridges t
  end.

(** the listener of the stream: [UartBus::process_packet] *)
Definition receive (packet : list Z) (p : Participant) : res never Participant :=
  '(b, outs) ← process_packet packet (vp_bus p);
  replies ← bridge_answers (vp_bridges p) outs;
  Ok (with_todo (vp_todo p ++ replies) (with_bus b p)).

(** one step of the streaming thread; the packets that it sent *)
Definition poll (p : Participant) (e : Endpoint) : res never (Participant * Endpoint * list (list Z)) :=
  match vp_todo p with
  | packet :: rest =>
    let '(r, p, e) := send_raw_packet packet (with_todo rest p) e in
    Ok (p, e, if is_ok r then [packet] else [])
  | [] =>
    let go factory next sessions := with_stream (poller_step 0 factory next (vp_stream p)) sessions p in
    match poll_state <$> pollers (vp_stream p) !! 0%nat with
    | Some PollApi =>
      let '(factory, sessions, e) := open_connection p e in
      Ok (go factory None sessions, e, [])
    | Some (PollNext c) =>
      session ← unwrap (vp_sessions p !! c);
      let '(next, e) := conn_get_next_packet session e in
      let p := go None next (vp_sessions p) in
      match next with
      | Some (Ok packet) => p ← receive packet p; Ok (p, e, [])
      | _ => Ok (p, e, [])
      end
    | Some PollCleanup => Ok (go None None (vp_sessions p), close_working p e, [])
    | _ => Ok (go None None (vp_sessions p), e, [])
    end
  end.

(** [new_transaction] of such a bus, with the packet that was sent *)
Definition transact (to : Z) (path payload : list Z) (zero : bool) (p : Participant) (e : Endpoint)
    : res str nat * Participant * Endpoint * list (list Z) :=
  let send data := match (send_raw_packet data p e).1.1 with Err err => Some err | _ => None end in
  let '(r, b) := new_transaction send to path payload zero (vp_bus p) in
  match to_packet to (from_address (vp_bus p)) [VBytes payload] with
  | Ok packet =>
    let '(sent, p, e) := send_raw_packet packet p e in
    (r, with_bus b p, e, if is_ok sent then [packet] else [])
  | _ => (r, with_bus b p, e, [])
  end.

End Participants.

(** ** The environment *)

(** bus number 0 is the one of the environment, the others were made with [new_bus] *)
Record VirtualUartBus : Type := mkVirtual {
  vb_endpoint : Endpoint;
  vb_buses : list Participant;
}.

Definition bus_of (bus_from : Z) (v : VirtualUartBus) : res str VirtualUartBus :=
  match from_connection bus_from (vb_endpoint v) with
  | (Ok p, e) => Ok (mkVirtual e (vb_buses v ++ [p]))
  | (Err err, _) => Err err
  | (Panic, _) => Panic
  end.

Definition create_env_from (bus_from : Z) : res str VirtualUartBus := bus_of bus_from (mkVirtual new_dummy []).
Definition create_env : res str VirtualUartBus := create_env_from 63.

(** an operation on the bus number [i] *)
Definition on_bus (i : nat) (f : Participant -> Endpoint -> Participant * Endpoint) (v : VirtualUartBus) : VirtualUartBus :=
  match vb_buses v !! i with
  | Some p => let '(p, e) := f p (vb_endpoint v) in mkVirtual e (<[i := p]> (vb_buses v))
  | None => v
  end.

(** [close], also when the environment is dropped *)
Definition virtual_close (v : VirtualUartBus) : VirtualUartBus :=
  let v := on_bus 0 bus_close v in mkVirtual (endpoint_close (vb_endpoint v)) (vb_buses v).

(** ** Runs *)

Inductive vb_op : Type :=
| VNew (bus_from : Z)
| VConnect
| VPoll (i : nat)
| VSend (i : nat) (data : list Z)
| VTransact (i : nat) (to : Z) (path payload : list Z) (zero : bool)
| VDrop (i transaction : nat)
| VAttach (i : nat) (br : UartbusServiceBridge)
| VCloseBus (i : nat)
| VClose.

Section Runs.
Context {NB : NumBigint}.

(** the packets that the step sent on the bus *)
Definition vb_step (o : vb_op) (v : VirtualUartBus) : res never (VirtualUartBus * list (list Z)) :=
  match o with
  | VNew bus_from => match bus_of bus_from v with Ok v => Ok (v, []) | Err _ => Ok (v, []) | Panic => Panic end
  | VConnect => Ok (mkVirtual (create_new_connection (vb_endpoint v)).2 (vb_buses v), [])
  | VPoll i =>
    match vb_buses v !! i with
    | Some p => '(p, e, out) ← poll p (vb_endpoint v); Ok (mkVirtual e (<[i := p]> (vb_buses v)), out)
    | None => Ok (v, [])
    end
  | VSend i data =>
    match vb_buses v !! i with
    | Some p => let '(r, p, e) := send_raw_packet data p (vb_endpoint v) in
                Ok (mkVirtual e (<[i := p]> (vb_buses v)), if is_ok r then [data] else [])
    | None => Ok (v, [])
    end
  | VTransact i to path payload zero =>
    match vb_buses v !! i with
    | Some p => let '(_, p, e, out) := transact to path payload zero p (vb_endpoint v) in
                Ok (mkVirtual e (<[i := p]> (vb_buses v)), out)
    | None => Ok (v, [])
    end
  | VDrop i transaction =>
    Ok (on_bus i (fun p e => (with_bus (revoke_pending_request transaction (vp_bus p)) p, e)) v, [])
  | VAttach i br => Ok (on_bus i (fun p e => (attach_service_to br p, e)) v, [])
  | VCloseBus i => Ok (on_bus i bus_close v, [])
  | VClose => Ok (virtual_close v, [])
  end.

(** a run: the state and all packets that were sent, in order *)
Fixpoint run_vb (ops : list vb_op) (v : VirtualUartBus) : res never (VirtualUartBus * list (list Z)) :=
  match ops with
  | [] => Ok (v, [])
  | o :: t =>
    '(v, out) ← vb_step o v;
    '(v, rest) ← run_vb t v;
    Ok (v, out ++ rest)
  end.

End Runs.

(** ** Lemmas: a session that stays open *)

(** the open session [s] of an open endpoint, with the queue [l] *)
Record alive (e : Endpoint) (s : nat) (l : list (list Z)) : Prop := {
  al_inv : ep_inv e;
  al_open : closed e = false;
  al_loopback : default_loopback_send_packets e = true;
  al_in : s ∈ sessions e;
  al_session : exists x, store e !! s = Some x /\ session_closed x = false /\ loopback_send_packets x = true
                 /\ packets x = l;
}.

Lemma alive_lt e s l : alive e s l -> (s < length (store e))%nat.
Proof. intros [_ _ _ _ (x & Hx & _)]. by eapply lookup_lt_Some. Qed.

(** steps of the endpoint that do not close the session *)
Lemma alive_step e s l o l' : alive e s l ->
  match o with
  | DoNewPush => l' = l
  | DoSend None d => l' = l ++ [d]
  | DoTake j => if bool_decide (j = s) then l' = tail l else l' = l
  | DoRemove j => j <> s /\ l' = l
  | _ => False
  end -> alive (ep_step e o) s l'.
Proof.
  intros [Hi Ho Hl Hin (x & Hx & Hc & Hlb & Hp)] Hop.
  pose proof (ep_step_lookup e o s x Hi Hx) as Hx'. pose proof (ep_step_inv e o Hi) as Hi'.
  destruct o as [|p|[err|] d|j|j|j k v| |j]; try done; cbn [session_step] in Hx'.
  - subst l'. split; try done; cbn; [set_solver|by exists x].
  - subst l'. rewrite bool_decide_true in Hx' by done.
    split; [done|cbn; by rewrite fold_with_session..|].
    eexists. split; [exact Hx'|]. unfold put_sent, put. rewrite Hlb, Hc. cbn. by rewrite Hp.
  - split; try done. eexists. split; [exact Hx'|]. rewrite (bool_decide_ext (s = j) (j = s)) by (split; congruence).
    rewrite <- Hp in *. unfold take_packet. destruct (bool_decide (j = s)); rewrite Hop; [|done].
    by destruct (packets x) eqn:Hq.
  - destruct Hop as [Hne ->]. rewrite bool_decide_false in Hx' by congruence.
    split; try done; cbn; [|by exists x]. apply list_elem_of_filter. by split.
Qed.

Lemma alive_new e s l : alive e s l ->
  create_new_connection e = (Ok (length (store e)), ep_step e DoNewPush) /\ alive (ep_step e DoNewPush) s l.
Proof.
  intros Ha. split; [|by apply (alive_step _ _ _ _ _ Ha)]. unfold create_new_connection, new_session, new_session_check.
  by rewrite (al_open _ _ _ Ha).
Qed.

Lemma alive_fresh e s l : alive e s l -> alive (ep_step e DoNewPush) (length (store e)) [].
Proof.
  intros Ha. destruct (alive_step e s l DoNewPush l Ha eq_refl) as [H1 H2 H3 _ _].
  split; try done; cbn; [set_solver|]. eexists. split; [by apply list_lookup_middle|].
  cbn. by rewrite (al_loopback _ _ _ Ha).
Qed.

Lemma alive_next e s l : alive e s l ->
  conn_get_next_packet s e = (match l with [] => None | x :: _ => Some (Ok x) end, ep_step e (DoTake s))
  /\ alive (ep_step e (DoTake s)) s (tail l).
Proof.
  intros Ha. split; [|apply (alive_step _ _ _ _ _ Ha); by rewrite bool_decide_true].
  destruct (conn_steps s [] [] [] e (alive_lt _ _ _ Ha)) as (_ & H2 & _).
  rewrite <- H2. destruct Ha as [_ _ _ _ (x & Hx & Hc & Hlb & <-)].
  unfold conn_get_next_packet. rewrite Hx. unfold take_packet. destruct (packets x); [by rewrite Hc|done].
Qed.

(** ** Lemmas: a participant *)

Record part_inv (e : Endpoint) (p : Participant) : Prop := {
  pi_stream : st_inv (vp_stream p);
  pi_length : length (vp_sessions p) = length (conns (vp_stream p));
  pi_range : Forall (fun s => (s < length (store e))%nat) (vp_sessions p);
  pi_bus : bus_inv (vp_bus p);
}.

Lemma part_inv_grow e e' p : part_inv e p -> (length (store e) <= length (store e'))%nat -> part_inv e' p.
Proof.
  intros [H1 H2 H3 H4] Hle. split; try done. eapply Forall_impl; [exact H3|]. cbn. lia.
Qed.

(** what a step of a participant does to the sessions of the others: the packets [out] are sent *)
Definition others_see (p : Participant) (e : Endpoint) (p' : Participant) (e' : Endpoint) (out : list (list Z)) : Prop :=
  part_inv e' p' /\ (length (store e) <= length (store e'))%nat
  /\ (forall s, s ∈ vp_sessions p' -> s ∈ vp_sessions p \/ (length (store e) <= s)%nat)
  /\ (forall s l, alive e s l -> s ∉ vp_sessions p -> alive e' s (l ++ out)).

(** a connection can be had: nothing is sent, and the streamer has it afterwards *)
Lemma open_connection_sees e s0 l0 p : alive e s0 l0 -> part_inv e p ->
  exists sessions e', open_connection p e = (None, sessions, e')
    /\ others_see p e (with_stream (get_api None (vp_stream p)).2 sessions p) e' []
    /\ (exists l, alive e' s0 l) /\ vp_sessions p ⊆ sessions.
Proof.
  intros Ha Hp. pose proof Hp as [H1 H2 H3 H4]. unfold open_connection.
  destruct (get_api_inv None (vp_stream p) H1) as [Hg _]. unfold get_api in *.
  destruct (working (vp_stream p)) as [c|] eqn:Hw.
  - exists (vp_sessions p), e. split; [done|]. split; [|by split; [exists l0|]]. split; [by split|]. split; [done|].
    split; [by left|]. intros s l Hs _. by rewrite app_nil_r.
  - destruct (alive_new e s0 l0 Ha) as [-> Ha']. do 2 eexists. split; [reflexivity|].
    pose proof (ep_step_length e DoNewPush) as Hlen. split; [|split; [by exists l0|set_solver]].
    split; [|split; [done|split]].
    + split; cbn [vp_stream with_stream vp_sessions snd set_working conns vp_bus]; try done.
      * rewrite !length_app, H2. done.
      * apply Forall_app. split; [eapply Forall_impl; [exact H3|]; cbn; rewrite length_app; lia|].
        constructor; [|done]. cbn. rewrite length_app. cbn. lia.
    + cbn. intros s [Hs|Hs]%elem_of_app; [by left|]. apply list_elem_of_singleton in Hs as ->. by right.
    + intros s l Hs _. rewrite app_nil_r. by apply (alive_new e s l Hs).
Qed.

(** the steps of a participant that leave its connections alone *)
Lemma others_see_frame p e p' : part_inv e p -> vp_sessions p' = vp_sessions p -> st_inv (vp_stream p') ->
  length (conns (vp_stream p')) = length (conns (vp_stream p)) -> bus_inv (vp_bus p') -> others_see p e p' e [].
Proof.
  intros [H1 H2 H3 H4] Hs Hi Hl Hb. split; [split; by rewrite ?Hs, ?Hl|]. split; [done|].
  split; [by rewrite Hs; left|]. intros s l Ha _. by rewrite app_nil_r.
Qed.

Lemma others_see_trans p e p1 e1 out1 p2 e2 out2 : others_see p e p1 e1 out1 -> others_see p1 e1 p2 e2 out2 ->
  others_see p e p2 e2 (out1 ++ out2).
Proof.
  intros (A1 & A2 & A3 & A4) (B1 & B2 & B3 & B4). split; [done|]. split; [lia|]. split.
  - intros s Hs. destruct (B3 s Hs) as [H|H]; [auto|right; lia].
  - intros s l Hs Hn. rewrite app_assoc. apply B4; [by apply A4|]. intros Hin. destruct (A3 s Hin) as [|Hle]; [done|].
    apply alive_lt in Hs. lia.
Qed.

(** the endpoint takes a step that sends [out] *)
Lemma others_see_step p e o out : part_inv e p ->
  (forall s l, alive e s l -> s ∉ vp_sessions p -> alive (ep_step e o) s (l ++ out)) -> others_see p e p (ep_step e o) out.
Proof.
  intros Hp Hal. pose proof (ep_step_length e o). split; [by eapply part_inv_grow|]. split; [done|]. split; [by left|done].
Qed.

(** sending reaches every session *)
Lemma send_sees e s0 l0 p data : alive e s0 l0 -> part_inv e p ->
  exists p' e', send_raw_packet data p e = (Ok tt, p', e') /\ others_see p e p' e' [data]
    /\ (forall c, working (vp_stream p) = Some c -> e' = ep_step e (DoSend None data) /\ vp_sessions p' = vp_sessions p
        /\ working (vp_stream p') = Some c)
    /\ vp_bus p' = vp_bus p /\ vp_todo p' = vp_todo p /\ vp_bridges p' = vp_bridges p
    /\ streaming (vp_stream p') = streaming (vp_stream p) /\ pollers (vp_stream p') = pollers (vp_stream p).
Proof.
  intros Ha Hp. destruct (open_connection_sees e s0 l0 p Ha Hp) as (sessions & e1 & Ho & Hsee & _ & _).
  unfold send_raw_packet. rewrite Ho. change (conn_send_packet (dummy_send_packet data) data e1)
    with (send_packet None data e1). cbn [send_packet].
  change (foldl _ e1 _) with (ep_step e1 (DoSend None data)).
  unfold stream_send_packet. pose proof (get_api_inv None (vp_stream p) (pi_stream _ _ Hp)) as [Hg Hok].
  assert (exists c, (get_api None (vp_stream p)).1 = Ok c) as [c Hc]
    by (unfold get_api; destruct (working (vp_stream p)); eauto).
  destruct (get_api None (vp_stream p)) as [r s] eqn:Hget. cbn [fst snd] in *. subst r.
  destruct (Hok c eq_refl) as [Hw _].
  set (s2 := set_working (alter (fun x => mkConn (conn_closed x) (sent_on x ++ [data])) c (conns s)) (working s) s).
  assert (others_see p e (with_stream s2 sessions p) (ep_step e1 (DoSend None data)) ([] ++ [] ++ [data])) as Hall.
  { eapply others_see_trans; [exact Hsee|].
    assert (others_see (with_stream s sessions p) e1 (with_stream s2 sessions p) e1 []) as Hf.
    { apply others_see_frame; [apply Hsee|done| |cbn; by rewrite length_alter|apply Hp].
      apply alter_conn_inv; [done|done|done|]. left. by rewrite Hw. }
    eapply others_see_trans; [exact Hf|]. apply others_see_step; [apply Hf|].
    intros s' l Hs' _. by apply (alive_step _ _ _ _ _ Hs'). }
  exists (with_stream s2 sessions p), (ep_step e1 (DoSend None data)).
  split; [reflexivity|]. split; [exact Hall|]. unfold s2. cbn [with_stream vp_bus vp_todo vp_bridges vp_sessions vp_stream
    set_working streaming pollers].
  assert (streaming s = streaming (vp_stream p) /\ pollers s = pollers (vp_stream p)) as [-> ->].
  { unfold get_api in Hget. destruct (working (vp_stream p)); injection Hget as _ <-; done. }
  split; [|done]. intros c' Hc'. unfold open_connection in Ho. unfold get_api in Hget. rewrite Hc' in Ho, Hget.
  injection Ho as <- <-. by injection Hget as _ <-.
Qed.

Section Steps.
Context {NB : NumBigint}.

Lemma bridge_answers_total bridges outs : exists replies, bridge_answers bridges outs = Ok replies.
Proof.
  induction outs as [|[l packet|text] t [rest IH]]; cbn [bridge_answers]; [by eexists| |by eexists].
  rewrite IH. destruct (bridges !! l) as [br|]; [|by eexists].
  destruct (feed_packet_cases br packet) as (outs & -> & _). by eexists.
Qed.

Lemma receive_total packet p : bus_inv (vp_bus p) ->
  exists b todo, receive packet p = Ok (with_todo todo (with_bus b p)) /\ bus_inv b.
Proof.
  intros Hb. unfold receive. destruct (process_packet_inv packet (vp_bus p) Hb) as (b & outs & -> & Hb').
  cbn [mbind res_bind]. destruct (bridge_answers_total (vp_bridges p) outs) as [replies ->]. by eexists _, _.
Qed.

(** the polling step, except for opening a connection, keeps the number of connections *)
Lemma poller_conns j factory next s :
  (forall got, pollers s !! j <> Some (mkPoller PollApi got)) -> length (conns (poller_step j factory next s)) = length (conns s).
Proof.
  intros Hno. unfold poller_step. destruct (pollers s !! j) as [[[] got]|] eqn:Hp; try done.
  - by destruct (Hno got).
  - by destruct next as [[]|].
  - cbn. unfold cleanup_connection. destruct (working s); [|done]. cbn. by rewrite length_alter.
Qed.

Lemma frame_poll next p e : part_inv e p -> (forall got, pollers (vp_stream p) !! 0%nat <> Some (mkPoller PollApi got)) ->
  others_see p e (with_stream (poller_step 0 None next (vp_stream p)) (vp_sessions p) p) e [].
Proof.
  intros Hp Hno. apply others_see_frame; [done|done| |by apply poller_conns|apply Hp].
  apply (st_step_inv _ (StPoll 0 None next)), Hp.
Qed.

(** taking from and closing one's own session is not seen by the others *)
Lemma own_step_sees p e o session : part_inv e p -> session ∈ vp_sessions p -> o = DoTake session \/ o = DoRemove session ->
  others_see p e p (ep_step e o) [].
Proof.
  intros Hp Hin Ho. apply others_see_step; [done|]. intros s l Ha Hs. rewrite app_nil_r.
  assert (session <> s) as Hne by (intros ->; done).
  destruct Ho as [->| ->]; apply (alive_step _ _ _ _ _ Ha); [by rewrite bool_decide_false|done].
Qed.

Lemma session_of p e c : part_inv e p -> (c < length (conns (vp_stream p)))%nat ->
  exists session, vp_sessions p !! c = Some session /\ session ∈ vp_sessions p /\ (session < length (store e))%nat.
Proof.
  intros [_ H2 H3 _] Hc. rewrite <- H2 in Hc. destruct (lookup_lt_is_Some_2 _ _ Hc) as [session Hs].
  exists session. split; [done|]. split; [by eapply list_elem_of_lookup_2|]. by apply (Forall_lookup_1 _ _ _ _ H3 Hs).
Qed.

Lemma close_working_sees p e : part_inv e p -> others_see p e p (close_working p e) [].
Proof.
  intros Hp. unfold close_working. pose proof (pi_stream _ _ Hp) as [H1 _ _].
  destruct (working (vp_stream p)) as [c|]; [|apply others_see_frame; by apply Hp || done].
  destruct (H1 c eq_refl) as (x & Hx & _). apply lookup_lt_Some in Hx.
  destruct (session_of p e c Hp Hx) as (session & -> & Hin & _).
  change (conn_close session e) with (ep_step e (DoRemove session)). eapply own_step_sees; [done|done|by right].
Qed.

Lemma next_step session e : (session < length (store e))%nat ->
  (conn_get_next_packet session e).2 = ep_step e (DoTake session)
  /\ (conn_get_next_packet session e).1 <> Some Panic.
Proof.
  intros Hs. split; [by apply (conn_steps session [] [] [] e Hs)|].
  destruct (lookup_lt_is_Some_2 _ _ Hs) as [x Hx]. unfold conn_get_next_packet, take_packet. rewrite Hx.
  destruct (packets x); cbn; [by destruct (session_closed x)|done].
Qed.

(** a step of a streaming thread, as the others see it *)
Lemma poll_sees e s0 l0 p : alive e s0 l0 -> part_inv e p ->
  exists p' e' out, poll p e = Ok (p', e', out) /\ others_see p e p' e' out.
Proof.
  intros Ha Hp. unfold poll. destruct (vp_todo p) as [|packet rest].
  2: { assert (others_see p e (with_todo rest p) e []) as Hf by (apply others_see_frame; by apply Hp || done).
    destruct (send_sees e s0 l0 (with_todo rest p) packet Ha ltac:(apply Hf)) as (p' & e' & -> & Hsee & _).
    cbn [is_ok]. do 3 eexists. split; [reflexivity|]. by apply (others_see_trans _ _ _ _ _ _ _ _ Hf). }
  destruct (pollers (vp_stream p) !! 0%nat) as [[st got]|] eqn:Hj; cbn [fmap option_fmap option_map poll_state].
  2: { do 3 eexists. split; [reflexivity|]. apply frame_poll; [done|]. intros got. by rewrite Hj. }
  destruct st as [| |c| | | |]; try (do 3 eexists; split; [reflexivity|]; apply frame_poll; [done|];
    intros got'; by rewrite Hj).
  - destruct (open_connection_sees e s0 l0 p Ha Hp) as (sessions & e1 & -> & Hsee & _).
    do 3 eexists. split; [reflexivity|]. eapply (others_see_trans _ _ _ _ [] _ _ []); [exact Hsee|].
    assert (exists p1, poller_step 0 None None (vp_stream p) = set_poller 0 p1 (get_api None (vp_stream p)).2) as [p1 Hst].
    { unfold poller_step. rewrite Hj. destruct (get_api None (vp_stream p)) as [[] ?]; by eexists. }
    apply others_see_frame; [apply Hsee|done| |cbn; by rewrite Hst|apply Hp].
    apply (st_step_inv _ (StPoll 0 None None)), Hp.
  - pose proof (st_next _ (pi_stream _ _ Hp) _ _ _ Hj) as Hc.
    destruct (session_of p e c Hp Hc) as (session & Hs & Hin & Hlt). rewrite Hs. cbn [unwrap mbind res_bind].
    destruct (next_step session e Hlt) as [He Hnp].
    destruct (conn_get_next_packet session e) as [next e1]. cbn [fst snd] in *. subst e1.
    assert (others_see p e (with_stream (poller_step 0 None next (vp_stream p)) (vp_sessions p) p)
      (ep_step e (DoTake session)) []) as Hsee.
    { eapply (others_see_trans _ _ _ _ [] _ _ []); [eapply own_step_sees; [done|done|by left]|].
      apply frame_poll; [|intros got'; by rewrite Hj]. eapply part_inv_grow; [done|apply ep_step_length]. }
    destruct next as [[packet|err|]|]; [|by do 3 eexists|done|by do 3 eexists].
    destruct (receive_total packet (with_stream (poller_step 0 None (Some (Ok packet)) (vp_stream p)) (vp_sessions p) p))
      as (b & todo & -> & Hb); [apply Hp|]. cbn [mbind res_bind]. do 3 eexists. split; [reflexivity|].
    eapply (others_see_trans _ _ _ _ [] _ _ []); [exact Hsee|]. by apply others_see_frame; try apply Hsee.
  - do 3 eexists. split; [reflexivity|]. pose proof (close_working_sees p e Hp) as Hcl.
    eapply (others_see_trans _ _ _ _ [] _ _ []); [exact Hcl|]. apply frame_poll; [apply Hcl|intros got'; by rewrite Hj].
Qed.

(** a request, as the others see it *)
Lemma transact_sees e s0 l0 p t path body zero : alive e s0 l0 -> part_inv e p ->
  exists r p' e' out, transact t path body zero p e = (r, p', e', out) /\ others_see p e p' e' out
    /\ (forall c, working (vp_stream p) = Some c -> vp_sessions p' = vp_sessions p /\ working (vp_stream p') = Some c
        /\ forall s l, alive e s l -> alive e' s (l ++ out))
    /\ vp_todo p' = vp_todo p /\ vp_bridges p' = vp_bridges p
    /\ streaming (vp_stream p') = streaming (vp_stream p) /\ pollers (vp_stream p') = pollers (vp_stream p).
Proof.
  intros Ha Hp. unfold transact.
  set (send := fun data : list Z => match (send_raw_packet data p e).1.1 with Err err => Some err | _ => None end).
  pose proof (new_transaction_cases send t path body zero (vp_bus p) (pi_bus _ _ Hp)) as Hcases.
  destruct (new_transaction send t path body zero (vp_bus p)) as [r b].
  assert (bus_inv b) as Hb by (destruct Hcases as [(? & ? & [= -> ->] & ? & _)|(? & [= -> ->] & ? & _)]; done).
  destruct (to_packet_ok t (from_address (vp_bus p)) _ _ (append_bytes body)) as (pt & pf & _ & _ & ->).
  set (packet := (pt ++ _) ++ _).
  destruct (send_sees e s0 l0 p packet Ha Hp) as (p1 & e1 & -> & Hsee & Hw & H1 & H2 & H3 & H4 & H5).
  cbn [is_ok]. do 4 eexists. split; [reflexivity|]. split.
  - eapply (others_see_trans _ _ _ _ [packet] _ _ []); [exact Hsee|]. by apply others_see_frame; try apply Hsee.
  - split; [|done]. intros c Hc. destruct (Hw c Hc) as (-> & Hs & Hc'). split; [done|]. split; [done|].
    intros s l Hs'. by apply (alive_step _ _ _ _ _ Hs').
Qed.

(** ** Lemmas: a participant that is followed *)

(** it streams from its first connection, the session [s], and its listener got [got] *)
Record tracked (s : nat) (st : PollState) (got : list (list Z)) (p : Participant) : Prop := {
  tr_sessions : vp_sessions p = [s];
  tr_working : working (vp_stream p) = Some 0%nat;
  tr_streaming : streaming (vp_stream p) = true;
  tr_pollers : pollers (vp_stream p) = [mkPoller st got];
  tr_state : st = PollHead \/ st = PollApi \/ st = PollNext 0;
}.

(** the next step of its thread *)
Definition poll_result (s : nat) (st : PollState) (got l : list (list Z)) (p : Participant)
    (p' : Participant) (e' : Endpoint) (out : list (list Z)) : Prop :=
  let quiet st := out = [] /\ tracked s st got p' /\ alive e' s l /\ vp_bus p' = vp_bus p /\ vp_todo p' = [] in
  match vp_todo p, st, l with
  | d :: rest, _, _ => out = [d] /\ tracked s st got p' /\ alive e' s (l ++ [d]) /\ vp_bus p' = vp_bus p /\ vp_todo p' = rest
  | [], PollHead, _ => quiet PollApi
  | [], PollApi, _ => quiet (PollNext 0)
  | [], _, [] => quiet st
  | [], _, x :: t =>
    out = [] /\ tracked s PollHead (got ++ [x]) p' /\ alive e' s t
    /\ exists outs, process_packet x (vp_bus p) = Ok (vp_bus p', outs) /\ bridge_answers (vp_bridges p) outs = Ok (vp_todo p')
  end.

Lemma tracked_stream s st got p s' : tracked s st got p -> working s' = Some 0%nat -> streaming s' = true ->
  forall st' got', pollers s' = [mkPoller st' got'] -> st' = PollHead \/ st' = PollApi \/ st' = PollNext 0 ->
  tracked s st' got' (with_stream s' (vp_sessions p) p).
Proof. intros [H1 _ _ _ _] Hw Hs st' got' Hp Hst. by split. Qed.

Lemma own_poll e s st got l p : part_inv e p -> tracked s st got p -> alive e s l ->
  exists p' e' out, poll p e = Ok (p', e', out) /\ others_see p e p' e' out /\ vp_bridges p' = vp_bridges p
    /\ poll_result s st got l p p' e' out.
Proof.
  intros Hp Ht Ha. destruct (poll_sees e s l p Ha Hp) as (p' & e' & out & Hpoll & Hsee).
  exists p', e', out. split; [done|]. split; [done|]. revert Hpoll. clear Hsee.
  pose proof Ht as [T1 T2 T3 T4 T5]. unfold poll, poll_result. destruct (vp_todo p) as [|d rest] eqn:Htodo.
  2: { assert (others_see p e (with_todo rest p) e []) as Hf by (apply others_see_frame; by apply Hp || done).
    destruct (send_sees e s l (with_todo rest p) d Ha ltac:(apply Hf)) as (p1 & e1 & -> & Hsee & Hw & H1 & H2 & H3 & H4 & H5).
    destruct (Hw _ T2) as (-> & Hs & Hc). cbn [is_ok]. intros [= <- <- <-]. split; [done|]. split; [done|]. split.
    - cbn in *. split; congruence || done.
    - by split; [apply (alive_step _ _ _ (DoSend None d) _ Ha)|]. }
  rewrite T4. cbn [lookup list_lookup fmap option_fmap option_map poll_state].
  assert (forall next, poller_step 0 None next (vp_stream p)
    = match st with
      | PollHead => set_poller 0 (mkPoller PollApi got) (vp_stream p)
      | PollApi => set_poller 0 (mkPoller (PollNext 0) got) (vp_stream p)
      | _ => match next with
             | Some (Ok packet) => set_poller 0 (mkPoller PollHead (got ++ [packet])) (vp_stream p)
             | Some _ => set_poller 0 (mkPoller PollErr got) (vp_stream p)
             | None => vp_stream p
             end
      end) as Hst.
  { intros next. unfold poller_step, get_api. rewrite T4, T2. cbn. rewrite T3. by destruct T5 as [->|[->| ->]]. }
  assert (forall st' got', st' = PollHead \/ st' = PollApi \/ st' = PollNext 0 ->
    tracked s st' got' (with_stream (set_poller 0 (mkPoller st' got') (vp_stream p)) (vp_sessions p) p)) as Htr
    by (intros st' got' H; split; cbn; by rewrite ?T4).
  destruct T5 as [->|[->| ->]].
  - intros [= <- <- <-]. rewrite Hst. split; [done|]. split; [done|]. split; [by apply Htr; auto|]. done.
  - unfold open_connection. rewrite T2. intros [= <- <- <-]. rewrite Hst. split; [done|]. split; [done|].
    split; [by apply Htr; auto|]. done.
  - rewrite T1. cbn [lookup list_lookup unwrap mbind res_bind].
    destruct (alive_next e s l Ha) as [-> Ha']. rewrite Hst. destruct l as [|x t].
    + intros [= <- <- <-]. split; [done|]. split; [done|]. split; [|done]. split; cbn; by rewrite ?T1; auto.
    + unfold receive. cbn [with_stream vp_bus vp_bridges].
      destruct (process_packet x (vp_bus p)) as [[b outs]|[]|] eqn:Hpp; [|done]. cbn [mbind res_bind].
      destruct (bridge_answers (vp_bridges p) outs) as [replies|[]|] eqn:Hba; [|done]. cbn [mbind res_bind].
      intros [= <- <- <-]. split; [done|]. split; [done|]. split; [by split; cbn; rewrite ?T1, ?T4; auto|].
      split; [done|]. exists outs. cbn. by rewrite Htodo.
Qed.

(** ** Lemmas: runs *)

(** The bus number [i] is followed: every packet of [hist] was given to its
    listener or waits in its queue, in this order. *)
Definition follows (i s : nat) (hist : list (list Z)) (v : VirtualUartBus) : Prop :=
  (exists p st got l, vb_buses v !! i = Some p /\ tracked s st got p /\ alive (vb_endpoint v) s l /\ got ++ l = hist)
  /\ forall j p, vb_buses v !! j = Some p -> j <> i -> s ∉ vp_sessions p.

Definition parts_inv (v : VirtualUartBus) : Prop := Forall (part_inv (vb_endpoint v)) (vb_buses v).

Definition keeps (i : nat) (o : vb_op) : Prop :=
  match o with VCloseBus j => j <> i | VClose => False | _ => True end.

(** a step of another participant *)
Lemma other_step i s hist v j p p' e' out : parts_inv v -> follows i s hist v -> vb_buses v !! j = Some p -> j <> i ->
  others_see p (vb_endpoint v) p' e' out ->
  parts_inv (mkVirtual e' (<[j := p']> (vb_buses v))) /\ follows i s (hist ++ out) (mkVirtual e' (<[j := p']> (vb_buses v))).
Proof.
  intros Hinv [(q & st & got & l & Hq & Ht & Ha & <-) Ho] Hj Hne (S1 & S2 & S3 & S4). split.
  - apply Forall_insert; [|done]. eapply Forall_impl; [exact Hinv|]. intros r Hr. by eapply part_inv_grow.
  - split; cbn.
    + exists q, st, got, (l ++ out). rewrite list_lookup_insert_ne by done. split; [done|]. split; [done|].
      split; [|by rewrite app_assoc]. apply S4; [done|]. by apply (Ho j p).
    + intros k r Hk Hki. apply list_lookup_insert_Some in Hk as [(<- & <- & _)|[_ Hk]]; [|by apply (Ho k r)].
      intros Hin. destruct (S3 s Hin) as [H|H]; [by apply (Ho j p Hj Hne)|]. apply alive_lt in Ha. lia.
Qed.

(** a step of the followed participant itself *)
Lemma same_step i s v p p' e' out hist st' got' l' : parts_inv v -> follows i s hist v -> vb_buses v !! i = Some p ->
  others_see p (vb_endpoint v) p' e' out -> tracked s st' got' p' -> alive e' s l' -> got' ++ l' = hist ++ out ->
  parts_inv (mkVirtual e' (<[i := p']> (vb_buses v))) /\ follows i s (hist ++ out) (mkVirtual e' (<[i := p']> (vb_buses v))).
Proof.
  intros Hinv [_ Ho] Hi (S1 & S2 & S3 & S4) Ht Ha Heq. split.
  - apply Forall_insert; [|done]. eapply Forall_impl; [exact Hinv|]. intros r Hr. by eapply part_inv_grow.
  - split; cbn.
    + exists p', st', got', l'. rewrite list_lookup_insert_eq by (by eapply lookup_lt_Some). done.
    + intros k r Hk Hki. rewrite list_lookup_insert_ne in Hk by done. by apply (Ho k r).
Qed.

(** the step of a participant, whoever it is *)
Lemma any_step i s hist v j p p' e' out : parts_inv v -> follows i s hist v -> vb_buses v !! j = Some p ->
  others_see p (vb_endpoint v) p' e' out ->
  (j = i -> forall st got l, tracked s st got p -> alive (vb_endpoint v) s l ->
     exists st' got' l', tracked s st' got' p' /\ alive e' s l' /\ got' ++ l' = (got ++ l) ++ out) ->
  parts_inv (mkVirtual e' (<[j := p']> (vb_buses v))) /\ follows i s (hist ++ out) (mkVirtual e' (<[j := p']> (vb_buses v))).
Proof.
  intros Hinv Hf Hj Hsee Hown. destruct (decide (j = i)) as [->|Hne]; [|by eapply other_step].
  pose proof Hf as [(q & st & got & l & Hq & Ht & Ha & Hh) _]. rewrite Hq in Hj. injection Hj as ->.
  destruct (Hown eq_refl st got l Ht Ha) as (st' & got' & l' & H1 & H2 & H3). subst hist. by eapply same_step.
Qed.

(** what a participant does to itself only *)
Lemma local_step i s hist v j p p' : parts_inv v -> follows i s hist v -> vb_buses v !! j = Some p ->
  vp_sessions p' = vp_sessions p -> vp_stream p' = vp_stream p -> bus_inv (vp_bus p') ->
  parts_inv (mkVirtual (vb_endpoint v) (<[j := p']> (vb_buses v)))
  /\ follows i s hist (mkVirtual (vb_endpoint v) (<[j := p']> (vb_buses v))).
Proof.
  intros Hinv Hf Hj Hs Hst Hb. rewrite <- (app_nil_r hist).
  pose proof (Forall_lookup_1 _ _ _ _ Hinv Hj) as Hp.
  apply (any_step i s hist v j p); [done|done|done| |].
  - apply others_see_frame; [done|done|rewrite Hst; apply Hp|by rewrite Hst|done].
  - intros _ st got l [] Ha. exists st, got, l. split; [|by rewrite app_nil_r]. split; congruence || done.
Qed.

(** a bus that joins, and sessions without a bus *)
Lemma join_step i s hist v f : parts_inv v -> follows i s hist v ->
  exists v', bus_of f v = Ok v' /\ parts_inv v' /\ follows i s hist v'.
Proof.
  intros Hinv [(q & st & got & l & Hq & Ht & Ha & Hh) Ho].
  unfold bus_of, from_connection, open_connection. cbn [working streamer_new vp_stream vp_sessions].
  destruct (alive_new _ s l Ha) as [-> Ha']. cbn. eexists. split; [reflexivity|]. split.
  - apply Forall_app. split;
      [eapply Forall_impl; [exact Hinv|]; intros r Hr; eapply part_inv_grow; [done|apply (ep_step_length _ DoNewPush)]|].
    constructor; [|done]. split; cbn.
    + apply (st_step_inv streamer_new (StStart None None)), streamer_new_inv.
    + done.
    + constructor; [|done]. rewrite length_app. cbn. lia.
    + apply build_inv.
  - split; cbn.
    + exists q, st, got, l. split; [by apply lookup_app_l_Some|]. done.
    + intros k r Hkr Hki. apply lookup_snoc_Some in Hkr as [[_ Hkr]|[_ <-]]; [by apply (Ho k r)|].
      cbn. apply alive_lt in Ha. rewrite list_elem_of_singleton. lia.
Qed.

Lemma connect_step i s hist v : parts_inv v -> follows i s hist v ->
  let v' := mkVirtual (create_new_connection (vb_endpoint v)).2 (vb_buses v) in parts_inv v' /\ follows i s hist v'.
Proof.
  intros Hinv [(q & st & got & l & Hq & Ht & Ha & Hh) Ho]. destruct (alive_new _ s l Ha) as [-> Ha']. cbn [snd]. split.
  - eapply Forall_impl; [exact Hinv|]. intros r Hr. eapply part_inv_grow; [done|apply (ep_step_length _ DoNewPush)].
  - split; [|done]. exists q, st, got, l. done.
Qed.

(** a bus that is closed *)
Lemma close_sees p e : part_inv e p -> others_see p e (bus_close p e).1 (bus_close p e).2 [].
Proof.
  intros Hp. pose proof (close_working_sees p e Hp) as Hcl. eapply (others_see_trans _ _ _ _ [] _ _ []); [exact Hcl|].
  destruct Hcl as [Hcw _]. apply others_see_frame; [done|done| | |apply Hcw].
  - cbn. unfold stream_close. apply (st_step_inv _ StCleanup), (st_step_inv _ StStop), Hcw.
  - cbn. unfold stream_close, cleanup_connection. destruct (working _); [|done]. cbn. by rewrite length_alter.
Qed.

Lemma vb_step_follows i s hist v o : parts_inv v -> follows i s hist v -> keeps i o ->
  exists v' out, vb_step o v = Ok (v', out) /\ parts_inv v' /\ follows i s (hist ++ out) v'.
Proof.
  intros Hinv Hf Hk. pose proof Hf as [(q & st & got & l & Hq & Ht & Ha & Hh) Ho].
  assert (forall j p, vb_buses v !! j = Some p -> part_inv (vb_endpoint v) p) as Hpi
    by (intros j p Hj; apply (Forall_lookup_1 _ _ _ _ Hinv Hj)).
  assert (parts_inv v /\ follows i s (hist ++ []) v) as Hsame by (by rewrite app_nil_r).
  destruct o as [f| |j|j data|j t path body zero|j tr|j br|j|]; cbn [vb_step keeps] in *.
  - destruct (join_step i s hist v f Hinv Hf) as (v' & -> & Hv). exists v', []. by rewrite app_nil_r.
  - do 2 eexists. split; [reflexivity|]. rewrite app_nil_r. by apply connect_step.
  - destruct (vb_buses v !! j) as [p|] eqn:Hj; [|by do 2 eexists].
    destruct (poll_sees _ s l p Ha (Hpi j p Hj)) as (p' & e' & out & Hpoll & Hsee).
    rewrite Hpoll. cbn [mbind res_bind]. do 2 eexists. split; [reflexivity|]. eapply any_step; [done..|].
    intros -> st' got' l' Ht' Ha'. destruct (own_poll _ s st' got' l' p (Hpi i p Hj) Ht' Ha') as (p1 & e1 & o1 & Heq & _ & _ & Hres).
    rewrite Hpoll in Heq. injection Heq as <- <- <-. unfold poll_result in Hres.
    destruct (vp_todo p), (tr_state _ _ _ _ Ht') as [->|[->| ->]], l' as [|x t']; decompose [and] Hres; subst out;
      do 3 eexists; (split; [eassumption|split; [eassumption|]]); by rewrite ?app_nil_r, <- ?app_assoc.
  - destruct (vb_buses v !! j) as [p|] eqn:Hj; [|by do 2 eexists].
    destruct (send_sees _ s l p data Ha (Hpi j p Hj)) as (p' & e' & -> & Hsee & Hw & H1 & H2 & H3 & H4 & H5).
    cbn [is_ok]. do 2 eexists. split; [reflexivity|]. eapply any_step; [done..|].
    intros -> st' got' l' Ht' Ha'. destruct (Hw _ (tr_working _ _ _ _ Ht')) as (-> & Hs & Hc).
    exists st', got', (l' ++ [data]). split; [destruct Ht'; split; congruence || done|].
    split; [by apply (alive_step _ _ _ (DoSend None data) _ Ha')|by rewrite app_assoc].
  - destruct (vb_buses v !! j) as [p|] eqn:Hj; [|by do 2 eexists].
    destruct (transact_sees _ s l p t path body zero Ha (Hpi j p Hj)) as (r & p' & e' & out & -> & Hsee & Hw & H2 & H3 & H4 & H5).
    do 2 eexists. split; [reflexivity|]. eapply any_step; [done..|].
    intros -> st' got' l' Ht' Ha'. destruct (Hw _ (tr_working _ _ _ _ Ht')) as (Hs & Hc & Hal).
    exists st', got', (l' ++ out). split; [destruct Ht'; split; congruence || done|]. split; [by apply Hal|by rewrite app_assoc].
  - do 2 eexists. split; [reflexivity|]. unfold on_bus. destruct (vb_buses v !! j) as [p|] eqn:Hj; [|done].
    rewrite app_nil_r. apply (local_step _ _ _ _ j p); [done..|]. apply revoke_inv, (Hpi j p Hj).
  - do 2 eexists. split; [reflexivity|]. unfold on_bus. destruct (vb_buses v !! j) as [p|] eqn:Hj; [|done].
    rewrite app_nil_r. apply (local_step _ _ _ _ j p); [done..|]. cbn.
    destruct (bus_step_inv (vp_bus p) (DoListen (length (vp_bridges p))) (pi_bus _ _ (Hpi j p Hj))) as (b & [= <-] & Hb). done.
  - do 2 eexists. split; [reflexivity|]. unfold on_bus. destruct (vb_buses v !! j) as [p|] eqn:Hj; [|done].
    pose proof (close_sees p _ (Hpi j p Hj)) as Hsee. destruct (bus_close p _) as [p' e'].
    by apply (other_step i s hist v j p).
  - done.
Qed.

Lemma run_vb_follows ops i s hist v : parts_inv v -> follows i s hist v -> Forall (keeps i) ops ->
  exists v' out, run_vb ops v = Ok (v', out) /\ parts_inv v' /\ follows i s (hist ++ out) v'.
Proof.
  intros Hinv Hf Hk. revert v hist Hinv Hf. induction Hk as [|o t Ho _ IH]; intros v hist Hinv Hf; cbn [run_vb].
  - exists v, []. by rewrite app_nil_r.
  - destruct (vb_step_follows i s hist v o Hinv Hf Ho) as (v1 & out & -> & Hinv1 & Hf1). cbn [mbind res_bind].
    destruct (IH v1 _ Hinv1 Hf1) as (v2 & rest & -> & Hinv2 & Hf2). cbn [mbind res_bind].
    exists v2, (out ++ rest). by rewrite app_assoc.
Qed.

End Steps.

(** ** Lemmas: the environment *)

(** the packets the listener of a bus got, and those that wait for it *)
Definition heard (p : Participant) : list (list Z) :=
  match pollers (vp_stream p) with mkPoller _ got :: _ => got | [] => [] end.
Definition unheard (v : VirtualUartBus) (p : Participant) : list (list Z) :=
  vp_sessions p ≫= queue_of (vb_endpoint v).

Lemma follows_heard i s hist v : follows i s hist v ->
  exists p, vb_buses v !! i = Some p /\ heard p ++ unheard v p = hist.
Proof.
  intros [(p & st & got & l & Hi & [T1 _ _ T4 _] & [_ _ _ _ (x & Hx & _ & _ & Hl)] & <-) _]. exists p. split; [done|].
  unfold heard, unheard, queue_of. rewrite T1, T4. cbn. by rewrite Hx, app_nil_r, Hl.
Qed.

Definition fresh_bus (f : Z) (s : nat) : Participant :=
  mkParticipant (build f) (start_streaming None None streamer_new).2 [s] [] [].

Lemma fresh_tracked f s : tracked s PollHead [] (fresh_bus f s).
Proof. split; try done. by left. Qed.

Lemma fresh_inv f s e : (s < length (store e))%nat -> part_inv e (fresh_bus f s).
Proof.
  intros Hs. split; [apply (st_step_inv streamer_new (StStart None None)), streamer_new_inv|done|by constructor|apply build_inv].
Qed.

Lemma create_env_ok a : exists e, create_env_from a = Ok (mkVirtual e [fresh_bus a 0]) /\ alive e 0 [].
Proof.
  eexists. split; [reflexivity|]. split; cbn; [|done|done|set_solver|by eexists].
  split; cbn; [by apply NoDup_singleton|]. constructor; [cbn; lia|done].
Qed.

Lemma new_bus_ok f v s l : alive (vb_endpoint v) s l ->
  bus_of f v = Ok (mkVirtual (ep_step (vb_endpoint v) DoNewPush) (vb_buses v ++ [fresh_bus f (length (store (vb_endpoint v)))])).
Proof.
  intros Ha. unfold bus_of, from_connection, open_connection. cbn [working streamer_new vp_stream vp_sessions].
  by rewrite (proj1 (alive_new _ _ _ Ha)).
Qed.

(** the new bus is followed from its first moment *)
Lemma new_bus_follows f i s hist v : parts_inv v -> follows i s hist v ->
  exists v', bus_of f v = Ok v' /\ follows (length (vb_buses v)) (length (store (vb_endpoint v))) [] v'.
Proof.
  intros Hinv [(p & st & got & l & Hi & Ht & Ha & _) _]. rewrite (new_bus_ok f v s l Ha). eexists. split; [done|]. split; cbn.
  - eexists _, PollHead, [], []. split; [by apply list_lookup_middle|]. split; [apply fresh_tracked|].
    split; [by eapply alive_fresh|done].
  - intros j q Hj Hne. apply lookup_snoc_Some in Hj as [[_ Hj]|[-> _]]; [|done]. intros Hin.
    pose proof (Forall_lookup_1 _ _ _ _ Hinv Hj) as [_ _ Hr _].
    rewrite Forall_forall in Hr. specialize (Hr _ Hin). lia.
Qed.

(** ** Lemmas: a client and a server *)

Section Duo.
Context {NB : NumBigint}.
Variables (br : UartbusServiceBridge) (b1 : Inner).

(** bus 0, a client without services, has the bus [b0]; bus 1 serves [br] *)
Definition duo (b0 : Inner) (st0 : PollState) (got0 l0 : list (list Z)) (st1 : PollState) (got1 l1 todo1 : list (list Z))
    (v : VirtualUartBus) : Prop :=
  exists p0 p1, vb_buses v = [p0; p1] /\ part_inv (vb_endpoint v) p0 /\ part_inv (vb_endpoint v) p1
    /\ tracked 0 st0 got0 p0 /\ tracked 1 st1 got1 p1 /\ alive (vb_endpoint v) 0 l0 /\ alive (vb_endpoint v) 1 l1
    /\ vp_bridges p0 = [] /\ vp_todo p0 = [] /\ vp_bus p0 = b0
    /\ vp_bridges p1 = [br] /\ vp_todo p1 = todo1 /\ vp_bus p1 = b1.

Lemma duo_poll0 b0 st0 got0 l0 st1 got1 l1 todo1 v : duo b0 st0 got0 l0 st1 got1 l1 todo1 v ->
  (forall x t, l0 = x :: t -> exists b, process_packet x b0 = Ok (b, [])) ->
  exists v', vb_step (VPoll 0) v = Ok (v', [])
    /\ match st0, l0 with
       | PollHead, _ => duo b0 PollApi got0 l0 st1 got1 l1 todo1 v'
       | PollApi, _ => duo b0 (PollNext 0) got0 l0 st1 got1 l1 todo1 v'
       | _, [] => duo b0 st0 got0 [] st1 got1 l1 todo1 v'
       | _, x :: t => forall b, process_packet x b0 = Ok (b, []) -> duo b PollHead (got0 ++ [x]) t st1 got1 l1 todo1 v'
       end.
Proof.
  intros (p0 & p1 & Hv & I0 & I1 & T0 & T1 & A0 & A1 & Hb0 & Htd & <- & Hb1 & Htd1 & Hbus1) Hpp.
  destruct (own_poll _ 0 st0 got0 l0 p0 I0 T0 A0) as (p' & e' & out & Hp & (S1 & S2 & S3 & S4) & Hbr & Hres).
  cbn [vb_step]. rewrite Hv. cbn [lookup list_lookup]. rewrite Hp. cbn [mbind res_bind].
  assert (alive e' 1 (l1 ++ out)) as A1' by (apply S4; [done|]; rewrite (tr_sessions _ _ _ _ T0); set_solver).
  unfold poll_result in Hres. rewrite Htd in Hres.
  assert (forall b got' st' l', out = [] -> tracked 0 st' got' p' -> alive e' 0 l' -> vp_bus p' = b -> vp_todo p' = [] ->
    duo b st' got' l' st1 got1 l1 todo1 (mkVirtual e' (<[0%nat := p']> [p0; p1]))) as Hmk.
  { intros b got' st' l' -> HT HA Hbus Htodo. rewrite app_nil_r in A1'. exists p', p1. cbn.
    split; [done|]. split; [done|]. split; [by eapply part_inv_grow|]. split; [done|]. split; [done|]. split; [done|].
    split; [done|]. split; [by rewrite Hbr|]. done. }
  eexists. assert (out = []) as Hout
    by (destruct (tr_state _ _ _ _ T0) as [->|[->| ->]]; [apply Hres..|]; destruct l0; apply Hres).
  split; [by rewrite Hout|].
  destruct (tr_state _ _ _ _ T0) as [->|[->| ->]]; [decompose [and] Hres; by apply Hmk..|].
  destruct l0 as [|x t]; [decompose [and] Hres; by apply Hmk|]. intros b Hb.
  destruct Hres as (_ & HT & HA & outs & Hx & Hans). rewrite Hb in Hx. injection Hx as Hbus <-. cbn in Hans. injection Hans as Hans.
  by apply Hmk.
Qed.

Lemma duo_poll1 b0 st0 got0 l0 st1 got1 l1 todo1 v : duo b0 st0 got0 l0 st1 got1 l1 todo1 v ->
  exists v' out, vb_step (VPoll 1) v = Ok (v', out)
    /\ match todo1, st1, l1 with
       | d :: rest, _, _ => duo b0 st0 got0 (l0 ++ [d]) st1 got1 (l1 ++ [d]) rest v'
       | [], PollHead, _ => duo b0 st0 got0 l0 PollApi got1 l1 [] v'
       | [], PollApi, _ => duo b0 st0 got0 l0 (PollNext 0) got1 l1 [] v'
       | [], _, [] => duo b0 st0 got0 l0 st1 got1 [] [] v'
       | [], _, x :: t => forall outs replies, process_packet x b1 = Ok (b1, outs) -> bridge_answers [br] outs = Ok replies ->
           duo b0 st0 got0 l0 PollHead (got1 ++ [x]) t replies v'
       end.
Proof.
  intros (p0 & p1 & Hv & I0 & I1 & T0 & T1 & A0 & A1 & Hb0 & Htd & Hbus0 & Hb1 & Htd1 & Hbus1).
  destruct (own_poll _ 1 st1 got1 l1 p1 I1 T1 A1) as (p' & e' & out & Hp & (S1 & S2 & S3 & S4) & Hbr & Hres).
  cbn [vb_step]. rewrite Hv. cbn [lookup list_lookup]. rewrite Hp. cbn [mbind res_bind].
  assert (alive e' 0 (l0 ++ out)) as A0' by (apply S4; [done|]; rewrite (tr_sessions _ _ _ _ T1); set_solver).
  unfold poll_result in Hres. rewrite Htd1 in Hres.
  assert (forall got' st' l' td, tracked 1 st' got' p' -> alive e' 1 l' -> vp_bus p' = b1 -> vp_todo p' = td ->
    duo b0 st0 got0 (l0 ++ out) st' got' l' td (mkVirtual e' (<[1%nat := p']> [p0; p1]))) as Hmk.
  { intros got' st' l' td HT HA Hbus Htodo. exists p0, p'. cbn.
    split; [done|]. split; [by eapply part_inv_grow|]. split; [done|]. split; [done|]. split; [done|]. split; [done|].
    split; [done|]. do 3 (split; [done|]). split; [by rewrite Hbr|]. done. }
  do 2 eexists. split; [reflexivity|]. rewrite Hbus1 in Hres.
  destruct todo1 as [|d rest]; [|decompose [and] Hres; subst out; by apply Hmk].
  assert (out = [] -> forall st' got' l' td v', duo b0 st0 got0 (l0 ++ out) st' got' l' td v' -> duo b0 st0 got0 l0 st' got' l' td v')
    as Hnil by (intros ->; by rewrite app_nil_r).
  destruct (tr_state _ _ _ _ T1) as [->|[->| ->]]; [decompose [and] Hres; apply Hnil; [done|]; by apply Hmk..|].
  destruct l1 as [|x t]; [decompose [and] Hres; apply Hnil; [done|]; by apply Hmk|]. intros outs replies Hx Hans.
  destruct Hres as (Ho & HT & HA & outs' & Hx' & Hans'). rewrite Hx in Hx'. injection Hx' as Hb <-.
  rewrite Hb1, Hans in Hans'. injection Hans' as ->. apply Hnil; [done|]. by apply Hmk.
Qed.

End Duo.

(** ** Lemmas: the schedule of a call *)

Definition is_poll (k : nat) (o : vb_op) : bool := match o with VPoll j => (j =? k)%nat | _ => false end.
Definition polls_of (k : nat) (ops : list vb_op) : nat := length (List.filter (is_poll k) ops).

Section Schedule.
Context {NB : NumBigint}.
Variables (br : UartbusServiceBridge) (b1 b0 b0' : Inner) (req wire : list Z) (outs1 outs2 : list bus_output).
Hypothesis client_req : process_packet req b0 = Ok (b0, []).
Hypothesis client_wire : process_packet wire b0 = Ok (b0', []).
Hypothesis server_req : process_packet req b1 = Ok (b1, outs1).
Hypothesis server_answers : bridge_answers [br] outs1 = Ok [wire].
Hypothesis server_wire : process_packet wire b1 = Ok (b1, outs2).
Hypothesis server_ignores : bridge_answers [br] outs2 = Ok [].

Definition client_at (hist : list (list Z)) (b : Inner) (got l : list (list Z)) : Prop :=
  got = [] /\ l = hist /\ b = b0 \/ got = [req] /\ l = tail hist /\ b = b0
  \/ got = [req; wire] /\ hist = [req; wire] /\ l = [] /\ b = b0'.

(** steps that the server needs at most until the answer is sent: [n] *)
Definition server_at (n : nat) (hist : list (list Z)) (st : PollState) (got l todo : list (list Z)) : Prop :=
  hist = [req] /\ got = [] /\ l = [req] /\ todo = [] /\ (match st with PollHead => 4 | PollApi => 3 | _ => 2 end <= n)%nat
  \/ hist = [req] /\ got = [req] /\ l = [] /\ todo = [wire] /\ (1 <= n)%nat
  \/ hist = [req; wire] /\ todo = [] /\ (got = [req] /\ l = [wire] \/ got = [req; wire] /\ l = []).

(** and the client until it has the answer, when it is sent *)
Definition client_steps (st : PollState) (got : list (list Z)) : nat :=
  3 * (2 - length got) - match st with PollHead => 0 | PollApi => 1 | _ => 2 end.

Definition calling (n1 n0 : nat) (v : VirtualUartBus) : Prop :=
  exists hist b st0 got0 l0 st1 got1 l1 todo1, duo br b1 b st0 got0 l0 st1 got1 l1 todo1 v
    /\ client_at hist b got0 l0 /\ server_at n1 hist st1 got1 l1 todo1 /\ (client_steps st0 got0 <= n0)%nat.

Lemma calling_poll0 n1 n0 v : calling n1 n0 v ->
  exists v' out, vb_step (VPoll 0) v = Ok (v', out) /\ calling n1 (match n1 with O => pred n0 | S _ => n0 end) v'.
Proof.
  intros (hist & b & st0 & got0 & l0 & st1 & got1 & l1 & todo1 & Hd & Hc & Hs & Hn).
  assert (hist = [req] \/ hist = [req; wire]) as Hh by (destruct Hs as [(-> & _)|[(-> & _)|(-> & _)]]; auto).
  destruct (duo_poll0 br b1 _ _ _ _ _ _ _ _ v Hd) as (v' & Hv & Hres).
  { intros x t ->. destruct Hc as [(_ & Hl & ->)|[(_ & Hl & ->)|(_ & _ & Hl & _)]]; destruct Hh as [->| ->]; cbn in Hl;
      try done; injection Hl as -> ->; eauto. }
  exists v', []. split; [done|].
  assert (n1 = 0%nat -> hist = [req; wire]) as Hfull
    by (intros ->; destruct Hs as [(_ & _ & _ & _ & H)|[(_ & _ & _ & _ & H)|(-> & _)]]; [destruct st1; lia|lia|done]).
  assert (forall st0', duo br b1 b st0' got0 l0 st1 got1 l1 todo1 v' ->
    (client_steps st0' got0 <= match n1 with O => pred n0 | S _ => n0 end)%nat -> calling n1 (match n1 with O => pred n0 | S _ => n0 end) v') as Hstay
    by (intros st0' H1 H2; exists hist, b, st0', got0, l0, st1, got1, l1, todo1; done).
  unfold client_steps in *.
  destruct Hd as (p0 & p1 & _ & _ & _ & T0 & _). destruct (tr_state _ _ _ _ T0) as [->|[->| ->]];
    [apply (Hstay PollApi Hres); destruct n1; lia|apply (Hstay (PollNext 0) Hres); destruct n1; lia|].
  destruct l0 as [|x t].
  - apply (Hstay (PollNext 0) Hres). destruct n1; [|lia]. rewrite (Hfull eq_refl) in *.
    destruct Hc as [(_ & ? & _)|[(_ & ? & _)|(-> & _)]]; [discriminate..|cbn; lia].
  - destruct Hc as [(-> & Hl & ->)|[(-> & Hl & ->)|(_ & _ & Hl & _)]]; [| |done].
    + assert (x = req /\ t = tail hist) as [-> ->] by (by destruct Hh as [->| ->]; injection Hl as -> ->).
      exists hist, b0, PollHead, [req], (tail hist), st1, got1, l1, todo1.
      split; [by apply Hres|]. split; [by right; left|]. split; [done|]. destruct n1; cbn in *; lia.
    + destruct Hh as [->| ->]; [done|]. injection Hl as -> ->.
      exists [req; wire], b0', PollHead, [req; wire], [], st1, got1, l1, todo1.
      split; [by apply Hres|]. split; [by right; right|]. split; [done|]. destruct n1; cbn in *; lia.
Qed.

Lemma calling_poll1 n1 n0 v : calling n1 n0 v ->
  exists v' out, vb_step (VPoll 1) v = Ok (v', out) /\ calling (pred n1) n0 v'.
Proof.
  intros (hist & b & st0 & got0 & l0 & st1 & got1 & l1 & todo1 & Hd & Hc & Hs & Hn).
  destruct (duo_poll1 br b1 _ _ _ _ _ _ _ _ v Hd) as (v' & out & Hv & Hres). exists v', out. split; [done|].
  destruct Hd as (p0 & p1 & _ & _ & _ & _ & T1 & _). apply tr_state in T1.
  destruct Hs as [(-> & -> & -> & -> & Hle)|[(-> & -> & -> & -> & Hle)|(-> & -> & Hs)]].
  - destruct T1 as [->|[->| ->]].
    + exists [req], b, st0, got0, l0, PollApi, [], [req], []. split; [done|]. split; [done|]. split; [|done]. left. do 4 (split; [done|]). lia.
    + exists [req], b, st0, got0, l0, (PollNext 0), [], [req], []. split; [done|]. split; [done|]. split; [|done]. left. do 4 (split; [done|]). lia.
    + specialize (Hres _ _ server_req server_answers).
      exists [req], b, st0, got0, l0, PollHead, [req], [], [wire]. split; [done|]. split; [done|]. split; [|done].
      right. left. do 4 (split; [done|]). lia.
  - exists [req; wire], b, st0, got0, (l0 ++ [wire]), st1, [req], [wire], []. split; [done|]. split.
    + destruct Hc as [(-> & -> & ->)|[(-> & -> & ->)|(_ & ? & _)]]; [by left|by right; left|done].
    + split; [|done]. right. right. do 2 (split; [done|]). by left.
  - assert (forall st', duo br b1 b st0 got0 l0 st' got1 l1 [] v' -> calling (pred n1) n0 v') as Hstay.
    { intros st' H. exists [req; wire], b, st0, got0, l0, st', got1, l1, []. split; [done|]. split; [done|].
      split; [|done]. right. right. done. }
    destruct T1 as [->|[->| ->]]; [by eapply Hstay..|]. destruct Hs as [[-> ->]|[-> ->]]; [|by eapply Hstay].
    specialize (Hres _ _ server_wire server_ignores).
    exists [req; wire], b, st0, got0, l0, PollHead, [req; wire], [], []. split; [done|]. split; [done|]. split; [|done].
    right. right. do 2 (split; [done|]). by right.
Qed.

(** in every schedule the server sends the answer within 4 of its steps, and
    the client has it within 6 of its steps after that *)
Lemma calling_run ops n1 n0 v : Forall (fun o => o = VPoll 0 \/ o = VPoll 1) ops -> calling n1 n0 v ->
  exists v' out, run_vb ops v = Ok (v', out)
    /\ calling (n1 - polls_of 1 ops) (match n1 with O => n0 - polls_of 0 ops | S _ => n0 end) v'.
Proof.
  intros Hops. revert n1 n0 v. induction Hops as [|o t Ho _ IH]; intros n1 n0 v Hc; cbn [run_vb].
  - exists v, []. split; [done|]. cbn. destruct n1; by rewrite ?Nat.sub_0_r.
  - destruct Ho as [->| ->].
    + destruct (calling_poll0 n1 n0 v Hc) as (v1 & out & -> & Hc1). cbn [mbind res_bind].
      destruct (IH _ _ _ Hc1) as (v2 & rest & -> & Hc2). cbn [mbind res_bind]. do 2 eexists. split; [reflexivity|].
      unfold polls_of in *. cbn. destruct n1; [|done]. replace (n0 - S _)%nat with (pred n0 - length (List.filter (is_poll 0) t))%nat by lia.
      done.
    + destruct (calling_poll1 n1 n0 v Hc) as (v1 & out & -> & Hc1). cbn [mbind res_bind].
      destruct (IH _ _ _ Hc1) as (v2 & rest & -> & Hc2). cbn [mbind res_bind]. do 2 eexists. split; [reflexivity|].
      unfold polls_of in *. cbn. revert Hc2. destruct n1 as [|[|n1]]; cbn; [done| |done].
      intros (hist & b & st0 & got0 & l0 & st1 & got1 & l1 & todo1 & H1 & H2 & H3 & H4).
      exists hist, b, st0, got0, l0, st1, got1, l1, todo1. split; [done|]. split; [done|]. split; [done|]. lia.
Qed.

(** at the end *)
Lemma calling_done v : calling 0 0 v -> exists p0, vb_buses v !! 0%nat = Some p0 /\ vp_bus p0 = b0'.
Proof.
  intros (hist & b & st0 & got0 & l0 & st1 & got1 & l1 & todo1 & (p0 & p1 & Hv & _ & _ & T0 & H) & Hc & Hs & Hn).
  exists p0. rewrite Hv. split; [done|]. decompose [and] H.
  destruct Hc as [(-> & _)|[(-> & _)|(_ & _ & _ & ->)]]; [| |congruence];
    unfold client_steps in Hn; cbn in Hn; destruct (tr_state _ _ _ _ T0) as [->|[->| ->]]; lia.
Qed.

End Schedule.

(** ** Lemmas: the start of a call *)

Section Start.
Context {NB : NumBigint}.

Lemma transact_ok e s0 l0 p t path body zero packet : alive e s0 l0 -> part_inv e p ->
  to_packet t (from_address (vp_bus p)) [VBytes body] = Ok packet ->
  exists p1 e1, send_raw_packet packet p e = (Ok tt, p1, e1)
    /\ transact t path body zero p e = (Ok (length (transactions (vp_bus p))),
         with_bus (register (from_address (vp_bus p)) t path zero (vp_bus p)).2 p1, e1, [packet]).
Proof.
  intros Ha Hp Hpk. destruct (send_sees e s0 l0 p packet Ha Hp) as (p1 & e1 & Hsend & _).
  exists p1, e1. split; [done|]. unfold transact, new_transaction. by rewrite Hpk, Hsend.
Qed.

(** a client and a server in a new environment, and the request *)
Lemma duo_start a b br path body req : to_packet b a [VBytes body] = Ok req ->
  exists v0 v1, create_env_from a = Ok v0 /\ run_vb [VNew b; VAttach 1 br; VTransact 0 b path body true] v0 = Ok (v1, [req])
    /\ duo br (add_unrelated_packet_listener 0 (build b)).2 (register a b path true (build a)).2
         PollHead [] [req] PollHead [] [req] [] v1.
Proof.
  intros Hreq. destruct (create_env_ok a) as (e & Henv & A0). exists (mkVirtual e [fresh_bus a 0]).
  assert (length (store e) = 1%nat) as Hlen by by injection Henv as <-.
  pose proof (alive_fresh _ _ _ A0) as A1. rewrite Hlen in A1. destruct (alive_new _ _ _ A0) as [_ A0'].
  set (e1 := ep_step e DoNewPush) in *.
  pose proof (fresh_inv a 0 e1 (alive_lt _ _ _ A0')) as I0. pose proof (fresh_inv b 1 e1 (alive_lt _ _ _ A1)) as I1.
  cbn [run_vb]. cbn [vb_step]. rewrite (new_bus_ok b (mkVirtual e [fresh_bus a 0]) 0 [] A0). cbn [mbind res_bind vb_endpoint vb_buses app].
  rewrite Hlen. fold e1. unfold on_bus. cbn [vb_buses vb_endpoint lookup list_lookup insert list_insert].
  destruct (transact_ok e1 0 [] (fresh_bus a 0) b path body true req A0' I0 Hreq) as (p1 & e2 & Hsend & ->).
  destruct (send_sees e1 0 [] (fresh_bus a 0) req A0' I0) as (p1' & e2' & Hs' & Hsee & Hw & H1 & H2 & H3 & H4 & H5).
  rewrite Hsend in Hs'. injection Hs' as <- <-. destruct (Hw 0%nat eq_refl) as (-> & Hs & Hc).
  cbn [mbind res_bind]. eexists. split; [done|]. split; [reflexivity|]. cbn [insert list_insert].
  exists (with_bus (register a b path true (build a)).2 p1), (attach_service_to br (fresh_bus b 1)).
  split; [done|]. cbn [vb_endpoint]. destruct Hsee as (P1 & P2 & P3 & P4). split.
  { destruct P1 as [Q1 Q2 Q3 _]. split; try done. cbn.
    destruct (bus_step_inv (build a) (DoRegister a b path true) (build_inv a)) as (b' & [= <-] & Hb). done. }
  split.
  { destruct (part_inv_grow _ _ _ I1 P2) as [Q1 Q2 Q3 _]. split; try done. cbn.
    destruct (bus_step_inv (build b) (DoListen 0) (build_inv b)) as (b' & [= <-] & Hb). done. }
  split; [by split; cbn; rewrite ?Hs, ?Hc, ?H4, ?H5; auto|]. split; [by split; cbn; auto|].
  split; [by apply (alive_step _ _ _ (DoSend None req) _ A0')|]. split; [by apply (alive_step _ _ _ (DoSend None req) _ A1)|].
  cbn. by rewrite H2, H3.
Qed.

(** a packet that is no answer goes to the listeners *)
Lemma unrelated_packet packet raw p b : bus_inv b -> get_valid_packet packet = Some raw -> parsed_new raw = Ok p ->
  raw_packet p = raw -> (forall j u, j ∈ pending_requests b -> transactions b !! j = Some u -> tx_from u <> to p) ->
  process_packet packet b = Ok (b, dispatch (unrelated_packets b) raw).
Proof.
  intros Hb Hv Hp Hr Hno. unfold process_packet. rewrite Hv, Hp.
  destruct (position_accepting_spec (transactions b) (pending_requests b) p 0 (inv_waiting _ Hb))
    as [(pre & i & post & t & Hpend & Ht & Hacc & _)|[_ ->]].
  - apply bool_decide_eq_true in Hacc as [Hto _]. destruct (Hno i t); [rewrite Hpend; set_solver|done|done].
  - cbn [mbind res_bind]. by rewrite Hr.
Qed.

(** the packets of a call: the request is ignored by the client and answered
    by the server, the answer reaches the client and is ignored by the server *)
Lemma call_packets a b br f enc v ty s' (path := bridge_path br ++ [fn_index f])
    (b0 := (register a b path true (build a)).2) (b1 := (add_unrelated_packet_listener 0 (build b)).2) :
  in_i 32 a -> in_i 32 b -> a <> b -> target_address br = Some b ->
  fn_ret f = RetValue ty -> has_type v ty -> at_end ty = true ->
  service_call (service br) (fn_index f) (from_slice enc) = (Some (MkCall (fn_posix f) (inl (ReplyValue v))), s') ->
  exists req wire b0' outs1 outs2 data, to_packet b a [VBytes (path ++ enc)] = Ok req
    /\ process_packet req b0 = Ok (b0, []) /\ process_packet wire b0 = Ok (b0', [])
    /\ process_packet req b1 = Ok (b1, outs1) /\ bridge_answers [br] outs1 = Ok [wire]
    /\ process_packet wire b1 = Ok (b1, outs2) /\ bridge_answers [br] outs2 = Ok []
    /\ response_of b0' 0 = Some data
    /\ extract_or_throw_result f (drop (length path + 1) data) = Some (Ok (Some v)).
Proof.
  intros Ha Hb Hne Htg Hret Hv Hend Hcall.
  destruct (codec_exists v ty Hv Hend) as (encv & Hcodec).
  destruct (to_packet_parsed b a _ _ (append_bytes (path ++ enc))) as (req & raw & Hpk & Hvalid & Hn); [done..|].
  set (parsed := mkPacket raw a b (path ++ enc) None None) in *.
  destruct (bridge_value br parsed enc (fn_posix f) v encv s' (fn_index f))
    as (wire & Hfeed & rw & Hvw & Hnw); [done|done|by right| |done|done|apply Hcodec|].
  { unfold parsed, path. cbn [payload]. by rewrite <- app_assoc. }
  assert (take (length (bridge_path br) + 1) (path ++ enc) = path) as Htake
    by (unfold path; rewrite take_app_length'; [done|]; rewrite length_app; cbn; lia).
  unfold parsed in Hnw. cbn [payload from to] in Hnw. rewrite Htake in Hnw.
  destruct (answer_delivered (build a) (mkTransaction b a path true None) wire rw _ (build_inv a) eq_refl Hvw Hnw)
    as (b0' & Hdel & Hresp & _); [by intros j u Hj%elem_of_nil| |].
  { apply bool_decide_true. cbn. split; [done|]. split; [done|]. by rewrite take_app_length. }
  assert (bus_inv b0) as I0 by (by destruct (bus_step_inv (build a) (DoRegister a b path true) (build_inv a)) as (? & [= <-] & ?)).
  assert (bus_inv b1) as I1 by (by destruct (bus_step_inv (build b) (DoListen 0) (build_inv b)) as (? & [= <-] & ?)).
  assert (forall packet r p, get_valid_packet packet = Some r -> parsed_new r = Ok p -> raw_packet p = r ->
    process_packet packet b1 = Ok (b1, [Listener 0 r])) as Hserver
    by (intros packet r p K1 K2 K3; apply (unrelated_packet packet r p b1 I1 K1 K2 K3); cbn; intros j u Hj%elem_of_nil; done).
  exists req, wire, b0', [Listener 0 raw], [Listener 0 rw], (0 :: path ++ value_answer (fn_posix f) encv).
  split; [done|]. split.
  { apply (unrelated_packet req raw parsed b0 I0 Hvalid Hn eq_refl). cbn. intros j u Hj%list_elem_of_singleton. subst j.
    cbn. intros [= <-]. cbn. congruence. }
  split; [exact Hdel|]. split; [by apply (Hserver req raw parsed)|]. split.
  { cbn [bridge_answers lookup list_lookup]. change raw with (raw_packet parsed). by rewrite Hfeed. }
  split; [by eapply (Hserver wire rw)|]. split.
  { cbn [bridge_answers lookup list_lookup]. unfold feed_packet. rewrite Hnw, Htg. cbn [to].
    by rewrite (proj2 (Z.eqb_neq b a)) by congruence. }
  split; [exact Hresp|]. rewrite Nat.add_1_r. cbn [drop]. rewrite drop_app_length. by apply (extract_value f ty v encv).
Qed.

Lemma run_vb_app ops1 ops2 v v1 out1 v2 out2 : run_vb ops1 v = Ok (v1, out1) -> run_vb ops2 v1 = Ok (v2, out2) ->
  run_vb (ops1 ++ ops2) v = Ok (v2, out1 ++ out2).
Proof.
  intros H1 H2. revert v out1 H1. induction ops1 as [|o t IH]; intros v out1; cbn [run_vb app].
  - by intros [= -> <-].
  - destruct (vb_step o v) as [[v' out]|[]|]; cbn [mbind res_bind]; [|done].
    destruct (run_vb t v') as [[v'' rest]|[]|] eqn:Ht; cbn [mbind res_bind]; [|done]. intros [= -> <-].
    rewrite (IH v' rest Ht). cbn. by rewrite app_assoc.
Qed.

End Start.

(** ** Properties *)

Section Properties.
Context {NB : NumBigint}.


(** C17: A call within the process.  A bus of the environment calls a function
    that another one serves: whatever the schedule of the two streaming threads
    is, when the thread of the server had 4 turns and the thread of the client 6
    turns after that, the request was answered, and the response that the client
    waits for holds exactly the value of the service. *)
Theorem in_process_call a b br f enc v ty s' ops1 ops2 (path := bridge_path br ++ [fn_index f]) :
  in_i 32 a -> in_i 32 b -> a <> b -> target_address br = Some b ->
  fn_ret f = RetValue ty -> has_type v ty -> at_end ty = true ->
  service_call (service br) (fn_index f) (from_slice enc) = (Some (MkCall (fn_posix f) (inl (ReplyValue v))), s') ->
  Forall (fun o => o = VPoll 0 \/ o = VPoll 1) (ops1 ++ ops2) -> (4 <= polls_of 1 ops1)%nat -> (6 <= polls_of 0 ops2)%nat ->
  exists v0 v1 out p0 data, create_env_from a = Ok v0
    /\ run_vb ([VNew b; VAttach 1 br; VTransact 0 b path (path ++ enc) true] ++ ops1 ++ ops2) v0 = Ok (v1, out)
    /\ vb_buses v1 !! 0%nat = Some p0 /\ response_of (vp_bus p0) 0 = Some data
    /\ extract_or_throw_result f (drop (length path + 1) data) = Some (Ok (Some v)).
Proof.
  intros Ha Hb Hne Htg Hret Hv Hend Hcall Hops H1 H0.
  destruct (call_packets a b br f enc v ty s' Ha Hb Hne Htg Hret Hv Hend Hcall)
    as (req & wire & b0' & outs1 & outs2 & data & Hpk & F1 & F2 & F3 & F4 & F5 & F6 & Hresp & Hext).
  destruct (duo_start a b br path (path ++ enc) req Hpk) as (v0 & v1 & Henv & Hrun & Hduo).
  apply Forall_app in Hops as [Hops1 Hops2]. set (b0 := (register _ _ _ _ _).2) in *. set (b1 := (_ 0%nat (build b)).2) in *.
  assert (calling br b1 b0 b0' req wire 4 6 v1) as Hc.
  { exists [req], b0, PollHead, [], [req], PollHead, [], [req], []. split; [exact Hduo|]. split; [by left|].
    split; [|cbn; lia]. left. do 4 (split; [done|]). lia. }
  destruct (calling_run br b1 b0 b0' req wire _ _ F1 F2 F3 F4 F5 F6 ops1 4 6 v1 Hops1 Hc) as (v2 & o2 & Hr2 & Hc2).
  replace (4 - polls_of 1 ops1)%nat with 0%nat in Hc2 by lia.
  destruct (calling_run br b1 b0 b0' req wire _ _ F1 F2 F3 F4 F5 F6 ops2 0 6 v2 Hops2 Hc2) as (v3 & o3 & Hr3 & Hc3).
  cbn [Nat.sub] in Hc3. replace (6 - polls_of 0 ops2)%nat with 0%nat in Hc3 by lia.
  destruct (calling_done _ _ _ _ _ _ _ Hc3) as (p0 & Hp0 & Hbus).
  exists v0, v3, ([req] ++ o2 ++ o3), p0, data. split; [done|]. split; [|by rewrite Hbus].
  eapply run_vb_app; [exact Hrun|]. by eapply run_vb_app.
Qed.

End Properties.


(** a string served at path [32] of address 16, read in a part *)
Lemma in_process_call_witness :
  let br := bridge_new (ub_string_service (ub_string_new $"uartbus")) (Some 16) [32] in
  let f := function_new 2 (RetValue TBytes) in
  let turns := [VPoll 0; VPoll 1; VPoll 1; VPoll 0; VPoll 1; VPoll 1; VPoll 0] in
  exists v0 v1 out p0 data, create_env_from 63 = Ok v0
    /\ @run_vb num_bigint_ref ([VNew 16; VAttach 1 br; VTransact 0 16 [32; 2] [32; 2; 1; 3] true]
                               ++ turns ++ repeat (VPoll 0) 6) v0 = Ok (v1, out)
    /\ vb_buses v1 !! 0%nat = Some p0 /\ response_of (vp_bus p0) 0 = Some data
    /\ extract_or_throw_result f (drop 3 data) = Some (Ok (Some (VBytes $"art"))).
Proof.
  intros br f turns.
  apply (@in_process_call num_bigint_ref 63 16 br f [1; 3] (VBytes $"art") TBytes (mkReader [1; 3] 2) turns (repeat (VPoll 0) 6)).
  - by split.
  - by split.
  - discriminate.
  - reflexivity.
  - reflexivity.
  - repeat constructor; vm_compute; done.
  - reflexivity.
  - vm_compute. reflexivity.
  - cbn. repeat (constructor; [by auto|]). constructor.
  - vm_compute. lia.
  - vm_compute. lia.
Defined.
