(* ===== verification/Ihex.v ===== *)
(** * Intel HEX files

    Models [src/ihex.rs]: lines and their checksums, files, the code segments
    of a file ([get_code]), and back ([from_segments]), with [concat_segments].
    A file on disk is the list of its lines; opening and writing it are not
    modelled.  The [u16] sum of [checksum] panics when it overflows, as in a
    build with overflow checks. *)

From stdpp Require Import base list numbers option strings.
From Stdlib Require Import ZArith Lia.
From S2P Require Import Prelude RustStd Tools.

(** ** Errors and record types *)

Inductive IntelHexError : Type :=
| InvalidLine (line : str)
| ChecksumMismatch (line : str) (actual expected : Z)
| IntersectingData (line : str)
| Io (message : str)
| HexUtf8 (message : str).

(** [{:#04x}] of a byte *)
Definition hex04 (b : Z) : str := $"0x" ++ hex02_lower b.

Definition IntelHexError_fmt (e : IntelHexError) : str :=
  match e with
  | InvalidLine line => $"invalid Intel HEX line: " ++ line
  | ChecksumMismatch line actual expected =>
      $"checksum mismatch for " ++ line ++ $": actual " ++ hex04 actual ++ $", expected "
      ++ hex04 expected
  | IntersectingData line => $"intersecting data: " ++ line
  | Io err => $"I/O error: " ++ err
  | HexUtf8 err => $"UTF-8 error: " ++ err
  end.

Inductive RecordType : Type :=
| Data
| EndOfFile
| ExtendedSegmentAddress
| ExtendedLinearAddress
| StartLinearAddress
| Unknown (value : Z).

#[global] Instance RecordType_eq_dec : EqDecision RecordType.
Proof. solve_decision. Defined.

Definition from_u8 (value : Z) : RecordType :=
  if value =? 0 then Data
  else if value =? 1 then EndOfFile
  else if value =? 2 then ExtendedSegmentAddress
  else if value =? 3 then ExtendedLinearAddress
  else if value =? 4 then StartLinearAddress
  else Unknown value.

Definition as_u8 (t : RecordType) : Z :=
  match t with
  | Data => 0
  | EndOfFile => 1
  | ExtendedSegmentAddress => 2
  | ExtendedLinearAddress => 3
  | StartLinearAddress => 4
  | Unknown value => value
  end.

(** ** Hexadecimal text and checksums *)

(** [chars.chunks(2)] with both digits converted; the error is that of the whole text *)
Fixpoint from_hex_pairs (hex : str) (chars : str) : res IntelHexError (list Z) :=
  match chars with
  | [] => Ok []
  | [_] => Panic
  | c0 :: c1 :: rest =>
    high ← ok_or (to_digit16 c0) (InvalidLine hex);
    low ← ok_or (to_digit16 c1) (InvalidLine hex);
    bytes ← from_hex_pairs hex rest;
    Ok (Z.lor (as_u 8 (Z.shiftl high 4)) low :: bytes)
  end.

Definition from_hex (hex : str) : res IntelHexError (list Z) :=
  if negb (Nat.even (str_len hex)) then Err (InvalidLine hex) else from_hex_pairs hex hex.

Definition to_hex (data : list Z) : str := data ≫= hex02_upper.

Definition u16_sum (l : list Z) : res IntelHexError Z :=
  let sum := foldl Z.add 0 l in if 65535 <? sum then Panic else Ok sum.

Definition checksum (data : list Z) (from to : nat) : res IntelHexError Z :=
  part ← slice data from to;
  sum ← u16_sum part;
  Ok (as_u 8 (Z.land (65535 - sum) 0xff + 1)).

(** [Option::is_none] *)
Definition is_none {A} (o : option A) : bool := match o with None => true | Some _ => false end.

(** ** Lines *)

Record IntelHexLine : Type := mkLine {
  line_raw : list Z;
  line_length : Z;
  line_address : Z;
  line_record_type : RecordType;
  line_data : list Z;
  line_checksum : Z;
}.

Definition line_new (line : str) : res IntelHexError IntelHexLine :=
  let trimmed := trim line in
  match trimmed with
  | c :: hex =>
    if negb (c =? 58) then Err (InvalidLine trimmed) else
    if (str_len hex <? 10)%nat || existsb (fun ch => is_none (to_digit16 ch)) hex
    then Err (InvalidLine trimmed) else
    raw ← from_hex hex;
    r0 ← idx raw 0;
    r1 ← idx raw 1;
    r2 ← idx raw 2;
    r3 ← idx raw 3;
    data ← slice raw 4 (length raw - 1);
    c ← unwrap (last raw);
    Ok {| line_raw := raw;
          line_length := r0;
          line_address := Z.lor (Z.shiftl r1 8) r2;
          line_record_type := from_u8 r3;
          line_data := data;
          line_checksum := c |}
  | [] => Err (InvalidLine trimmed)
  end.

Definition calc_checksum (l : IntelHexLine) : res IntelHexError Z :=
  checksum (line_raw l) 0 (length (line_raw l) - 1).

Definition to_line_string (l : IntelHexLine) : str :=
  $":" ++ to_ascii_uppercase (to_hex (line_raw l)).

Definition to_raw_by_data (l : IntelHexLine) : list Z :=
  [as_u 8 (Z.of_nat (length (line_data l)));
   as_u 8 (Z.land (Z.shiftr (line_address l) 8) 0xff);
   as_u 8 (Z.land (line_address l) 0xff);
   as_u8 (line_record_type l)] ++ line_data l ++ [line_checksum l].

Definition with_raw (raw : list Z) (l : IntelHexLine) : IntelHexLine :=
  mkLine raw (line_length l) (line_address l) (line_record_type l) (line_data l) (line_checksum l).
Definition with_checksum (c : Z) (l : IntelHexLine) : IntelHexLine :=
  mkLine (line_raw l) (line_length l) (line_address l) (line_record_type l) (line_data l) c.

(** ** Files *)

(** [IntelHexFile] is the list of its lines. *)
Definition IntelHexFile : Type := list IntelHexLine.

Fixpoint from_lines (lines : list str) : res IntelHexError IntelHexFile :=
  match lines with
  | [] => Ok []
  | line :: t => l ← line_new line; rest ← from_lines t; Ok (l :: rest)
  end.

Fixpoint assert_valid (f : IntelHexFile) : res IntelHexError unit :=
  match f with
  | [] => Ok tt
  | line :: t =>
    let actual := line_checksum line in
    expected ← calc_checksum line;
    if negb (actual =? expected)
    then Err (ChecksumMismatch (to_line_string line) actual expected)
    else assert_valid t
  end.

(** the lines of the file on disk *)
Definition load_file (disk : list str) : res IntelHexError IntelHexFile :=
  let lines := filter (fun line => trim line <> []) disk in
  file ← from_lines lines;
  _ ← assert_valid file;
  Ok file.

Definition write_to_file (f : IntelHexFile) : list str := map to_line_string f.

Definition create_eof_line : res IntelHexError IntelHexLine :=
  match line_new $":00000001FF" with Ok l => Ok l | _ => Panic end.

Definition create_data_line (address : Z) (data : list Z) : res IntelHexError IntelHexLine :=
  let line := mkLine [] (Z.of_nat (length data)) address Data data 0 in
  let line := with_raw (to_raw_by_data line) line in
  c ← checksum (line_raw line) 0 (length (line_raw line) - 1);
  let line := with_checksum c line in
  Ok (with_raw (to_raw_by_data line) line).

Definition push_line (line : IntelHexLine) (f : IntelHexFile) : IntelHexFile := f ++ [line].

Definition get_data_size (f : IntelHexFile) : nat := sum_list (map (fun l => length (line_data l)) f).

(** ** Code segments *)

Record CodeSegment : Type := mkSegment {
  start_address : Z;
  end_address : Z;
  seg_data : list Z;
  building : bool;
}.

Definition segment_new (start : Z) : CodeSegment := mkSegment start start [] true.

Definition append_code (data : list Z) (s : CodeSegment) : CodeSegment :=
  mkSegment (start_address s) (end_address s + Z.of_nat (length data)) (seg_data s ++ data)
    (building s).

Definition is_middle_of (s : CodeSegment) (address : Z) : bool :=
  (start_address s <? address) && (address <? end_address s).

Definition end_code_write (s : CodeSegment) : CodeSegment :=
  mkSegment (start_address s) (end_address s) (seg_data s) false.

Definition get_code_piece (s : CodeSegment) (offset length' : nat) : res IntelHexError (list Z) :=
  let end' := Nat.min (length (seg_data s)) (offset + length') in
  slice (seg_data s) offset end'.

(** [segments.iter_mut().find(p)] followed by a change of the segment found *)
Fixpoint update_first (p : CodeSegment -> bool) (f : CodeSegment -> CodeSegment)
    (l : list CodeSegment) : option (list CodeSegment) :=
  match l with
  | [] => None
  | s :: t => if p s then Some (f s :: t) else cons s <$> update_first p f t
  end.

Fixpoint get_code_loop (segments : list CodeSegment) (lines : IntelHexFile)
    : res IntelHexError (list CodeSegment) :=
  match lines with
  | [] => Ok segments
  | line :: t =>
    if bool_decide (line_record_type line = EndOfFile) then Ok segments else
    if negb (bool_decide (line_record_type line = Data)) then get_code_loop segments t else
    let start := line_address line in
    if existsb (fun s => is_middle_of s start) segments
    then Err (IntersectingData (to_line_string line)) else
    match update_first (fun s => start =? end_address s) (append_code (line_data line)) segments with
    | Some segments => get_code_loop segments t
    | None => get_code_loop (segments ++ [append_code (line_data line) (segment_new start)]) t
    end
  end.

Definition get_code (f : IntelHexFile) : res IntelHexError (list CodeSegment) :=
  segments ← get_code_loop [] f;
  Ok (map end_code_write segments).

(** [sort_by_key(|segment| segment.start_address)], which is stable *)
Fixpoint insert_by_start (s : CodeSegment) (l : list CodeSegment) : list CodeSegment :=
  match l with
  | [] => [s]
  | x :: t => if start_address s <? start_address x then s :: l else x :: insert_by_start s t
  end.
Definition sort_by_start (l : list CodeSegment) : list CodeSegment :=
  foldl (fun acc s => insert_by_start s acc) [] l.

(** [{:#x}] of a [u64]: at most 16 digits *)
Fixpoint hex_digits (fuel : nat) (n : Z) (acc : str) : str :=
  match fuel with
  | O => acc
  | S f => if n <? 16 then hex_digit_lower n :: acc
           else hex_digits f (n / 16) (hex_digit_lower (n mod 16) :: acc)
  end.
Definition show_hex (n : Z) : str := $"0x" ++ hex_digits 16 n [].

Definition saturating_add_u64 (a b : Z) : Z := Z.min (a + b) (2 ^ 64 - 1).
Definition saturating_sub_u64 (a b : Z) : Z := Z.max (a - b) 0.

(** the padding is pushed to the data of the segment only *)
Definition pad_and_append (padding_byte : Z) (code segment : CodeSegment) : CodeSegment :=
  let diff := saturating_sub_u64 (start_address code) (end_address segment) in
  append_code (seg_data code)
    (mkSegment (start_address segment) (end_address segment)
       (seg_data segment ++ replicate (Z.to_nat diff) padding_byte) (building segment)).

Definition concat_step (max_gap padding_byte : Z) (ret : list CodeSegment) (code : CodeSegment)
    : res IntelHexError (list CodeSegment) :=
  match List.find (fun s => is_middle_of s (start_address code)) ret with
  | Some segment => Err (IntersectingData (show_hex (start_address segment)))
  | None =>
    match update_first
            (fun s => end_address s <? saturating_add_u64 (start_address code) max_gap)
            (pad_and_append padding_byte code) ret with
    | Some ret => Ok ret
    | None => Ok (ret ++ [pad_and_append padding_byte code (segment_new (start_address code))])
    end
  end.

Definition concat_segments (codes : list CodeSegment) (max_gap padding_byte : Z)
    : res IntelHexError (list CodeSegment) :=
  if (length codes <? 2)%nat then Ok codes else
  ret ← foldM (concat_step max_gap padding_byte) [] (sort_by_start codes);
  Ok (map end_code_write ret).

(** the [while] loop over one segment: each round takes at least one byte *)
Fixpoint data_lines (fuel : nat) (addr : Z) (data : list Z) (offset : nat)
    : res IntelHexError IntelHexFile :=
  match fuel with
  | O => Ok []
  | S f =>
    if (offset <? length data)%nat then
      let to := Nat.min (offset + 16) (length data) in
      part ← slice data offset to;
      line ← create_data_line (as_u 32 addr) part;
      rest ← data_lines f (addr + Z.of_nat (to - offset)) data to;
      Ok (line :: rest)
    else Ok []
  end.

Fixpoint segment_lines (codes : list CodeSegment) : res IntelHexError IntelHexFile :=
  match codes with
  | [] => Ok []
  | code :: t =>
    ls ← data_lines (length (seg_data code)) (start_address code) (seg_data code) 0;
    rest ← segment_lines t;
    Ok (ls ++ rest)
  end.

Definition from_segments (codes : list CodeSegment) : res IntelHexError IntelHexFile :=
  ls ← segment_lines codes;
  eof ← create_eof_line;
  let file := ls ++ [eof] in
  _ ← assert_valid file;
  Ok file.

(** ** Lemmas: text *)

Definition hex_charb (c : Z) : bool :=
  (0 <=? c) && (c <? 128) && negb (is_whitespace c) && negb (is_none (to_digit16 c))
  && (upper_char c =? c).
Definition hex_char (c : Z) : Prop :=
  0 <= c < 128 /\ is_whitespace c = false /\ is_none (to_digit16 c) = false /\ upper_char c = c.

Lemma hex02_chars b : is_u8 b -> Forall hex_char (hex02_upper b).
Proof.
  intros Hb. pose proof (u8_forall (fun b => forallb hex_charb (hex02_upper b))
    ltac:(vm_compute; reflexivity) b Hb) as H. cbv beta in H.
  apply Forall_forall. intros c Hc. rewrite forallb_forall in H. apply list_elem_of_In in Hc.
  specialize (H c Hc). unfold hex_charb in H. breflect. by repeat split.
Qed.

Lemma to_hex_chars l : bytes l -> Forall hex_char (to_hex l).
Proof.
  induction 1 as [|b t Hb _ IH]; [constructor|].
  apply Forall_app. split; [by apply hex02_chars|done].
Qed.

Lemma from_hex_pair hex b rest : is_u8 b ->
  from_hex_pairs hex (hex02_upper b ++ rest) = t ← from_hex_pairs hex rest; Ok (b :: t).
Proof.
  intros Hb. pose proof (u8_forall (fun b =>
    match to_digit16 (hex_digit_upper (b / 16)), to_digit16 (hex_digit_upper (b mod 16)) with
    | Some h, Some l => Z.lor (as_u 8 (Z.shiftl h 4)) l =? b
    | _, _ => false
    end) ltac:(vm_compute; reflexivity) b Hb) as H. cbv beta in H.
  cbn [hex02_upper app from_hex_pairs].
  destruct (to_digit16 (hex_digit_upper (b / 16))) as [h|]; [|done].
  destruct (to_digit16 (hex_digit_upper (b mod 16))) as [l|]; [|done].
  cbn [ok_or mbind res_bind]. breflect. by rewrite H.
Qed.

Lemma from_hex_to_hex hex l : bytes l -> from_hex_pairs hex (to_hex l) = Ok l.
Proof.
  induction 1 as [|b t Hb _ IH]; [done|].
  change (to_hex (b :: t)) with (hex02_upper b ++ to_hex t). by rewrite from_hex_pair, IH.
Qed.

Lemma as_bytes_hex s : Forall hex_char s -> as_bytes s = s.
Proof. intros Hs. apply as_bytes_ascii. eapply Forall_impl; [exact Hs|]. by intros c [? _]. Qed.

Lemma length_to_hex l : length (to_hex l) = (2 * length l)%nat.
Proof. induction l as [|b t IH]; [done|]. unfold to_hex in *. cbn in *. lia. Qed.

Lemma upper_to_hex l : bytes l -> to_ascii_uppercase (to_hex l) = to_hex l.
Proof.
  intros Hl. pose proof (to_hex_chars l Hl) as H. unfold to_ascii_uppercase.
  induction H as [|c t (_ & _ & _ & Hc) _ IH]; [done|]. cbn. by rewrite Hc, IH.
Qed.

(** the line that a record of bytes stands for *)
Definition line_of (r0 r1 r2 r3 : Z) (data : list Z) (c : Z) : IntelHexLine :=
  mkLine ([r0; r1; r2; r3] ++ data ++ [c]) r0 (Z.lor (Z.shiftl r1 8) r2) (from_u8 r3) data c.

Lemma line_new_raw r0 r1 r2 r3 data c (raw := [r0; r1; r2; r3] ++ data ++ [c]) :
  bytes raw -> line_new ($":" ++ to_hex raw) = Ok (line_of r0 r1 r2 r3 data c).
Proof.
  intros Hraw. pose proof (to_hex_chars raw Hraw) as Hc.
  assert (length raw = (5 + length data)%nat) as Hlen by (unfold raw; rewrite !length_app; cbn; lia).
  unfold line_new. rewrite trim_id.
  2: { constructor; [done|]. eapply Forall_impl; [exact Hc|]. by intros ? (_ & ? & _). }
  cbn [app lit char_of]. change (negb (58 =? 58)) with false. cbv iota.
  unfold str_len. rewrite as_bytes_hex by done.
  rewrite (proj2 (Nat.ltb_ge _ _)) by (rewrite length_to_hex; lia).
  assert (existsb (fun ch => is_none (to_digit16 ch)) (to_hex raw) = false) as ->.
  { clear -Hc. induction Hc as [|x t (_ & _ & Hx & _) _ IH]; [done|]. cbn.
    by rewrite Hx, IH. }
  cbn [orb]. unfold from_hex, str_len. rewrite as_bytes_hex by done.
  replace (Nat.even (length (to_hex raw))) with true
    by (rewrite length_to_hex, Nat.even_mul; done).
  cbn [negb]. rewrite from_hex_to_hex by done. cbn [mbind res_bind].
  rewrite (idx_Some raw 0 r0), (idx_Some raw 1 r1), (idx_Some raw 2 r2), (idx_Some raw 3 r3) by done.
  cbn [mbind res_bind].
  rewrite slice_ok by lia.
  assert (last raw = Some c) as -> by (unfold raw; rewrite !app_assoc; apply last_snoc).
  cbn [mbind res_bind unwrap]. unfold line_of. do 2 f_equal.
  rewrite Hlen. replace (5 + length data - 1 - 4)%nat with (length data) by lia.
  unfold raw. cbn [app drop]. apply take_app_length.
Qed.

(** ** Lemmas: checksums *)

Definition sumZ (l : list Z) : Z := foldl Z.add 0 l.

Lemma sumZ_acc l a : foldl Z.add a l = a + sumZ l.
Proof.
  unfold sumZ. revert a. induction l as [|b t IH]; intros a; cbn [foldl]; [lia|].
  rewrite IH, (IH (0 + b)). lia.
Qed.

Lemma sumZ_app l1 l2 : sumZ (l1 ++ l2) = sumZ l1 + sumZ l2.
Proof. unfold sumZ at 1. rewrite foldl_app. apply sumZ_acc. Qed.

Lemma sumZ_bound l : bytes l -> 0 <= sumZ l <= 255 * Z.of_nat (length l).
Proof.
  induction 1 as [|b t Hb _ IH]; [cbn; lia|]. unfold is_u8 in Hb.
  change (b :: t) with ([b] ++ t). rewrite sumZ_app, length_app. cbn [sumZ foldl length]. lia.
Qed.

Lemma checksum_value body c : 0 <= sumZ body <= 65535 ->
  checksum (body ++ [c]) 0 (length (body ++ [c]) - 1) = Ok ((- sumZ body) mod 256).
Proof.
  intros Hs. unfold checksum. rewrite length_app. cbn [length]. rewrite Nat.add_sub.
  rewrite slice_ok by (rewrite ?length_app; lia). cbn [mbind res_bind].
  rewrite Nat.sub_0_r, drop_0, take_app_length. unfold u16_sum. fold (sumZ body).
  rewrite (proj2 (Z.ltb_ge _ _)) by lia. cbn [mbind res_bind]. f_equal.
  change 0xff with (Z.ones 8). rewrite Z.land_ones by lia. unfold as_u. change (2 ^ 8) with 256.
  zdiv_lia.
Qed.

(** a record as it is written: its checksum makes all its bytes add up to 0 *)
Definition data_raw (address : Z) (data : list Z) : list Z :=
  [Z.of_nat (length data); address / 256; address mod 256; 0] ++ data.
Definition data_line (address : Z) (data : list Z) : IntelHexLine :=
  let c := (- sumZ (data_raw address data)) mod 256 in
  mkLine (data_raw address data ++ [c]) (Z.of_nat (length data)) address Data data c.

(** a record that fits: a 16 bit address and at most 254 bytes *)
Definition line_fits (address : Z) (data : list Z) : Prop :=
  in_u 16 address /\ bytes data /\ (length data <= 254)%nat.

Lemma data_raw_bytes address data : line_fits address data -> bytes (data_raw address data).
Proof.
  intros (Ha & Hd & Hl). unfold in_u in Ha. change (2 ^ 16) with 65536 in Ha. apply bytes_app. split; [|done].
  repeat (apply bytes_cons; split); try apply bytes_nil; unfold is_u8; zdiv_lia.
Qed.

Lemma data_raw_sum address data : line_fits address data ->
  0 <= sumZ (data_raw address data) <= 65535.
Proof.
  intros (Ha & Hd & Hl). unfold in_u in Ha. change (2 ^ 16) with 65536 in Ha. pose proof (sumZ_bound data Hd).
  unfold data_raw. rewrite sumZ_app. cbn [sumZ foldl]. zdiv_lia.
Qed.

Lemma to_raw_by_data_eq address data c raw : line_fits address data ->
  to_raw_by_data (mkLine raw (Z.of_nat (length data)) address Data data c)
  = data_raw address data ++ [c].
Proof.
  intros (Ha & Hd & Hl). unfold in_u in Ha. change (2 ^ 16) with 65536 in Ha.
  unfold to_raw_by_data, data_raw.
  cbn [line_data line_address line_record_type line_checksum as_u8 app].
  change 0xff with (Z.ones 8). rewrite !Z.land_ones, Z.shiftr_div_pow2 by lia.
  unfold as_u. change (2 ^ 8) with 256.
  f_equal; [zdiv_lia|]. f_equal; [zdiv_lia|]. f_equal. zdiv_lia.
Qed.

Lemma create_data_line_ok address data : line_fits address data ->
  create_data_line address data = Ok (data_line address data).
Proof.
  intros Hf. unfold create_data_line. cbn zeta. unfold with_raw, with_checksum.
  cbn [line_raw line_length line_address line_record_type line_data line_checksum].
  rewrite (to_raw_by_data_eq address data 0) by done.
  rewrite checksum_value by by apply data_raw_sum. cbn [mbind res_bind].
  cbn [line_raw line_length line_address line_record_type line_data line_checksum].
  by rewrite to_raw_by_data_eq.
Qed.

Lemma data_line_parsed address data : line_fits address data ->
  line_new (to_line_string (data_line address data)) = Ok (data_line address data).
Proof.
  intros Hf. pose proof (data_raw_bytes _ _ Hf) as Hb. pose proof Hf as (Ha & Hd & Hl).
  unfold in_u in Ha. change (2 ^ 16) with 65536 in Ha. unfold to_line_string, data_line. cbn [line_raw].
  set (c := (- sumZ (data_raw address data)) mod 256).
  assert (is_u8 c) by (apply Z.mod_pos_bound; lia).
  assert (bytes (data_raw address data ++ [c])) as Hraw
    by (apply bytes_app; split; [done|by apply bytes_one]).
  rewrite upper_to_hex by done. unfold data_raw in *. rewrite <- app_assoc in *.
  rewrite line_new_raw by done. unfold line_of. do 2 f_equal.
  rewrite shiftl_lor_add by zdiv_lia. change (2 ^ 8) with 256. zdiv_lia.
Qed.

(** ** Lemmas: segments as runs of lines *)

(** the lines [ls] hold the bytes [d] from address [a] on *)
Inductive covers : Z -> IntelHexFile -> list Z -> Prop :=
| covers_nil a : covers a [] []
| covers_cons a p ls d : p <> [] -> line_fits a p ->
    covers (a + Z.of_nat (length p)) ls d -> covers a (data_line a p :: ls) (p ++ d).

Lemma data_lines_covers fuel start data offset :
  bytes data -> 0 <= start -> start + Z.of_nat (length data) <= 65536 ->
  (length data - offset <= fuel)%nat ->
  exists ls, data_lines fuel (start + Z.of_nat offset) data offset = Ok ls
    /\ covers (start + Z.of_nat offset) ls (drop offset data).
Proof.
  intros Hd Hs He. revert offset. induction fuel as [|f IH]; intros offset Hf.
  - exists []. split; [done|]. rewrite drop_ge by lia. constructor.
  - cbn [data_lines]. destruct (offset <? length data)%nat eqn:Ho; breflect.
    2: { exists []. split; [done|]. rewrite drop_ge by lia. constructor. }
    set (to := Nat.min (offset + 16) (length data)).
    rewrite slice_ok by lia. cbn [mbind res_bind].
    set (part := take (to - offset) (drop offset data)).
    assert (length part = to - offset)%nat as Hpl by (unfold part; rewrite length_take, length_drop; lia).
    assert (line_fits (start + Z.of_nat offset) part) as Hfit.
    { split; [unfold in_u; change (2 ^ 16) with 65536; lia|]. split; [|lia].
      unfold part. by apply bytes_take, bytes_drop. }
    rewrite as_u_small by (unfold in_u; change (2 ^ 32) with 4294967296; lia).
    rewrite create_data_line_ok by done. cbn [mbind res_bind].
    replace (start + Z.of_nat offset + Z.of_nat (to - offset)) with (start + Z.of_nat to) by lia.
    destruct (IH to ltac:(lia)) as (ls & -> & Hc). cbn [mbind res_bind].
    eexists. split; [reflexivity|].
    replace (drop offset data) with (part ++ drop to data).
    2: { unfold part. rewrite <- (take_drop (to - offset) (drop offset data)) at 2.
         rewrite drop_drop. do 2 f_equal. lia. }
    constructor; [|done|].
    + intros Hp. rewrite Hp in Hpl. cbn in Hpl. lia.
    + rewrite Hpl. by replace (start + Z.of_nat offset + Z.of_nat (to - offset))
        with (start + Z.of_nat to) by lia.
Qed.

(** what a written line needs in order to be read back *)
Definition readable (l : IntelHexLine) : Prop :=
  calc_checksum l = Ok (line_checksum l) /\ line_new (to_line_string l) = Ok l
  /\ trim (to_line_string l) <> [].

Lemma data_line_readable a p : line_fits a p -> readable (data_line a p).
Proof.
  intros Hf. split; [|split; [by apply data_line_parsed|]].
  - unfold calc_checksum, data_line. cbn [line_raw line_checksum].
    apply checksum_value. by apply data_raw_sum.
  - pose proof (data_line_parsed a p Hf) as H. unfold line_new in H. by destruct (trim _).
Qed.

Lemma covers_readable a ls d : covers a ls d -> Forall readable ls.
Proof. induction 1; constructor; [by apply data_line_readable|done]. Qed.

Definition eof_line : IntelHexLine := mkLine [0; 0; 0; 1; 255] 0 0 EndOfFile [] 255.

Lemma create_eof_line_ok : create_eof_line = Ok eof_line.
Proof. vm_compute. reflexivity. Qed.

Lemma eof_readable : readable eof_line.
Proof. split; [vm_compute; reflexivity|]. split; [vm_compute; reflexivity|vm_compute; done]. Qed.

Lemma assert_valid_readable f : Forall readable f -> assert_valid f = Ok tt.
Proof.
  induction 1 as [|l t (Hl & _) _ IH]; [done|]. cbn [assert_valid]. rewrite Hl.
  cbn [mbind res_bind]. by rewrite Z.eqb_refl.
Qed.

Lemma load_written f : Forall readable f -> load_file (write_to_file f) = Ok f.
Proof.
  intros Hf. unfold load_file, write_to_file.
  assert (filter (fun line => trim line <> []) (map to_line_string f) = map to_line_string f) as ->.
  { induction Hf as [|l t (_ & _ & Hl) _ IH]; [done|]. cbn [map].
    by rewrite filter_cons_True, IH. }
  assert (from_lines (map to_line_string f) = Ok f) as ->.
  { induction Hf as [|l t (_ & Hl & _) _ IH]; [done|]. cbn [map from_lines]. by rewrite Hl, IH. }
  cbn [mbind res_bind]. by rewrite assert_valid_readable.
Qed.

(** ** Lemmas: reading the code of a file *)

Lemma append_code_app d1 d2 s : append_code (d1 ++ d2) s = append_code d2 (append_code d1 s).
Proof.
  unfold append_code. cbn [start_address end_address seg_data building].
  rewrite length_app, app_assoc. f_equal. lia.
Qed.

Lemma append_code_nil s : append_code [] s = s.
Proof. destruct s. unfold append_code. cbn. rewrite app_nil_r. f_equal. lia. Qed.

Lemma not_middle_below segs a : Forall (fun s => end_address s < a) segs ->
  existsb (fun s => is_middle_of s a) segs = false.
Proof.
  induction 1 as [|s t Hs _ IH]; [done|]. cbn [existsb]. rewrite IH, orb_false_r.
  unfold is_middle_of. rewrite (proj2 (Z.ltb_ge a (end_address s))) by lia. apply andb_false_r.
Qed.

Lemma update_first_below segs a f : Forall (fun s => end_address s < a) segs ->
  update_first (fun s => a =? end_address s) f segs = None.
Proof.
  induction 1 as [|s t Hs _ IH]; [done|]. cbn [update_first].
  by rewrite (proj2 (Z.eqb_neq a (end_address s))), IH by lia.
Qed.

Lemma update_first_app p f l x : update_first p f l = None -> p x = true ->
  update_first p f (l ++ [x]) = Some (l ++ [f x]).
Proof.
  intros Hl Hx. induction l as [|s t IH]; cbn [app update_first] in *; [by rewrite Hx|].
  destruct (p s); [done|]. destruct (update_first p f t); [done|]. by rewrite IH.
Qed.

(** lines that go on where the last segment ends *)
Lemma get_code_run pre s ls d rest :
  Forall (fun x => end_address x < end_address s) pre -> covers (end_address s) ls d ->
  get_code_loop (pre ++ [s]) (ls ++ rest) = get_code_loop (pre ++ [append_code d s]) rest.
Proof.
  intros Hpre Hc. remember (end_address s) as a eqn:Ha. revert s Ha Hpre.
  induction Hc as [a|a p ls d Hp Hf Hc IH]; intros s Ha Hpre.
  - by rewrite append_code_nil.
  - cbn [app get_code_loop data_line line_record_type line_address line_data].
    rewrite bool_decide_false by done. rewrite bool_decide_true by done. cbn [negb].
    rewrite existsb_app, not_middle_below by done. cbn [existsb orb].
    unfold is_middle_of at 1. rewrite Ha, Z.ltb_irrefl, andb_false_r. cbn [orb].
    rewrite update_first_app; [|by apply update_first_below; rewrite <- Ha|apply Z.eqb_refl].
    rewrite append_code_app. apply IH; [cbn; lia|].
    eapply Forall_impl; [exact Hpre|]. cbn. lia.
Qed.

(** the lines of a segment above all others *)
Lemma get_code_segment segs a ls d rest :
  Forall (fun x => end_address x < a) segs -> covers a ls d -> d <> [] ->
  get_code_loop segs (ls ++ rest) = get_code_loop (segs ++ [append_code d (segment_new a)]) rest.
Proof.
  intros Hs Hc Hd. destruct Hc as [a|a p ls d Hp Hf Hc]; [done|].
  cbn [app get_code_loop data_line line_record_type line_address line_data].
  rewrite bool_decide_false by done. rewrite bool_decide_true by done. cbn [negb].
  rewrite not_middle_below, update_first_below by done.
  rewrite append_code_app. apply get_code_run; [|done].
  eapply Forall_impl; [exact Hs|]. cbn. lia.
Qed.

(** ** Lemmas: a file written from segments *)

(** segments in the order of their addresses with gaps between them, not
    empty, within the 64 KiB that a line can address *)
Fixpoint segments_ok (prev : Z) (codes : list CodeSegment) : Prop :=
  match codes with
  | [] => True
  | c :: t => prev < start_address c /\ 0 <= start_address c
      /\ end_address c = start_address c + Z.of_nat (length (seg_data c))
      /\ end_address c <= 65536 /\ seg_data c <> [] /\ bytes (seg_data c) /\ building c = false
      /\ segments_ok (end_address c) t
  end.

Lemma segment_lines_ok prev codes : segments_ok prev codes ->
  exists ls, segment_lines codes = Ok ls /\ Forall readable ls
    /\ forall segs rest, Forall (fun s => end_address s <= prev) segs ->
       exists segs', get_code_loop segs (ls ++ rest) = get_code_loop (segs ++ segs') rest
         /\ map end_code_write segs' = codes.
Proof.
  revert prev. induction codes as [|c t IH]; intros prev Hok.
  - exists []. split; [done|]. split; [constructor|]. intros segs rest _. exists [].
    by rewrite app_nil_r.
  - destruct Hok as (Hp & Hs & He & Hmax & Hne & Hb & Hbld & Hok).
    destruct (data_lines_covers (length (seg_data c)) (start_address c) (seg_data c) 0)
      as (l1 & H1 & Hc); [done|done|lia|lia|].
    rewrite Z.add_0_r, drop_0 in *. destruct (IH _ Hok) as (l2 & H2 & Hr2 & Hg2).
    exists (l1 ++ l2). cbn [segment_lines]. rewrite H1, H2. split; [done|]. split.
    { apply Forall_app. split; [by eapply covers_readable|done]. }
    intros segs rest Hsegs. rewrite <- app_assoc.
    rewrite (get_code_segment _ (start_address c) _ (seg_data c));
      [|eapply Forall_impl; [exact Hsegs|]; cbn; lia|done|done].
    set (s := append_code (seg_data c) (segment_new (start_address c))).
    assert (end_address s = end_address c) as Hse by (cbn; lia).
    destruct (Hg2 (segs ++ [s]) rest) as (segs' & -> & Hmap).
    { apply Forall_app. split; [|by constructor; [lia|]].
      eapply Forall_impl; [exact Hsegs|]. cbn. lia. }
    exists (s :: segs'). rewrite <- app_assoc. split; [done|]. cbn [map]. f_equal; [|done].
    unfold end_code_write. rewrite Hse. unfold s. cbn. destruct c. cbn in *. by f_equal.
Qed.

(** writing segments and loading the text gives the segments back *)
Lemma from_segments_ok codes : segments_ok (- 1) codes ->
  exists f, from_segments codes = Ok f /\ load_file (write_to_file f) = Ok f
    /\ get_code f = Ok codes.
Proof.
  intros Hok. destruct (segment_lines_ok _ _ Hok) as (ls & Hls & Hr & Hg).
  assert (Forall readable (ls ++ [eof_line])) as Hall
    by (apply Forall_app; split; [done|constructor; [apply eof_readable|done]]).
  exists (ls ++ [eof_line]). unfold from_segments. rewrite Hls, create_eof_line_ok.
  cbn [mbind res_bind]. rewrite assert_valid_readable by done. split; [done|].
  split; [by apply load_written|]. unfold get_code.
  destruct (Hg [] [eof_line] ltac:(constructor)) as (segs' & -> & Hmap).
  cbn [app get_code_loop eof_line line_record_type]. rewrite bool_decide_true by done.
  cbn [mbind res_bind]. by rewrite Hmap.
Qed.

(** ** Lemmas: where the code of a line goes *)

(** the data lines before the end of file record *)
Fixpoint code_lines (f : IntelHexFile) : IntelHexFile :=
  match f with
  | [] => []
  | l :: t => if bool_decide (line_record_type l = EndOfFile) then []
              else if bool_decide (line_record_type l = Data) then l :: code_lines t
              else code_lines t
  end.

Definition seg_wf (s : CodeSegment) : Prop :=
  end_address s = start_address s + Z.of_nat (length (seg_data s)).

(** the bytes [d] stand at address [a] in [s] *)
Definition holds (s : CodeSegment) (a : Z) (d : list Z) : Prop :=
  start_address s <= a
  /\ take (length d) (drop (Z.to_nat (a - start_address s)) (seg_data s)) = d.

Lemma holds_append s a d e : holds s a d -> holds (append_code e s) a d.
Proof.
  intros [Hs Hd]. split; [done|]. cbn [append_code start_address seg_data].
  assert (length d <= length (seg_data s) - Z.to_nat (a - start_address s))%nat as Hlen.
  { apply (f_equal length) in Hd. rewrite length_take, length_drop in Hd. lia. }
  destruct d as [|x d]; [done|]. cbn [length] in Hlen.
  rewrite drop_app_le, take_app_le by (rewrite ?length_drop; cbn; lia). done.
Qed.

Lemma holds_end s d : seg_wf s -> holds (append_code d s) (end_address s) d.
Proof.
  intros Hw. unfold seg_wf in Hw. split; cbn; [lia|].
  replace (Z.to_nat (end_address s - start_address s)) with (length (seg_data s)) by lia.
  by rewrite drop_app_length, firstn_all.
Qed.

(** [segs'] has what [segs] has, and the bytes [d] at [a] *)
Definition grown (segs segs' : list CodeSegment) (a : Z) (d : list Z) : Prop :=
  Forall seg_wf segs' /\ Exists (fun s => holds s a d) segs'
  /\ (forall b e, Exists (fun s => holds s b e) segs -> Exists (fun s => holds s b e) segs')
  /\ sum_list (map (length ∘ seg_data) segs')
     = (sum_list (map (length ∘ seg_data) segs) + length d)%nat.

Lemma grown_update segs segs' a d : Forall seg_wf segs ->
  update_first (fun s => a =? end_address s) (append_code d) segs = Some segs' ->
  grown segs segs' a d.
Proof.
  intros Hw. revert segs'. induction Hw as [|s t Hs Ht IH]; intros segs'; [done|].
  cbn [update_first]. destruct (a =? end_address s) eqn:Ha; breflect.
  - intros [= <-]. subst a. split; [|split; [|split]].
    + constructor; [|done]. unfold seg_wf in *. cbn. rewrite length_app. lia.
    + left. by apply holds_end.
    + intros b e. rewrite !Exists_cons. intros [H|H]; [left; by apply holds_append|by right].
    + cbn. rewrite length_app. lia.
  - destruct (update_first _ _ t) as [t'|]; [|done]. intros [= <-].
    destruct (IH t' eq_refl) as (H1 & H2 & H3 & H4). split; [by constructor|].
    split; [by right|]. split.
    + intros b e. rewrite !Exists_cons. intros [H|H]; [by left|right; by apply H3].
    + cbn in *. lia.
Qed.

Lemma grown_push segs a d : Forall seg_wf segs ->
  grown segs (segs ++ [append_code d (segment_new a)]) a d.
Proof.
  intros Hw. split; [|split; [|split]].
  - apply Forall_app. split; [done|]. constructor; [|done]. unfold seg_wf. cbn. lia.
  - apply Exists_app. right. left. apply (holds_end (segment_new a)). unfold seg_wf. cbn. lia.
  - intros b e H. apply Exists_app. by left.
  - rewrite map_app. clear. induction segs as [|s t IH]; cbn in *; [lia|]. lia.
Qed.

Lemma get_code_loop_places segs f segs' : Forall seg_wf segs ->
  get_code_loop segs f = Ok segs' ->
  Forall seg_wf segs'
  /\ Forall (fun l => Exists (fun s => holds s (line_address l) (line_data l)) segs') (code_lines f)
  /\ (forall b e, Exists (fun s => holds s b e) segs -> Exists (fun s => holds s b e) segs')
  /\ sum_list (map (length ∘ seg_data) segs')
     = (sum_list (map (length ∘ seg_data) segs) + get_data_size (code_lines f))%nat.
Proof.
  revert segs. induction f as [|l t IH]; intros segs Hw.
  { intros [= <-]. cbn. split; [done|]. split; [constructor|]. split; [done|]. lia. }
  cbn [get_code_loop code_lines].
  case_bool_decide; [intros [= <-]; cbn; split; [done|]; split; [constructor|]; split; [done|]; lia|].
  case_bool_decide as Hdata; cbn [negb]; [|by apply IH].
  destruct (existsb _ _); [done|].
  assert (forall s1, grown segs s1 (line_address l) (line_data l) -> get_code_loop s1 t = Ok segs' ->
    Forall seg_wf segs'
    /\ Forall (fun l => Exists (fun s => holds s (line_address l) (line_data l)) segs') (l :: code_lines t)
    /\ (forall b e, Exists (fun s => holds s b e) segs -> Exists (fun s => holds s b e) segs')
    /\ sum_list (map (length ∘ seg_data) segs')
       = (sum_list (map (length ∘ seg_data) segs) + get_data_size (l :: code_lines t))%nat) as Hgo.
  { intros s1 (G1 & G2 & G3 & G4) Hl. destruct (IH s1 G1 Hl) as (A & B & C & D).
    split; [done|]. split; [constructor; [by apply C|done]|]. split; [auto|].
    unfold get_data_size in *. cbn. lia. }
  destruct (update_first _ _ segs) as [s1|] eqn:Hu.
  - apply Hgo. by apply grown_update.
  - apply Hgo. by apply grown_push.
Qed.

(** ** Lemmas: parsing any text *)

Lemma to_digit16_range c : is_none (to_digit16 c) = false ->
  0 <= c < 128 /\ exists d, to_digit16 c = Some d /\ 0 <= d < 16.
Proof.
  unfold to_digit16. bool_cases; breflect; try done; intros _; (split; [lia|]);
    eexists; (split; [reflexivity|lia]).
Qed.

Lemma hex_digits_ascii s : existsb (fun ch => is_none (to_digit16 ch)) s = false -> as_bytes s = s.
Proof.
  induction s as [|c t IH]; [done|]. cbn [existsb]. intros [Hc Ht]%orb_false_elim.
  unfold as_bytes in *. cbn [mbind list_bind]. rewrite IH by done.
  apply to_digit16_range in Hc as [Hc _]. unfold utf8_char.
  by rewrite (proj2 (Z.ltb_lt c 128)) by lia.
Qed.

Lemma from_hex_pairs_ok hex n s : length s = (2 * n)%nat ->
  existsb (fun ch => is_none (to_digit16 ch)) s = false ->
  exists raw, from_hex_pairs hex s = Ok raw /\ length raw = n /\ bytes raw.
Proof.
  revert n. induction s as [s IH] using (induction_ltof1 _ (@length Z)). intros n Hn Hs.
  destruct s as [|a [|b t]]; cbn [length] in Hn; [exists []; split; [done|]; split; [cbn; lia|apply bytes_nil]|lia|].
  destruct n as [|n]; [lia|]. cbn [existsb] in Hs.
  apply orb_false_elim in Hs as [Ha Hs]. apply orb_false_elim in Hs as [Hb Ht].
  destruct (IH t ltac:(unfold ltof; cbn; lia) n ltac:(lia) Ht) as (raw & Hraw & Hl & Hbs).
  apply to_digit16_range in Ha as (_ & h & Hh & Hhr). apply to_digit16_range in Hb as (_ & l & Hl' & Hlr).
  cbn [from_hex_pairs]. rewrite Hh, Hl'. cbn [ok_or mbind res_bind]. rewrite Hraw. cbn [mbind res_bind].
  eexists. split; [reflexivity|]. split; [cbn; lia|]. apply bytes_cons. split; [|done].
  unfold as_u. rewrite Z.mod_small by (rewrite Z.shiftl_mul_pow2 by lia; change (2 ^ 4) with 16; change (2 ^ 8) with 256; lia).
  rewrite shiftl_lor_add by (change (2 ^ 4) with 16; lia). change (2 ^ 4) with 16. unfold is_u8. lia.
Qed.

(** the shape of every record that is accepted *)
Lemma line_new_cases line :
  (exists text, line_new line = Err (InvalidLine text))
  \/ exists r0 r1 r2 r3 data c, bytes ([r0; r1; r2; r3] ++ data ++ [c])
     /\ line_new line = Ok (line_of r0 r1 r2 r3 data c).
Proof.
  unfold line_new. destruct (trim line) as [|c0 hex]; [by left; eexists|].
  destruct (negb (c0 =? 58)); [by left; eexists|].
  destruct (str_len hex <? 10)%nat eqn:Hlen; cbn [orb]; [by left; eexists|].
  destruct (existsb _ hex) eqn:Hd; [by left; eexists|]. breflect.
  unfold from_hex. unfold str_len in *. rewrite hex_digits_ascii in * by done.
  destruct (Nat.even (length hex)) eqn:Hev; cbn [negb]; [|by left; eexists].
  apply Nat.even_spec in Hev as [n Hn].
  destruct (from_hex_pairs_ok hex n hex Hn Hd) as (raw & Hraw & Hl & Hb). rewrite Hraw.
  cbn [mbind res_bind].
  destruct raw as [|r0 [|r1 [|r2 [|r3 rest]]]]; cbn [length] in Hl; try lia.
  destruct rest as [|x rest'] using rev_ind; [cbn in Hl; lia|]. clear IHrest'.
  right. exists r0, r1, r2, r3, rest', x. split; [exact Hb|].
  cbn [idx lookup list_lookup unwrap mbind res_bind].
  rewrite slice_ok by (cbn [length]; rewrite length_app; cbn; lia). cbn [mbind res_bind].
  replace (last (r0 :: r1 :: r2 :: r3 :: rest' ++ [x])) with (Some x).
  2: { symmetry. apply (last_snoc x (r0 :: r1 :: r2 :: r3 :: rest')). }
  cbn [unwrap mbind res_bind]. unfold line_of. do 2 f_equal.
  cbn [drop length]. rewrite length_app. cbn [length].
  replace (S (S (S (S (length rest' + 1)))) - 1 - 4)%nat with (length rest') by lia.
  apply take_app_length.
Qed.

(** ** Lemmas: concatenation *)

Lemma concat_first max_gap pad a : seg_wf a ->
  concat_step max_gap pad [] a = Ok [mkSegment (start_address a) (end_address a) (seg_data a) true].
Proof.
  intros Ha. unfold concat_step. cbn [List.find update_first]. unfold pad_and_append.
  cbn [start_address end_address seg_data segment_new building]. unfold saturating_sub_u64.
  rewrite Z.sub_diag. cbn. unfold append_code. cbn. rewrite <- Ha. done.
Qed.

(** a segment above the one there is: padding is put before it *)
Lemma concat_next max_gap pad s c :
  end_address s <= start_address c -> 0 < max_gap -> start_address c < 2 ^ 64 - 1 ->
  concat_step max_gap pad [s] c
  = Ok [mkSegment (start_address s) (end_address s + Z.of_nat (length (seg_data c)))
          ((seg_data s ++ replicate (Z.to_nat (start_address c - end_address s)) pad) ++ seg_data c)
          (building s)].
Proof.
  intros Hs Hg Hc. unfold concat_step. cbn [List.find]. unfold is_middle_of.
  rewrite (proj2 (Z.ltb_ge (start_address c) (end_address s))), andb_false_r by lia.
  cbn [update_first]. unfold saturating_add_u64.
  rewrite (proj2 (Z.ltb_lt (end_address s) _)) by lia. unfold pad_and_append, append_code.
  cbn [start_address end_address seg_data building]. unfold saturating_sub_u64.
  by rewrite Z.max_l by lia.
Qed.

(** ** Properties *)

(** C9: HEX file round trip.  Code segments in the order of their addresses
    with gaps between them, within 64 KiB, are written to a file whose text is
    loaded back to the same file, with every checksum accepted, and whose code
    is exactly the segments that were written. *)
Theorem hex_file_roundtrip codes : segments_ok (- 1) codes ->
  exists f, from_segments codes = Ok f /\ load_file (write_to_file f) = Ok f
    /\ get_code f = Ok codes.
Proof. apply from_segments_ok. Qed.

Lemma hex_file_roundtrip_witness :
  exists f, from_segments [mkSegment 0 3 [12; 148; 52] false; mkSegment 100 102 [1; 2] false] = Ok f
    /\ load_file (write_to_file f) = Ok f
    /\ get_code f = Ok [mkSegment 0 3 [12; 148; 52] false; mkSegment 100 102 [1; 2] false].
Proof.
  apply hex_file_roundtrip. cbn. repeat split; try lia; try done; repeat constructor; lia.
Defined.

(** The code of a file.  When [get_code] accepts a file, every data line
    before the end of file record stands at its address in one of the segments,
    the segments hold as many bytes as those lines together, each ends where its
    bytes end, and none is left open. *)
Theorem get_code_places_lines f segs : get_code f = Ok segs ->
  Forall (fun l => Exists (fun s => holds s (line_address l) (line_data l)) segs) (code_lines f)
  /\ Forall (fun s => seg_wf s /\ building s = false) segs
  /\ sum_list (map (length ∘ seg_data) segs) = get_data_size (code_lines f).
Proof.
  unfold get_code. destruct (get_code_loop [] f) as [l| |] eqn:Hl; cbn; [|done..].
  intros [= <-]. destruct (get_code_loop_places [] f l ltac:(constructor) Hl) as (A & B & _ & D).
  split; [|split].
  - eapply Forall_impl; [exact B|]. cbn. intros x Hx. apply Exists_exists in Hx as (s & Hs & Hh).
    apply Exists_exists. exists (end_code_write s). split; [|done].
    apply list_elem_of_In, in_map, list_elem_of_In. done.
  - rewrite Forall_map. eapply Forall_impl; [exact A|]. by intros s Hs.
  - cbn in D. by rewrite <- D, map_map.
Qed.

Lemma get_code_places_lines_witness :
  let f := [data_line 16 [1; 2]; data_line 18 [3]; data_line 0 [9]; eof_line] in
  exists segs, get_code f = Ok segs
    /\ Forall (fun l => Exists (fun s => holds s (line_address l) (line_data l)) segs) (code_lines f).
Proof.
  intros f. exists [mkSegment 16 19 [1; 2; 3] false; mkSegment 0 1 [9] false].
  assert (get_code f = Ok [mkSegment 16 19 [1; 2; 3] false; mkSegment 0 1 [9] false]) as H
    by (vm_compute; reflexivity).
  split; [exact H|]. apply (get_code_places_lines f _ H).
Defined.

(** Lines.  Parsing any text gives a line or an error, never a panic; an
    accepted line is printed to a text that parses to the same line; and its
    checksum is the right one exactly when all bytes of the record add up to 0
    modulo 256 (for records whose sum fits 16 bits). *)
Theorem hex_line_parse line :
  match line_new line with
  | Panic => False
  | Err e => exists text, e = InvalidLine text
  | Ok l => line_new (to_line_string l) = Ok l
      /\ (sumZ (line_raw l) <= 65535 ->
          assert_valid [l] = Ok tt <-> sumZ (line_raw l) mod 256 = 0)
  end.
Proof.
  destruct (line_new_cases line) as [[text ->]|(r0 & r1 & r2 & r3 & data & c & Hb & ->)]; [eauto|].
  split.
  - unfold to_line_string, line_of at 1. cbn [line_raw]. rewrite upper_to_hex by done.
    by apply line_new_raw.
  - cbn [line_of line_raw]. intros Hs.
    change ([r0; r1; r2; r3] ++ data ++ [c]) with (([r0; r1; r2; r3] ++ data) ++ [c]) in *.
    set (body := [r0; r1; r2; r3] ++ data) in *.
    apply bytes_app in Hb as [Hbody Hc]. apply bytes_cons in Hc as [Hc _]. unfold is_u8 in Hc.
    pose proof (sumZ_bound body Hbody). rewrite sumZ_app in Hs |- *. cbn [sumZ foldl] in Hs |- *.
    cbn [assert_valid]. unfold calc_checksum, line_of. cbn [line_raw line_checksum].
    change ([r0; r1; r2; r3] ++ data ++ [c]) with (body ++ [c]).
    rewrite checksum_value by lia. cbn [mbind res_bind].
    destruct (c =? - sumZ body mod 256) eqn:He; breflect; cbn [negb]; split; try done; intros; zdiv_lia.
Qed.

(** Concatenation.  Two segments with a gap are joined with exactly the
    padding of the gap, so the second stands at its address; but the padding is
    not added to the end address of the joined segment, so the code of a third
    one is placed too far by the length of the first gap. *)
Theorem concat_segments_gaps a b c max_gap pad :
  seg_wf a -> end_address a <= start_address b -> start_address a <= start_address b ->
  end_address a + Z.of_nat (length (seg_data b)) <= start_address c ->
  start_address b <= start_address c -> 0 < max_gap ->
  start_address c < 2 ^ 64 - 1 ->
  let gap := start_address b - end_address a in
  (exists e, concat_segments [a; b] max_gap pad
     = Ok [mkSegment (start_address a) e (seg_data a ++ replicate (Z.to_nat gap) pad ++ seg_data b) false])
  /\ Z.of_nat (length (seg_data a ++ replicate (Z.to_nat gap) pad)) = start_address b - start_address a
  /\ exists e before, concat_segments [a; b; c] max_gap pad
       = Ok [mkSegment (start_address a) e (before ++ seg_data c) false]
     /\ Z.of_nat (length before) = start_address c - start_address a + gap.
Proof.
  intros Ha Hab Hsab Hbc Hsbc Hg Hc gap.
  assert (sort_by_start [a; b] = [a; b]) as Hs2.
  { unfold sort_by_start. cbn. by rewrite (proj2 (Z.ltb_ge _ _)) by lia. }
  assert (sort_by_start [a; b; c] = [a; b; c]) as Hs3.
  { unfold sort_by_start. cbn. rewrite (proj2 (Z.ltb_ge (start_address b) _)) by lia. cbn.
    rewrite (proj2 (Z.ltb_ge (start_address c) (start_address a))) by lia.
    by rewrite (proj2 (Z.ltb_ge (start_address c) (start_address b))) by lia. }
  unfold seg_wf in Ha. unfold concat_segments. cbn [length Nat.ltb Nat.leb]. rewrite Hs2, Hs3. cbn [foldM].
  rewrite concat_first by done. rewrite concat_next by (cbn; lia). split; [|split].
  - eexists. cbn. by rewrite <- app_assoc.
  - rewrite length_app, length_replicate. lia.
  - rewrite concat_next by (cbn; lia). do 2 eexists. split; [cbn; reflexivity|].
    rewrite !length_app, !length_replicate. lia.
Qed.

Lemma concat_segments_gaps_witness :
  exists e before, concat_segments
      [mkSegment 0 2 [1; 2] false; mkSegment 4 6 [3; 4] false; mkSegment 8 10 [5; 6] false] 16 0xff
    = Ok [mkSegment 0 e (before ++ [5; 6]) false] /\ Z.of_nat (length before) = 10.
Proof.
  pose proof (concat_segments_gaps (mkSegment 0 2 [1; 2] false) (mkSegment 4 6 [3; 4] false)
    (mkSegment 8 10 [5; 6] false) 16 0xff) as H. cbn in H.
  destruct H as (_ & _ & He); [reflexivity|lia|lia|lia|lia|lia|lia|exact He].
Defined.
