(* ===== verification/IhexApp.v ===== *)
(** * Intel HEX commands

    Models [src/apps/ihex.rs]: the interrupt vector table at the start of the
    code, its most used destination, the redirection of vectors to the table of
    the application, and the commands [validate], [size] and
    [replace_interrupts].  The file system is a map from names to the lines of
    the files; what a command prints is not modelled.  The [u32] sums panic when
    they overflow, as in a build with overflow checks. *)

From stdpp Require Import base list numbers option strings gmap sorting.
From Stdlib Require Import ZArith Lia.
From S2P Require Import Prelude RustStd Cli Tools Ihex.

Definition IN : CliEntry := mkEntry [$"i"; $"-input-file"] $"Input ihex format file".
Definition OUT : CliEntry := mkEntry [$"o"; $"-output-file"] $"Output ihex format file".
Definition OFF : CliEntry := mkEntry [$"p"; $"-program-offset"] $"Program code offset".
Definition ADDR : CliEntry := mkEntry [$"a"; $"-address-to-replace"] $"Address to replace (optional)".

Definition REPLACE_ENTRIES : list CliEntry := [IN; OUT; OFF; ADDR].

Definition FIRST_VECTOR : nat := 4.

(** ** The vector table *)

(** the [while] loop; every round moves [addr] by 4, so [data.len()] rounds are enough *)
Fixpoint vectors_loop {E} (fuel : nat) (data : list Z) (addr : nat) : res E (list (nat * Z)) :=
  match fuel with
  | O => Ok []
  | S f =>
    if (addr + 4 <=? length data)%nat then
      b0 ← idx data addr;
      b1 ← idx data (addr + 1);
      if negb (b0 =? 0x0c) || negb (b1 =? 0x94) then Ok [] else
      b3 ← idx data (addr + 3);
      b2 ← idx data (addr + 2);
      let dst := Z.lor (Z.shiftl b3 8) b2 * 2 in
      rest ← vectors_loop f data (addr + 4);
      Ok ((addr, dst) :: rest)
    else Ok []
  end.

Definition vector_destinations {E} (data : list Z) : res E (list (nat * Z)) :=
  vectors_loop (length data) data FIRST_VECTOR.

Definition add_u32 {E} (a b : Z) : res E Z := if a + b <? 2 ^ 32 then Ok (a + b) else Panic.

(** [*counts.entry(dst).or_insert(0) += 1] on the entries in the order of the keys *)
Fixpoint count_entry {E} (dst : Z) (counts : list (Z * Z)) : res E (list (Z * Z)) :=
  match counts with
  | [] => Ok [(dst, 1)]
  | (k, n) :: t =>
    if dst <? k then Ok ((dst, 1) :: counts)
    else if dst =? k then n ← add_u32 n 1; Ok ((k, n) :: t)
    else t ← count_entry dst t; Ok ((k, n) :: t)
  end.

(** [{:?}] of the counts *)
Definition show_counts (counts : list (Z * Z)) : str :=
  $"{" ++ join $", " (map (fun c => show_int c.1 ++ $": " ++ show_int c.2) counts) ++ $"}".

Definition find_most_used_destination (data : list Z) : res (Z * str) Z :=
  vectors ← vector_destinations data;
  counts ← foldM (fun counts v => count_entry v.2 counts) [] vectors;
  match counts with
  | [] => Err (3, $"No interrupt function found from the address " ++ show_int (Z.of_nat FIRST_VECTOR))
  | c :: cs =>
    let max := foldl Z.max c.2 (map snd cs) in
    match filter (fun e => e.2 = max) counts with
    | [] => Panic
    | [(dst, _)] => Ok dst
    | _ => Err (4, $"Multiple interrupt addresses used for the same time so specify explicitly the right one: "
                   ++ show_counts counts)
    end
  end.

(** the body of the loop of [rewrite_vectors] *)
Definition rewrite_step {E} (rewrite offset : Z) (st : list Z * nat) (v : nat * Z)
    : res E (list Z * nat) :=
  let '(data, changed) := st in
  let '(addr, dst) := v in
  if dst =? rewrite then
    sum ← add_u32 (as_u 32 (Z.of_nat addr)) offset;
    let jmp := sum / 2 in
    data ← set_idx data (addr + 2) (as_u 8 (Z.land jmp 0xff));
    data ← set_idx data (addr + 3) (as_u 8 (Z.land (Z.shiftr jmp 8) 0xff));
    Ok (data, S changed)
  else Ok st.

Definition rewrite_vectors {E} (data : list Z) (rewrite offset : Z) : res E (list Z * nat) :=
  vectors ← vector_destinations data;
  foldM (rewrite_step rewrite offset) (data, O) vectors.

(** ** The commands *)

Definition disk : Type := gmap str (list str).

(** how a command ends: it returns, fails with an error, or exits with a code *)
Inductive app_end : Type :=
| Done (d : disk)
| Failed (message : str)
| Exited (code : Z).

(** [?] on an error that is shown with [Display] *)
Definition or_fail {E A} (show : E -> str) (m : res E A) (k : A -> option app_end) : option app_end :=
  match m with
  | Ok a => k a
  | Err e => Some (Failed (show e))
  | Panic => None
  end.

Definition load (d : disk) (file : str) : res IntelHexError IntelHexFile :=
  match d !! file with
  | Some lines => load_file lines
  | None => Err (Io $"No such file or directory (os error 2)")
  end.

Definition validate (d : disk) (file : str) : option app_end :=
  match load d file with
  | Ok _ => Some (Exited 0)
  | Err _ => Some (Exited 1)
  | Panic => None
  end.

(** the size is printed *)
Definition size (d : disk) (file : str) : option (app_end * nat) :=
  match load d file with
  | Ok f => Some (Done d, get_data_size f)
  | Err e => Some (Failed (IntelHexError_fmt e), O)
  | Panic => None
  end.

(** the vectors of [start] are rewritten in place in [codes] *)
Definition redirect (address : option Z) (offset : Z) (codes : list CodeSegment) (start : CodeSegment)
    (k : list CodeSegment -> option app_end) : option app_end :=
  let rewrite := match address with
                 | Some address => Ok address
                 | None => find_most_used_destination (seg_data start)
                 end in
  match rewrite with
  | Ok rewrite =>
    match rewrite_vectors (E := never) (seg_data start) rewrite offset with
    | Ok (data, _) =>
      match update_first (fun s => start_address s =? 0)
              (fun s => mkSegment (start_address s) (end_address s) data (building s)) codes with
      | Some codes => k codes
      | None => None
      end
    | _ => None
    end
  | Err (code, _) => Some (Exited code)
  | Panic => None
  end.

(** the part of [replace_interrupts] after the arguments are checked *)
Definition replace_in_file (d : disk) (from to : str) (offset : Z) (address : option Z) : option app_end :=
  or_fail IntelHexError_fmt (load d from) (fun file =>
  or_fail IntelHexError_fmt (get_code file) (fun codes =>
  match List.find (fun s => start_address s =? 0) codes with
  | None => Some (Exited 3)
  | Some start =>
    redirect address (as_u 32 offset) codes start (fun codes =>
    or_fail IntelHexError_fmt (from_segments codes) (fun file =>
    Some (Done (<[to := write_to_file file]> d))))
  end)).

Definition replace_interrupts (d : disk) (args : list str) : option app_end :=
  match parse_cli_opts args with
  | Panic => None
  | Err _ => Some (Exited 1)
  | Ok pa =>
    match first_unknown_param pa REPLACE_ENTRIES with
    | Some _ => Some (Exited 1)
    | None =>
      let from := get_simple IN pa in
      or_fail id (parse parse_i64 OFF pa) (fun offset =>
      or_fail id (parse parse_u32 ADDR pa) (fun address =>
      let fail_from := match from with
                       | None => true
                       | Some from => bool_decide (d !! from = None)
                       end in
      let fail_offset := match offset with
                         | None => true
                         | Some offset => negb ((0 <=? offset) && (offset <? 65536))
                         end in
      match from, offset, fail_from || fail_offset with
      | Some from, Some offset, false =>
        replace_in_file d from (default from (get_simple OUT pa)) offset address
      | _, _, _ => Some (Exited 2)
      end))
    end
  end.

Definition ihex_main (d : disk) (args : list str) : option app_end :=
  match args with
  | f :: rest =>
    if bool_decide (f = $"validate") then
      match rest with [file] => validate d file | _ => Some (Exited 1) end
    else if bool_decide (f = $"size") then
      match rest with [file] => fst <$> size d file | _ => Some (Exited 1) end
    else if bool_decide (f = $"replace_interrupts") then replace_interrupts d rest
    else Some (Exited 1)
  | [] => Some (Exited 1)
  end.

(** ** Lemmas: the vector table *)

(** the table that starts with the bytes [l], which are at [addr] *)
Fixpoint vtable (fuel : nat) (l : list Z) (addr : nat) : list (nat * Z) :=
  match fuel, l with
  | S f, b0 :: b1 :: b2 :: b3 :: rest =>
    if (b0 =? 0x0c) && (b1 =? 0x94)
    then (addr, (b3 * 256 + b2) * 2) :: vtable f rest (addr + 4) else []
  | _, _ => []
  end.

(** the same table with the vectors to [rewrite] redirected *)
Fixpoint rtable (fuel : nat) (rewrite offset : Z) (l : list Z) (addr : nat) : list Z :=
  match fuel, l with
  | S f, b0 :: b1 :: b2 :: b3 :: rest =>
    if (b0 =? 0x0c) && (b1 =? 0x94) then
      let jmp := (Z.of_nat addr + offset) / 2 in
      (if (b3 * 256 + b2) * 2 =? rewrite then [b0; b1; jmp mod 256; jmp / 256] else [b0; b1; b2; b3])
      ++ rtable f rewrite offset rest (addr + 4)
    else l
  | _, _ => l
  end.

Lemma idx_app {E} (pre l : list Z) k : idx (E := E) (pre ++ l) (length pre + k) = idx l k.
Proof. unfold idx. by rewrite lookup_app_r, Nat.add_comm, Nat.add_sub by lia. Qed.

Lemma lor_bytes b3 b2 : is_u8 b3 -> is_u8 b2 -> Z.lor (Z.shiftl b3 8) b2 = b3 * 256 + b2.
Proof. unfold is_u8. intros. apply (shiftl_lor_add b3 8 b2); lia. Qed.

Lemma vectors_loop_table {E} fuel (pre l : list Z) : bytes l ->
  vectors_loop (E := E) fuel (pre ++ l) (length pre) = Ok (vtable fuel l (length pre)).
Proof.
  revert pre l. induction fuel as [|f IH]; intros pre l Hb; [done|].
  cbn [vectors_loop vtable]. rewrite length_app.
  destruct (length pre + 4 <=? _)%nat eqn:Hl; breflect.
  - destruct l as [|b0 [|b1 [|b2 [|b3 rest]]]]; cbn in Hl; try lia.
    rewrite <- (Nat.add_0_r (length pre)) at 1. rewrite !idx_app. cbn [idx lookup list_lookup unwrap mbind res_bind].
    rewrite <- negb_andb. destruct ((b0 =? 12) && (b1 =? 148)); [|done]. cbn [negb].
    unfold bytes in Hb. rewrite !Forall_cons in Hb. destruct Hb as (H0 & H1 & H2 & H3 & Hr).
    rewrite lor_bytes by done.
    specialize (IH (pre ++ [b0; b1; b2; b3]) rest Hr). rewrite <- app_assoc, length_app in IH.
    cbn [app length] in IH. by rewrite IH.
  - destruct l as [|b0 [|b1 [|b2 [|b3 rest]]]]; try done. cbn in Hl. lia.
Qed.

Lemma vector_destinations_ok {E} data : bytes data ->
  vector_destinations (E := E) data = Ok (vtable (length data) (drop 4 data) 4).
Proof.
  intros Hb. unfold vector_destinations, FIRST_VECTOR.
  destruct data as [|b0 [|b1 [|b2 [|b3 rest]]]]; [done..|].
  apply (vectors_loop_table _ [b0; b1; b2; b3] rest).
  by apply (bytes_drop 4) in Hb.
Qed.

Lemma set_idx_app {E} (pre l : list Z) k v : (k < length l)%nat ->
  set_idx (E := E) (pre ++ l) (length pre + k) v = Ok (pre ++ <[k := v]> l).
Proof.
  intros Hk. unfold set_idx. rewrite length_app, (proj2 (Nat.ltb_lt _ _)) by lia.
  by rewrite insert_app_r.
Qed.

Lemma rewrite_step_here {E} (pre : list Z) b0 b1 b2 b3 rest rewrite offset c :
  0 <= offset < 65536 -> Z.of_nat (length pre) < 65536 ->
  let jmp := (Z.of_nat (length pre) + offset) / 2 in
  rewrite_step (E := E) rewrite offset (pre ++ b0 :: b1 :: b2 :: b3 :: rest, c) (length pre, rewrite)
  = Ok (pre ++ b0 :: b1 :: jmp mod 256 :: jmp / 256 :: rest, S c).
Proof.
  intros Ho Hp jmp. unfold rewrite_step. rewrite Z.eqb_refl.
  assert (0 <= jmp < 65536) as Hj by (unfold jmp; zdiv_lia).
  rewrite as_u_small by (split; lia). unfold add_u32. rewrite (proj2 (Z.ltb_lt _ _)) by lia.
  cbn [mbind res_bind]. fold jmp. rewrite set_idx_app by (cbn; lia). cbn [mbind res_bind].
  rewrite set_idx_app by (cbn; lia). cbn [mbind res_bind insert list_insert].
  do 6 f_equal; [|f_equal].
  - change 255 with (Z.ones 8). rewrite Z.land_ones by lia. by rewrite as_u_small by (apply Z.mod_pos_bound; lia).
  - change 255 with (Z.ones 8). rewrite Z.land_ones, Z.shiftr_div_pow2 by lia.
    rewrite as_u_small by (apply Z.mod_pos_bound; lia). apply Z.mod_small. zdiv_lia.
Qed.

(** the vectors to [rewrite] *)
Definition hits (rewrite : Z) (vs : list (nat * Z)) : nat :=
  length (filter (fun v => v.2 = rewrite) vs).

Lemma rewrite_table {E} fuel (pre l : list Z) rewrite offset c :
  0 <= offset < 65536 -> Z.of_nat (length (pre ++ l)) <= 65536 ->
  foldM (E := E) (rewrite_step rewrite offset) (pre ++ l, c) (vtable fuel l (length pre))
  = Ok (pre ++ rtable fuel rewrite offset l (length pre), (c + hits rewrite (vtable fuel l (length pre)))%nat).
Proof.
  intros Ho. revert pre l c. induction fuel as [|f IH]; intros pre l c Hl.
  { cbn. by rewrite Nat.add_0_r. }
  destruct l as [|b0 [|b1 [|b2 [|b3 rest]]]]; try (cbn; by rewrite Nat.add_0_r).
  cbn [vtable rtable]. destruct ((b0 =? 12) && (b1 =? 148)); [|cbn; by rewrite Nat.add_0_r].
  cbn [foldM]. rewrite length_app in Hl. cbn [length] in Hl.
  set (jmp := (Z.of_nat (length pre) + offset) / 2).
  set (q := if (b3 * 256 + b2) * 2 =? rewrite then [b0; b1; jmp mod 256; jmp / 256] else [b0; b1; b2; b3]).
  assert (rewrite_step (E := E) rewrite offset (pre ++ b0 :: b1 :: b2 :: b3 :: rest, c)
            (length pre, (b3 * 256 + b2) * 2)
          = Ok ((pre ++ q) ++ rest, (c + if ((b3 * 256 + b2) * 2 =? rewrite)%Z then 1 else 0)%nat)) as ->.
  { unfold q. destruct (_ =? rewrite) eqn:Hr; breflect.
    - rewrite Hr, rewrite_step_here by lia. rewrite <- app_assoc, Nat.add_1_r. done.
    - unfold rewrite_step. rewrite (proj2 (Z.eqb_neq _ _) Hr), <- app_assoc, Nat.add_0_r. done. }
  assert (length (pre ++ q) = (length pre + 4)%nat) as Hq
    by (rewrite length_app; unfold q; by destruct (_ =? _)).
  rewrite <- Hq. rewrite IH by (rewrite length_app, Hq; lia). rewrite <- app_assoc. do 2 f_equal.
  unfold hits. rewrite filter_cons. cbn [snd]. destruct (_ =? rewrite) eqn:Hr; breflect.
  - rewrite decide_True by done. cbn [length]. lia.
  - rewrite decide_False by done. lia.
Qed.

Definition redirected (rewrite offset : Z) (v : nat * Z) : nat * Z :=
  (v.1, if v.2 =? rewrite then 2 * ((Z.of_nat v.1 + offset) / 2) else v.2).

Lemma vtable_rtable fuel rewrite offset l addr :
  vtable fuel (rtable fuel rewrite offset l addr) addr
  = map (redirected rewrite offset) (vtable fuel l addr).
Proof.
  revert l addr. induction fuel as [|f IH]; intros l addr; [done|].
  destruct l as [|b0 [|b1 [|b2 [|b3 rest]]]]; [done..|]. cbn [rtable vtable].
  destruct ((b0 =? 12) && (b1 =? 148)) eqn:Hj; [|cbn; by rewrite Hj].
  cbn [map]. unfold redirected at 1. cbn [fst snd]. set (jmp := (Z.of_nat addr + offset) / 2).
  destruct (_ =? rewrite) eqn:Hr; cbn [app]; rewrite Hj, IH; do 2 f_equal.
  pose proof (Z.div_mod jmp 256). lia.
Qed.

Lemma length_rtable fuel rewrite offset l addr :
  length (rtable fuel rewrite offset l addr) = length l.
Proof.
  revert l addr. induction fuel as [|f IH]; intros l addr; [done|].
  destruct l as [|b0 [|b1 [|b2 [|b3 rest]]]]; [done..|]. cbn [rtable].
  destruct (_ && _); [|done]. rewrite length_app, IH. by destruct (_ =? rewrite).
Qed.

Lemma bytes_rtable fuel rewrite offset l addr : bytes l -> 0 <= offset < 65536 ->
  Z.of_nat (addr + length l) <= 65536 -> bytes (rtable fuel rewrite offset l addr).
Proof.
  intros Hb Ho. revert l addr Hb. induction fuel as [|f IH]; intros l addr Hb Hl; [done|].
  destruct l as [|b0 [|b1 [|b2 [|b3 rest]]]]; [done..|]. cbn [rtable].
  destruct (_ && _); [|done]. cbn [length] in Hl.
  unfold bytes in Hb. rewrite !Forall_cons in Hb. destruct Hb as (H0 & H1 & H2 & H3 & Hr).
  apply bytes_app. split; [|apply IH; [done|lia]].
  destruct (_ =? rewrite); repeat (apply bytes_cons; split); try done; try apply bytes_nil;
    unfold is_u8; zdiv_lia.
Qed.

(** only the address bytes of the vectors to [rewrite] are written *)
Lemma rewrite_steps_frame {E} vs rewrite offset data c data' c' i :
  foldM (E := E) (rewrite_step rewrite offset) (data, c) vs = Ok (data', c') ->
  (forall a, (a, rewrite) ∈ vs -> i <> (a + 2)%nat /\ i <> (a + 3)%nat) ->
  data' !! i = data !! i.
Proof.
  revert data c. induction vs as [|[a dst] t IH]; intros data c H Hi; cbn [foldM] in H; [by injection H as -> _|].
  assert (forall x, (x, rewrite) ∈ t -> i <> (x + 2)%nat /\ i <> (x + 3)%nat) as Ht
    by (intros x Hx; apply Hi; by right).
  unfold rewrite_step at 1 in H. destruct (dst =? rewrite) eqn:Hd; breflect; [subst dst|by eapply IH].
  destruct (add_u32 _ _) as [sum|?|]; [|done..]. cbn [mbind res_bind] in H.
  destruct (Hi a ltac:(left)) as [H2 H3]. unfold set_idx in H.
  destruct (_ <? length data)%nat; [|done]. cbn [mbind res_bind] in H.
  destruct (_ <? _)%nat; [|done]. cbn [mbind res_bind] in H.
  rewrite (IH _ _ H Ht), !list_lookup_insert_ne by done. done.
Qed.

(** ** Lemmas: the counts of the destinations *)

(** the entry of a key, 0 if there is none *)
Fixpoint look (d : Z) (m : list (Z * Z)) : Z :=
  match m with [] => 0 | (k, n) :: t => if d =? k then n else look d t end.

Definition keys_sorted (m : list (Z * Z)) : Prop := StronglySorted Z.lt m.*1.

Lemma look_below d m : Forall (Z.lt d) m.*1 -> look d m = 0.
Proof.
  induction m as [|[k n] t IH]; [done|]. cbn. intros [Hk Ht]%Forall_cons_iff.
  rewrite (proj2 (Z.eqb_neq d k)) by lia. by apply IH.
Qed.

Lemma look_elem k n m : keys_sorted m -> (k, n) ∈ m -> look k m = n.
Proof.
  unfold keys_sorted. induction m as [|[k' n'] t IH]; [intros _ H; by apply not_elem_of_nil in H|]. cbn.
  intros [Ht Hk]%StronglySorted_inv [[= -> ->]|Hin]%elem_of_cons; [by rewrite Z.eqb_refl|].
  rewrite Forall_forall in Hk. specialize (Hk k (list_elem_of_fmap_2 fst _ _ Hin)).
  rewrite (proj2 (Z.eqb_neq k k')) by lia. by apply IH.
Qed.

Lemma elem_look d m : look d m <> 0 -> (d, look d m) ∈ m.
Proof.
  induction m as [|[k n] t IH]; [done|]. cbn. destruct (d =? k) eqn:Hd; breflect; intros H.
  - subst. left.
  - right. by apply IH.
Qed.

Definition counts_ok (bound : Z) (m : list (Z * Z)) : Prop :=
  keys_sorted m /\ Forall (fun e => 1 <= e.2 <= bound) m.

Lemma count_entry_ok {E} d m bound : counts_ok bound m -> 0 <= bound < 2 ^ 32 - 1 ->
  exists m', count_entry (E := E) d m = Ok m' /\ counts_ok (bound + 1) m'
    /\ (forall k, look k m' = look k m + if k =? d then 1 else 0)
    /\ (forall x, x < d -> Forall (Z.lt x) m.*1 -> Forall (Z.lt x) m'.*1).
Proof.
  intros [Hs Hn] Hb. induction m as [|[k n] t IH].
  { exists [(d, 1)]. split; [done|]. split; [split|split; [|intros x Hx _; by constructor]].
    - repeat constructor.
    - repeat constructor; cbn; lia.
    - intros k. cbn. by destruct (k =? d). }
  unfold keys_sorted in Hs. cbn in Hs. apply StronglySorted_inv in Hs as [Hs Hk].
  apply Forall_cons_iff in Hn as [Hn1 Hnt]. cbn in Hn1.
  assert (Forall (fun e => 1 <= e.2 <= bound + 1) t) as Hnt'
    by (eapply Forall_impl; [exact Hnt|]; cbn; lia).
  cbn [count_entry]. destruct (d <? k) eqn:Hd; breflect.
  - exists ((d, 1) :: (k, n) :: t). split; [done|]. split; [split|split].
    + unfold keys_sorted. cbn. repeat constructor; try done.
      eapply Forall_impl; [exact Hk|]. lia.
    + repeat constructor; cbn; try lia. done.
    + intros k'. cbn [look]. destruct (k' =? d) eqn:Hk'; breflect; [|lia]. subst k'.
      rewrite (proj2 (Z.eqb_neq d k)) by lia. rewrite look_below; [done|].
      eapply Forall_impl; [exact Hk|]. lia.
    + intros x Hx Hall. by constructor.
  - destruct (d =? k) eqn:Hd2; breflect.
    + subst k. unfold add_u32. rewrite (proj2 (Z.ltb_lt _ _)) by lia. cbn [mbind res_bind].
      exists ((d, n + 1) :: t). split; [done|]. split; [split|split].
      * by constructor.
      * constructor; [cbn; lia|done].
      * intros k'. cbn [look]. destruct (k' =? d); lia.
      * done.
    + destruct (IH Hs Hnt) as (t' & -> & [Hs' Hn'] & Hl & Hx). cbn [mbind res_bind].
      exists ((k, n) :: t'). split; [done|]. split; [split|split].
      * constructor; [done|]. apply Hx; [cbn; lia|done].
      * constructor; [cbn; lia|done].
      * intros k'. cbn [look]. destruct (k' =? k) eqn:Hk'; breflect; [|apply Hl]. subst.
        rewrite (proj2 (Z.eqb_neq k d)) by lia. lia.
      * intros x Hlt [Hxk Hxt]%Forall_cons_iff. constructor; [done|]. by apply Hx.
Qed.

Definition uses (d : Z) (vs : list (nat * Z)) : Z := Z.of_nat (hits d vs).

Lemma uses_snoc d vs v : uses d (vs ++ [v]) = uses d vs + if d =? v.2 then 1 else 0.
Proof.
  unfold uses, hits. rewrite filter_app, length_app, filter_cons, filter_nil.
  destruct (d =? v.2) eqn:Hd; breflect.
  - rewrite decide_True by done. cbn. lia.
  - rewrite decide_False by done. cbn. lia.
Qed.

Lemma counts_of_vectors {E} (vs : list (nat * Z)) : Z.of_nat (length vs) < 2 ^ 32 - 1 ->
  exists m, foldM (E := E) (fun counts v => count_entry v.2 counts) [] vs = Ok m
    /\ counts_ok (Z.of_nat (length vs)) m /\ forall k, look k m = uses k vs.
Proof.
  intros Hlen. apply (foldM_inv _ (fun pre m => counts_ok (Z.of_nat (length pre)) m
                                     /\ forall k, look k m = uses k pre)).
  - split; [split; constructor|done].
  - intros pre v rest m -> [Hok Hl]. rewrite length_app in Hlen. cbn [length] in Hlen.
    destruct (count_entry_ok (E := E) v.2 m _ Hok) as (m' & Hm' & Hok' & Hl' & _); [lia|].
    exists m'. split; [done|]. rewrite length_app. cbn [length].
    split; [by rewrite Nat2Z.inj_add|]. intros k. by rewrite Hl', Hl, uses_snoc.
Qed.

Lemma foldl_max_spec a l : (foldl Z.max a l = a \/ foldl Z.max a l ∈ l)
  /\ a <= foldl Z.max a l /\ Forall (fun x => x <= foldl Z.max a l) l.
Proof.
  revert a. induction l as [|b t IH]; intros a; cbn [foldl]; [split; [by left|]; split; [lia|constructor]|].
  destruct (IH (Z.max a b)) as (Hin & Ha & Ht). split; [|split; [lia|constructor; [lia|done]]].
  destruct Hin as [Heq|Hin]; [|by right; right]. rewrite Heq.
  destruct (Z.max_spec a b) as [[_ ->]|[_ ->]]; [by right; left|by left].
Qed.

Lemma filter_keys_NoDup (P : Z * Z -> Prop) {_ : forall e, Decision (P e)} m :
  keys_sorted m -> NoDup (filter P m).*1.
Proof.
  unfold keys_sorted. induction m as [|[k n] t IH]; [constructor|].
  rewrite fmap_cons. intros [Ht Hk]%StronglySorted_inv. rewrite filter_cons. destruct (decide (P (k, n))); [|by apply IH].
  constructor; [|by apply IH]. intros ([k' n'] & Heq & Hin)%list_elem_of_fmap. cbn in Heq. subst k'.
  apply list_elem_of_filter in Hin as [_ Hin]. rewrite Forall_forall in Hk.
  specialize (Hk k (list_elem_of_fmap_2 fst _ _ Hin)). cbn in Hk. lia.
Qed.

(** the entries with the largest count *)
Lemma top_entries c cs bound (m := c :: cs) (top := foldl Z.max c.2 (map snd cs)) : counts_ok bound m ->
  1 <= top /\ (forall k, look k m <= top)
  /\ (forall k n, (k, n) ∈ filter (fun e => e.2 = top) m <-> look k m = top /\ n = top)
  /\ filter (fun e => e.2 = top) m <> [] /\ NoDup (filter (fun e => e.2 = top) m).*1.
Proof.
  intros [Hs Hn]. destruct (foldl_max_spec c.2 (map snd cs)) as (Hin & Hc & Hcs). fold top in Hin, Hc, Hcs.
  assert (Forall (fun e => e.2 <= top) m) as Hle by (constructor; [done|exact (proj1 (List.Forall_map _ _ _) Hcs)]).
  assert (exists k, (k, top) ∈ m) as [k0 Hk0].
  { destruct c as [k n]. destruct Hin as [Heq|Hin].
    - exists k. cbn in Heq. rewrite Heq. left.
    - apply list_elem_of_fmap in Hin as ([k' n'] & Heq & Hin). exists k'. cbn in Heq. rewrite Heq. by right. }
  assert (1 <= top) as Htop by (rewrite Forall_forall in Hn; specialize (Hn _ Hk0); cbn in Hn; lia).
  assert (forall k n, (k, n) ∈ filter (fun e => e.2 = top) m <-> look k m = top /\ n = top) as Hf.
  { intros k n. rewrite list_elem_of_filter. cbn [snd]. split.
    - intros [-> Hkn]. by rewrite (look_elem _ _ _ Hs Hkn).
    - intros [Hk ->]. split; [done|]. rewrite <- Hk at 1. apply elem_look. lia. }
  split; [done|]. split; [|split; [done|split]].
  - intros k. destruct (decide (look k m = 0)); [lia|].
    rewrite Forall_forall in Hle. by specialize (Hle _ (elem_look k m ltac:(done))).
  - intros Hnil. apply not_elem_of_nil with (x := (k0, top)). rewrite <- Hnil. apply Hf.
    by rewrite (look_elem _ _ _ Hs Hk0).
  - by apply filter_keys_NoDup.
Qed.

Lemma length_vtable fuel l addr : (length (vtable fuel l addr) <= length l)%nat.
Proof.
  revert l addr. induction fuel as [|f IH]; intros l addr; [cbn; lia|].
  destruct l as [|b0 [|b1 [|b2 [|b3 rest]]]]; cbn; try lia. destruct (_ && _); cbn; [|lia].
  specialize (IH rest (addr + 4)%nat). lia.
Qed.

(** the code with its table rewritten *)
Definition patched (rewrite offset : Z) (data : list Z) : list Z :=
  take 4 data ++ rtable (length data) rewrite offset (drop 4 data) 4.

Lemma rewrite_vectors_result {E} data rewrite offset (vs := vtable (length data) (drop 4 data) 4) :
  bytes data -> Z.of_nat (length data) <= 65536 -> 0 <= offset < 65536 ->
  rewrite_vectors (E := E) data rewrite offset = Ok (patched rewrite offset data, hits rewrite vs)
  /\ bytes (patched rewrite offset data) /\ length (patched rewrite offset data) = length data
  /\ vtable (length data) (drop 4 (patched rewrite offset data)) 4 = map (redirected rewrite offset) vs.
Proof.
  intros Hb Hl Ho. unfold patched.
  assert (length (take 4 data) = 4%nat \/ drop 4 data = []) as H4.
  { rewrite length_take. destruct (decide (length data <= 4)%nat); [|lia].
    right. by apply drop_ge. }
  split; [|split; [|split]].
  - unfold rewrite_vectors. rewrite vector_destinations_ok by done. cbn [mbind res_bind]. fold vs.
    unfold vs. destruct H4 as [H4|H4].
    + pose proof (rewrite_table (E := E) (length data) (take 4 data) (drop 4 data) rewrite offset 0 Ho) as H.
      rewrite take_drop, H4 in H. by apply H.
    + rewrite H4. destruct (length data); cbn; by rewrite <- H4, take_drop.
  - apply bytes_app. split; [by apply bytes_take|]. apply bytes_rtable; [by apply bytes_drop|done|].
    rewrite length_drop. lia.
  - rewrite length_app, length_rtable, <- length_app. by rewrite take_drop.
  - unfold vs. rewrite <- vtable_rtable. f_equal. destruct H4 as [H4|H4]; [by rewrite drop_app_length'|].
    rewrite H4. destruct (length data); rewrite app_nil_r; apply drop_ge; rewrite length_take; lia.
Qed.

(** ** Lemmas: the command *)

Definition replace_options (from to : str) (offset address : Z) : list (str * list str) :=
  [($"i", [from]); ($"o", [to]); ($"p", [show_int offset]); ($"a", [show_int address])].

Lemma replace_parsed d from to offset address :
  is_option from = false -> is_option to = false -> is_Some (d !! from) ->
  0 <= offset < 65536 -> in_u 32 address ->
  replace_interrupts d (replace_options from to offset address ≫= option_args)
  = replace_in_file d from to offset (Some address).
Proof.
  intros Hfrom Hto [lines Hd] Ho Ha.
  set (pa := list_to_map (replace_options from to offset address) : CliArgs).
  assert (parse_cli_opts (replace_options from to offset address ≫= option_args) = Ok pa) as Hpa.
  { unfold parse_cli_opts.
    destruct (parse_options ∅ None (replace_options from to offset address)) as [cur ->].
    - repeat (apply Forall_cons_2;
        [split; [done|split; [reflexivity|apply Forall_singleton; done || apply is_option_number]]|]).
      apply Forall_nil_2.
    - apply (bool_decide_eq_true_1 _). vm_compute. reflexivity.
    - intros. apply lookup_empty.
    - cbn [mbind res_bind]. by rewrite map_union_empty. }
  unfold replace_interrupts. rewrite Hpa.
  assert (first_unknown_param pa REPLACE_ENTRIES = None) as -> by reflexivity.
  assert (get_simple IN pa = Some from) as -> by reflexivity.
  assert (get_simple OUT pa = Some to) as -> by reflexivity.
  unfold parse. assert (get_simple OFF pa = Some (show_int offset)) as -> by reflexivity.
  assert (get_simple ADDR pa = Some (show_int address)) as -> by reflexivity.
  unfold parse_i64, parse_u32. rewrite !parse_show_int by (unfold in_u in Ha; lia).
  cbn [or_fail]. rewrite Hd, bool_decide_false by done. cbn [orb].
  by rewrite (proj2 (Z.leb_le _ _)), (proj2 (Z.ltb_lt _ _)) by lia.
Qed.

(** ** Properties *)

(** Redirected vectors.  In code of at most 64 KiB, [rewrite_vectors] never
    panics; afterwards the table has the same vectors, those that jumped to
    [rewrite] jump to the vector of the same place in the table at [offset] and
    the other ones to where they jumped before; the number returned is the
    number of the redirected vectors, and no other byte of the code changes. *)
Theorem rewrite_vectors_spec data rewrite offset :
  bytes data -> Z.of_nat (length data) <= 65536 -> 0 <= offset < 65536 ->
  exists vs data', vector_destinations (E := never) data = Ok vs
    /\ rewrite_vectors (E := never) data rewrite offset = Ok (data', hits rewrite vs)
    /\ vector_destinations (E := never) data' = Ok (map (redirected rewrite offset) vs)
    /\ bytes data' /\ length data' = length data
    /\ forall i, (forall a, (a, rewrite) ∈ vs -> i <> (a + 2)%nat /\ i <> (a + 3)%nat) ->
       data' !! i = data !! i.
Proof.
  intros Hb Hl Ho. set (vs := vtable (length data) (drop 4 data) 4).
  destruct (rewrite_vectors_result (E := never) data rewrite offset Hb Hl Ho) as (Hr & Hb' & Hlen & Ht).
  set (data' := patched rewrite offset data) in *.
  exists vs, data'. rewrite !vector_destinations_ok by done. repeat split; try done.
  - rewrite Hlen. by f_equal.
  - intros i Hi. unfold rewrite_vectors in Hr. rewrite vector_destinations_ok in Hr by done.
    by eapply rewrite_steps_frame.
Qed.

Lemma rewrite_vectors_spec_witness :
  let data := [0x0c; 0x94; 0x34; 0; 0x0c; 0x94; 0x3e; 0; 0x0c; 0x94; 0; 1; 0x0c; 0x94; 0x3e; 0; 0x11; 0x24] in
  exists vs data', vector_destinations (E := never) data = Ok vs
    /\ rewrite_vectors (E := never) data 0x7c 0x2020 = Ok (data', hits 0x7c vs)
    /\ vector_destinations (E := never) data' = Ok (map (redirected 0x7c 0x2020) vs)
    /\ bytes data' /\ length data' = length data
    /\ forall i, (forall a, (a, 0x7c) ∈ vs -> i <> (a + 2)%nat /\ i <> (a + 3)%nat) ->
       data' !! i = data !! i.
Proof.
  apply rewrite_vectors_spec; [repeat constructor; lia|by vm_compute|lia].
Defined.

(** The default handler.  [find_most_used_destination] never panics on code
    of less than 4 GiB; it answers the destination that more vectors jump to
    than to any other one, the error 3 exactly when there is no vector, and the
    error 4 when two destinations share the largest number of vectors. *)
Theorem find_most_used_spec data : bytes data -> Z.of_nat (length data) < 2 ^ 32 - 1 ->
  exists vs, vector_destinations (E := Z * str) data = Ok vs /\
  match find_most_used_destination data with
  | Ok d => 0 < uses d vs /\ forall d', d' <> d -> uses d' vs < uses d vs
  | Err (code, _) =>
      (code = 3 /\ vs = [])
      \/ (code = 4 /\ exists d1 d2, d1 <> d2 /\ uses d1 vs = uses d2 vs /\ 0 < uses d1 vs
          /\ forall d, uses d vs <= uses d1 vs)
  | Panic => False
  end.
Proof.
  intros Hb Hl. set (vs := vtable (length data) (drop 4 data) 4). exists vs.
  unfold find_most_used_destination. rewrite !vector_destinations_ok by done. fold vs. split; [done|].
  cbn [mbind res_bind].
  destruct (counts_of_vectors (E := Z * list Z) vs) as (m & -> & Hok & Hlook).
  { pose proof (length_vtable (length data) (drop 4 data) 4). rewrite length_drop in *. fold vs in H. lia. }
  cbn [mbind res_bind]. destruct m as [|c cs].
  { left. split; [done|]. destruct vs as [|v t]; [done|]. specialize (Hlook v.2). exfalso.
    unfold uses, hits in Hlook. rewrite filter_cons, decide_True in Hlook by done. done. }
  destruct (top_entries c cs _ Hok) as (Htop & Hle & Hf & Hne & Hnd).
  set (top := foldl Z.max c.2 (map snd cs)) in *. set (m := c :: cs) in *.
  destruct (filter (fun e => e.2 = top) m) as [|[d n] [|[d2 n2] t]] eqn:Hfilter; [done| |].
  - assert (look d m = top) as Hd by (apply (Hf d n); left).
    split; [rewrite <- Hlook; lia|]. intros d' Hd'. rewrite <- !Hlook, Hd.
    enough (look d' m <> top) by (specialize (Hle d'); lia). intros Heq.
    assert ((d', top) ∈ [(d, n)]) as Hin by (by apply Hf).
    apply list_elem_of_singleton in Hin. congruence.
  - right. split; [done|]. assert (look d m = top) as Hd by (apply (Hf d n); left).
    assert (look d2 m = top) as Hd2 by (apply (Hf d2 n2); right; left).
    exists d, d2. rewrite <- !Hlook. cbn in Hnd. apply NoDup_cons in Hnd as [Hni _].
    split; [intros ->; apply Hni; left|]. split; [congruence|]. split; [lia|].
    intros d'. rewrite <- Hlook, Hd. apply Hle.
Qed.

Lemma find_most_used_spec_witness :
  exists vs, vector_destinations (E := Z * str)
      [0x0c; 0x94; 0x34; 0; 0x0c; 0x94; 0x3e; 0; 0x0c; 0x94; 0; 1; 0x0c; 0x94; 0x3e; 0] = Ok vs
    /\ (0 < uses 0x7c vs /\ forall d', d' <> 0x7c -> uses d' vs < uses 0x7c vs).
Proof.
  apply (find_most_used_spec [0x0c; 0x94; 0x34; 0; 0x0c; 0x94; 0x3e; 0; 0x0c; 0x94; 0; 1; 0x0c; 0x94; 0x3e; 0]);
    [repeat constructor; lia|by vm_compute].
Defined.

(** Redirecting the interrupts of a file.  For a file that loads to code
    segments that start at the address 0, [replace_interrupts] with the input
    and output names, the offset and the address writes a file that loads, with
    all checksums right, to the same segments except that the vectors of the
    first one are redirected by [rewrite_vectors]; no other file changes. *)
Theorem replace_interrupts_spec d from to offset address lines f s0 rest :
  is_option from = false -> is_option to = false -> 0 <= offset < 65536 -> in_u 32 address ->
  d !! from = Some lines -> load_file lines = Ok f -> get_code f = Ok (s0 :: rest) ->
  start_address s0 = 0 -> segments_ok (- 1) (s0 :: rest) ->
  exists data n f',
    rewrite_vectors (E := never) (seg_data s0) address offset = Ok (data, n)
    /\ replace_interrupts d (replace_options from to offset address ≫= option_args)
       = Some (Done (<[to := write_to_file f']> d))
    /\ load_file (write_to_file f') = Ok f'
    /\ get_code f' = Ok (mkSegment 0 (end_address s0) data false :: rest).
Proof.
  intros Hfrom Hto Ho Ha Hd Hf Hc Hs0 Hok. rewrite replace_parsed by eauto.
  unfold replace_in_file, load. rewrite Hd, Hf. cbn [or_fail]. rewrite Hc. cbn [or_fail List.find].
  rewrite Hs0. cbn [Z.eqb]. rewrite as_u_small by (unfold in_u; lia).
  destruct Hok as (Hp & Hs & He & Hmax & Hne & Hb & Hbld & Hrest).
  destruct (rewrite_vectors_result (E := never) (seg_data s0) address offset) as (Hrw & Hbd & Hlen & _);
    [done|lia|done|].
  set (data := patched address offset (seg_data s0)) in *.
  exists data, (hits address (vtable (length (seg_data s0)) (drop 4 (seg_data s0)) 4)).
  unfold redirect. rewrite Hrw. cbn [update_first].
  rewrite Hs0. cbn [Z.eqb]. rewrite Hbld.
  destruct (from_segments_ok (mkSegment 0 (end_address s0) data false :: rest)) as (f' & Hf' & Hl & Hg).
  { cbn. rewrite Hlen. repeat split; try done; try lia. intros ->. by destruct (seg_data s0). }
  exists f'. rewrite Hf'. cbn [or_fail]. done.
Qed.

(** a file with one reset vector and one interrupt vector at 0 *)
Definition sample_lines : list str := [$":080000000C9434000C943E0046"; $":00000001FF"].

Lemma replace_interrupts_spec_witness :
  exists data n f', rewrite_vectors (E := never) [0x0c; 0x94; 0x34; 0; 0x0c; 0x94; 0x3e; 0] 0x7c 0x2020
      = Ok (data, n)
    /\ replace_interrupts {[ $"in.hex" := sample_lines ]}
         (replace_options $"in.hex" $"out.hex" 0x2020 0x7c ≫= option_args)
       = Some (Done (<[ $"out.hex" := write_to_file f' ]> {[ $"in.hex" := sample_lines ]}))
    /\ load_file (write_to_file f') = Ok f'
    /\ get_code f' = Ok [mkSegment 0 8 data false].
Proof.
  eapply (replace_interrupts_spec {[ $"in.hex" := sample_lines ]} $"in.hex" $"out.hex" 0x2020 0x7c sample_lines _
    (mkSegment 0 8 [0x0c; 0x94; 0x34; 0; 0x0c; 0x94; 0x3e; 0] false) []);
    [reflexivity|reflexivity|lia|done|reflexivity|vm_compute; reflexivity|vm_compute; reflexivity|done|].
  cbn. repeat split; try lia; try done. repeat constructor; lia.
Defined.
