(* ===== verification/Upload.v ===== *)
(** * Code upload

    Models [src/apps/upload.rs]: the retried steps, the restart of the device,
    pushing the code into its flash and reading it back.

    The uploader talks to the device through the operations of the class
    [FlashOps], which stand for the methods of [UartBusDevice] that it calls (a
    device, the bus and the losses on it are the state [D]); the class
    [FlashDevice] states what the bootloader promises: it has a next address and
    a memory, accepts code only at the next address, and may lose a request or
    an answer at any time.  Log lines are not modelled.  The loops run under a
    fuel, [None] when it is used up. *)

From stdpp Require Import base list numbers option strings.
From Stdlib Require Import ZArith Lia.
From S2P Require Import Prelude RustStd Tools RpcTools Device Ihex.

(** ** The device as the uploader sees it *)

Class FlashOps (D : Type) : Type := {
  op_ping : SM D RpcError unit;
  op_hardware_reset : SM D RpcError unit;
  op_wait_start : SM D RpcError (list Z);
  op_set_var : UbBootloaderVariable -> Z -> SM D RpcError unit;
  op_get_var : UbBootloaderVariable -> SM D RpcError Z;
  op_flash_get_stage : SM D RpcError Z;
  op_flash_start : SM D RpcError unit;
  op_flash_get_next_address : SM D RpcError Z;
  op_flash_push_code : Z -> list Z -> SM D RpcError Z;
  op_flash_commit : SM D RpcError unit;
  op_read_program_code : Z -> Z -> SM D RpcError (Z * list Z);
}.

Definition BLOCK_SIZE : nat := 32.

(** ** Retried steps *)

Fixpoint transaction_loop {S R : Type} (retry : nat) (last : RpcError) (step : SM S RpcError R)
    : SM S RpcError R := fun s =>
  match retry with
  | O => (Err last, s)
  | Datatypes.S n =>
    match step s with
    | (Err (Transaction msg), s) => transaction_loop n (Transaction msg) step s
    | other => other
    end
  end.

Definition transaction {S R : Type} (retry : nat) (step : SM S RpcError R) : SM S RpcError R :=
  transaction_loop retry (Transaction $"No attempt was made") step.

(** the code of the file; [inr] is the exit code of the process *)
Definition get_code_from_file (disk : list str) : res IntelHexError (CodeSegment + Z) :=
  file ← load_file disk;
  codes ← get_code file;
  segments ← concat_segments codes 100 0xff;
  match segments with
  | [] => Ok (inr 3)
  | [segment] => Ok (inl segment)
  | _ => Ok (inr 4)
  end.

Section Upload.
Context {D : Type} `{FO : FlashOps D}.
Variable retry_count : nat.

Definition reset_and_wait_start : SM D RpcError unit :=
  _ ← op_hardware_reset; _ ← op_wait_start; mret tt.

Definition restart_grab_device : SM D RpcError unit :=
  _ ← reset_and_wait_start;
  _ ← transaction retry_count (op_set_var IsSignalingSos 0);
  _ ← transaction retry_count (op_set_var IsApplicationRunning 0);
  app_run ← transaction retry_count (op_get_var IsApplicationRunning);
  if negb (app_run =? 0)
  then sm_lift (Err (Other ($"After doing grab reboot application is still running. appRun:"
                            ++ show_int app_run)))
  else mret tt.

Definition restart_device (flawed : bool) : SM D RpcError unit :=
  _ ← reset_and_wait_start;
  _ ← transaction retry_count (op_set_var IsSignalingSos 0);
  if negb flawed then transaction retry_count (op_set_var IsApplicationRunning 1) else mret tt.

(** ** Pushing the code *)

(** the closure of the loop changes [addr]: its state is [addr] and the device *)
Definition on_device {A : Type} (m : SM D RpcError A) : SM (Z * D) RpcError A := fun '(addr, s) =>
  let '(r, s) := m s in (r, (addr, s)).
Definition get_addr : SM (Z * D) RpcError Z := fun '(addr, s) => (Ok addr, (addr, s)).
Definition set_addr (addr : Z) : SM (Z * D) RpcError unit := fun '(_, s) => (Ok tt, (addr, s)).

Definition piece_at (code : CodeSegment) (addr : Z) : res RpcError (list Z) :=
  match get_code_piece code (Z.to_nat (addr - start_address code)) BLOCK_SIZE with
  | Ok piece => Ok piece
  | _ => Panic
  end.

Definition null_address : RpcError := Other $"NULL nextAddress received during the code upload. Maybe the target device has been resetted during the code upload process.This might be caused by a broken host system (uart bootloader) or insufficient device power supply.".

(** [match dev.flash_push_code(addr, &piece)] *)
Definition push_piece (addr : Z) (piece : list Z) : SM (Z * D) RpcError unit := fun st =>
  match on_device (op_flash_push_code addr piece) st with
  | (Ok next, st) => set_addr next st
  | (Err (Posix errno), st) => if errno =? ENXIO then set_addr 0 st else (Err (Posix errno), st)
  | (Err err, st) => (Err err, st)
  | (Panic, st) => (Panic, st)
  end.

Definition push_step (code : CodeSegment) : SM (Z * D) RpcError bool :=
  let code_start := start_address code in
  let code_end := code_start + Z.of_nat (length (seg_data code)) in
  addr ← get_addr;
  _ ← (if addr =? 0 then a ← on_device op_flash_get_next_address; set_addr a else mret tt);
  addr ← get_addr;
  if code_end <=? addr then mret true
  else if addr =? 0 then sm_lift (Err null_address)
  else if addr <? code_start then mret false
  else
    piece ← sm_lift (piece_at code addr);
    _ ← push_piece addr piece;
    mret false.

Fixpoint push_loop (fuel : nat) (code : CodeSegment) (st : Z * D)
    : option (res RpcError unit * (Z * D)) :=
  match fuel with
  | O => None
  | S fuel =>
    match transaction retry_count (push_step code) st with
    | (Ok true, st) => Some (Ok tt, st)
    | (Ok false, st) => push_loop fuel code st
    | (Err e, st) => Some (Err e, st)
    | (Panic, st) => Some (Panic, st)
    end
  end.

(** everything before the loop: the start address of the application region *)
Definition push_begin (code : CodeSegment) : SM D RpcError Z :=
  let code_start := start_address code in
  stage ← op_flash_get_stage;
  _ ← (if negb (stage =? 0) then mret tt else transaction retry_count op_flash_start);
  start ← op_flash_get_next_address;
  if negb (start =? code_start)
  then sm_lift (Err (Other
         ($"Application section and code start address mismatch: APP_START region: " ++ show_nat start
          ++ $", upload code start address: " ++ show_nat code_start)))
  else mret start.

Definition push_code (fuel : nat) (code : CodeSegment) (s : D) : option (res RpcError Z * D) :=
  match push_begin code s with
  | (Ok start, s) =>
    match push_loop fuel code (0, s) with
    | Some (Ok _, (_, s)) => Some ((_ ← transaction retry_count op_flash_commit; mret start) s)
    | Some (Err e, (_, s)) => Some (Err e, s)
    | Some (Panic, (_, s)) => Some (Panic, s)
    | None => None
    end
  | (Err e, s) => Some (Err e, s)
  | (Panic, s) => Some (Panic, s)
  end.

(** ** Verification *)

Definition verify_step (code : CodeSegment) (addr : Z) : SM D RpcError unit := fun s =>
  match (if addr <? start_address code then Panic else piece_at code addr) with
  | Ok piece =>
    let retry := Err (Transaction ($"Different address returned, than the requested. Req: "
                                   ++ show_nat addr)) in
    match op_read_program_code (as_u 16 addr) (as_u 8 (Z.of_nat (length piece))) s with
    | (Ok (read_addr, read_code), s) =>
      if negb (read_addr =? addr) then (retry, s)
      else if bool_decide (piece = read_code) then (Ok tt, s)
      else (Err (Other $"Uploaded code verification failed."), s)
    | (Err _, s) => (retry, s)
    | (Panic, s) => (Panic, s)
    end
  | _ => (Panic, s)
  end.

Fixpoint verify_loop (fuel : nat) (code : CodeSegment) (addr : Z) (s : D)
    : option (res RpcError unit * D) :=
  match fuel with
  | O => None
  | S fuel =>
    let code_end := start_address code + Z.of_nat (length (seg_data code)) in
    if addr <? code_end then
      match transaction retry_count (verify_step code addr) s with
      | (Ok _, s) => verify_loop fuel code (addr + Z.of_nat BLOCK_SIZE) s
      | (Err e, s) => Some (Err e, s)
      | (Panic, s) => Some (Panic, s)
      end
    else Some (Ok tt, s)
  end.

Definition verify_code (fuel : nat) (code : CodeSegment) (start : Z) (s : D)
    : option (res RpcError unit * D) := verify_loop fuel code start s.

(** ** The upload command *)

Inductive upload_end : Type :=
| Done
| Failed (e : RpcError)
| Exit (code : Z).

(** [push_code(..).and_then(..)] *)
Definition push_and_verify (fuel : nat) (no_verify : bool) (code : CodeSegment) (s : D)
    : option (res RpcError unit * D) :=
  match push_code fuel code s with
  | Some (Ok start, s) => if no_verify then Some (Ok tt, s) else verify_code fuel code start s
  | Some (Err e, s) => Some (Err e, s)
  | Some (Panic, s) => Some (Panic, s)
  | None => None
  end.

(** [main] after the code and the bus are there; [None] in the result for a panic *)
Definition upload (fuel : nat) (no_verify : bool) (code : CodeSegment) (s : D)
    : option (option upload_end * D) :=
  match op_ping s with
  | (Ok _, s) =>
    match restart_grab_device s with
    | (Ok _, s) =>
      match push_and_verify fuel no_verify code s with
      | Some (Ok _, s) =>
        match restart_device false s with
        | (Ok _, s) => Some (Some Done, s)
        | (Err e, s) => Some (Some (Failed e), s)
        | (Panic, s) => Some (None, s)
        end
      | Some (Err _, s) =>
        match restart_device true s with
        | (Panic, s) => Some (None, s)
        | (_, s) => Some (Some (Exit 1), s)
        end
      | Some (Panic, s) => Some (None, s)
      | None => None
      end
    | (Err e, s) => Some (Some (Failed e), s)
    | (Panic, s) => Some (None, s)
    end
  | (Err _, s) => Some (Some (Exit 2), s)
  | (Panic, s) => Some (None, s)
  end.

End Upload.

(** ** What the device promises *)

(** the memory after the bytes [l] were written at [a] *)
Definition mem_write (m : Z -> Z) (a : Z) (l : list Z) : Z -> Z := fun x =>
  match l !! Z.to_nat (x - a) with
  | Some b => if a <=? x then b else m x
  | None => m x
  end.

Class FlashDevice (D : Type) {FO : FlashOps D} : Type := {
  dev_next : D -> Z;
  dev_mem : D -> Z -> Z;
  (** asking for the next address changes nothing *)
  law_next : forall s r s', op_flash_get_next_address s = (r, s') ->
    r <> Panic /\ dev_next s' = dev_next s /\ (forall x, dev_mem s' x = dev_mem s x)
    /\ (forall a, r = Ok a -> a = dev_next s);
  (** code is taken only at the next address; the answer may be lost *)
  law_push : forall a l s r s', op_flash_push_code a l s = (r, s') ->
    r <> Panic
    /\ ((is_ok r = false /\ dev_next s' = dev_next s /\ (forall x, dev_mem s' x = dev_mem s x))
        \/ (a = dev_next s /\ dev_next s' = a + Z.of_nat (length l)
            /\ (forall x, dev_mem s' x = mem_write (dev_mem s) a l x)
            /\ (forall n, r = Ok n -> n = dev_next s')));
  (** committing keeps the memory *)
  law_commit : forall s r s', op_flash_commit s = (r, s') ->
    r <> Panic /\ (forall x, dev_mem s' x = dev_mem s x);
  (** reading gives the bytes of the memory and keeps it *)
  law_read : forall a n s r s', op_read_program_code a n s = (r, s') ->
    r <> Panic /\ (forall x, dev_mem s' x = dev_mem s x)
    /\ (forall d, r = Ok (a, d) -> d = map (dev_mem s) (seqZ a n));
}.

(** the memory holds [l] from address [a] on *)
Definition mem_holds (m : Z -> Z) (a : Z) (l : list Z) : Prop :=
  forall i b, l !! i = Some b -> m (a + Z.of_nat i) = b.

Lemma mem_holds_ext m m' a l : (forall x, m' x = m x) -> mem_holds m a l -> mem_holds m' a l.
Proof. intros He Hm i b Hb. rewrite He. by apply Hm. Qed.

(** a prefix grows by what is written at its end *)
Lemma mem_holds_write m a l p : mem_holds m a l ->
  mem_holds (mem_write m (a + Z.of_nat (length l)) p) a (l ++ p).
Proof.
  intros Hm i b Hb. unfold mem_write. destruct (decide (i < length l)%nat) as [Hi|Hi].
  - rewrite lookup_app_l in Hb by done.
    rewrite (proj2 (Z.leb_gt _ _)) by lia. rewrite (Hm i b Hb).
    by destruct (p !! Z.to_nat (a + Z.of_nat i - (a + Z.of_nat (length l)))).
  - rewrite lookup_app_r in Hb by lia.
    replace (Z.to_nat (a + Z.of_nat i - (a + Z.of_nat (length l)))) with (i - length l)%nat by lia.
    rewrite Hb. by rewrite (proj2 (Z.leb_le _ _)) by lia.
Qed.

(** ** Lemmas: retried steps *)

(** an invariant of the step is one of the retried step, and so is what holds at its results *)
Lemma transaction_loop_inv {S R} (I : S -> Prop) (Q : res RpcError R -> S -> Prop)
    retry last (step : SM S RpcError R) s :
  (forall s, I s -> let '(r, s') := step s in I s' /\ Q r s') ->
  (forall e s, I s -> Q (Err e) s) -> I s ->
  let '(r, s') := transaction_loop retry last step s in I s' /\ Q r s'.
Proof.
  intros Hstep Herr. revert last s. induction retry as [|n IH]; intros last s Hs; cbn [transaction_loop].
  - by split; [|apply Herr].
  - specialize (Hstep s Hs). destruct (step s) as [[r|[msg|e|msg]|] s']; try done.
    apply IH. by destruct Hstep.
Qed.

Lemma transaction_ok {S R} retry (step : SM S RpcError R) s r s' : (0 < retry)%nat ->
  step s = (Ok r, s') -> transaction retry step s = (Ok r, s').
Proof.
  intros Hr Hs. unfold transaction. destruct retry; [lia|]. cbn [transaction_loop]. by rewrite Hs.
Qed.

Section PushLemmas.
Context {D : Type} {FO : FlashOps D} {FD : FlashDevice D}.
Variable retry_count : nat.
Variable code : CodeSegment.
Hypothesis code_low : 0 < start_address code.

Let code_start := start_address code.
Let code_end := code_start + Z.of_nat (length (seg_data code)).

(** The invariant of the upload: the device has the code up to its next
    address, and the uploader does not think it is further. *)
Definition uploaded (st : Z * D) : Prop :=
  exists done rest, seg_data code = done ++ rest
    /\ dev_next st.2 = code_start + Z.of_nat (length done)
    /\ mem_holds (dev_mem st.2) code_start done
    /\ st.1 <= dev_next st.2.

Lemma uploaded_same addr addr' s s' : uploaded (addr, s) ->
  dev_next s' = dev_next s -> (forall x, dev_mem s' x = dev_mem s x) -> addr' <= dev_next s ->
  uploaded (addr', s').
Proof.
  intros (dn & rest & Hc & Hn & Hm & Ha) Hn' Hm' Ha'. exists dn, rest. cbn in *.
  split; [done|]. split; [congruence|]. split; [by eapply mem_holds_ext|lia].
Qed.

Lemma piece_at_ok addr : code_start <= addr < code_end ->
  exists piece, piece_at code addr = Ok piece
    /\ piece = take BLOCK_SIZE (drop (Z.to_nat (addr - code_start)) (seg_data code))
    /\ (0 < length piece)%nat.
Proof.
  intros Ha. unfold piece_at, get_code_piece. fold code_start.
  set (o := Z.to_nat (addr - code_start)).
  assert (o < length (seg_data code))%nat by (unfold o, code_end in *; lia).
  rewrite slice_ok by lia. eexists. split; [reflexivity|].
  split; [|rewrite length_take, length_drop; unfold BLOCK_SIZE; lia].
  destruct (decide (o + BLOCK_SIZE <= length (seg_data code))%nat).
  - f_equal. lia.
  - rewrite !take_ge by (rewrite length_drop; lia). done.
Qed.

(** pushing keeps the invariant, whatever is lost *)
Lemma push_piece_inv addr piece s : uploaded (addr, s) -> code_start <= addr < code_end ->
  piece_at code addr = Ok piece ->
  let '(r, st) := push_piece addr piece (addr, s) in uploaded st /\ r <> Panic.
Proof.
  intros Hu Ha Hp. destruct (piece_at_ok addr Ha) as (p & Hp' & -> & _). rewrite Hp in Hp'.
  injection Hp' as ->. unfold push_piece, on_device.
  destruct (op_flash_push_code _ _ s) as [r s'] eqn:Hop.
  destruct (law_push _ _ _ _ _ Hop) as [Hnp Hcase].
  assert (uploaded (addr, s') /\ (forall n, r = Ok n -> n <= dev_next s')) as [Hu' Hn].
  { destruct Hcase as [(Hok & Hn & Hm)|(Heq & Hn & Hm & Hr)].
    - split; [|by intros n ->]. eapply uploaded_same; [done|done|done|]. by destruct Hu as (?&?&?&?&?&?).
    - split; [|intros n Hrn; rewrite (Hr n Hrn); lia].
      destruct Hu as (dn & rest & Hc & Hd & Hmem & _). cbn in Hd.
      assert (Z.to_nat (addr - code_start) = length dn) as Ho by lia.
      rewrite Ho, Hc, drop_app_length in Hn.
      assert (forall x, dev_mem s' x = mem_write (dev_mem s) addr (take BLOCK_SIZE rest) x) as Hm'
        by (intros x; by rewrite Hm, Ho, Hc, drop_app_length).
      exists (dn ++ take BLOCK_SIZE rest), (drop BLOCK_SIZE rest).
      cbn [fst snd]. rewrite <- app_assoc, take_drop. split; [done|]. split; [rewrite length_app; lia|].
      split; [|lia]. eapply mem_holds_ext; [exact Hm'|]. rewrite Heq, Hd. by apply mem_holds_write. }
  destruct r as [n|[msg|errno|msg]|]; cbn; [|done| |done|done].
  - split; [|done]. eapply uploaded_same; [exact Hu'|done|done|by apply Hn].
  - destruct (errno =? ENXIO); cbn; [|done]. split; [|done].
    eapply uploaded_same; [exact Hu'|done|done|].
    destruct Hu' as (dn & ? & _ & Hd & _). cbn in Hd. unfold code_start in *. lia.
Qed.

Lemma push_step_inv st : uploaded st ->
  let '(r, st') := push_step code st in
  uploaded st' /\ (r <> Panic /\ (r = Ok true -> code_end <= st'.1)).
Proof.
  intros Hu. destruct st as [addr s]. unfold push_step, get_addr, mbind, SM_bind.
  fold code_start. fold code_end.
  assert (exists r addr' s', (if addr =? 0 then on_device op_flash_get_next_address ≫= set_addr else mret tt)
     (addr, s) = (r, (addr', s')) /\ uploaded (addr', s') /\ r <> Panic) as (r & addr' & s' & Hask & Hu' & Hnp).
  { destruct (addr =? 0) eqn:Ha; [|by exists (Ok tt), addr, s].
    unfold mbind, SM_bind, on_device. destruct (op_flash_get_next_address s) as [r s'] eqn:Hop.
    destruct (law_next _ _ _ Hop) as (Hp & Hn & Hm & Hr).
    destruct r as [a|e|]; cbn; [|exists (Err e), addr, s'|done].
    - exists (Ok tt), a, s'. split; [done|]. split; [|done].
      eapply uploaded_same; [done|done|done|]. rewrite (Hr a eq_refl). lia.
    - split; [done|]. split; [|done]. eapply uploaded_same; [done|done|done|].
      by destruct Hu as (?&?&?&?&?&?). }
  unfold mbind, SM_bind in Hask. rewrite Hask. destruct r as [[]|e|]; [|done|done].
  destruct (code_end <=? addr') eqn:Hend; [breflect; cbn; split; [done|split; [done|lia]]|].
  destruct (addr' =? 0) eqn:Hz; [cbn; by split|].
  destruct (addr' <? code_start) eqn:Hlow; [cbn; by split|]. breflect.
  destruct (piece_at_ok addr' ltac:(lia)) as (piece & Hp & _). rewrite Hp. cbn [sm_lift].
  pose proof (push_piece_inv addr' piece s' Hu' ltac:(lia) Hp) as Hpush.
  destruct (push_piece addr' piece (addr', s')) as [[[]|e|] st']; destruct Hpush; by split.
Qed.

Lemma push_loop_inv fuel st r st' : uploaded st -> push_loop retry_count fuel code st = Some (r, st') ->
  uploaded st' /\ r <> Panic /\ (r = Ok tt -> code_end <= st'.1).
Proof.
  revert st. induction fuel as [|fuel IH]; intros st Hu; cbn [push_loop]; [done|].
  pose proof (transaction_loop_inv uploaded
    (fun r st' => r <> Panic /\ (r = Ok true -> code_end <= st'.1)) retry_count
    (Transaction $"No attempt was made") (push_step code) st push_step_inv ltac:(done) Hu) as H.
  unfold transaction. destruct (transaction_loop _ _ _ st) as [[[]|e|] st1]; destruct H as (H1 & H2 & H3).
  - intros [= <- <-]. split; [done|]. split; [done|]. intros _. by apply H3.
  - intros Hl. by eapply IH.
  - by intros [= <- <-].
  - done.
Qed.
End PushLemmas.

(** ** Lemmas: verification *)

Section VerifyLemmas.
Context {D : Type} {FO : FlashOps D} {FD : FlashDevice D}.
Variable retry_count : nat.
Variable code : CodeSegment.
Hypothesis code_low : 0 <= start_address code.
Hypothesis code_high : start_address code + Z.of_nat (length (seg_data code)) <= 65536.

Let code_start := start_address code.
Let code_end := code_start + Z.of_nat (length (seg_data code)).

(** the bytes of the piece that is verified at [addr] are in the memory *)
Definition piece_verified (addr : Z) (m : Z -> Z) : Prop :=
  mem_holds m addr (take BLOCK_SIZE (drop (Z.to_nat (addr - code_start)) (seg_data code))).

Lemma mem_holds_read m a n d : d = map m (seqZ a n) -> mem_holds m a d.
Proof.
  intros -> i b Hb. rewrite list_lookup_fmap in Hb. destruct (seqZ a n !! i) as [x|] eqn:Hx; [|done].
  apply lookup_seqZ in Hx as [-> _]. cbn in Hb. by injection Hb.
Qed.

Lemma verify_step_inv addr m s : code_start <= addr < code_end -> (forall x, dev_mem s x = m x) ->
  let '(r, s') := verify_step code addr s in
  (forall x, dev_mem s' x = m x) /\ (r <> Panic /\ (r = Ok tt -> piece_verified addr m)).
Proof.
  intros Ha Hm. unfold verify_step. fold code_start.
  rewrite (proj2 (Z.ltb_ge _ _)) by lia.
  destruct (piece_at_ok code addr Ha) as (piece & -> & Hpiece & _). fold code_start in Hpiece.
  rewrite as_u_small by (unfold in_u; change (2 ^ 16) with 65536; unfold code_end, code_start in *; lia).
  set (n := as_u 8 _).
  destruct (op_read_program_code addr n s) as [r s'] eqn:Hop.
  destruct (law_read _ _ _ _ _ Hop) as (Hnp & Hm' & Hr).
  assert (forall x, dev_mem s' x = m x) as Hmm by (intros x; by rewrite Hm').
  destruct r as [[a d]|e|]; [|done|done].
  destruct (a =? addr) eqn:Haa; breflect; cbn [negb]; [|done]. subst a.
  case_bool_decide as Hpd; [|done]. split; [done|]. split; [done|]. intros _.
  unfold piece_verified. rewrite <- Hpiece, Hpd. eapply mem_holds_ext; [intros x; symmetry; apply Hm|].
  eapply mem_holds_read. by apply Hr.
Qed.

(** the rest of the code from [addr] on, block by block *)
Lemma verify_loop_sound fuel addr m s r s' : code_start <= addr -> (forall x, dev_mem s x = m x) ->
  verify_loop retry_count fuel code addr s = Some (r, s') ->
  r <> Panic /\ (forall x, dev_mem s' x = m x)
  /\ (r = Ok tt -> mem_holds m addr (drop (Z.to_nat (addr - code_start)) (seg_data code))).
Proof.
  revert addr s. induction fuel as [|fuel IH]; intros addr s Ha Hm; cbn [verify_loop]; [done|].
  fold code_start. fold code_end. destruct (addr <? code_end) eqn:Hlt; breflect.
  2: { intros [= <- <-]. split; [done|]. split; [done|]. intros _.
       rewrite drop_ge by (unfold code_end in *; lia). by intros i b Hb. }
  pose proof (transaction_loop_inv (fun s => forall x, dev_mem s x = m x)
    (fun r s' => r <> Panic /\ (r = Ok tt -> piece_verified addr m)) retry_count
    (Transaction $"No attempt was made") (verify_step code addr) s
    ltac:(intros; by apply verify_step_inv) ltac:(done) Hm) as H.
  unfold transaction. destruct (transaction_loop _ _ _ s) as [[[]|e|] s1]; destruct H as (H1 & H2 & H3).
  - intros Hl. destruct (IH (addr + Z.of_nat BLOCK_SIZE) s1 ltac:(lia) H1 Hl) as (Hnp & Hm' & Hrest). split; [done|].
    split; [done|]. intros Hok. specialize (H3 eq_refl). specialize (Hrest Hok).
    unfold piece_verified in H3.
    replace (Z.to_nat (addr + Z.of_nat BLOCK_SIZE - code_start))
      with (Z.to_nat (addr - code_start) + BLOCK_SIZE)%nat in Hrest by lia.
    rewrite <- drop_drop in Hrest.
    set (l := drop (Z.to_nat (addr - code_start)) (seg_data code)) in *.
    intros i b Hb. destruct (decide (i < BLOCK_SIZE)%nat).
    + apply H3. by rewrite lookup_take_lt.
    + rewrite <- (Hrest (i - BLOCK_SIZE)%nat b).
      * f_equal. lia.
      * rewrite lookup_drop. rewrite <- Hb. f_equal. lia.
  - by intros [= <- <-].
  - done.
Qed.

Lemma verify_loop_total fuel addr s : code_start <= addr ->
  (Z.to_nat (code_end - addr) < fuel)%nat ->
  exists r s', verify_loop retry_count fuel code addr s = Some (r, s').
Proof.
  revert addr s. induction fuel as [|fuel IH]; intros addr s Ha Hf; [lia|]. cbn [verify_loop].
  fold code_start. fold code_end. destruct (addr <? code_end) eqn:Hlt; breflect; [|by do 2 eexists].
  destruct (transaction _ _ s) as [[[]|e|] s1]; [|by do 2 eexists..].
  apply IH; unfold BLOCK_SIZE; lia.
Qed.
End VerifyLemmas.

(** ** A device that answers *)

(** in the states [good] nothing is lost any more *)
Class ReliableFlash (D : Type) {FO : FlashOps D} {FD : FlashDevice D} : Type := {
  good : D -> Prop;
  rel_stage : forall s, good s -> exists v s', op_flash_get_stage s = (Ok v, s') /\ good s'
    /\ dev_next s' = dev_next s;
  rel_start : forall s, good s -> exists s', op_flash_start s = (Ok tt, s') /\ good s'
    /\ dev_next s' = dev_next s;
  rel_next : forall s, good s -> exists s', op_flash_get_next_address s = (Ok (dev_next s), s') /\ good s';
  rel_push : forall l s, good s -> exists n s', op_flash_push_code (dev_next s) l s = (Ok n, s') /\ good s';
  rel_commit : forall s, good s -> exists s', op_flash_commit s = (Ok tt, s') /\ good s';
  rel_read : forall a n s, good s ->
    exists s', op_read_program_code a n s = (Ok (a, map (dev_mem s) (seqZ a n)), s') /\ good s';
}.

Section Completion.
Context {D : Type} {FO : FlashOps D} {FD : FlashDevice D} {RF : ReliableFlash D}.
Variable retry_count : nat.
Hypothesis retries : (0 < retry_count)%nat.
Variable code : CodeSegment.
Hypothesis code_low : 0 < start_address code.
Hypothesis code_high : start_address code + Z.of_nat (length (seg_data code)) <= 65536.

(** with an address that is known to be right, a step is done or pushes a piece *)
Lemma push_step_known s : good s -> 
  start_address code <= dev_next s <= start_address code + Z.of_nat (length (seg_data code)) ->
  let push := (if start_address code + Z.of_nat (length (seg_data code)) <=? dev_next s then mret true
    else if dev_next s =? 0 then sm_lift (Err null_address)
    else if dev_next s <? start_address code then mret false
    else piece ← sm_lift (piece_at code (dev_next s)); _ ← push_piece (dev_next s) piece; mret false)
    : SM (Z * D) RpcError bool in
  exists b s', push (dev_next s, s) = (Ok b, (dev_next s', s')) /\ good s'
    /\ (b = true \/ dev_next s < dev_next s').
Proof.
  intros Hg Hr push. unfold push. destruct (_ <=? dev_next s) eqn:He; breflect.
  { exists true, s. by split; [|split; [|left]]. }
  rewrite (proj2 (Z.eqb_neq _ _)), (proj2 (Z.ltb_ge _ _)) by lia.
  destruct (piece_at_ok code (dev_next s)) as (piece & -> & _ & Hlen); [cbv zeta; lia|].
  destruct (rel_push piece s Hg) as (n & s' & Hop & Hg').
  destruct (law_push _ _ _ _ _ Hop) as (_ & [[? _]|(_ & Hn & _ & Hr')]); [done|].
  exists false, s'. unfold mbind, SM_bind, sm_lift, push_piece, on_device. rewrite Hop. cbn.
  rewrite (Hr' n eq_refl). split; [done|]. split; [done|]. right. lia.
Qed.

Lemma push_step_good addr s : good s -> addr = 0 \/ addr = dev_next s ->
  start_address code <= dev_next s <= start_address code + Z.of_nat (length (seg_data code)) ->
  exists b s', push_step code (addr, s) = (Ok b, (dev_next s', s')) /\ good s'
    /\ (b = true \/ dev_next s < dev_next s').
Proof.
  intros Hg Ha Hr. unfold push_step, get_addr, mbind, SM_bind.
  assert (exists s1, ((if addr =? 0 then on_device op_flash_get_next_address ≫= set_addr else mret tt)
      : SM (Z * D) RpcError unit) (addr, s) = (Ok tt, (dev_next s1, s1)) /\ good s1
      /\ dev_next s1 = dev_next s) as (s1 & Hask & Hg1 & Hn1).
  { destruct (addr =? 0) eqn:Hz; breflect.
    - destruct (rel_next s Hg) as (s1 & Hop & Hg1). exists s1.
      destruct (law_next _ _ _ Hop) as (_ & Hn & _).
      unfold mbind, SM_bind, on_device. rewrite Hop. cbn. by rewrite Hn.
    - destruct Ha as [?|Ha]; [done|]. exists s. by rewrite Ha. }
  unfold mbind, SM_bind in Hask. rewrite Hask.
  destruct (push_step_known s1 Hg1 ltac:(lia)) as (b & s' & Hp & Hg' & Hb).
  cbv zeta in Hp. unfold mbind, SM_bind in Hp.
  exists b, s'. rewrite Hn1 in Hb. split; [exact Hp|done].
Qed.

Lemma push_loop_completes fuel addr s : good s -> addr = 0 \/ addr = dev_next s ->
  uploaded code (addr, s) ->
  (Z.to_nat (start_address code + Z.of_nat (length (seg_data code)) - dev_next s) < fuel)%nat ->
  exists st', push_loop retry_count fuel code (addr, s) = Some (Ok tt, st') /\ good st'.2.
Proof.
  revert addr s. induction fuel as [|fuel IH]; intros addr s Hg Ha Hu Hf; [lia|].
  assert (forall st, uploaded code st ->
    start_address code <= dev_next st.2 <= start_address code + Z.of_nat (length (seg_data code))) as Hrange.
  { intros st (dn & rest & Hc & Hd & _). cbv zeta in Hd. rewrite Hc, length_app. lia. }
  destruct (push_step_good addr s Hg Ha (Hrange _ Hu)) as (b & s' & Hs & Hg' & Hb).
  pose proof (push_step_inv code code_low (addr, s) Hu) as Hi. rewrite Hs in Hi. destruct Hi as [Hu' _].
  cbn [push_loop]. rewrite (transaction_ok _ _ _ _ _ retries Hs). destruct b.
  - by eexists.
  - destruct Hb as [?|Hb]; [done|]. apply IH; [done|by right|done|].
    pose proof (Hrange _ Hu'). cbn in *. lia.
Qed.

Lemma verify_loop_completes fuel addr s : good s -> start_address code <= addr ->
  mem_holds (dev_mem s) (start_address code) (seg_data code) ->
  (Z.to_nat (start_address code + Z.of_nat (length (seg_data code)) - addr) < fuel)%nat ->
  exists s', verify_loop retry_count fuel code addr s = Some (Ok tt, s') /\ good s'.
Proof.
  revert addr s. induction fuel as [|fuel IH]; intros addr s Hg Ha Hm Hf; [lia|]. cbn [verify_loop].
  destruct (addr <? _) eqn:Hlt; breflect; [|by eexists].
  destruct (piece_at_ok code addr) as (piece & Hp & Hpiece & Hpos); [cbv zeta; lia|].
  assert (length piece <= BLOCK_SIZE)%nat as Hmax by (rewrite Hpiece, length_take; lia).
  destruct (rel_read addr (Z.of_nat (length piece)) s Hg) as (s' & Hop & Hg').
  destruct (law_read _ _ _ _ _ Hop) as (_ & Hm' & _).
  assert (piece = map (dev_mem s) (seqZ addr (Z.of_nat (length piece)))) as Heq.
  { apply list_eq. intros i. rewrite list_lookup_fmap. destruct (piece !! i) as [x|] eqn:Hx.
    - pose proof (lookup_lt_Some _ _ _ Hx). rewrite lookup_seqZ_lt by lia. cbn. f_equal.
      rewrite Hpiece in Hx. apply lookup_take_Some in Hx as [Hx _]. rewrite lookup_drop in Hx.
      rewrite <- (Hm _ _ Hx). f_equal. lia.
    - rewrite lookup_seqZ_ge; [done|]. apply lookup_ge_None in Hx. lia. }
  assert (verify_step code addr s = (Ok tt, s')) as Hstep.
  { unfold verify_step. rewrite (proj2 (Z.ltb_ge _ _)) by lia. rewrite Hp.
    rewrite !as_u_small by (unfold in_u, BLOCK_SIZE in *; change (2 ^ 16) with 65536;
      change (2 ^ 8) with 256; lia).
    rewrite Hop, Z.eqb_refl. cbn [negb]. by rewrite bool_decide_true. }
  rewrite (transaction_ok _ _ _ _ _ retries Hstep).
  apply IH; [done|lia|by eapply mem_holds_ext|unfold BLOCK_SIZE; lia].
Qed.
End Completion.

(** ** A simulated device with a lossy bus *)

Inductive fate : Type := Fine | LostRequest | LostAnswer.

Record sim : Type := mkSim { sim_next : Z; sim_mem : Z -> Z; sim_fates : list fate }.

(** runs [effect] unless the request is lost; the fates are used up one by one *)
Definition sim_op {A : Type} (effect : sim -> res RpcError A * sim) : SM sim RpcError A := fun s =>
  let lost := Err (Transaction $"timeout") in
  match sim_fates s with
  | [] => effect s
  | Fine :: t => effect (mkSim (sim_next s) (sim_mem s) t)
  | LostRequest :: t => (lost, mkSim (sim_next s) (sim_mem s) t)
  | LostAnswer :: t => (lost, snd (effect (mkSim (sim_next s) (sim_mem s) t)))
  end.

#[global] Instance sim_ops : FlashOps sim := {
  op_ping := sim_op (fun s => (Ok tt, s));
  op_hardware_reset := sim_op (fun s => (Ok tt, s));
  op_wait_start := sim_op (fun s => (Ok [0], s));
  op_set_var := fun _ _ => sim_op (fun s => (Ok tt, s));
  op_get_var := fun _ => sim_op (fun s => (Ok 0, s));
  op_flash_get_stage := sim_op (fun s => (Ok 0, s));
  op_flash_start := sim_op (fun s => (Ok tt, s));
  op_flash_get_next_address := sim_op (fun s => (Ok (sim_next s), s));
  op_flash_push_code := fun a l => sim_op (fun s =>
    if a =? sim_next s
    then (Ok (a + Z.of_nat (length l)),
          mkSim (a + Z.of_nat (length l)) (mem_write (sim_mem s) a l) (sim_fates s))
    else (Err (Posix ENXIO), s));
  op_flash_commit := sim_op (fun s => (Ok tt, s));
  op_read_program_code := fun a n => sim_op (fun s => (Ok (a, map (sim_mem s) (seqZ a n)), s));
}.

Definition sim_device : FlashDevice sim.
Proof.
  refine {| dev_next := sim_next; dev_mem := sim_mem |}; cbn; unfold sim_op.
  - intros s r s'. destruct (sim_fates s) as [|[] t]; intros [= <- <-]; naive_solver.
  - intros a l s r s'. destruct (sim_fates s) as [|[] t]; cbn;
      [destruct (a =? sim_next s) eqn:Ha; breflect; intros [= <- <-]; cbn; naive_solver
      |destruct (a =? sim_next s) eqn:Ha; breflect; intros [= <- <-]; cbn; naive_solver
      |intros [= <- <-]; naive_solver
      |destruct (a =? sim_next s) eqn:Ha; breflect; intros [= <- <-]; cbn; naive_solver].
  - intros s r s'. destruct (sim_fates s) as [|[] t]; intros [= <- <-]; naive_solver.
  - intros a n s r s'. destruct (sim_fates s) as [|[] t]; intros [= <- <-]; naive_solver.
Defined.

Definition sim_reliable : @ReliableFlash sim sim_ops sim_device.
Proof.
  unshelve refine {| good := fun s => sim_fates s = [] |}; cbn; unfold sim_op.
  - intros s Hs. rewrite Hs. by exists 0, s.
  - intros s Hs. rewrite Hs. by exists s.
  - intros s Hs. rewrite Hs. by exists s.
  - intros l s Hs. rewrite Hs, Z.eqb_refl. by do 2 eexists.
  - intros s Hs. rewrite Hs. by exists s.
  - intros a n s Hs. rewrite Hs. by exists s.
Defined.

(** ** Lemmas: the whole push *)

Lemma push_code_holds {D : Type} {FO : FlashOps D} {FD : FlashDevice D} retry_count fuel code s start s' :
  0 < start_address code -> push_code retry_count fuel code s = Some (Ok start, s') ->
  start = start_address code /\ mem_holds (dev_mem s') (start_address code) (seg_data code).
Proof.
  intros Hlow. unfold push_code.
  destruct (push_begin retry_count code s) as [[st|e|] s1] eqn:Hb; [|done|done].
  assert (st = start_address code /\ uploaded code (0, s1)) as [-> Hu].
  { revert Hb. unfold push_begin, mbind, SM_bind.
    destruct (op_flash_get_stage s) as [[stage|?|] s2]; [|done|done].
    destruct ((if negb (stage =? 0) then mret tt else transaction retry_count op_flash_start) s2)
      as [[[]|?|] s3]; [|done|done].
    destruct (op_flash_get_next_address s3) as [r s4] eqn:Hop.
    destruct (law_next _ _ _ Hop) as (_ & Hn & _ & Hr). destruct r as [a|?|]; [|done|done].
    destruct (a =? start_address code) eqn:Ha; breflect; cbn [negb]; [|done].
    intros [= <- <-]. specialize (Hr a eq_refl). split; [done|]. exists [], (seg_data code).
    cbn. split; [done|]. split; [lia|]. split; [by intros i b Hb|lia]. }
  destruct (push_loop retry_count fuel code (0, s1)) as [[r [addr s2]]|] eqn:Hl; [|done].
  destruct (push_loop_inv retry_count code Hlow fuel _ _ _ Hu Hl) as (Hu2 & Hnp & Hend).
  destruct r as [[]|e|]; [|done|done]. specialize (Hend eq_refl). cbn in Hend.
  assert (mem_holds (dev_mem s2) (start_address code) (seg_data code)) as Hmem.
  { destruct Hu2 as (dn & rest & Hc & Hd & Hm & Ha). cbn in Hd, Ha, Hm.
    assert (rest = []) as ->; [|by rewrite Hc, app_nil_r].
    rewrite Hc, length_app in Hend. destruct rest; [done|cbn in Hend; lia]. }
  pose proof (transaction_loop_inv
    (fun s => mem_holds (dev_mem s) (start_address code) (seg_data code)) (fun _ _ => True) retry_count
    (Transaction $"No attempt was made") op_flash_commit s2) as Hc.
  unfold mbind, SM_bind, transaction.
  destruct (transaction_loop _ _ op_flash_commit s2) as [[[]|e|] s3]; [|done|done].
  intros [= <- <-]. split; [done|]. apply Hc; [|done|done].
  intros s4 Hs4. destruct (op_flash_commit s4) as [r s5] eqn:Hop. split; [|done].
  destruct (law_commit _ _ _ Hop) as [_ Hm]. by eapply mem_holds_ext.
Qed.

(** with a device that answers, pushing and verifying succeed *)
Lemma push_verify_completes {D : Type} {FO : FlashOps D} {FD : FlashDevice D} {RF : ReliableFlash D} retry_count fuel code s :
  (0 < retry_count)%nat -> 0 < start_address code ->
  start_address code + Z.of_nat (length (seg_data code)) <= 65536 ->
  good s -> dev_next s = start_address code -> (S (length (seg_data code)) < fuel)%nat ->
  exists s', push_and_verify retry_count fuel false code s = Some (Ok tt, s') /\ good s'.
Proof.
  intros Hr Hlow Hhigh Hg Hn Hf. unfold push_and_verify.
  assert (exists s1, push_begin retry_count code s = (Ok (start_address code), s1) /\ good s1
    /\ uploaded code (0, s1)) as (s1 & Hb & Hg1 & Hu).
  { unfold push_begin, mbind, SM_bind.
    destruct (rel_stage s Hg) as (v & s2 & -> & Hg2 & Hn2).
    assert (exists s3, ((if negb (v =? 0) then mret tt else transaction retry_count op_flash_start)
      : SM D RpcError unit) s2 = (Ok tt, s3) /\ good s3 /\ dev_next s3 = dev_next s2)
      as (s3 & -> & Hg3 & Hn3).
    { destruct (negb (v =? 0)); [by exists s2|]. destruct (rel_start s2 Hg2) as (s3 & Hop & Hg3 & Hn3).
      exists s3. split; [by apply transaction_ok|done]. }
    destruct (rel_next s3 Hg3) as (s4 & Hop & Hg4). rewrite Hop.
    destruct (law_next _ _ _ Hop) as (_ & Hn4 & _).
    assert (dev_next s3 = start_address code) as Hs3 by congruence. rewrite Hs3, Z.eqb_refl.
    exists s4. split; [done|]. split; [done|]. exists [], (seg_data code).
    cbn. split; [done|]. split; [lia|]. split; [by intros i x Hx|lia]. }
  destruct (push_loop_completes retry_count Hr code Hlow fuel 0 s1 Hg1 ltac:(by left) Hu)
    as ((addr & s2) & Hl & Hg2).
  { destruct Hu as (dn & rest & _ & Hd & _). cbn in Hd. lia. }
  destruct (rel_commit s2 Hg2) as (s3 & Hop & Hg3).
  assert (push_code retry_count fuel code s = Some (Ok (start_address code), s3)) as Hpush.
  { unfold push_code. rewrite Hb, Hl. unfold mbind, SM_bind.
    by rewrite (transaction_ok _ _ _ _ _ Hr Hop). }
  rewrite Hpush. unfold verify_code. apply verify_loop_completes; try done; [|lia].
  by eapply push_code_holds.
Qed.

(** what was verified, or pushed without verification, is in the memory *)
Lemma push_verify_holds {D : Type} {FO : FlashOps D} {FD : FlashDevice D} retry_count fuel no_verify code s s' :
  0 < start_address code -> start_address code + Z.of_nat (length (seg_data code)) <= 65536 ->
  push_and_verify retry_count fuel no_verify code s = Some (Ok tt, s') ->
  mem_holds (dev_mem s') (start_address code) (seg_data code).
Proof.
  intros Hlow Hhigh. unfold push_and_verify.
  destruct (push_code retry_count fuel code s) as [[[start|e|] s1]|] eqn:Hp; [|done..].
  destruct (push_code_holds _ _ _ _ _ _ Hlow Hp) as [-> Hm]. destruct no_verify; [by intros [= <-]|]. intros Hv.
  destruct (verify_loop_sound retry_count code ltac:(lia) Hhigh fuel (start_address code) (dev_mem s1) s1 _ s'
    ltac:(cbv zeta; lia) ltac:(done) Hv) as (_ & Hsame & _). by eapply mem_holds_ext.
Qed.

(** ** Properties *)

Section Properties.
Context {D : Type} {FO : FlashOps D} {FD : FlashDevice D}.
Variable retry_count : nat.


(** C25: Verification is sound and ends.  Reading back always ends, without
    panic and without changing the flash, after at most one round per block;
    when it succeeds the flash holds the code, byte for byte. *)
Theorem verify_code_sound fuel code s :
  0 <= start_address code -> start_address code + Z.of_nat (length (seg_data code)) <= 65536 ->
  (length (seg_data code) < fuel)%nat ->
  exists r s', verify_code retry_count fuel code (start_address code) s = Some (r, s') /\ r <> Panic
    /\ (forall x, dev_mem s' x = dev_mem s x)
    /\ (r = Ok tt -> mem_holds (dev_mem s) (start_address code) (seg_data code)).
Proof.
  intros Hlow Hhigh Hf. unfold verify_code.
  destruct (verify_loop_total retry_count code fuel (start_address code) s) as (r & s' & Hl);
    [cbv zeta; lia|cbv zeta; lia|].
  exists r, s'. split; [done|].
  destruct (verify_loop_sound retry_count code Hlow Hhigh fuel (start_address code) (dev_mem s) s r s'
    ltac:(cbv zeta; lia) ltac:(done) Hl)
    as (H1 & H2 & H3). split; [done|]. split; [done|]. intros Hok. specialize (H3 Hok).
  by rewrite Z.sub_diag in H3.
Qed.

(** The upload completes.  With a device that answers, whose next address
    is the start of the code, pushing and verifying end with success after at
    most one round per byte of code and two more, and the flash holds the
    code. *)
Theorem upload_completes {RF : ReliableFlash D} fuel code s :
  (0 < retry_count)%nat -> 0 < start_address code ->
  start_address code + Z.of_nat (length (seg_data code)) <= 65536 ->
  good s -> dev_next s = start_address code -> (S (length (seg_data code)) < fuel)%nat ->
  exists s', push_and_verify retry_count fuel false code s = Some (Ok tt, s').
Proof.
  intros Hr Hlow Hhigh Hg Hn Hf.
  destruct (push_verify_completes retry_count fuel code s Hr Hlow Hhigh Hg Hn Hf) as (s' & H & _). by exists s'.
Qed.

End Properties.

(** The exception.  When the uploader holds an address that is not 0 and
    below the code (an answer to an earlier request), it never asks the device
    again and never gives up: the loop of [push_code] runs for ever, whatever
    the device does. *)
Theorem push_loop_stuck {D : Type} `{FO : FlashOps D} retry_count fuel code addr (s : D) :
  addr <> 0 -> addr < start_address code -> (0 < retry_count)%nat ->
  push_loop retry_count fuel code (addr, s) = None.
Proof.
  intros Hz Hlow Hr.
  assert (transaction retry_count (push_step code) (addr, s) = (Ok false, (addr, s))) as Ht.
  { apply transaction_ok; [done|]. unfold push_step, get_addr, mbind, SM_bind.
    rewrite (proj2 (Z.eqb_neq addr 0)) by done. cbn.
    rewrite (proj2 (Z.leb_gt _ _)) by lia. rewrite (proj2 (Z.eqb_neq addr 0)) by done.
    by rewrite (proj2 (Z.ltb_lt _ _)) by lia. }
  induction fuel as [|fuel IH]; [done|]. cbn [push_loop]. by rewrite Ht.
Qed.

(** the code of the examples, and devices that wait for it *)
Definition example_code : CodeSegment := mkSegment 0x100 0x12c (map Z.of_nat (seq 1 44)) false.
Definition lossy_sim : sim :=
  mkSim 0x100 (fun _ => 255) [Fine; Fine; Fine; Fine; LostAnswer; Fine; LostRequest; Fine].


Lemma verify_code_sound_witness :
  exists r s', verify_code 5 45 example_code 0x100 lossy_sim = Some (r, s') /\ r <> Panic.
Proof.
  destruct (@verify_code_sound sim sim_ops sim_device 5 45 example_code lossy_sim)
    as (r & s' & H & Hp & _);
    [by vm_compute|by vm_compute|apply Nat.ltb_lt; reflexivity|].
  exists r, s'. split; [exact H|exact Hp].
Defined.

Lemma upload_completes_witness :
  exists s', push_and_verify 5 100 false example_code (mkSim 0x100 (fun _ => 255) []) = Some (Ok tt, s').
Proof.
  apply (@upload_completes sim sim_ops sim_device 5 sim_reliable 100 example_code);
    [lia|by vm_compute|by vm_compute|reflexivity|reflexivity|apply Nat.ltb_lt; reflexivity].
Defined.

Lemma push_loop_stuck_witness :
  push_loop 5 1000 example_code (0x80, mkSim 0x100 (fun _ => 255) []) = None.
Proof. apply push_loop_stuck; [done|cbn; lia|lia]. Defined.
