(* ===== verification/UploadApp.v ===== *)
(** * The upload, grab and reboot commands

    Models [main], [grab_main] and [reboot_main] of [src/apps/upload.rs]: from the
    command line and the file on disk to the flash of the device.  The files
    are a function from a path to the lines of the file or an error; the device is
    the one of [Upload], with what it promises about restarts in a class. *)

From stdpp Require Import base list numbers option strings.
From Stdlib Require Import ZArith Lia.
From S2P Require Import Prelude RustStd Cli Tools Apps RpcTools Device Ihex Upload.

Definition CODE : CliEntry := mkEntry [$"c"; $"-code"] $"Code to upload in Intel Hex format".
Definition NO_VERIFY : CliEntry := mkEntry [$"n"; $"-no-verify"] $"If option is present, skip the verification".
Definition SOFT : CliEntry := mkEntry [$"s"; $"-soft-reset"] $"Soft reset".
Definition UPLOAD_ENTRIES : list CliEntry := [RPC_HOST; RPC_PORT; FROM; TO; CODE; NO_VERIFY].
Definition GRAB_ENTRIES : list CliEntry := [RPC_HOST; RPC_PORT; FROM; TO].
Definition REBOOT_ENTRIES : list CliEntry := [RPC_HOST; RPC_PORT; FROM; TO; SOFT].

(** how a command ends: success, an error that [main] reports, an exit code *)
Inductive command_end : Type :=
| CmdDone
| CmdFailed (err : str)
| CmdExit (code : Z).

Section Commands.
Context {D : Type} `{FO : FlashOps D}.

(** the device with the address [to] on the bus with the address [from] of the
    server, or the error of the connection *)
Variable connect : str * Z * Z -> Z -> res str D.
(** what [load_file] finds under a path *)
Variable files : str -> res str (list str).

Definition upload_retry_count : nat := 100.

(** [main]; the outer [None] when the fuel is used up, the inner one for a
    panic; the device at the end, when there is one *)
Definition upload_main (fuel : nat) (args : list str) : option (option command_end * option D) :=
  match parse_or_help args UPLOAD_ENTRIES with
  | None => Some (None, None)
  | Some (ExitWithHelp code) => Some (Some (CmdExit code), None)
  | Some (Parsed pa) =>
    match get_simple CODE pa with
    | None => Some (Some (CmdExit 1), None)
    | Some file =>
      match parse parse_i32 TO pa with
      | Panic => Some (None, None)
      | Err err => Some (Some (CmdFailed err), None)
      | Ok None => Some (Some (CmdExit 1), None)
      | Ok (Some to) =>
        match (disk ← files file; map_err IntelHexError_fmt (get_code_from_file disk)) with
        | Panic => Some (None, None)
        | Err err => Some (Some (CmdFailed err), None)
        | Ok (inr code) => Some (Some (CmdExit code), None)
        | Ok (inl code) =>
          match (server ← cli_bus_connect pa; connect server to) with
          | Panic => Some (None, None)
          | Err err => Some (Some (CmdFailed err), None)
          | Ok dev =>
            '(e, dev) ← upload upload_retry_count fuel (has_option NO_VERIFY pa) code dev;
            Some (match e with
                  | Some Done => Some CmdDone
                  | Some (Failed err) => Some (CmdFailed (RpcError_fmt err))
                  | Some (Exit code) => Some (CmdExit code)
                  | None => None
                  end, Some dev)
          end
        end
      end
    end
  end.

(** a command that connects to the device of the option [TO] and runs [m] *)
Definition device_main (entries : list CliEntry) (m : CliArgs -> SM D RpcError unit) (args : list str)
    : option command_end * option D :=
  match parse_or_help args entries with
  | None => (None, None)
  | Some (ExitWithHelp code) => (Some (CmdExit code), None)
  | Some (Parsed pa) =>
    match (to ← parse_or parse_i32 TO pa (-1); server ← cli_bus_connect pa; connect server to) with
    | Panic => (None, None)
    | Err err => (Some (CmdFailed err), None)
    | Ok dev =>
      match m pa dev with
      | (Ok _, dev) => (Some CmdDone, Some dev)
      | (Err err, dev) => (Some (CmdFailed (RpcError_fmt err)), Some dev)
      | (Panic, dev) => (None, Some dev)
      end
    end
  end.

(** the retry count of a new [UartBusDevice] *)
Definition grab_main (args : list str) : option command_end * option D :=
  device_main GRAB_ENTRIES (fun _ => restart_grab_device 5) args.

(** [op_software_reset] stands for [UartBusDevice::software_reset] *)
Definition reboot_main (op_software_reset : SM D RpcError unit) (args : list str) : option command_end * option D :=
  device_main REBOOT_ENTRIES (fun pa => if has_option SOFT pa then op_software_reset else op_hardware_reset) args.

End Commands.

(** ** Restarts *)

(** an operation that neither panics nor touches the flash *)
Definition keeps_flash {D A : Type} {FO : FlashOps D} {FD : FlashDevice D} (m : SM D RpcError A) : Prop :=
  forall s r s', m s = (r, s') -> r <> Panic /\ forall x, dev_mem s' x = dev_mem s x.

(** restarting a device and its variables do not change its flash *)
Class RestartDevice (D : Type) {FO : FlashOps D} {FD : FlashDevice D} : Prop := {
  law_ping : keeps_flash (D := D) op_ping;
  law_reset : keeps_flash (D := D) op_hardware_reset;
  law_wait : keeps_flash (D := D) op_wait_start;
  law_set : forall v x, keeps_flash (D := D) (op_set_var v x);
  law_get : forall v, keeps_flash (D := D) (op_get_var v);
}.

(** an operation that succeeds in the states [good] and keeps the next address *)
Definition succeeds {D A : Type} {FO : FlashOps D} {FD : FlashDevice D} {RF : ReliableFlash D} (m : SM D RpcError A) : Prop :=
  forall s, good s -> exists a s', m s = (Ok a, s') /\ good s' /\ dev_next s' = dev_next s.

(** a device that answers restarts, and its application stays stopped once it is told to *)
Class ReliableRestart (D : Type) {FO : FlashOps D} {FD : FlashDevice D} {RF : ReliableFlash D} : Prop := {
  rel_ping : succeeds (D := D) op_ping;
  rel_reset : succeeds (D := D) op_hardware_reset;
  rel_wait : succeeds (D := D) op_wait_start;
  rel_set : forall v x, succeeds (D := D) (op_set_var v x);
  rel_stopped : forall s s', good s -> op_set_var IsApplicationRunning 0 s = (Ok tt, s') ->
    exists s2, op_get_var IsApplicationRunning s' = (Ok 0, s2) /\ good s2 /\ dev_next s2 = dev_next s';
}.

(** ** Lemmas *)

Section Lemmas.
Context {D : Type} {FO : FlashOps D} {FD : FlashDevice D}.

Lemma flash_bind {A B} (m : SM D RpcError A) (k : A -> SM D RpcError B) :
  keeps_flash m -> (forall a, keeps_flash (k a)) -> keeps_flash (m ≫= k).
Proof.
  intros Hm Hk s r s'. unfold mbind, SM_bind. destruct (m s) as [[a|e|] s1] eqn:H1; destruct (Hm _ _ _ H1) as [Hnp He].
  - intros H2. destruct (Hk a _ _ _ H2) as [Hnp2 He2]. split; [done|]. intros x. by rewrite He2.
  - intros [= <- <-]. done.
  - done.
Qed.

Lemma flash_ret {A} (a : A) : keeps_flash (mret a : SM D RpcError A).
Proof. by intros s r s' [= <- <-]. Qed.

Lemma flash_transaction {A} retry (m : SM D RpcError A) : keeps_flash m -> keeps_flash (transaction retry m).
Proof.
  intros Hm. unfold transaction. generalize (Transaction $"No attempt was made").
  induction retry as [|n IH]; intros last s r s'; cbn [transaction_loop]; [by intros [= <- <-]|].
  destruct (m s) as [q s1] eqn:H1. destruct (Hm _ _ _ H1) as [Hnp He].
  destruct q as [a|[]|]; try (intros [= <- <-]; done).
  intros H2. destruct (IH _ _ _ _ H2) as [Hnp2 He2]. split; [done|]. intros x. by rewrite He2.
Qed.

Lemma flash_restart {RD : RestartDevice D} retry flawed : keeps_flash (restart_device (D := D) retry flawed).
Proof.
  unfold restart_device, reset_and_wait_start. repeat (apply flash_bind; [|intros ?]);
    try apply flash_transaction; auto using law_reset, law_wait, law_set, flash_ret.
  destruct flawed; [apply flash_ret|]. apply flash_transaction, law_set.
Qed.

(** a successful upload has put the code into the flash *)
Lemma upload_done_holds {RD : RestartDevice D} retry fuel no_verify code s s' :
  0 < start_address code -> start_address code + Z.of_nat (length (seg_data code)) <= 65536 ->
  upload retry fuel no_verify code s = Some (Some Done, s') ->
  mem_holds (dev_mem s') (start_address code) (seg_data code).
Proof.
  intros Hlow Hhigh. unfold upload. destruct (op_ping s) as [[[]|e|] s1]; [|done..].
  destruct (restart_grab_device retry s1) as [[[]|e|] s2]; [|done..].
  destruct (push_and_verify retry fuel no_verify code s2) as [[[[]|e|] s3]|] eqn:Hp; [| |done..].
  - pose proof (push_verify_holds _ _ _ _ _ _ Hlow Hhigh Hp) as Hm.
    destruct (restart_device retry false s3) as [[[]|e|] s4] eqn:Hr; [|done..]. intros [= <-].
    destruct (flash_restart _ _ _ _ _ Hr) as [_ He]. by eapply mem_holds_ext.
  - by destruct (restart_device retry true s3) as [[]].
Qed.

Context {RF : ReliableFlash D}.

Lemma succeeds_bind {A B} (m : SM D RpcError A) (k : A -> SM D RpcError B) :
  succeeds m -> (forall a, succeeds (k a)) -> succeeds (m ≫= k).
Proof.
  intros Hm Hk s Hg. destruct (Hm s Hg) as (a & s1 & H1 & Hg1 & Hn1). destruct (Hk a s1 Hg1) as (b & s2 & H2 & Hg2 & Hn2).
  exists b, s2. unfold mbind, SM_bind. rewrite H1. split; [done|]. split; [done|congruence].
Qed.

Lemma succeeds_ret {A} (a : A) : succeeds (mret a : SM D RpcError A).
Proof. intros s Hg. by exists a, s. Qed.

Lemma succeeds_transaction {A} retry (m : SM D RpcError A) : (0 < retry)%nat -> succeeds m -> succeeds (transaction retry m).
Proof.
  intros Hr Hm s Hg. destruct (Hm s Hg) as (a & s1 & H1 & H2). exists a, s1. split; [by apply transaction_ok|done].
Qed.

Lemma succeeds_reset {RR : ReliableRestart D} : succeeds (reset_and_wait_start (D := D)).
Proof. unfold reset_and_wait_start. repeat (apply succeeds_bind; [|intros ?]); auto using rel_reset, rel_wait, succeeds_ret. Qed.

Lemma succeeds_grab {RR : ReliableRestart D} retry : (0 < retry)%nat -> succeeds (restart_grab_device (D := D) retry).
Proof.
  intros Hr. unfold restart_grab_device. apply succeeds_bind; [apply succeeds_reset|intros _].
  apply succeeds_bind; [apply succeeds_transaction, rel_set; done|intros _]. intros s Hg.
  destruct (rel_set IsApplicationRunning 0 s Hg) as ([] & s1 & H1 & Hg1 & Hn1).
  destruct (rel_stopped s s1 Hg H1) as (s2 & H2 & Hg2 & Hn2). exists tt, s2. unfold mbind, SM_bind.
  rewrite (transaction_ok _ _ _ _ _ Hr H1), (transaction_ok _ _ _ _ _ Hr H2). split; [done|]. split; [done|congruence].
Qed.

Lemma succeeds_restart {RR : ReliableRestart D} retry flawed : (0 < retry)%nat -> succeeds (restart_device (D := D) retry flawed).
Proof.
  intros Hr. unfold restart_device. apply succeeds_bind; [apply succeeds_reset|intros _].
  apply succeeds_bind; [apply succeeds_transaction, rel_set; done|intros _].
  destruct flawed; [apply succeeds_ret|]. by apply succeeds_transaction, rel_set.
Qed.

Lemma upload_reliable {RR : ReliableRestart D} retry fuel code s : (0 < retry)%nat -> 0 < start_address code ->
  start_address code + Z.of_nat (length (seg_data code)) <= 65536 ->
  good s -> dev_next s = start_address code -> (S (length (seg_data code)) < fuel)%nat ->
  exists s', upload retry fuel false code s = Some (Some Done, s').
Proof.
  intros Hr Hlow Hhigh Hg Hn Hf. unfold upload. destruct (rel_ping s Hg) as (a & s1 & -> & Hg1 & Hn1).
  destruct (succeeds_grab retry Hr s1 Hg1) as (b & s2 & -> & Hg2 & Hn2).
  destruct (push_verify_completes retry fuel code s2 Hr Hlow Hhigh Hg2 ltac:(congruence) Hf) as (s3 & -> & Hg3).
  destruct (succeeds_restart retry false Hr s3 Hg3) as (c & s4 & -> & _). by eexists.
Qed.

End Lemmas.

(** the code of a file that was written from one segment *)
Lemma code_of_written seg : segments_ok (- 1) [seg] ->
  exists f, from_segments [seg] = Ok f /\ get_code_from_file (write_to_file f) = Ok (inl seg).
Proof.
  intros Hs. destruct (from_segments_ok [seg] Hs) as (f & H1 & H2 & H3). exists f. split; [done|].
  unfold get_code_from_file. rewrite H2. cbn [mbind res_bind]. by rewrite H3.
Qed.

(** ** Properties *)


(** the simulated device *)
Lemma sim_restart : @RestartDevice sim sim_ops sim_device.
Proof.
  split; unfold keeps_flash; cbn; unfold sim_op; intros; destruct s as [next mem [|[] t]]; cbn in *; by simplify_eq.
Qed.

Lemma sim_reliable_restart : @ReliableRestart sim sim_ops sim_device sim_reliable.
Proof.
  split; unfold succeeds; cbn; unfold sim_op.
  1-4: intros; match goal with H : sim_fates _ = [] |- _ => rewrite H end; by do 2 eexists.
  intros s s' Hs. rewrite Hs. intros [= <-]. rewrite Hs. by exists s.
Qed.

