(* ===== verification/Ftp.v ===== *)
(** * File access service

    Models [src/rpc/ftp.rs]: the numbers of the files of a served directory and
    the functions on them.  A path is its text; the file system is the class
    [FileSystem], whose operations stand for the calls of [std::fs] and [libc]
    that the service makes (one operation for an opened file with what is done
    to it before it is closed), over an arbitrary state [F].  The mutex of the
    registry makes each call one step.  [discover] runs under a fuel for the
    depth of the directories, [None] when it is used up. *)

From stdpp Require Import base list numbers option strings gmap sorting.
From Stdlib Require Import ZArith Lia.
From S2P Require Import Prelude RustStd Tools VarInt Packet RpcTools Service Device.

Definition LIST_FILE_NAME : str := $".ubfs".
Definition MAX_FILE_PART : Z := 4096.

(** ** Url encoding *)

Definition url_plain (b : Z) : bool :=
  is_ascii_alpha b || is_ascii_digit b || (b =? 46) || (b =? 45) || (b =? 42) || (b =? 95).

Definition url_encode_byte (b : Z) : str :=
  if url_plain b then [b] else if b =? 32 then [43] else 37 :: hex02_upper b.

Definition url_encode (text : str) : str := as_bytes text ≫= url_encode_byte.

(** [u8::from_str_radix(_, 16)] of a text of two bytes: one of them may be a plus sign *)
Definition from_str_radix16 (c1 c2 : Z) : option Z :=
  if c1 =? 43 then to_digit16 c2
  else h ← to_digit16 c1; l ← to_digit16 c2; Some (h * 16 + l).

(** [text.is_char_boundary(i)] for an index within the text: its end, or a byte
    that starts a char *)
Definition starts_char (rest : list Z) : bool :=
  match rest with [] => true | b :: _ => negb (utf8_cont b) end.

(** the loop of [url_decode] over the bytes that are left *)
Fixpoint url_decode_bytes (l : list Z) : list Z :=
  match l with
  | [] => []
  | b :: t =>
    if b =? 43 then 32 :: url_decode_bytes t
    else if b =? 37 then
      match t with
      | c1 :: c2 :: rest =>
        if starts_char t && starts_char rest then
          match from_str_radix16 c1 c2 with
          | Some value => value :: url_decode_bytes rest
          | None => 37 :: url_decode_bytes t
          end
        else 37 :: url_decode_bytes t
      | _ => 37 :: url_decode_bytes t
      end
    else b :: url_decode_bytes t
  end.

Definition url_decode (text : str) : str := from_utf8_lossy (url_decode_bytes (as_bytes text)).

(** ** The file system *)

Class FileSystem (F : Type) : Type := {
  fs_exists : str -> F -> bool;                      (* Path::exists *)
  fs_is_dir : str -> F -> bool;
  fs_is_file : str -> F -> bool;
  fs_read_dir : str -> F -> option (list str);       (* names of the readable entries *)
  fs_len : str -> F -> option Z;                     (* metadata, len *)
  fs_modified : str -> F -> option Z;                (* milliseconds since the epoch *)
  fs_access : Z -> str -> F -> bool;                 (* libc::access *)
  fs_read : str -> Z -> Z -> F -> option (list Z);   (* open, seek, read at most so many *)
  fs_create_dir : str -> F -> bool * F;
  fs_create_new : str -> F -> bool * F;
  fs_set_modified : str -> Z -> F -> bool * F;
  fs_remove_dir : str -> F -> bool * F;
  fs_remove_file : str -> F -> bool * F;
  fs_set_len : str -> Z -> F -> option Z * F;        (* open, set_len, metadata *)
  fs_write : str -> option Z -> list Z -> F -> option Z * F;  (* at a position or append *)
  fs_create_append : str -> F -> bool * F;           (* open of the list file *)
  fs_lines : str -> F -> option (list str);          (* lines of the list file *)
  fs_append_line : str -> str -> F -> bool * F;      (* writeln and flush *)
}.

Section Ftp.
Context {F : Type} {FS : FileSystem F}.

Definition sorted_dir_names (dir : str) (f : F) : option (list str) :=
  merge_sort str_le <$> fs_read_dir dir f.

(** ** The registry *)

Record FileRegistry : Type := mkRegistry {
  root : str;
  paths : list str;
  by_path : gmap str nat;
}.

(** [Path::join] of a relative path *)
Definition path_join (root relative : str) : str :=
  match last root with
  | None => relative
  | Some c => if c =? 47 then root ++ relative else root ++ [47] ++ relative
  end.

Definition fs_path (r : FileRegistry) (path : str) : str :=
  let relative := trim_start_matches 47 path in
  if bool_decide (relative = []) then root r else path_join (root r) relative.

(** the open list file *)
Definition list_file (r : FileRegistry) : str := path_join (root r) LIST_FILE_NAME.

Definition RM : Type -> Type := SM (FileRegistry * F) unit.

Definition register (path : str) : RM nat := fun '(r, f) =>
  let '(ok, f) := fs_append_line (list_file r) (url_encode path) f in
  if ok then
    let index := length (paths r) in
    (Ok index, (mkRegistry (root r) (paths r ++ [path]) (<[path := index]> (by_path r)), f))
  else (Err tt, (r, f)).

(** the loop of [discover] over the names of one directory; [go] is the call
    for a sub directory *)
Fixpoint discover_names (go : str -> FileRegistry * F -> option (res unit unit * (FileRegistry * F)))
    (dir : str) (names : list str) (st : FileRegistry * F) : option (res unit unit * (FileRegistry * F)) :=
  match names with
  | [] => Some (Ok tt, st)
  | name :: t =>
    let path := dir ++ [47] ++ name in
    if bool_decide (path = [47] ++ LIST_FILE_NAME) then discover_names go dir t st else
    let '(out, st) := match by_path st.1 !! path with
                      | Some index => (Ok index, st)
                      | None => register path st
                      end in
    match out with
    | Ok _ =>
      if fs_is_dir (fs_path st.1 path) st.2 then
        match go path st with
        | Some (Ok _, st) => discover_names go dir t st
        | failed => failed
        end
      else discover_names go dir t st
    | _ => Some (Err tt, st)
    end
  end.

Fixpoint discover (fuel : nat) (dir : str) (st : FileRegistry * F)
    : option (res unit unit * (FileRegistry * F)) :=
  match fuel with
  | O => None
  | S fuel =>
    match sorted_dir_names (fs_path st.1 (if bool_decide (dir = []) then [47] else dir)) st.2 with
    | Some names => discover_names (discover fuel) dir names st
    | None => Some (Err tt, st)
    end
  end.

(** the loop over the lines of the list file *)
Definition load_line (r : FileRegistry) (line : str) : FileRegistry :=
  let path := url_decode line in
  let map := match by_path r !! path with
            | Some _ => by_path r
            | None => <[path := length (paths r)]> (by_path r)
            end in
  mkRegistry (root r) (paths r ++ [path]) map.

Definition open (fuel : nat) (root : str) (f : F) : option (res unit FileRegistry * F) :=
  let list_path := path_join root LIST_FILE_NAME in
  let '(ok, f) := fs_create_append list_path f in
  if negb ok then Some (Err tt, f) else
  match fs_lines list_path f with
  | None => Some (Err tt, f)
  | Some lines =>
    let registry := foldl load_line (mkRegistry root [] ∅) lines in
    let '(out, st) := if bool_decide (paths registry = []) then register [47] (registry, f)
                      else (Ok O, (registry, f)) in
    match out with
    | Ok _ =>
      match discover fuel [] st with
      | Some (Ok _, st) => Some (Ok st.1, st.2)
      | Some (_, st) => Some (Err tt, st.2)
      | None => None
      end
    | _ => Some (Err tt, st.2)
    end
  end.

(** [FtpBusService::new]; [canonical]: the canonical path of the directory, or [None] for an error *)
Definition ftp_new (fuel : nat) (canonical : option str) (f : F) : option (res unit FileRegistry * F) :=
  match canonical with
  | Some root => open fuel root f
  | None => Some (Err tt, f)
  end.

Definition number_of (path : str) : SM (FileRegistry * F) Z nat := fun '(r, f) =>
  let path := if bool_decide (path = []) then [47] else path in
  match by_path r !! path with
  | Some index => (Ok index, (r, f))
  | None =>
    let hidden := existsb (fun part => bool_decide (part = LIST_FILE_NAME)) (split 47 path) in
    if hidden || negb (fs_exists (fs_path r path) f) then (Err ENOENT, (r, f))
    else let '(out, st) := register path (r, f) in (map_err (fun _ => EIO) out, st)
  end.

Definition path_of (r : FileRegistry) (file_no : Z) : res Z str :=
  ok_or (index ← try_u 64 file_no; paths r !! Z.to_nat index) ENOENT.

Definition child_path (dir name : str) : res Z str :=
  if bool_decide (name = []) || bool_decide (name = $".") || bool_decide (name = $"..")
     || bool_decide (name = LIST_FILE_NAME) || existsb (fun c => c =? 47) name
  then Err EACCES
  else Ok (trim_end_matches 47 dir ++ [47] ++ name).

(** ** The functions *)

(** a path with a NUL byte is no [CString] *)
Definition can_access (path : str) (mode : Z) (f : F) : bool :=
  if existsb (fun b => b =? 0) (as_bytes path) then false else fs_access mode path f.

Definition vu (value : Z) : ServiceReply := ReplyValue (VVUnsigned (VUnsigned_new value)).
Definition boolean (value : bool) : ServiceReply := ReplyValue (VBool value).

(** the state of a call: the rest of the request, the registry, the files *)
Definition FtpState : Type := PacketReader * (FileRegistry * F).
Definition FM : Type -> Type := SM FtpState ServiceError.

(** reading these types has no loop, so the fuel of 1 is not used up *)
Definition param (ty : RpcType) : FM RpcValue := fun '(params, st) =>
  match read_param 1 ty params with
  | Some (r, params) => (r, (params, st))
  | None => (Panic, (params, st))
  end.

Definition read_number (ty : RpcType) : FM Z :=
  v ← param ty;
  match v with
  | VVUnsigned v => mret (VUnsigned_value v)
  | VVSigned v => mret (VSigned_value v)
  | _ => sm_lift (Err (Internal $"number expected"))
  end.

Definition ftp_read_string : FM str :=
  v ← param TString;
  match v with
  | VString s => mret s
  | _ => sm_lift (Err (Internal $"string expected"))
  end.

(** a step on the registry, errors as [ServiceError::Posix] *)
Definition on_registry {A} (m : SM (FileRegistry * F) Z A) : FM A := fun '(params, st) =>
  let '(out, st) := m st in (map_err ErrPosix out, (params, st)).
Definition posix_lift {A} (m : res Z A) : FM A := sm_lift (map_err ErrPosix m).
Definition get_registry : FM FileRegistry := fun s => (Ok s.2.1, s).
Definition ask {A} (q : F -> A) : FM A := fun s => (Ok (q s.2.2), s).
Definition change {A} (m : F -> A * F) : FM A := fun '(params, (r, f)) =>
  let '(a, f) := m f in (Ok a, (params, (r, f))).

(** [path[..path.rfind('/').unwrap_or(0)]] *)
Fixpoint after_slash (s : str) : str :=
  match s with [] => [] | c :: t => if c =? 47 then t else after_slash t end.
Definition parent_of (path : str) : str := rev (after_slash (rev path)).

(** [Path::file_name]: the last component, if it is a name *)
Definition file_name (path : str) : option str :=
  name ← last (filter (fun part => part <> [] /\ part <> $".") (split 47 path));
  if bool_decide (name = $"..") then None else Some name.

(** [sorted_dir_names(..).map_err(..)] *)
Definition dir_names (errno : Z) (file : str) : FM (list str) :=
  names ← ask (sorted_dir_names file);
  posix_lift (ok_or names errno).

(** the loop of function 6 *)
Fixpoint child_numbers (path : str) (names : list str) : FM (list RpcValue) :=
  match names with
  | [] => mret []
  | name :: t =>
    child ← posix_lift (child_path path name);
    number ← on_registry (number_of child);
    rest ← child_numbers path t;
    mret (VVUnsigned (VUnsigned_new (Z.of_nat number)) :: rest)
  end.

Definition number_reply (path : str) : FM ServiceReply :=
  number ← on_registry (number_of path); mret (vu (Z.of_nat number)).

Definition R_OK : Z := 4.
Definition W_OK : Z := 2.

(** functions 1 to 11: attributes and discovery *)
Definition serve_attributes (index : Z) (path file : str) : FM ServiceReply :=
  if index =? 1 then b ← ask (fs_exists file); mret (boolean b)
  else if index =? 2 then
    if bool_decide (path = [47]) then posix_lift (Err ENOENT) else number_reply (parent_of path)
  else if index =? 3 then
    is_file ← ask (fs_is_file file);
    is_dir ← ask (fs_is_dir file);
    mret (ReplyValue (VS8 (if is_file : bool then 1 else if is_dir : bool then 2 else 127)))
  else if index =? 4 then
    mret (ReplyNamespace (ub_string_service (ub_string_new (default [] (file_name file)))))
  else if index =? 5 then
    is_dir ← ask (fs_is_dir file);
    if is_dir : bool then names ← dir_names EIO file; mret (vu (Z.of_nat (length names)))
    else len ← ask (fs_len file); len ← posix_lift (ok_or len ENOENT); mret (vu len)
  else if index =? 6 then
    names ← dir_names ENOTDIR file;
    numbers ← child_numbers path (filter (fun name => name <> LIST_FILE_NAME) names);
    mret (ReplyValue (VArray numbers))
  else if index =? 7 then
    i ← read_number TVUnsigned;
    is_dir ← ask (fs_is_dir file);
    if negb is_dir then posix_lift (Err ENOTDIR) else
    names ← dir_names ENOTDIR file;
    name ← posix_lift (ok_or (i ← try_u 64 i; names !! Z.to_nat i) ENOTDIR);
    number_reply (trim_end_matches 47 path ++ [47] ++ name)
  else if index =? 8 then b ← ask (can_access file R_OK); mret (boolean b)
  else if index =? 9 then b ← ask (can_access file W_OK); mret (boolean b)
  else if index =? 10 then mret (vu 0)
  else modified ← ask (fs_modified file); mret (vu (default 0 modified)).

(** function 20 *)
Definition serve_read (file : str) : FM ServiceReply :=
  from ← read_number TVUnsigned;
  length' ← read_number TVUnsigned;
  let length' := default (2 ^ 64 - 1) (try_u 64 length') in
  if MAX_FILE_PART <? length' then posix_lift (Err EMSGSIZE) else
  part ← ask (fs_read file (default (2 ^ 64 - 1) (try_u 64 from)) length');
  part ← posix_lift (ok_or part EIO);
  mret (ReplyValue (VBytes part)).

(** functions 30 and 31 *)
Definition serve_create (index : Z) (path file : str) : FM ServiceReply :=
  name ← ftp_read_string;
  is_dir ← ask (fs_is_dir file);
  if (index =? 30) && negb is_dir then posix_lift (Err ENOTDIR) else
  child ← posix_lift (child_path path name);
  registry ← get_registry;
  let target := fs_path registry child in
  there ← ask (fs_exists target);
  if there : bool then posix_lift (Err EEXIST) else
  created ← change (if index =? 30 then fs_create_dir target else fs_create_new target);
  if negb created then posix_lift (Err EACCES) else
  number_reply child.

(** functions 32 to 41: changes of a file *)
Definition serve_modify (index : Z) (file : str) : FM ServiceReply :=
  if index =? 32 then
    time ← read_number TVUnsigned;
    ok ← change (fs_set_modified file (default 0 (try_u 64 time)));
    mret (boolean ok)
  else if index =? 33 then
    is_dir ← ask (fs_is_dir file);
    ok ← change (if is_dir : bool then fs_remove_dir file else fs_remove_file file);
    mret (boolean ok)
  else if index =? 34 then _ ← read_number TVUnsigned; mret ReplyVoid
  else if index =? 35 then _ ← ftp_read_string; mret ReplyVoid
  else if index =? 40 then
    size ← read_number TVUnsigned;
    len ← change (fs_set_len file (default 0 (try_u 64 size)));
    len ← posix_lift (ok_or len ENOENT);
    mret (vu len)
  else
    position ← read_number TVSigned;
    v ← param TBytes;
    let data := match v with VBytes data => data | _ => [] end in
    let append := position <? 0 in
    len ← change (fs_write file (if append then None else Some (default 0 (try_u 64 position))) data);
    len ← posix_lift (ok_or len (if append then EACCES else ENOENT));
    mret (vu len).

Definition FUNCTIONS : list Z := [1; 2; 3; 4; 5; 6; 7; 8; 9; 10; 11; 20; 30; 31; 32; 33; 34; 35; 40; 41].

Definition ftp_serve (index : Z) : FM ServiceReply :=
  file_no ← read_number TVUnsigned;
  registry ← get_registry;
  path ← posix_lift (path_of registry file_no);
  let file := fs_path registry path in
  if (1 <=? index) && (index <=? 11) then serve_attributes index path file
  else if index =? 20 then serve_read file
  else if (index =? 30) || (index =? 31) then serve_create index path file
  else if bool_decide (index ∈ [32; 33; 34; 35; 40; 41]) then serve_modify index file
  else sm_lift (Err (Internal ($"no function " ++ show_nat index))).

(** [UbService::call]; [None] is a panic *)
Definition ftp_call (index : Z) (s : FtpState) : option (option ServiceCall * FtpState) :=
  if negb (bool_decide (index ∈ FUNCTIONS)) then Some (None, s) else
  match ftp_serve index s with
  | (Ok reply, s) => Some (Some (call_posix (inl reply)), s)
  | (Err e, s) => Some (Some (call_posix (inr e)), s)
  | (Panic, _) => None
  end.

End Ftp.

(** ** Lemmas: url encoding *)

Definition ascii_text (s : str) : Prop := Forall (fun c => 0 <= c < 128) s.

Definition asciib (c : Z) : bool := (0 <=? c) && (c <? 128).

Lemma encode_byte_ascii b : is_u8 b -> ascii_text (url_encode_byte b).
Proof.
  intros Hb.
  assert (forallb asciib (url_encode_byte b) = true) as H
    by (apply (u8_forall (fun b => forallb asciib (url_encode_byte b))); [vm_compute; reflexivity|done]).
  apply Forall_forall. intros c Hc. rewrite forallb_forall in H.
  apply list_elem_of_In, H in Hc. unfold asciib in Hc. breflect. lia.
Qed.

Lemma url_encode_ascii l : bytes l -> ascii_text (l ≫= url_encode_byte).
Proof.
  induction 1 as [|b t Hb _ IH]; [constructor|]. apply Forall_app. split; [by apply encode_byte_ascii|done].
Qed.

Lemma ascii_starts_char s : ascii_text s -> starts_char s = true.
Proof.
  destruct 1 as [|c t Hc _]; [done|]. cbn. unfold utf8_cont. by rewrite (proj2 (Z.leb_gt 128 c)) by lia.
Qed.

(** an escaped byte is the value of its two digits *)
Lemma decode_escape b rest : is_u8 b -> starts_char rest = true ->
  url_decode_bytes (37 :: hex02_upper b ++ rest) = b :: url_decode_bytes rest.
Proof.
  intros Hb Hr. unfold hex02_upper. cbn [app url_decode_bytes Z.eqb Pos.eqb].
  set (h := hex_digit_upper (b / 16)). set (l := hex_digit_upper (b mod 16)). rewrite Hr.
  pose proof (u8_forall (fun b => negb (utf8_cont (hex_digit_upper (b / 16)))
    && bool_decide (from_str_radix16 (hex_digit_upper (b / 16)) (hex_digit_upper (b mod 16)) = Some b))) as H.
  specialize (H ltac:(vm_compute; reflexivity) b Hb). apply andb_prop in H as [H1 H2].
  apply bool_decide_eq_true in H2. fold h in H1, H2. fold l in H2. cbn [starts_char]. by rewrite H1, H2.
Qed.

Lemma decode_encode_byte b rest : is_u8 b -> starts_char rest = true ->
  url_decode_bytes (url_encode_byte b ++ rest) = b :: url_decode_bytes rest.
Proof.
  intros Hb Hr. unfold url_encode_byte. destruct (url_plain b) eqn:Hp.
  - cbn [app url_decode_bytes].
    assert (b <> 43 /\ b <> 37) as [H1 H2] by (split; intros ->; done).
    by rewrite !(proj2 (Z.eqb_neq _ _)).
  - destruct (b =? 32) eqn:Hs; breflect; [by subst b|]. by apply decode_escape.
Qed.

Lemma decode_encode_bytes l : bytes l -> url_decode_bytes (l ≫= url_encode_byte) = l.
Proof.
  induction 1 as [|b t Hb Ht IH]; [done|].
  change ((b :: t) ≫= url_encode_byte) with (url_encode_byte b ++ (t ≫= url_encode_byte)).
  rewrite decode_encode_byte by (done || by apply ascii_starts_char, url_encode_ascii). by rewrite IH.
Qed.

Lemma url_decode_encode s : valid_str s -> url_decode (url_encode s) = s.
Proof.
  intros Hs. pose proof (as_bytes_bytes s Hs) as Hb. unfold url_decode, url_encode.
  rewrite as_bytes_ascii by by apply url_encode_ascii. rewrite decode_encode_bytes by done.
  by apply lossy_as_bytes.
Qed.

(** ** Lemmas: the registry *)

(** a file name as a directory lists it *)
Definition proper_name (name : str) : Prop :=
  name <> [] /\ name <> $"." /\ name <> $".." /\ Forall (fun c => c <> 47) name.

Definition path_text (names : list str) : str := names ≫= (fun name => [47] ++ name).

(** the served directory itself, or names under it *)
Definition safe_path (path : str) : Prop :=
  path = [47] \/ exists names, names <> [] /\ Forall proper_name names /\ path = path_text names.

(** the numbers and the paths belong to each other *)
Definition numbered (r : FileRegistry) : Prop :=
  forall path i, by_path r !! path = Some i <-> paths r !! i = Some path.

Definition registry_ok (r : FileRegistry) : Prop := numbered r /\ Forall safe_path (paths r).

Definition grown_from (r r' : FileRegistry) : Prop :=
  root r' = root r /\ paths r `prefix_of` paths r'.

Lemma numbered_add r path : numbered r -> by_path r !! path = None ->
  numbered (mkRegistry (root r) (paths r ++ [path]) (<[path := length (paths r)]> (by_path r))).
Proof.
  intros Hn Hnone p i. cbn. destruct (decide (p = path)) as [->|Hp].
  - rewrite lookup_insert_eq. split.
    + intros [= <-]. by apply list_lookup_middle.
    + intros H. destruct (decide (i < length (paths r))%nat) as [Hi|Hi].
      * rewrite lookup_app_l in H by done. apply Hn in H. congruence.
      * rewrite lookup_app_r in H by lia. apply list_lookup_singleton_Some in H as [H _]. f_equal. lia.
  - rewrite lookup_insert_ne by done. rewrite (Hn p i). split; intros H.
    + by apply lookup_app_l_Some.
    + destruct (decide (i < length (paths r))%nat) as [Hi|Hi]; [by rewrite lookup_app_l in H|].
      rewrite lookup_app_r in H by lia. apply list_lookup_singleton_Some in H as [_ H]. congruence.
Qed.

Lemma numbered_ext r r' : numbered r -> numbered r' -> root r = root r' -> paths r = paths r' -> r = r'.
Proof.
  destruct r as [ro ps m], r' as [ro' ps' m']. unfold numbered. cbn. intros H H' -> ->. f_equal.
  apply map_eq. intros p. apply option_eq. intros i. by rewrite H, H'.
Qed.

Lemma numbered_NoDup r : numbered r -> NoDup (paths r).
Proof.
  intros Hn. apply NoDup_alt. intros i j p Hi%Hn Hj%Hn. congruence.
Qed.

(** loading a list of different paths numbers them in order *)
Lemma load_lines ps r : numbered r -> NoDup (paths r ++ ps) -> Forall valid_str ps ->
  numbered (foldl load_line r (map url_encode ps))
  /\ paths (foldl load_line r (map url_encode ps)) = paths r ++ ps
  /\ root (foldl load_line r (map url_encode ps)) = root r.
Proof.
  intros Hn Hnd Hv. revert r Hn Hnd. induction Hv as [|p t Hp _ IH]; intros r Hn Hnd.
  { cbn. by rewrite app_nil_r. }
  cbn [map foldl]. unfold load_line at 2 4 6. rewrite url_decode_encode by done.
  assert (by_path r !! p = None) as Hnone.
  { destruct (by_path r !! p) as [i|] eqn:Hi; [|done]. apply Hn in Hi.
    apply NoDup_app in Hnd as (_ & Hnd & _). exfalso. apply (Hnd p); [by eapply list_elem_of_lookup_2|left]. }
  rewrite Hnone.
  destruct (IH _ (numbered_add r p Hn Hnone)) as (H1 & H2 & H3); [cbn; by rewrite <- app_assoc|].
  split; [done|]. split; [|done]. rewrite H2. cbn. by rewrite <- app_assoc.
Qed.

Lemma reload r : numbered r -> Forall valid_str (paths r) ->
  foldl load_line (mkRegistry (root r) [] ∅) (map url_encode (paths r)) = r.
Proof.
  intros Hn Hv.
  destruct (load_lines (paths r) (mkRegistry (root r) [] ∅)) as (H1 & H2 & H3).
  - intros p i. cbn. by rewrite lookup_empty, lookup_nil.
  - by apply numbered_NoDup.
  - done.
  - by apply numbered_ext.
Qed.

(** ** Lemmas: paths stay under the served directory *)

Lemma path_text_snoc names name : path_text (names ++ [name]) = path_text names ++ [47] ++ name.
Proof. unfold path_text. rewrite bind_app. cbn. by rewrite app_nil_r. Qed.

Lemma trim_end_id_slash s c : c <> 47 -> trim_end_matches 47 (s ++ [c]) = s ++ [c].
Proof.
  intros Hc. unfold trim_end_matches. rewrite rev_app_distr. cbn [rev app trim_start_matches].
  rewrite (proj2 (Z.eqb_neq c 47)) by done. cbn [rev]. by rewrite rev_involutive.
Qed.

Lemma trim_end_safe path : safe_path path ->
  exists names, Forall proper_name names /\ trim_end_matches 47 path = path_text names.
Proof.
  intros [->|(names & Hne & Hok & ->)]; [by exists []|]. exists names. split; [done|].
  destruct names as [|n names _] using rev_ind; [done|]. rewrite path_text_snoc.
  apply Forall_app in Hok as [_ Hn]. apply Forall_cons_iff in Hn as [(Hn & _ & _ & Hs) _].
  destruct n as [|c n _] using rev_ind; [done|]. rewrite !app_assoc. apply trim_end_id_slash.
  apply Forall_app in Hs as [_ Hc]. by apply Forall_cons_iff in Hc as [? _].
Qed.

Lemma safe_text names : Forall proper_name names ->
  safe_path (if bool_decide (path_text names = []) then [47] else path_text names).
Proof.
  intros Hok. destruct names as [|n t]; [by left|]. rewrite bool_decide_false by done.
  right. by exists (n :: t).
Qed.

Lemma safe_child dir name : safe_path dir -> proper_name name ->
  safe_path (trim_end_matches 47 dir ++ [47] ++ name).
Proof.
  intros Hd Hn. destruct (trim_end_safe dir Hd) as (names & Hok & ->). rewrite <- path_text_snoc.
  right. exists (names ++ [name]). split; [by destruct names|]. split; [|done].
  apply Forall_app. by split; [|constructor].
Qed.

Lemma child_path_safe dir name : safe_path dir ->
  match child_path dir name with
  | Ok child => safe_path child
  | Err e => e = EACCES
  | Panic => False
  end.
Proof.
  intros Hd. unfold child_path. destruct (_ || _) eqn:Hb; [done|].
  repeat (apply orb_false_iff in Hb as [Hb ?]). rewrite !bool_decide_eq_false in *.
  apply safe_child; [done|]. repeat split; [done..|]. apply Forall_forall. intros c Hc ->.
  assert (existsb (fun c => c =? 47) name = true); [|congruence].
  apply existsb_exists. exists 47. by rewrite <- list_elem_of_In.
Qed.

Lemma after_slash_app s t : Forall (fun c => c <> 47) s -> after_slash (s ++ 47 :: t) = t.
Proof.
  induction 1 as [|c s Hc _ IH]; [done|]. cbn [app after_slash].
  by rewrite (proj2 (Z.eqb_neq c 47)).
Qed.

(** the parent is the text of the names before the last one *)
Lemma parent_safe path : safe_path path -> path <> [47] ->
  exists names, Forall proper_name names /\ parent_of path = path_text names.
Proof.
  intros [?|(names & Hne & Hok & ->)]; [done|intros _].
  destruct names as [|n names _] using rev_ind; [done|]. exists names.
  apply Forall_app in Hok as [Hok Hn]. split; [done|].
  apply Forall_cons_iff in Hn as [(_ & _ & _ & Hs) _].
  unfold parent_of. rewrite path_text_snoc, !rev_app_distr. cbn [rev app]. rewrite <- app_assoc. cbn [app].
  rewrite after_slash_app by by apply Forall_rev. apply rev_involutive.
Qed.

(** where a path is on the disk: the root, or names joined to it *)
Definition inside (root file : str) : Prop :=
  file = root \/ exists names, names <> [] /\ Forall proper_name names
                  /\ file = path_join root (join [47] names).

Lemma path_text_join n t : path_text (n :: t) = 47 :: join [47] (n :: t).
Proof.
  revert n. induction t as [|m t IH]; intros n; [cbn; by rewrite app_nil_r|].
  change (path_text (n :: m :: t)) with ([47] ++ n ++ path_text (m :: t)). by rewrite IH.
Qed.

Lemma fs_path_names r n t : Forall proper_name (n :: t) ->
  fs_path r (path_text (n :: t)) = path_join (root r) (join [47] (n :: t)).
Proof.
  intros Hok. unfold fs_path. rewrite path_text_join. cbn [trim_start_matches Z.eqb Pos.eqb].
  assert (exists c u, join [47] (n :: t) = c :: u /\ c <> 47) as (c & u & Hj & Hc).
  { apply Forall_cons_iff in Hok as [(Hn & _ & _ & Hs) _]. destruct n as [|c n]; [done|].
    apply Forall_cons_iff in Hs as [Hc _]. destruct t; cbn; eauto. }
  rewrite Hj. cbn [trim_start_matches]. rewrite (proj2 (Z.eqb_neq c 47)) by done.
  by rewrite bool_decide_false.
Qed.

Lemma fs_path_inside r path : safe_path path -> inside (root r) (fs_path r path).
Proof.
  intros [->|(names & Hne & Hok & ->)]; [by left|]. destruct names as [|n t]; [done|].
  rewrite fs_path_names by done. right. by exists (n :: t).
Qed.

(** ** Lemmas: what a call keeps *)

Section Keeps.
Context {F : Type} {FS : FileSystem F}.

(** [read_dir] lists names: never an empty one, [.], [..] or one with a slash *)
Context (Hnames : forall dir (f : F) names, fs_read_dir dir f = Some names -> Forall proper_name names).

(** [m] does not panic, keeps the registry well formed and only adds paths, and
    its result satisfies [Q] *)
Definition keeps {A} (m : FM A) (Q : A -> Prop) : Prop :=
  forall params r (f : F), registry_ok r -> reader_inv params ->
  exists out params' r' f', m (params, (r, f)) = (out, (params', (r', f')))
    /\ match out with Ok a => Q a | Err _ => True | Panic => False end
    /\ registry_ok r' /\ grown_from r r' /\ reader_inv params'.

Lemma grown_refl r : grown_from r r.
Proof. by split. Qed.
Lemma grown_trans r1 r2 r3 : grown_from r1 r2 -> grown_from r2 r3 -> grown_from r1 r3.
Proof. intros [H1 H2] [H3 H4]. split; [congruence|by etrans]. Qed.

Lemma keeps_bind {A B} (m : FM A) (k : A -> FM B) Q R :
  keeps m Q -> (forall a, Q a -> keeps (k a) R) -> keeps (m ≫= k) R.
Proof.
  intros Hm Hk params r f Hr Hp. unfold mbind, SM_bind.
  destruct (Hm params r f Hr Hp) as (out & params' & r' & f' & -> & Hq & Hr' & Hg & Hp').
  destruct out as [a|e|]; [|by exists (Err e), params', r', f'|done].
  destruct (Hk a Hq params' r' f' Hr' Hp') as (out & p2 & r2 & f2 & -> & H2 & H3 & H4 & H5).
  exists out, p2, r2, f2. split; [done|]. split; [done|]. split; [done|].
  split; [by eapply grown_trans|done].
Qed.

Lemma keeps_ret {A} (a : A) (Q : A -> Prop) : Q a -> keeps (mret a) Q.
Proof. intros Hq params r f Hr Hp. by exists (Ok a), params, r, f. Qed.

Lemma keeps_lift {A} (m : res ServiceError A) (Q : A -> Prop) :
  match m with Ok a => Q a | Err _ => True | Panic => False end -> keeps (sm_lift m) Q.
Proof. intros Hq params r f Hr Hp. by exists m, params, r, f. Qed.

Lemma keeps_posix {A} (m : res Z A) (Q : A -> Prop) :
  match m with Ok a => Q a | Err _ => True | Panic => False end -> keeps (posix_lift m) Q.
Proof. intros Hq. apply keeps_lift. by destruct m. Qed.

Lemma keeps_ok_or {A} (o : option A) e (Q : A -> Prop) :
  (forall a, o = Some a -> Q a) -> keeps (posix_lift (ok_or o e)) Q.
Proof. intros Hq. apply keeps_posix. destruct o; cbn; auto. Qed.

Lemma keeps_ask {A} (q : F -> A) (Q : A -> Prop) : (forall f, Q (q f)) -> keeps (ask q) Q.
Proof. intros Hq params r f Hr Hp. by exists (Ok (q f)), params, r, f. Qed.

Lemma keeps_change {A} (m : F -> A * F) : keeps (change m) (fun _ => True).
Proof.
  intros params r f Hr Hp. unfold change. destruct (m f) as [a f'].
  by exists (Ok a), params, r, f'.
Qed.

Lemma keeps_param ty : match ty with TStruct _ | TArray _ => False | _ => True end ->
  keeps (param ty) (fun _ => True).
Proof.
  intros Hty params r f Hr Hp. pose proof (read_type_base 1 ty params Hp) as Hb.
  unfold param, read_param.
  assert (good_step true params (read_type 1 ty params)) as (out & p' & -> & Hnp & Hd & He & _)
    by (by destruct ty).
  exists (map_err (fun err => Internal ($"can't read parameter: " ++ RpcReadError_fmt err)) out), p', r, f.
  split; [done|]. split; [by destruct out|]. split; [done|]. split; [done|].
  unfold reader_inv. rewrite Hd. lia.
Qed.

Lemma keeps_number ty : match ty with TStruct _ | TArray _ => False | _ => True end ->
  keeps (read_number ty) (fun _ => True).
Proof.
  intros Hty. eapply keeps_bind; [by apply keeps_param|]. intros v _.
  destruct v; first [by apply keeps_ret|by apply keeps_lift].
Qed.

Lemma keeps_string : keeps ftp_read_string (fun _ => True).
Proof.
  eapply keeps_bind; [by apply keeps_param|]. intros v _.
  destruct v; first [by apply keeps_ret|by apply keeps_lift].
Qed.

Lemma keeps_registry : keeps get_registry registry_ok.
Proof. intros params r f Hr Hp. by exists (Ok r), params, r, f. Qed.

Lemma register_ok path r (f : F) : registry_ok r -> safe_path path -> by_path r !! path = None ->
  exists out r' f', register path (r, f) = (out, (r', f')) /\ out <> Panic
    /\ registry_ok r' /\ grown_from r r'.
Proof.
  intros [Hn Hs] Hp Hnone. unfold register. destruct (fs_append_line _ _ f) as [[] f'].
  - do 3 eexists. split; [reflexivity|]. split; [done|]. split; [split|split; [done|]].
    + by apply numbered_add.
    + apply Forall_app. by split; [|constructor].
    + by apply prefix_app_r.
  - do 3 eexists. split; [reflexivity|]. by split.
Qed.

Lemma keeps_number_of names : Forall proper_name names ->
  keeps (on_registry (number_of (path_text names))) (fun _ => True).
Proof.
  intros Hok params r f Hr Hp. unfold on_registry, number_of. pose proof (safe_text names Hok) as Hs.
  set (path := if bool_decide (path_text names = []) then [47] else path_text names) in *.
  destruct (by_path r !! path) as [i|] eqn:Hi; [by exists (Ok i), params, r, f|].
  destruct (_ || _); [by exists (Err (ErrPosix ENOENT)), params, r, f|].
  destruct (register_ok path r f Hr Hs Hi) as (out & r' & f' & -> & Hout & Hr' & Hg).
  exists (map_err ErrPosix (map_err (fun _ => EIO) out)), params, r', f'. split; [done|].
  split; [by destruct out|done].
Qed.

Lemma keeps_number_safe path : safe_path path ->
  keeps (on_registry (number_of path)) (fun _ => True).
Proof.
  intros [->|(names & _ & Hok & ->)]; [|by apply keeps_number_of].
  apply (keeps_number_of [] ltac:(constructor)).
Qed.

Lemma keeps_dir_names errno file : keeps (dir_names errno file) (Forall proper_name).
Proof.
  unfold dir_names. eapply keeps_bind.
  - apply (keeps_ask _ (fun o => forall names, o = Some names -> Forall proper_name names)).
    intros f names. unfold sorted_dir_names. destruct (fs_read_dir file f) as [l|] eqn:Hl; [|done].
    intros [= <-]. rewrite (merge_sort_Permutation str_le). by eapply Hnames.
  - intros o Ho. by apply keeps_ok_or.
Qed.

Lemma keeps_child_numbers path names : safe_path path -> keeps (child_numbers path names) (fun _ => True).
Proof.
  intros Hp. induction names as [|name t IH]; [by apply keeps_ret|]. cbn [child_numbers].
  eapply keeps_bind; [apply keeps_posix|intros child Hc].
  { pose proof (child_path_safe path name Hp) as H. destruct (child_path path name); [exact H|done..]. }
  eapply keeps_bind; [by apply keeps_number_safe|intros n _].
  eapply keeps_bind; [exact IH|intros rest _]. by apply keeps_ret.
Qed.

Lemma keeps_number_reply path : keeps (on_registry (number_of path)) (fun _ => True) ->
  keeps (number_reply path) (fun _ => True).
Proof. intros H. eapply keeps_bind; [exact H|intros n _]. by apply keeps_ret. Qed.

(** function 7: the child with a given place in the listing *)
Lemma keeps_nth path names i : safe_path path -> Forall proper_name names ->
  keeps (name ← posix_lift (ok_or (i ← try_u 64 i; names !! Z.to_nat i) ENOTDIR);
         number_reply (trim_end_matches 47 path ++ [47] ++ name)) (fun _ => True).
Proof.
  intros Hp Hn. eapply keeps_bind.
  - apply (keeps_ok_or _ _ proper_name). intros name Hi. destruct (try_u 64 i) as [j|]; [|done].
    cbn in Hi. by eapply Forall_lookup_1.
  - intros name Hname. by apply keeps_number_reply, keeps_number_safe, safe_child.
Qed.

(** applies the rules above where the result does not matter *)
Ltac keep := repeat match goal with
  | |- keeps (mbind _ (posix_lift (ok_or (mbind _ (try_u _ _)) _))) _ => by apply keeps_nth
  | |- keeps (mbind _ _) _ => eapply keeps_bind; [|intros ? ?]
  | |- keeps (mret _) _ => by apply keeps_ret
  | |- keeps (ask _) _ => by apply (keeps_ask _ (fun _ => True))
  | |- keeps (change _) _ => apply keeps_change
  | |- keeps (param _) _ => by apply keeps_param
  | |- keeps (read_number _) _ => by apply keeps_number
  | |- keeps ftp_read_string _ => apply keeps_string
  | |- keeps get_registry _ => apply keeps_registry
  | |- keeps (dir_names _ _) _ => apply keeps_dir_names
  | |- keeps (child_numbers _ _) _ => by apply keeps_child_numbers
  | |- keeps (posix_lift (Err _)) _ => by apply keeps_posix
  | |- keeps (posix_lift (ok_or ?o _)) _ => by apply (keeps_ok_or _ _ (fun _ => True))
  | |- keeps (sm_lift (Err _)) _ => by apply keeps_lift
  | |- keeps (if ?b then _ else _) _ => destruct b eqn:?
  end.

Lemma keeps_child path name : safe_path path -> keeps (posix_lift (child_path path name)) safe_path.
Proof.
  intros Hp. apply keeps_posix. pose proof (child_path_safe path name Hp) as H.
  destruct (child_path path name); [exact H|done..].
Qed.

Lemma keeps_parent path : safe_path path -> path <> [47] ->
  keeps (number_reply (parent_of path)) (fun _ => True).
Proof.
  intros Hp Hne. apply keeps_number_reply. destruct (parent_safe path Hp Hne) as (names & Hok & ->).
  by apply keeps_number_of.
Qed.

Lemma keeps_attributes index path file : safe_path path ->
  keeps (serve_attributes index path file) (fun _ => True).
Proof.
  intros Hp. unfold serve_attributes. cbv zeta. keep.
  apply keeps_parent; [done|]. by rewrite bool_decide_eq_false in *.
Qed.

Lemma keeps_read file : keeps (serve_read file) (fun _ => True).
Proof. unfold serve_read. cbv zeta. keep. Qed.

Lemma keeps_create index path file : safe_path path -> keeps (serve_create index path file) (fun _ => True).
Proof.
  intros Hp. unfold serve_create. cbv zeta. keep; [by apply keeps_child|].
  by apply keeps_number_reply, keeps_number_safe.
Qed.

Lemma keeps_modify index file : keeps (serve_modify index file) (fun _ => True).
Proof. unfold serve_modify. cbv zeta. keep. Qed.

Lemma keeps_path_of r file_no : registry_ok r -> keeps (posix_lift (path_of r file_no)) safe_path.
Proof.
  intros [_ Hs]. apply keeps_ok_or. intros path. destruct (try_u 64 file_no) as [i|]; [|done].
  cbn. intros Hi. by eapply Forall_lookup_1.
Qed.

Lemma keeps_serve index : keeps (ftp_serve index) (fun _ => True).
Proof.
  unfold ftp_serve. cbv zeta. keep; [by apply keeps_path_of|..].
  - by apply keeps_attributes.
  - apply keeps_read.
  - by apply keeps_create.
  - apply keeps_modify.
Qed.

(** ** Lemmas: discovering the files *)

(** writing a line to the list file does not make directories *)
Context (Hdirs : forall p line (f f' : F) b, fs_append_line p line f = (b, f') ->
  forall q, fs_is_dir q f' = fs_is_dir q f).
Context (top : str) (depth : nat).

(** no directory is deeper under the root than [depth] *)
Definition shallow (f : F) : Prop := forall names r, Forall proper_name names -> root r = top ->
  fs_is_dir (fs_path r (path_text names)) f = true -> (length names <= depth)%nat.

(** a step that ends, keeps the registry well formed and only adds paths *)
Definition ends_ok {A} (r : FileRegistry) (o : option (res unit A * (FileRegistry * F))) : Prop :=
  exists out r' f', o = Some (out, (r', f')) /\ out <> Panic /\ registry_ok r' /\ grown_from r r'
    /\ shallow f'.

Lemma ends_ok_grown {A} r r' (o : option (res unit A * (FileRegistry * F))) :
  grown_from r r' -> ends_ok r' o -> ends_ok r o.
Proof.
  intros Hg (out & r2 & f2 & H1 & H2 & H3 & H4 & H5). exists out, r2, f2.
  split; [done|]. split; [done|]. split; [done|]. split; [by eapply grown_trans|done].
Qed.

Lemma ends_ok_here {A} (out : res unit A) r (f : F) : out <> Panic -> registry_ok r -> shallow f ->
  ends_ok r (Some (out, (r, f))).
Proof. intros H1 H2 H3. exists out, r, f. split; [done|]. split; [done|]. by split; [|split; [apply grown_refl|]]. Qed.

Lemma register_ends path r (f : F) : registry_ok r -> safe_path path -> by_path r !! path = None ->
  shallow f -> ends_ok r (Some (register path (r, f))).
Proof.
  intros Hr Hp Hnone Hf. destruct (register_ok path r f Hr Hp Hnone) as (out & r' & f' & H1 & H2 & H3 & H4).
  exists out, r', f'. rewrite H1. split; [done|]. split; [done|]. split; [done|]. split; [done|].
  unfold register in H1. destruct (fs_append_line _ _ f) as [b f2] eqn:Ha.
  assert (f2 = f') as <- by (destruct b; by injection H1).
  intros names r2 Hok Hroot Hd. rewrite (Hdirs _ _ _ _ _ Ha) in Hd. by apply (Hf names r2).
Qed.

Lemma discover_names_ok go names l r (f : F) :
  (forall name r f, proper_name name -> registry_ok r -> root r = top -> shallow f ->
     (length (names ++ [name]) <= depth)%nat -> ends_ok r (go (path_text (names ++ [name])) (r, f))) ->
  Forall proper_name names -> Forall proper_name l -> registry_ok r -> root r = top -> shallow f ->
  ends_ok r (discover_names go (path_text names) l (r, f)).
Proof.
  intros Hgo Hnames' Hl. revert r f. induction Hl as [|name t Hn _ IH]; intros r f Hr Hroot Hf.
  { by apply ends_ok_here. }
  cbn [discover_names]. rewrite <- path_text_snoc.
  case_bool_decide; [by apply IH|].
  set (path := path_text (names ++ [name])).
  assert (Forall proper_name (names ++ [name])) as Hok by (apply Forall_app; by split; [|constructor]).
  assert (safe_path path) as Hs by (right; exists (names ++ [name]); by split; [destruct names|]).
  cbn [fst].
  match goal with |- ends_ok r (let '(_, _) := ?x in _) =>
    assert (ends_ok r (Some x)) as (out & r' & f' & Hreg & Hout & Hr' & Hg & Hf')
  end.
  { match goal with |- context [match ?o with Some _ => _ | None => _ end] => destruct o as [i|] eqn:Hi end;
      [by apply ends_ok_here|by apply register_ends]. }
  apply (inj Some) in Hreg. rewrite Hreg. destruct out as [i|e|]; [| |done].
  2: { apply (ends_ok_grown r r' _ Hg). by apply ends_ok_here. }
  apply (ends_ok_grown r r' _ Hg). assert (root r' = top) as Hroot' by (destruct Hg; congruence).
  cbn [fst snd]. destruct (fs_is_dir (fs_path r' path) f') eqn:Hd; [|by apply IH].
  destruct (Hgo name r' f' Hn Hr' Hroot' Hf' (Hf' _ _ Hok Hroot' Hd))
    as (out & r2 & f2 & Hgo2 & Ho2 & Hr2 & Hg2 & Hf2).
  fold path in Hgo2. rewrite Hgo2. apply (ends_ok_grown r' r2 _ Hg2). destruct out as [u|e|]; [| |done].
  - apply IH; [done|destruct Hg2; congruence|done].
  - by apply ends_ok_here.
Qed.

Lemma discover_ok fuel names r (f : F) : Forall proper_name names -> registry_ok r -> root r = top ->
  shallow f -> (length names <= depth)%nat -> (depth - length names < fuel)%nat ->
  ends_ok r (discover fuel (path_text names) (r, f)).
Proof.
  revert names r f. induction fuel as [|fuel IH]; intros names r f Hn Hr Hroot Hf Hlen Hfuel; [lia|].
  cbn [discover fst snd]. destruct (sorted_dir_names _ f) as [l|] eqn:Hl; [|by apply ends_ok_here].
  apply discover_names_ok; try done.
  - intros name r1 f1 Hp Hr1 Hroot1 Hf1 Hlen1. rewrite length_app in *. cbn [length] in *.
    apply IH; try done; [apply Forall_app; by split; [|constructor]|rewrite length_app; cbn; lia..].
  - unfold sorted_dir_names in Hl. destruct (fs_read_dir _ f) as [l0|] eqn:Hd; [|done].
    injection Hl as <-. rewrite (merge_sort_Permutation str_le). by eapply Hnames.
Qed.

End Keeps.

(** ** A file system in memory *)

Record mem : Type := mkMem {
  entries : gmap str (option (list Z));   (* a directory or the bytes of a file *)
  lists : gmap str (list str);            (* the lines of list files *)
}.

#[global] Instance proper_name_dec name : Decision (proper_name name).
Proof. unfold proper_name. apply _. Defined.

Definition mem_set (p : str) (e : option (list Z)) (m : mem) : mem :=
  mkMem (<[p := e]> (entries m)) (lists m).
Definition mem_add (p : str) (e : option (list Z)) (m : mem) : bool * mem :=
  match entries m !! p with None => (true, mem_set p e m) | _ => (false, m) end.
Definition mem_remove (p : str) (m : mem) : bool * mem :=
  match entries m !! p with Some _ => (true, mkMem (delete p (entries m)) (lists m)) | None => (false, m) end.
Definition mem_data (p : str) (m : mem) : option (list Z) := e ← entries m !! p; e.
Definition mem_write (p : str) (g : list Z -> list Z) (m : mem) : option Z * mem :=
  match mem_data p m with
  | Some d => (Some (Z.of_nat (length (g d))), mem_set p (Some (g d)) m)
  | None => (None, m)
  end.
Definition pad_to (n : Z) (d : list Z) : list Z :=
  take (Z.to_nat n) d ++ replicate (Z.to_nat n - length d) 0.

#[global] Instance mem_fs : FileSystem mem := {
  fs_exists p m := bool_decide (is_Some (entries m !! p));
  fs_is_dir p m := bool_decide (entries m !! p = Some None);
  fs_is_file p m := bool_decide (is_Some (mem_data p m));
  fs_read_dir p m :=
    if bool_decide (entries m !! p = Some None)
    then Some (filter proper_name (omap (strip_prefix (p ++ [47])) (map_to_list (entries m)).*1))
    else None;
  fs_len p m := Z.of_nat ∘ length <$> mem_data p m;
  fs_modified p m := None;
  fs_access mode p m := bool_decide (is_Some (entries m !! p));
  fs_read p from len m := map (as_u 8) ∘ take (Z.to_nat len) ∘ drop (Z.to_nat from) <$> mem_data p m;
  fs_create_dir p := mem_add p None;
  fs_create_new p := mem_add p (Some []);
  fs_set_modified p t m := (bool_decide (is_Some (entries m !! p)), m);
  fs_remove_dir := mem_remove;
  fs_remove_file := mem_remove;
  fs_set_len p n := mem_write p (pad_to n);
  fs_write p pos data := mem_write p (fun d =>
    match pos with
    | None => d ++ data
    | Some n => pad_to n d ++ data ++ drop (Z.to_nat n + length data) d
    end);
  fs_create_append p m := (true, mkMem (entries m) (<[p := default [] (lists m !! p)]> (lists m)));
  fs_lines p m := lists m !! p;
  fs_append_line p line m :=
    (true, mkMem (entries m) (<[p := default [] (lists m !! p) ++ [line]]> (lists m)));
}.

Lemma mem_names dir (m : mem) names : fs_read_dir dir m = Some names -> Forall proper_name names.
Proof.
  cbn. case_bool_decide; [|done]. intros [= <-]. apply Forall_forall. intros name Hn.
  by apply list_elem_of_filter in Hn as [? _].
Qed.

(** a served directory with nothing in it *)
Definition fresh_registry : FileRegistry := mkRegistry $"/srv" [[47]] {[ [47] := O ]}.
Definition fresh_mem : mem := mkMem {[ $"/srv" := None ]} {[ $"/srv/.ubfs" := [url_encode [47]] ]}.

Lemma fresh_ok : registry_ok fresh_registry.
Proof.
  split; [|constructor; [by left|constructor]]. intros path i. cbn.
  rewrite lookup_singleton_Some, list_lookup_singleton_Some. naive_solver.
Qed.

(** ** Properties *)

(** Calls of the file service.  Whatever the function and the bytes of the
    request, and whatever the file system does (its listings have names in
    them), a call does not panic; it keeps every file that had a number under
    that number, and every numbered path, old and new, is on the disk the served
    directory or a chain of names joined to it: it can not be left. *)
Theorem ftp_call_safe {F} {FS : FileSystem F} index params r (f : F) :
  (forall dir (f : F) names, fs_read_dir dir f = Some names -> Forall proper_name names) ->
  registry_ok r -> reader_inv params ->
  exists call params' r' f', ftp_call index (params, (r, f)) = Some (call, (params', (r', f')))
    /\ (call = None <-> index ∉ FUNCTIONS)
    /\ registry_ok r' /\ paths r `prefix_of` paths r'
    /\ forall n path, paths r' !! n = Some path -> inside (root r) (fs_path r' path).
Proof.
  intros Hnames Hr Hp.
  assert (forall r', registry_ok r' -> root r' = root r ->
            forall n path, paths r' !! n = Some path -> inside (root r) (fs_path r' path)) as Hin.
  { intros r' [_ Hs] <- n path Hn. apply fs_path_inside. by eapply Forall_lookup_1. }
  unfold ftp_call. case_bool_decide as Hi; cbn [negb].
  - destruct (keeps_serve Hnames index params r f Hr Hp)
      as (out & params' & r' & f' & -> & Hout & Hr' & [Hroot Hg] & _).
    destruct out as [reply|e|]; [| |done]; do 4 eexists; (split; [reflexivity|]);
      (split; [by split|]); eauto.
  - do 4 eexists. split; [reflexivity|]. split; [done|]. eauto.
Qed.

Lemma ftp_call_safe_witness :
  exists call params' r' f',
    ftp_call 31 (reader_new [0; 97; 0], (fresh_registry, fresh_mem)) = Some (call, (params', (r', f')))
    /\ (call = None <-> 31 ∉ FUNCTIONS)
    /\ registry_ok r' /\ [[47]] `prefix_of` paths r'
    /\ forall n path, paths r' !! n = Some path -> inside $"/srv" (fs_path r' path).
Proof.
  apply (ftp_call_safe 31 (reader_new [0; 97; 0]) fresh_registry fresh_mem mem_names);
    [apply fresh_ok|unfold reader_inv; cbn; lia].
Defined.



(** Starting the service.  When the directories are at most [depth] levels
    deep, and the list file has the encoded texts of different paths under the
    served directory (a new one is empty), opening the registry ends with any
    fuel above [depth], does not panic, and when it succeeds the registry is well
    formed and the paths of the list file keep their numbers. *)
Theorem open_ok {F} {FS : FileSystem F} fuel top depth ps (f f1 : F) :
  (forall dir (f : F) names, fs_read_dir dir f = Some names -> Forall proper_name names) ->
  (forall p line (f f' : F) b, fs_append_line p line f = (b, f') ->
     forall q, fs_is_dir q f' = fs_is_dir q f) ->
  shallow top depth f1 ->
  fs_create_append (path_join top LIST_FILE_NAME) f = (true, f1) ->
  fs_lines (path_join top LIST_FILE_NAME) f1 = Some (map url_encode ps) ->
  NoDup ps -> Forall valid_str ps -> Forall safe_path ps -> (depth < fuel)%nat ->
  exists out f', open fuel top f = Some (out, f')
    /\ match out with
       | Ok r => registry_ok r /\ root r = top /\ ps `prefix_of` paths r
       | Err _ => True
       | Panic => False
       end.
Proof.
  intros Hnames Hdirs Hf1 Hopen Hlines Hnd Hv Hs Hfuel. unfold open. rewrite Hopen. cbn [negb].
  rewrite Hlines.
  destruct (load_lines ps (mkRegistry top [] ∅)) as (Hn & Hp & Hroot); [|done..|].
  { intros p i. cbn. by rewrite lookup_empty, lookup_nil. }
  set (r0 := foldl load_line (mkRegistry top [] ∅) (map url_encode ps)) in *. cbn in Hp, Hroot.
  assert (registry_ok r0) as Hr0 by (split; [done|by rewrite Hp]).
  match goal with |- context [let '(_, _) := ?x in _] =>
    assert (ends_ok top depth r0 (Some x)) as (out & r1 & f2 & Hx & Hout & Hr1 & [Hg1 Hg2] & Hf2)
  end.
  { case_bool_decide as He; [|by apply ends_ok_here].
    apply register_ends; [done|done|by left| |done].
    destruct (by_path r0 !! [47]) as [i|] eqn:Hi; [|done]. apply Hn in Hi. by rewrite He in Hi. }
  apply (inj Some) in Hx. rewrite Hx. destruct out as [i|e|]; [| |done]; [|by exists (Err tt), f2].
  destruct (discover_ok Hnames Hdirs top depth fuel [] r1 f2)
    as (out & r2 & f3 & Hd & Ho & Hr2 & [Hg3 Hg4] & _);
    [constructor|done|congruence|done|cbn; lia|cbn; lia|].
  cbn in Hd. rewrite Hd. destruct out as [u|e|]; [| |done]; do 2 eexists; (split; [reflexivity|]); [|done].
  cbn. split; [done|]. split; [congruence|]. rewrite <- Hp. by etrans.
Qed.

Lemma open_ok_witness :
  exists out f', open 1 $"/srv" fresh_mem = Some (out, f')
    /\ match out with
       | Ok r => registry_ok r /\ root r = $"/srv" /\ [[47]] `prefix_of` paths r
       | Err _ => True
       | Panic => False
       end.
Proof.
  eapply (open_ok 1 $"/srv" 0 [[47]] fresh_mem); [apply mem_names| | |reflexivity|reflexivity|..].
  - intros p line f f' b [= _ <-] q. done.
  - intros [|n t] r Hok Hroot; [cbn; lia|]. rewrite fs_path_names, Hroot by done. cbn.
    rewrite lookup_insert_ne; [by rewrite lookup_empty|]. done.
  - repeat constructor. apply not_elem_of_nil.
  - unfold valid_str. apply (bool_decide_eq_true_1 _). vm_compute. reflexivity.
  - constructor; [by left|constructor].
  - lia.
Defined.
