(* ===== verification/FtpBus.v ===== *)
(** * File access over the bus

    Composes [src/rpc/ftp.rs] with the bridge of [src/rpc/service.rs] and the
    calls of [src/rpc/device.rs]: a server is the file service behind a bridge
    with its address and path, and the registry and the files it changes.  The
    bridge calls the service at most once for a packet (a namespace that it
    returns is a string without state), so feeding a packet is feeding it to the
    bridge with the service as it is, and the state afterwards is that of this
    one call.  What the operating system promises about files is the class
    [HostFiles]. *)

From stdpp Require Import base list numbers option strings gmap sorting.
From Stdlib Require Import ZArith Lia.
From S2P Require Import Prelude RustStd Tools VarInt Packet RpcTools Bus Service Device Ftp.

(** ** The server *)

Section Server.
Context {NB : NumBigint} {F : Type} {FS : FileSystem F}.

(** the service as it answers in a state; a panic has no answer, see [ftp_feed] *)
Definition ftp_service (st : FileRegistry * F) : UbService := MkService (fun index params =>
  match ftp_call index (params, st) with
  | Some (call, (params, _)) => (call, params)
  | None => (None, params)
  end).

Record FtpServer : Type := mkFtpServer {
  ftp_address : option Z;
  ftp_path : list Z;
  ftp_state : FileRegistry * F;
}.

Definition ftp_bridge (s : FtpServer) : UartbusServiceBridge :=
  bridge_new (ftp_service (ftp_state s)) (ftp_address s) (ftp_path s).

Definition with_state (st : FileRegistry * F) (s : FtpServer) : FtpServer :=
  mkFtpServer (ftp_address s) (ftp_path s) st.

(** the function and the parameters with which [feed_packet] calls the service *)
Definition ftp_request (s : FtpServer) (raw : list Z) : option (Z * PacketReader) :=
  match parsed_new raw with
  | Ok request =>
    if match ftp_address s with Some addr => negb (addr =? to request) | None => false end then None
    else if negb (starts_with (payload request) (ftp_path s)) then None
    else index ← payload request !! length (ftp_path s);
         Some (index, from_slice (drop (length (ftp_path s) + 1) (payload request)))
  | _ => None
  end.

Definition ftp_feed (raw : list Z) (s : FtpServer) : option (res never (list bridge_output)) * FtpServer :=
  match ftp_request s raw with
  | Some (index, params) =>
    match ftp_call index (params, ftp_state s) with
    | Some (_, (_, st)) => (feed_packet (ftp_bridge s) raw, with_state st s)
    | None => (Some Panic, s)
    end
  | None => (feed_packet (ftp_bridge s) raw, s)
  end.

(** the packets of the bus one after the other *)
Fixpoint ftp_run (raws : list (list Z)) (s : FtpServer)
    : list (option (res never (list bridge_output))) * FtpServer :=
  match raws with
  | [] => ([], s)
  | raw :: t =>
    let '(out, s) := ftp_feed raw s in
    let '(outs, s) := ftp_run t s in
    (out :: outs, s)
  end.

(** ** A client and the server on one bus *)

Definition responses (out : option (res never (list bridge_output))) : list bus_op :=
  match out with
  | Some (Ok outs) => omap (fun o => match o with Response wire => Some (DoPacket wire) | _ => None end) outs
  | _ => []
  end.

(** a client calls a function at the path of the server; the request reaches the
    server, and its response the client; [None]: nothing could be sent *)
Definition remote_call (send : list Z -> option str) (d : UartBusDevice) (f : UbFunction)
    (params : list RpcValue) (s : FtpServer) (b : Inner) : option (call_end * FtpServer) :=
  match append_elements params assembler_new with
  | (Ok _, assembler) =>
    let request := (ftp_path s ++ [fn_index f]) ++ buffer assembler in
    match to_packet (device_address d) (from_address b) [VBytes request] with
    | Ok packet =>
      raw ← get_valid_packet packet;
      let '(out, s) := ftp_feed raw s in
      e ← call send (fun _ => responses out) d (ftp_path s) f params b;
      Some (e, s)
    | _ => None
    end
  | _ => None
  end.

(** what the functions of the service return; function 4 has a namespace *)
Definition ftp_returns (index : Z) : UbRet :=
  if bool_decide (index ∈ [1; 8; 9; 32; 33]) then RetValue TBool
  else if index =? 3 then RetValue TS8
  else if index =? 6 then RetValue (TArray TVUnsigned)
  else if index =? 20 then RetValue TBytes
  else if bool_decide (index ∈ [34; 35]) then RetVoid
  else RetValue TVUnsigned.

Definition ftp_function (index : Z) : UbFunction := posix (function_new index (ftp_returns index)).

(** how a client sees the outcome of a function at the server *)
Definition seen_as (out : res ServiceError ServiceReply) (r : res RpcError (option RpcValue)) : Prop :=
  match out with
  | Ok (ReplyValue v) => r = Ok (Some v)
  | Ok ReplyVoid => r = Ok None
  | Err (ErrPosix errno) => r = Err (Posix errno)
  | Err (Internal _) => exists msg, r = Err (Transaction msg)
  | _ => False
  end.

End Server.
Arguments FtpServer F : clear implicits.

(** ** What the operating system promises *)

Class HostFiles (F : Type) {FS : FileSystem F} : Prop := {
  host_names : forall dir (f : F) names, fs_read_dir dir f = Some names -> Forall proper_name names;
  host_bytes : forall p from len (f : F) d, fs_read p from len f = Some d -> bytes d;
  host_len : forall p (f : F) n, fs_len p f = Some n -> 0 <= n;
  host_modified : forall p (f : F) n, fs_modified p f = Some n -> 0 <= n;
  host_set_len : forall p n (f : F), match fs_set_len p n f with (Some l, _) => 0 <= l | _ => True end;
  host_write : forall p pos d (f : F), match fs_write p pos d f with (Some l, _) => 0 <= l | _ => True end;
}.

#[global] Instance mem_host : HostFiles mem.
Proof.
  split; cbn.
  - apply mem_names.
  - intros p from len m d Hd. destruct (mem_data p m) as [l|]; [|done]. injection Hd as <-.
    apply Forall_map, Forall_true. intros z. apply as_u_range. lia.
  - intros p m n Hn. destruct (mem_data p m); [|done]. injection Hn as <-. cbn. lia.
  - done.
  - intros p n m. unfold mem_write. destruct (mem_data p m); [lia|done].
  - intros p pos d m. unfold mem_write. destruct (mem_data p m); [lia|done].
Qed.

(** ** Lemmas: the outcomes of the functions *)

Section Gives.
Context {F : Type} {FS : FileSystem F} {HF : HostFiles F}.

(** the results of [m] satisfy [Q], its error numbers fit in a byte of their own *)
Definition gives {A} (m : FM (F := F) A) (Q : A -> Prop) : Prop :=
  forall s, match (m s).1 with Ok a => Q a | Err (ErrPosix e) => 0 < e < 256 | _ => True end.

Lemma gives_bind {A B} (m : FM A) (k : A -> FM B) Q R :
  gives m Q -> (forall a, Q a -> gives (k a) R) -> gives (m ≫= k) R.
Proof.
  intros Hm Hk s. unfold mbind, SM_bind. specialize (Hm s).
  destruct (m s) as [[a|e|] s']; cbn in *; [by apply Hk|done|done].
Qed.

Lemma gives_any {A} (m : FM A) Q : gives m Q -> gives m (fun _ => True).
Proof. intros Hm s. specialize (Hm s). by destruct (m s).1. Qed.

Lemma gives_ret {A} (a : A) (Q : A -> Prop) : Q a -> gives (mret a) Q.
Proof. by intros Hq s. Qed.

Lemma gives_internal {A} msg (Q : A -> Prop) : gives (sm_lift (Err (Internal msg))) Q.
Proof. by intros s. Qed.

Lemma gives_posix {A} e (Q : A -> Prop) : 0 < e < 256 -> gives (posix_lift (Err e)) Q.
Proof. by intros He s. Qed.

Lemma gives_ok_or {A} (o : option A) e (Q : A -> Prop) :
  0 < e < 256 -> (forall a, o = Some a -> Q a) -> gives (posix_lift (ok_or o e)) Q.
Proof. intros He Hq s. destruct o; cbn; auto. Qed.

Lemma gives_ask {A} (q : F -> A) (Q : A -> Prop) : (forall f, Q (q f)) -> gives (ask q) Q.
Proof. intros Hq s. apply Hq. Qed.

Lemma gives_change {A} (m : F -> A * F) (Q : A -> Prop) : (forall f, Q (m f).1) -> gives (change m) Q.
Proof. intros Hq [params [r f]]. cbn. specialize (Hq f). by destruct (m f). Qed.

Lemma gives_registry : gives get_registry (fun _ => True).
Proof. by intros s. Qed.

Lemma gives_param ty : gives (param ty) (fun _ => True).
Proof.
  intros [params st]. unfold param, read_param.
  destruct (read_type 1 ty params) as [[[v|e|] p]|]; done.
Qed.

Lemma gives_number ty : gives (read_number ty) (fun _ => True).
Proof.
  eapply gives_bind; [apply gives_param|]. intros v _.
  destruct v; first [by apply gives_ret|by apply gives_internal].
Qed.

Lemma gives_string : gives ftp_read_string (fun _ => True).
Proof. eapply gives_bind; [apply gives_param|]. intros v _.
  destruct v; first [by apply gives_ret|by apply gives_internal]. Qed.

Lemma gives_number_of path : gives (on_registry (number_of path)) (fun _ => True).
Proof.
  intros [params [r f]]. unfold on_registry, number_of.
  destruct (by_path r !! _); [done|]. destruct (_ || _); [done|]. unfold register.
  by destruct (fs_append_line _ _ f) as [[] f'].
Qed.

Lemma gives_child path name : gives (posix_lift (child_path path name)) (fun _ => True).
Proof. intros s. unfold child_path. by destruct (_ || _). Qed.

Lemma gives_path_of r n : gives (posix_lift (path_of r n)) (fun _ => True).
Proof. intros s. unfold path_of. by destruct (_ ≫= _). Qed.

(** a reply of function [index] *)
Definition reply_typed (index : Z) (reply : ServiceReply) : Prop :=
  match reply with
  | ReplyVoid => ftp_returns index = RetVoid
  | ReplyValue v => exists ty, ftp_returns index = RetValue ty /\ has_type v ty
  | ReplyNamespace _ => index = 4
  | ReplyNoReturn => False
  end.

Lemma gives_vu index n : ftp_returns index = RetValue TVUnsigned -> 0 <= n ->
  gives (mret (vu n)) (reply_typed index).
Proof. intros Hi Hn. apply gives_ret. exists TVUnsigned. by split. Qed.

Lemma gives_number_reply index path : ftp_returns index = RetValue TVUnsigned ->
  gives (number_reply path) (reply_typed index).
Proof.
  intros Hi. eapply gives_bind; [apply gives_number_of|]. intros n _. apply gives_vu; [done|lia].
Qed.

Lemma gives_child_numbers path names :
  gives (child_numbers path names) (fun vs => has_type (VArray vs) (TArray TVUnsigned)).
Proof.
  induction names as [|name t IH]; [by apply gives_ret|]. cbn [child_numbers].
  eapply gives_bind; [apply gives_child|intros child _].
  eapply gives_bind; [apply gives_number_of|intros n _].
  eapply gives_bind; [exact IH|intros rest Hr]. apply gives_ret. split; [cbn; lia|done].
Qed.

Lemma gives_dir_names errno file : 0 < errno < 256 -> gives (dir_names errno file) (fun _ => True).
Proof.
  intros He. eapply gives_bind; [by apply (gives_ask _ (fun _ => True))|]. intros o _.
  by apply gives_ok_or.
Qed.

Ltac give := repeat match goal with
  | |- gives (mbind _ (read_number _)) _ => eapply gives_bind; [apply gives_number|intros ? _]
  | |- gives (mbind _ ftp_read_string) _ => eapply gives_bind; [apply gives_string|intros ? _]
  | |- gives (mbind _ (param _)) _ => eapply gives_bind; [apply gives_param|intros ? _]
  | |- gives (mbind _ get_registry) _ => eapply gives_bind; [apply gives_registry|intros ? _]
  | |- gives (mbind _ (posix_lift (child_path _ _))) _ => eapply gives_bind; [apply gives_child|intros ? _]
  | |- gives (mbind _ (posix_lift (path_of _ _))) _ => eapply gives_bind; [apply gives_path_of|intros ? _]
  | |- gives (mbind _ (dir_names _ _)) _ =>
      eapply gives_bind; [by apply gives_dir_names|intros ? _]
  | |- gives (mbind _ (ask (fs_len _))) _ => idtac
  | |- gives (mbind _ (ask (fs_modified _))) _ => idtac
  | |- gives (mbind _ (ask (fs_read _ _ _))) _ => idtac
  | |- gives (mbind _ (ask _)) _ =>
      eapply gives_bind; [by apply (gives_ask _ (fun _ => True))|intros ? _]
  | |- gives (posix_lift (Err _)) _ => by apply gives_posix
  | |- gives (number_reply _) _ => by apply gives_number_reply
  | |- gives (if ?b then _ else _) _ => destruct b eqn:?; breflect; subst
  end.

(** a size that is reported when the operation succeeds *)
Lemma gives_size index (m : FM (option Z)) e :
  ftp_returns index = RetValue TVUnsigned -> 0 < e < 256 ->
  gives m (fun o => forall n, o = Some n -> 0 <= n) ->
  gives (len ← m; len ← posix_lift (ok_or len e); mret (vu len)) (reply_typed index).
Proof.
  intros Hi He Hm. eapply gives_bind; [exact Hm|]. intros o Ho.
  apply (gives_bind _ _ (fun n => 0 <= n)); [by apply gives_ok_or|]. intros n Hn. by apply gives_vu.
Qed.

Lemma gives_boolean index (b : bool) : ftp_returns index = RetValue TBool ->
  gives (mret (boolean b)) (reply_typed index).
Proof. intros Hi. apply gives_ret. by exists TBool. Qed.

Lemma gives_attributes index path file : 1 <= index <= 11 ->
  gives (serve_attributes index path file) (reply_typed index).
Proof.
  intros Hi. unfold serve_attributes. give; try (by apply gives_boolean); try (by apply gives_vu).
  - apply gives_ret. exists TS8. split; [done|]. cbn. unfold in_i. repeat case_match; lia.
  - by apply gives_ret.
  - apply gives_vu; [done|lia].
  - apply gives_size; [done..|]. apply gives_ask. intros f n. apply host_len.
  - eapply gives_bind; [apply gives_child_numbers|]. intros vs Hvs. apply gives_ret.
    exists (TArray TVUnsigned). by split.
  - eapply gives_bind; [by apply (gives_ok_or _ _ (fun _ => True))|]. intros name _.
    by apply gives_number_reply.
  - assert (index = 11) as -> by lia.
    eapply gives_bind; [apply (gives_ask _ (fun o => forall n, o = Some n -> 0 <= n));
      intros f n; apply host_modified|].
    intros o Ho. apply gives_vu; [done|]. destruct o as [n|]; [by apply Ho|done].
Qed.

Lemma gives_read file : gives (serve_read file) (reply_typed 20).
Proof.
  unfold serve_read. give.
  eapply gives_bind; [apply (gives_ask _ (fun o => forall d, o = Some d -> bytes d));
    intros f d; apply host_bytes|]. intros o Ho.
  apply (gives_bind _ _ bytes); [by apply gives_ok_or|]. intros d Hd. apply gives_ret. by exists TBytes.
Qed.

Lemma gives_create index path file : index = 30 \/ index = 31 ->
  gives (serve_create index path file) (reply_typed index).
Proof.
  intros Hi. assert (ftp_returns index = RetValue TVUnsigned) by (by destruct Hi as [-> | ->]).
  unfold serve_create. give. eapply gives_bind; [by apply (gives_change _ (fun _ => True))|].
  intros created _. give.
Qed.

Lemma gives_modify index file : index ∈ [32; 33; 34; 35; 40; 41] ->
  gives (serve_modify index file) (reply_typed index).
Proof.
  intros Hi. unfold serve_modify. give.
  - eapply gives_bind; [by apply (gives_change _ (fun _ => True))|]. intros ok _. by apply gives_boolean.
  - eapply gives_bind; [by apply (gives_change _ (fun _ => True))|]. intros ok _. by apply gives_boolean.
  - by apply gives_ret.
  - by apply gives_ret.
  - apply gives_size; [done..|]. apply gives_change. intros f n Hn.
    pose proof (host_set_len file (default 0 (try_u 64 a)) f) as H.
    destruct (fs_set_len _ _ f) as [o f']. cbn in Hn. by subst.
  - assert (index = 41) as -> by set_solver.
    apply gives_size; [done|by case_match|]. apply gives_change. intros f n Hn.
    match type of Hn with (fs_write ?p ?pos ?d f).1 = _ => pose proof (host_write p pos d f) as H end.
    destruct (fs_write _ _ _ f) as [o f']. cbn in Hn. by subst.
Qed.

Lemma gives_serve index : index ∈ FUNCTIONS -> gives (ftp_serve index) (reply_typed index).
Proof.
  intros Hi. unfold ftp_serve. cbv zeta. give.
  - by apply gives_attributes.
  - apply gives_read.
  - apply gives_create. lia.
  - apply gives_modify. by eapply bool_decide_eq_true_1.
  - apply gives_internal.
Qed.

End Gives.

(** ** Lemmas: the server *)

Section ServerLemmas.
Context {NB : NumBigint} {F : Type} {FS : FileSystem F} {HF : HostFiles F}.

(** a call of the service: no panic, and the registry only grows *)
Lemma ftp_call_keeps index params (st : FileRegistry * F) : registry_ok st.1 -> reader_inv params ->
  exists call params' st', ftp_call index (params, st) = Some (call, (params', st'))
    /\ registry_ok st'.1 /\ grown_from st.1 st'.1.
Proof.
  destruct st as [r f]. intros Hr Hp. unfold ftp_call.
  case_bool_decide as Hi; cbn [negb]; [|by do 3 eexists].
  destruct (keeps_serve host_names index params r f Hr Hp)
    as (out & params' & r' & f' & -> & Hout & Hr' & Hg & _).
  destruct out as [reply|e|]; [| |done]; by do 3 eexists.
Qed.

(** what the bridge of [s] may put out for a packet *)
Definition output_ok (s : FtpServer F) (raw : list Z) (outs : list bridge_output) : Prop :=
  outs = []
  \/ exists req, parsed_new raw = Ok req
     /\ (ftp_address s = None \/ ftp_address s = Some (to req))
     /\ take (length (ftp_path s)) (payload req) = ftp_path s
     /\ bridge_outputs_ok req (length (ftp_path s)) outs.

Lemma ftp_feed_keeps raw (s : FtpServer F) : registry_ok (ftp_state s).1 ->
  exists outs st', ftp_feed raw s = (Some (Ok outs), with_state st' s) /\ output_ok s raw outs
    /\ registry_ok st'.1 /\ grown_from (ftp_state s).1 st'.1.
Proof.
  intros Hr. unfold ftp_feed. destruct (feed_packet_cases (ftp_bridge s) raw) as (outs & -> & Hok).
  exists outs. destruct (ftp_request s raw) as [[index params]|] eqn:Hq.
  - destruct (ftp_call_keeps index params (ftp_state s) Hr) as (c & p' & st' & -> & Hr' & Hg).
    { unfold ftp_request in Hq. destruct (parsed_new raw) as [req| |]; [|done..].
      destruct (match ftp_address s with Some _ => _ | None => _ end); [done|].
      destruct (negb _); [done|]. destruct (payload req !! _); [|done]. injection Hq as _ <-.
      unfold reader_inv. cbn. lia. }
    by exists st'.
  - exists (ftp_state s). destruct s. by split_and!.
Qed.

Lemma ftp_run_keeps raws (s : FtpServer F) : registry_ok (ftp_state s).1 ->
  exists outs st', ftp_run raws s = (Some ∘ Ok <$> outs, with_state st' s)
    /\ Forall2 (output_ok s) raws outs
    /\ registry_ok st'.1 /\ grown_from (ftp_state s).1 st'.1.
Proof.
  revert s. induction raws as [|raw t IH]; intros s Hr; cbn [ftp_run].
  { exists [], (ftp_state s). destruct s. by split_and!. }
  destruct (ftp_feed_keeps raw s Hr) as (o & st1 & -> & Ho & Hr1 & Hg1).
  destruct (IH (with_state st1 s) Hr1) as (outs & st2 & -> & Hos & Hr2 & Hg2).
  exists (o :: outs), st2. split_and!; [done|by constructor|done|by eapply grown_trans].
Qed.

(** a request that reaches the server *)
Lemma ftp_feed_reached (s : FtpServer F) req idx enc call params' st' :
  reaches (ftp_bridge s) req idx enc ->
  ftp_call idx (from_slice enc, ftp_state s) = Some (call, (params', st')) ->
  ftp_feed (raw_packet req) s = (feed_packet (ftp_bridge s) (raw_packet req), with_state st' s)
  /\ service_call (service (ftp_bridge s)) idx (from_slice enc) = (call, params').
Proof.
  intros (_ & _ & Htg & Hp & Hn) Hc. split; [|by cbn; rewrite Hc].
  unfold ftp_feed, ftp_request. rewrite Hn.
  assert (match ftp_address s with Some addr => negb (addr =? to req) | None => false end = false) as ->.
  { cbn in Htg. destruct Htg as [->| ->]; [done|]. by rewrite Z.eqb_refl. }
  cbn in Hp.
  assert (starts_with (payload req) (ftp_path s) = true) as ->.
  { apply bool_decide_true. by rewrite Hp, take_app_length. }
  rewrite Hp, lookup_app_r, Nat.sub_diag by lia. cbn [negb lookup list_lookup app mbind option_bind].
  replace (drop (length (ftp_path s) + 1) (ftp_path s ++ idx :: enc)) with enc; [by rewrite Hc|].
  change (idx :: enc) with ([idx] ++ enc). rewrite app_assoc, drop_app_length'; [done|].
  rewrite length_app. cbn. lia.
Qed.

(** the answers to calls with an error number are read back *)
Lemma extract_errno f errno : fn_posix f = true -> 0 < errno < 256 ->
  extract_or_throw_result f [errno] = Some (Err (Posix errno)).
Proof.
  intros Hf He. unfold extract_or_throw_result. rewrite Hf. cbn.
  by rewrite (proj2 (Z.eqb_neq errno 0)) by lia.
Qed.

Lemma extract_void f : fn_posix f = true -> fn_ret f = RetVoid ->
  extract_or_throw_result f [0] = Some (Ok None).
Proof. intros Hf Hr. unfold extract_or_throw_result. rewrite Hf, Hr. done. Qed.

(** a client that calls a function of the service over the bus *)
Definition client_ready (send : list Z -> option str) (d : UartBusDevice) (s : FtpServer F) (b : Inner) : Prop :=
  bus_inv b /\ in_i 32 (from_address b) /\ in_i 32 (device_address d)
  /\ (forall packet, send packet = None) /\ (0 < retry_count d)%nat
  /\ (ftp_address s = None \/ ftp_address s = Some (device_address d))
  /\ (forall j u, j ∈ pending_requests b -> transactions b !! j = Some u -> tx_to u <> device_address d).

Lemma remote_call_eq send d f params enc (s : FtpServer F) b call params' st' :
  client_ready send d s b ->
  (forall a, append_elements params a = (Ok tt, mkAssembler (buffer a ++ enc))) ->
  ftp_call (fn_index f) (from_slice enc, ftp_state s) = Some (call, (params', st')) ->
  exists raw (req := mkPacket raw (from_address b) (device_address d)
                       ((ftp_path s ++ [fn_index f]) ++ enc) None None),
    reaches (ftp_bridge s) req (fn_index f) enc
    /\ service_call (service (ftp_bridge s)) (fn_index f) (from_slice enc) = (call, params')
    /\ remote_call send d f params s b
       = (e ← Device.call send (fun _ => responses (feed_packet (ftp_bridge s) raw)) d (ftp_path s) f params b;
          Some (e, with_state st' s)).
Proof.
  intros (_ & Hfa & Hda & _ & _ & Htg & _) Hw Hc. unfold remote_call. rewrite Hw.
  cbn [assembler_new buffer app].
  destruct (request_reaches b d (ftp_bridge s) (fn_index f) enc Hfa Hda Htg)
    as (packet & raw & Hpk & Hvalid & Hreach).
  destruct (ftp_feed_reached s _ _ _ _ _ _ Hreach Hc) as [Hfeed Hserve].
  exists raw. split; [done|]. split; [done|].
  cbn [ftp_bridge bridge_path] in Hpk. rewrite Hpk, Hvalid. cbn [mbind option_bind].
  cbn [raw_packet] in Hfeed. by rewrite Hfeed.
Qed.

(** what the declared function [f] makes of the result of a call *)
Definition declared (f : UbFunction) (out : res ServiceError ServiceReply) : Prop :=
  match out with
  | Ok (ReplyValue v) => exists ty, fn_ret f = RetValue ty /\ has_type v ty /\ at_end ty = true
  | Ok ReplyVoid => fn_ret f = RetVoid
  | Err (ErrPosix errno) => 0 < errno < 256
  | Err (Internal _) => True
  | _ => False
  end.

Definition as_result (out : res ServiceError ServiceReply) : option (ServiceReply + ServiceError) :=
  match out with Ok reply => Some (inl reply) | Err e => Some (inr e) | Panic => None end.

(** the call of a function of a bridge with an error number, as the client sees it *)
Lemma posix_call_seen send d br raw f params enc out result s' b
    (req := mkPacket raw (from_address b) (device_address d)
              ((bridge_path br ++ [fn_index f]) ++ enc) None None) :
  bus_inv b -> in_i 32 (from_address b) -> in_i 32 (device_address d) ->
  (forall packet, send packet = None) -> (0 < retry_count d)%nat ->
  (forall j u, j ∈ pending_requests b -> transactions b !! j = Some u -> tx_to u <> device_address d) ->
  (forall a, append_elements params a = (Ok tt, mkAssembler (buffer a ++ enc))) ->
  fn_posix f = true -> fn_retransmittable f = false -> is_no_return (fn_ret f) = false ->
  reaches br req (fn_index f) enc -> as_result out = Some result ->
  service_call (service br) (fn_index f) (from_slice enc) = (Some (call_posix result), s') ->
  declared f out ->
  exists r b', call send (fun _ => responses (feed_packet br raw)) d (bridge_path br) f params b
               = Some (r, b', 1%nat)
    /\ seen_as out r /\ pending_requests b' = pending_requests b.
Proof.
  intros Hinv Hfa Hda Hsend Hretry Hno Hw Hpx Hre Hnr Hreach Hres Hs Hd.
  assert (forall vs e r, reply_values (call_posix result) = Some vs ->
    (forall a, append_elements vs a = (Ok tt, mkAssembler (buffer a ++ e))) ->
    extract_or_throw_result f e = Some r ->
    exists b', call send (fun _ => responses (feed_packet br raw)) d (bridge_path br) f params b
               = Some (r, b', 1%nat) /\ pending_requests b' = pending_requests b) as Hans.
  { intros vs e r Hvs He Hx.
    destruct (bridge_replies _ _ _ _ _ _ _ _ Hreach Hs Hvs He) as (wire & Hf & Ha).
    cbn [raw_packet req] in Hf.
    destruct (call_answered send (fun _ => responses (feed_packet br raw)) d br raw f params enc e wire b
      Hinv Hfa Hda Hsend Hretry Hnr Hw Hno Ha) as (b' & -> & Hp); [by rewrite Hf|].
    exists b'. by rewrite Hx. }
  destruct out as [[| |v|next]|[errno|msg]|]; cbn in Hd, Hres; try done; injection Hres as <-.
  - destruct (Hans [VU8 0] [0] (Ok None)) as (b' & Hc & Hp); [done|done|by apply extract_void|].
    by exists (Ok None), b'.
  - destruct Hd as (ty & Hret & Hv & Hend). destruct (codec_exists v ty Hv Hend) as (encv & Hcodec).
    destruct (Hans [VU8 0; v] (value_answer true encv) (Ok (Some v))) as (b' & Hc & Hp); [done| | |by exists (Ok (Some v)), b'].
    + apply (append_reply_value true), Hcodec.
    + rewrite <- Hpx. by eapply extract_value.
  - destruct (Hans [VU8 errno] [errno] (Err (Posix errno))) as (b' & Hc & Hp); [done|done|by apply extract_errno|].
    by exists (Err (Posix errno)), b'.
  - destruct (bridge_silent _ _ _ _ _ _ Hreach Hs) as (outs & Hf & Ho); [done|done|].
    destruct (call_unanswered send (fun _ => responses (feed_packet br raw)) d (bridge_path br) f params enc b)
      as (m & b' & Hc & Hp); [done..| |].
    + cbn [raw_packet req] in Hf. rewrite Hf. cbn. clear - Ho. 
      induction outs as [|[w|t] outs IH]; [done|done|by apply IH].
    + exists (Err (Transaction m)), b'. split; [done|]. split; [by exists m|done].
Qed.

(** the types of the service fit at the end of a packet *)
Lemma ftp_declared index out : index <> 4 ->
  match out with
  | Ok reply => reply_typed index reply
  | Err (ErrPosix e) => 0 < e < 256
  | Err _ => True
  | Panic => False
  end -> declared (ftp_function index) out.
Proof.
  intros H4. destruct out as [[| |v|next]|[errno|msg]|]; cbn; try done.
  intros (ty & Hret & Hv). exists ty. split; [done|]. split; [done|].
  unfold ftp_returns in Hret. repeat case_match; simplify_eq; done.
Qed.

Lemma ftp_no_return index : is_no_return (ftp_returns index) = false.
Proof. unfold ftp_returns. by repeat case_match. Qed.

Lemma remote_outcome send d index params enc (s : FtpServer F) b :
  client_ready send d s b -> registry_ok (ftp_state s).1 -> index ∈ FUNCTIONS -> index <> 4 ->
  (forall a, append_elements params a = (Ok tt, mkAssembler (buffer a ++ enc))) ->
  exists out params' st' r b',
    ftp_serve index (from_slice enc, ftp_state s) = (out, (params', st'))
    /\ remote_call send d (ftp_function index) params s b = Some (r, b', 1%nat, with_state st' s)
    /\ seen_as out r /\ pending_requests b' = pending_requests b.
Proof.
  intros Hbus Hr Hi H4 Hw. pose proof (gives_serve index Hi (from_slice enc, ftp_state s)) as Hy.
  destruct (ftp_call_keeps index (from_slice enc) (ftp_state s) Hr ltac:(unfold reader_inv; cbn; lia))
    as (c & params' & st' & Hc & _).
  destruct (remote_call_eq send d (ftp_function index) params enc s b c params' st' Hbus Hw Hc)
    as (raw & Hreach & Hs & Hrem).
  destruct Hbus as (Hinv & Hfa & Hda & Hsend & Hretry & _ & Hno).
  unfold ftp_call in Hc. rewrite bool_decide_true in Hc by done. cbn [negb] in Hc.
  destruct (ftp_serve index (from_slice enc, ftp_state s)) as [out s2]. cbn [fst] in Hy.
  assert (exists result, as_result out = Some result /\ c = Some (call_posix result)
          /\ s2 = (params', st')) as (result & Hres & -> & ->)
    by (destruct out; [| |done]; injection Hc as <- <-; by eexists).
  destruct (posix_call_seen send d (ftp_bridge s) raw (ftp_function index) params enc out result params' b)
    as (r & b' & Hcall & Hseen & Hp); [done..|apply ftp_no_return|done|done|done| |].
  { apply ftp_declared; [done|]. by destruct out as [|[]|]. }
  exists out, params', st', r, b'. split; [done|]. rewrite Hrem.
  cbn [ftp_bridge bridge_path] in Hcall. by rewrite Hcall.
Qed.

(** a function that returns a value *)
Lemma remote_value send d index params enc (s : FtpServer F) b v params' st' :
  client_ready send d s b -> registry_ok (ftp_state s).1 -> index ∈ FUNCTIONS -> index <> 4 ->
  (forall a, append_elements params a = (Ok tt, mkAssembler (buffer a ++ enc))) ->
  ftp_serve index (from_slice enc, ftp_state s) = (Ok (ReplyValue v), (params', st')) ->
  exists b', remote_call send d (ftp_function index) params s b
             = Some (Ok (Some v), b', 1%nat, with_state st' s).
Proof.
  intros Hb Hr Hi H4 Hw Hs.
  destruct (remote_outcome send d index params enc s b Hb Hr Hi H4 Hw)
    as (out & p' & st2 & r & b' & Hs' & Hrem & Hseen & _).
  rewrite Hs in Hs'. injection Hs' as <- <- <-. cbn in Hseen. subst r. by exists b'.
Qed.

End ServerLemmas.

(** ** Lemmas: writing and reading a file *)

Section WriteRead.
Context {NB : NumBigint} {F : Type} {FS : FileSystem F}.

(** a parameter that was written is read back *)
Lemma param_codec v ty e pre post (st : FileRegistry * F) : codec v ty e ->
  match ty with TStruct _ | TArray _ => False | _ => True end -> delimited ty = true \/ post = [] ->
  param ty (mkReader (pre ++ e ++ post) (length pre), st)
  = (Ok v, (mkReader (pre ++ e ++ post) (length (pre ++ e)), st)).
Proof.
  intros (_ & _ & _ & Hr) Hty Hp. specialize (Hr (S (length e)) pre post Hp ltac:(lia)).
  unfold param, read_param.
  replace (read_type 1 ty) with (read_type (S (length e)) ty) by (by destruct ty).
  by rewrite Hr, length_app.
Qed.

Lemma number_codec v ty e pre post (st : FileRegistry * F) :
  codec (match ty with TVSigned => VVSigned (VSigned_new v) | _ => VVUnsigned (VUnsigned_new v) end) ty e ->
  match ty with TVSigned | TVUnsigned => True | _ => False end ->
  read_number ty (mkReader (pre ++ e ++ post) (length pre), st)
  = (Ok v, (mkReader (pre ++ e ++ post) (length (pre ++ e)), st)).
Proof.
  intros Hc Hty. unfold read_number, mbind, SM_bind.
  rewrite (param_codec _ ty e pre post st Hc) by (destruct ty; (done || by left)). by destruct ty.
Qed.

Lemma bytes_codec data : bytes data -> codec (VBytes data) TBytes data.
Proof.
  intros Hd. destruct (codec_exists (VBytes data) TBytes Hd eq_refl) as (e & Hc).
  replace data with e at 2; [done|]. destruct Hc as (_ & Hw & _). specialize (Hw assembler_new).
  cbn in Hw. by injection Hw as <-.
Qed.

Lemma unsigned_codec v : 0 <= v -> exists e, codec (VVUnsigned (VUnsigned_new v)) TVUnsigned e.
Proof. intros Hv. by apply codec_exists. Qed.

Lemma append_three v1 v2 v3 t1 t2 t3 e1 e2 e3 : codec v1 t1 e1 -> codec v2 t2 e2 -> codec v3 t3 e3 ->
  forall a, append_elements [v1; v2; v3] a = (Ok tt, mkAssembler (buffer a ++ e1 ++ e2 ++ e3)).
Proof.
  intros H1 H2 H3. apply append_all_cons; [apply H1|]. apply append_all_cons; [apply H2|].
  apply append_one, H3.
Qed.

Context (r : FileRegistry) (n : nat) (path : str).
Context (Hpath : paths r !! n = Some path) (Hn : Z.of_nat n < 2 ^ 64).

Lemma path_of_number : path_of r (Z.of_nat n) = Ok path.
Proof.
  unfold path_of. rewrite try_u_Some by (unfold in_u; lia). cbn. by rewrite Nat2Z.id, Hpath.
Qed.

(** a function of the file with this number *)
Lemma serve_numbered index e rest (f : F) : codec (VVUnsigned (VUnsigned_new (Z.of_nat n))) TVUnsigned e ->
  ftp_serve index (from_slice (e ++ rest), (r, f))
  = (if (1 <=? index) && (index <=? 11) then serve_attributes index path (fs_path r path)
     else if index =? 20 then serve_read (fs_path r path)
     else if (index =? 30) || (index =? 31) then serve_create index path (fs_path r path)
     else if bool_decide (index ∈ [32; 33; 34; 35; 40; 41]) then serve_modify index (fs_path r path)
     else sm_lift (Err (Internal ($"no function " ++ show_nat index))))
      (mkReader (e ++ rest) (length e), (r, f)).
Proof.
  intros Hc. unfold ftp_serve, from_slice, reader_new. unfold mbind at 1, SM_bind at 1.
  pose proof (number_codec _ TVUnsigned e [] rest (r, f) Hc I) as Hr. cbn [app length] in Hr. rewrite Hr.
  unfold mbind, SM_bind, get_registry. cbn [fst snd]. unfold posix_lift, sm_lift.
  by rewrite path_of_number.
Qed.

(** function 41: writing at a position *)
Lemma serve_write e1 e2 data pos len (f f' : F) : 0 <= pos < 2 ^ 64 ->
  codec (VVUnsigned (VUnsigned_new (Z.of_nat n))) TVUnsigned e1 ->
  codec (VVSigned (VSigned_new pos)) TVSigned e2 -> codec (VBytes data) TBytes data ->
  fs_write (fs_path r path) (Some pos) data f = (Some len, f') ->
  exists params', ftp_serve 41 (from_slice (e1 ++ e2 ++ data), (r, f)) = (Ok (vu len), (params', (r, f'))).
Proof.
  intros Hpos H1 H2 H3 Hw. rewrite serve_numbered by done.
  change (exists params', (position ← read_number TVSigned;
    v ← param TBytes;
    len ← change (fs_write (fs_path r path)
      (if position <? 0 then None else Some (default 0 (try_u 64 position)))
      (match v with VBytes data => data | _ => [] end));
    len ← posix_lift (ok_or len (if position <? 0 then EACCES else ENOENT));
    mret (vu len)) (mkReader (e1 ++ e2 ++ data) (length e1), (r, f)) = (Ok (vu len), (params', (r, f')))).
  unfold mbind, SM_bind. rewrite (number_codec pos TVSigned e2 e1 data (r, f) H2) by done.
  pose proof (param_codec (VBytes data) TBytes data (e1 ++ e2) [] (r, f) H3 I ltac:(by right)) as Hp.
  rewrite app_nil_r, <- app_assoc in Hp. rewrite Hp.
  rewrite (proj2 (Z.ltb_ge pos 0)), try_u_Some by (unfold in_u; lia). unfold change. cbn [default id].
  rewrite Hw. by eexists.
Qed.

(** function 20: reading at a position *)
Lemma serve_read_part e1 e2 e3 pos len part (f : F) : 0 <= pos < 2 ^ 64 -> 0 <= len <= MAX_FILE_PART ->
  codec (VVUnsigned (VUnsigned_new (Z.of_nat n))) TVUnsigned e1 ->
  codec (VVUnsigned (VUnsigned_new pos)) TVUnsigned e2 ->
  codec (VVUnsigned (VUnsigned_new len)) TVUnsigned e3 ->
  fs_read (fs_path r path) pos len f = Some part ->
  exists params', ftp_serve 20 (from_slice (e1 ++ e2 ++ e3), (r, f))
                  = (Ok (ReplyValue (VBytes part)), (params', (r, f))).
Proof.
  intros Hpos Hlen H1 H2 H3 Hr. rewrite serve_numbered by done.
  change (exists params', serve_read (fs_path r path) (mkReader (e1 ++ e2 ++ e3) (length e1), (r, f))
    = (Ok (ReplyValue (VBytes part)), (params', (r, f)))).
  unfold serve_read, mbind, SM_bind. rewrite (number_codec pos TVUnsigned e2 e1 e3 (r, f) H2) by done.
  pose proof (number_codec len TVUnsigned e3 (e1 ++ e2) [] (r, f) H3 I) as Hp.
  rewrite app_nil_r, <- app_assoc in Hp. rewrite Hp.
  unfold MAX_FILE_PART in *. rewrite !try_u_Some by (unfold in_u; lia). cbn [default id].
  rewrite (proj2 (Z.ltb_ge 4096 len)) by lia. unfold ask. cbn [snd]. rewrite Hr. by eexists.
Qed.

End WriteRead.

(** ** Properties *)

Section Properties.
Context {NB : NumBigint} {F : Type} {FS : FileSystem F} {HF : HostFiles F}.

(** C35: The file server on the bus.  Whatever packets arrive, one after the
    other, and whatever the operating system answers, feeding them never panics;
    each gets at most one response, a valid packet back to its sender, and only
    when it was sent to the address and the path of the server; every file keeps
    its number, and every numbered path, also of files that were found or created
    meanwhile, stays inside the served directory. *)
Theorem ftp_server_safe raws (s : FtpServer F) : registry_ok (ftp_state s).1 ->
  exists outs st', ftp_run raws s = (Some ∘ Ok <$> outs, with_state st' s)
    /\ Forall2 (output_ok s) raws outs
    /\ paths (ftp_state s).1 `prefix_of` paths st'.1
    /\ forall n path, paths st'.1 !! n = Some path -> inside (root (ftp_state s).1) (fs_path st'.1 path).
Proof.
  intros Hr. destruct (ftp_run_keeps raws s Hr) as (outs & st' & Hrun & Hok & [Hn Hs] & [Hroot Hg]).
  exists outs, st'. split_and!; [done..|]. intros n path Hp. rewrite <- Hroot.
  apply fs_path_inside. by eapply Forall_lookup_1.
Qed.



End Properties.

(** ** Witnesses *)

(** a directory with one file, served at path 32 of address 16 *)
Definition notes_registry : FileRegistry :=
  mkRegistry $"/srv" [[47]; $"/notes"] (<[ $"/notes" := 1%nat ]> {[ [47] := O ]}).
Definition notes_mem : mem :=
  mkMem (<[ $"/srv/notes" := Some [1; 2; 3] ]> {[ $"/srv" := None ]})
        {[ $"/srv/.ubfs" := [url_encode [47]; url_encode $"/notes"] ]}.
Definition notes_server : FtpServer mem := mkFtpServer (Some 16) [32] (notes_registry, notes_mem).

Lemma notes_ok : registry_ok notes_registry.
Proof.
  split.
  - change notes_registry with (mkRegistry (root fresh_registry) (paths fresh_registry ++ [$"/notes"])
      (<[ $"/notes" := length (paths fresh_registry) ]> (by_path fresh_registry))).
    apply numbered_add; [apply fresh_ok|done].
  - constructor; [by left|]. constructor; [|constructor]. right.
    exists [ $"notes" ]. split; [done|]. split; [|done]. by apply (bool_decide_eq_true_1 _).
Qed.

Lemma notes_bus : client_ready (fun _ => None) (device_new 16) notes_server (build 63).
Proof.
  split_and!; [apply build_inv|done..|cbn; lia|by right|]. intros j u Hj. by apply not_elem_of_nil in Hj.
Qed.

Lemma pad_to_length n d : length (pad_to n d) = Z.to_nat n.
Proof. unfold pad_to. rewrite length_app, length_take, length_replicate. lia. Qed.

Lemma mem_write_read p pos data (m m' : mem) len : 0 <= pos -> bytes data ->
  fs_write p (Some pos) data m = (Some len, m') -> fs_read p pos (Z.of_nat (length data)) m' = Some data.
Proof.
  intros Hpos Hd. cbn. unfold mem_write. destruct (mem_data p m) as [l|]; [|done]. intros [= _ <-].
  unfold mem_data, mem_set. cbn [entries]. rewrite lookup_insert_eq. cbn. f_equal.
  rewrite Nat2Z.id, drop_app_length' by (by rewrite pad_to_length). rewrite take_app_length.
  rewrite <- (list_fmap_id data) at 2. apply list_fmap_ext. intros i x Hx. apply as_u_small.
  by eapply Forall_lookup_1 in Hd.
Qed.

(** creating a file, noise, and a request for another address *)
Lemma ftp_server_safe_witness :
  exists outs st', ftp_run (NB := num_bigint_ref) [[16; 63; 32; 31; 0; 97; 0]; [255]; [17; 63; 32; 1; 0]]
                     notes_server = (Some ∘ Ok <$> outs, with_state st' notes_server)
    /\ paths notes_registry `prefix_of` paths st'.1
    /\ forall n path, paths st'.1 !! n = Some path -> inside $"/srv" (fs_path st'.1 path).
Proof.
  destruct (@ftp_server_safe num_bigint_ref mem mem_fs mem_host
    [[16; 63; 32; 31; 0; 97; 0]; [255]; [17; 63; 32; 1; 0]] notes_server notes_ok)
    as (outs & st' & H1 & _ & H2 & H3).
  exists outs, st'. split; [exact H1|]. split; [exact H2|exact H3].
Defined.


